(** * Stalker task model: aggregate caches, time logs and validators

    A shallow embedding of [stalker/models/task.py].  Python objects live
    in an arena keyed by identity (a [gmap nat Task]); attribute reads and
    writes that the source performs through SQLAlchemy properties are
    written out as explicit state passing in a small state-and-exception
    monad.  Recursion through [parent] or [children] links is driven by a
    fuel argument; running out of fuel is Python's [RecursionError].

    Validators ([@validates]) run before the value is stored, and so do
    the [set] and [remove] listeners; a relationship declared with
    [back_populates] updates the other side after the validator.  Times
    are whole seconds, integers are unbounded, and arguments are of the
    type their validator expects unless the validator is about the type
    itself ([_validate_priority]). *)

From Stdlib Require Import ZArith Lia List Ascii String.
From stdpp Require Import base option list gmap fin_maps.

Local Open Scope Z_scope.

(** ** Exceptions and the state monad *)

Inductive exn : Type :=
| TypeError
| ValueError
| OverflowError
| RecursionError
| LookupError
| OverBookedError (self_log other_log : nat)
| CircularDependencyError (relation : string)
| OtherException (class_name : string).

Inductive res (A : Type) : Type :=
| Ok (a : A)
| Raise (e : exn).

Arguments Ok {A} a.
Arguments Raise {A} e.

(** ** Data model *)

(** [defaults.datetime_units]: 'min', 'h', 'd', 'w', 'm', 'y'. *)
Inductive ScheduleUnit : Type := UMin | UHour | UDay | UWeek | UMonth | UYear.

Record Task : Type := mkTask {
  parent : option nat;
  children : list nat;
  depends : list nat;
  resources : list nat;
  time_logs : list nat;
  schedule_timing : Z;
  schedule_unit : ScheduleUnit;
  schedule_constraint : nat;
  _schedule_seconds : option Z;
  _total_logged_seconds : option Z;
  _start : Z;
  _end : Z;
  _duration : Z;
  priority : Z
}.

(** A [TimeLog]: times are seconds on the [datetime] axis. *)
Record TimeLog : Type := mkTimeLog {
  tl_task : option nat;
  tl_resource : option nat;
  tl_start : Z;
  tl_end : Z
}.

(** Values of the project configuration ([stalker.defaults]) read by the
    source.  The configuration module is not part of the sources at hand,
    so its values are carried as a record; with them goes [sys.maxint] of
    the interpreter, the largest [int] of Python 2. *)
Record Config : Type := mkConfig {
  unit_seconds : ScheduleUnit -> Z;
  datetime_units_to_timedelta : ScheduleUnit -> option Z;
  task_priority : Z;
  sys_maxint : Z
}.

Abbreviation Heap := (gmap nat Task).
Abbreviation Logs := (gmap nat TimeLog).

Definition M (A : Type) : Type := Heap -> res (A * Heap).

Definition ret {A} (a : A) : M A := fun h => Ok (a, h).
Definition raise {A} (e : exn) : M A := fun _ => Raise e.
Definition bind {A B} (m : M A) (k : A -> M B) : M B :=
  fun h => match m h with
           | Ok (a, h') => k a h'
           | Raise e => Raise e
           end.

Declare Scope py_scope.
Delimit Scope py_scope with py.
Notation "x <- c ;; k" := (bind c (fun x => k))
  (at level 100, c at next level, right associativity) : py_scope.
Notation "c ;;; k" := (bind c (fun _ => k))
  (at level 100, right associativity) : py_scope.
Local Open Scope py_scope.

(** Attribute access on the object with identity [t]. *)
Definition get_task (t : nat) : M Task :=
  fun h => match h !! t with
           | Some T => Ok (T, h)
           | None => Raise LookupError
           end.

Definition modify_task (t : nat) (f : Task -> Task) : M unit :=
  fun h => match h !! t with
           | Some T => Ok (tt, <[t := f T]> h)
           | None => Raise LookupError
           end.

(** Attribute stores: the task with one attribute replaced. *)
Definition set_schedule_cache (v : option Z) (T : Task) : Task :=
  mkTask
    (parent T) (children T) (depends T) (resources T) (time_logs T)
    (schedule_timing T) (schedule_unit T) (schedule_constraint T) v
    (_total_logged_seconds T) (_start T) (_end T) (_duration T) (priority T).

Definition set_logged_cache (v : option Z) (T : Task) : Task :=
  mkTask
    (parent T) (children T) (depends T) (resources T) (time_logs T)
    (schedule_timing T) (schedule_unit T) (schedule_constraint T)
    (_schedule_seconds T) v (_start T) (_end T) (_duration T) (priority T).

Definition set_parent (v : option nat) (T : Task) : Task :=
  mkTask
    v (children T) (depends T) (resources T) (time_logs T)
    (schedule_timing T) (schedule_unit T) (schedule_constraint T)
    (_schedule_seconds T) (_total_logged_seconds T) (_start T) (_end T)
    (_duration T) (priority T).

Definition set_children (v : list nat) (T : Task) : Task :=
  mkTask
    (parent T) v (depends T) (resources T) (time_logs T) (schedule_timing T)
    (schedule_unit T) (schedule_constraint T) (_schedule_seconds T)
    (_total_logged_seconds T) (_start T) (_end T) (_duration T) (priority T).

Definition set_depends (v : list nat) (T : Task) : Task :=
  mkTask
    (parent T) (children T) v (resources T) (time_logs T)
    (schedule_timing T) (schedule_unit T) (schedule_constraint T)
    (_schedule_seconds T) (_total_logged_seconds T) (_start T) (_end T)
    (_duration T) (priority T).

Definition set_resources (v : list nat) (T : Task) : Task :=
  mkTask
    (parent T) (children T) (depends T) v (time_logs T) (schedule_timing T)
    (schedule_unit T) (schedule_constraint T) (_schedule_seconds T)
    (_total_logged_seconds T) (_start T) (_end T) (_duration T) (priority T).

Definition set_time_logs (v : list nat) (T : Task) : Task :=
  mkTask
    (parent T) (children T) (depends T) (resources T) v (schedule_timing T)
    (schedule_unit T) (schedule_constraint T) (_schedule_seconds T)
    (_total_logged_seconds T) (_start T) (_end T) (_duration T) (priority T).

Definition set_schedule (timing : Z) (u : ScheduleUnit) (T : Task) : Task :=
  mkTask
    (parent T) (children T) (depends T) (resources T) (time_logs T) timing u
    (schedule_constraint T) (_schedule_seconds T) (_total_logged_seconds T)
    (_start T) (_end T) (_duration T) (priority T).

Definition set_dates (d : Z * Z * Z) (T : Task) : Task :=
  mkTask
    (parent T) (children T) (depends T) (resources T) (time_logs T)
    (schedule_timing T) (schedule_unit T) (schedule_constraint T)
    (_schedule_seconds T) (_total_logged_seconds T) (fst (fst d))
    (snd (fst d)) (snd d) (priority T).

Definition set_start_field (v : Z) (T : Task) : Task :=
  set_dates (v, _end T, _duration T) T.

Definition set_end_field (v : Z) (T : Task) : Task :=
  set_dates (_start T, v, _duration T) T.

(** [Task.is_container] and [Task.is_leaf]. *)
Definition is_container (T : Task) : bool :=
  negb (Nat.eqb (length (children T)) 0).

Definition is_leaf (T : Task) : bool := negb (is_container T).

(** Python truthiness of an integer-or-None attribute. *)
Definition truthy (v : option Z) : bool :=
  match v with
  | Some z => negb (z =? 0)
  | None => false
  end.

(** Arithmetic on an attribute that may hold [None] raises [TypeError]. *)
Definition as_int (v : option Z) : M Z :=
  match v with
  | Some z => ret z
  | None => raise TypeError
  end.

(** [TimeLog.total_seconds]: [duration.days * 86400 + duration.seconds]. *)
Definition total_seconds (l : TimeLog) : Z := tl_end l - tl_start l.

Section Caches.

Context (cfg : Config).
Context (L : Logs).

(** Modelled from the spec: [ScheduleMixin.to_seconds] is not among the
    sources; the nominal duration of a leaf is its timing counted in its
    unit, with the unit lengths taken from the configuration. *)
Definition to_seconds (timing : Z) (u : ScheduleUnit) : Z :=
  timing * unit_seconds cfg u.

(** The leaf branch of [_total_logged_seconds_getter]: the loop over
    [self.time_logs]. *)
Fixpoint sum_time_logs (ids : list nat) (seconds : Z) : M Z :=
  match ids with
  | [] => ret seconds
  | i :: ids' =>
      match L !! i with
      | Some l => sum_time_logs ids' (seconds + total_seconds l)
      | None => raise LookupError
      end
  end.

(** [Task._schedule_seconds_getter]; [upd] is [update_schedule_info]. *)
Definition schedule_seconds_getter (upd : nat -> M unit) (t : nat)
  : M (option Z) :=
  T <- get_task t ;;
  if is_container T then
    (match _schedule_seconds T with
     | None => upd t
     | Some v => if v <? 0 then upd t else ret tt
     end) ;;;
    T' <- get_task t ;;
    ret (_schedule_seconds T')
  else
    ret (Some (to_seconds (schedule_timing T) (schedule_unit T))).

(** [Task._total_logged_seconds_getter]. *)
Definition total_logged_seconds_getter (upd : nat -> M unit) (t : nat)
  : M (option Z) :=
  T <- get_task t ;;
  if is_leaf T then
    s <- sum_time_logs (time_logs T) 0 ;;
    ret (Some s)
  else
    (match _total_logged_seconds T with
     | None => upd t
     | Some _ => ret tt
     end) ;;;
    T' <- get_task t ;;
    ret (_total_logged_seconds T').

(** The loop body of [update_schedule_info], over [self.children]. *)
Fixpoint sum_children (upd : nat -> M unit) (cs : list nat)
         (total_logged schedule : Z) : M (Z * Z) :=
  match cs with
  | [] => ret (total_logged, schedule)
  | c :: cs' =>
      C <- get_task c ;;
      (if is_container C then upd c else ret tt) ;;;
      s <- schedule_seconds_getter upd c ;;
      schedule' <-
        (if truthy s then
           s' <- schedule_seconds_getter upd c ;;
           v <- as_int s' ;;
           ret (schedule + v)
         else ret schedule) ;;
      l <- total_logged_seconds_getter upd c ;;
      total_logged' <-
        (if truthy l then
           l' <- total_logged_seconds_getter upd c ;;
           v <- as_int l' ;;
           ret (total_logged + v)
         else ret total_logged) ;;
      sum_children upd cs' total_logged' schedule'
  end.

(** [Task.update_schedule_info]. *)
Fixpoint update_schedule_info (fuel : nat) (t : nat) : M unit :=
  match fuel with
  | O => raise RecursionError
  | S f =>
      T <- get_task t ;;
      if is_container T then
        sums <- sum_children (update_schedule_info f) (children T) 0 0 ;;
        modify_task t (set_schedule_cache (Some (snd sums))) ;;;
        modify_task t (set_logged_cache (Some (fst sums)))
      else
        s <- schedule_seconds_getter (update_schedule_info f) t ;;
        modify_task t (set_schedule_cache s) ;;;
        l <- total_logged_seconds_getter (update_schedule_info f) t ;;
        modify_task t (set_logged_cache l)
  end.

(** [Task._schedule_seconds_setter]: the parent is re-based first, then
    the own cache is stored. *)
Fixpoint schedule_seconds_setter (fuel : nat) (t : nat) (seconds : Z)
  : M unit :=
  match fuel with
  | O => raise RecursionError
  | S f =>
      T <- get_task t ;;
      if is_container T then
        (match parent T with
         | Some p =>
             let current_value :=
               if truthy (_schedule_seconds T)
               then default 0 (_schedule_seconds T) else 0 in
             pv <- schedule_seconds_getter (update_schedule_info f) p ;;
             pz <- as_int pv ;;
             schedule_seconds_setter f p (pz - current_value + seconds)
         | None => ret tt
         end) ;;;
        modify_task t (set_schedule_cache (Some seconds))
      else ret tt
  end.

(** [Task._total_logged_seconds_setter]: the own cache is stored first,
    then the parent is re-based. *)
Fixpoint total_logged_seconds_setter (fuel : nat) (t : nat) (seconds : Z)
  : M unit :=
  match fuel with
  | O => raise RecursionError
  | S f =>
      T <- get_task t ;;
      if is_container T then
        let old_value :=
          if truthy (_total_logged_seconds T)
          then default 0 (_total_logged_seconds T) else 0 in
        modify_task t (set_logged_cache (Some seconds)) ;;;
        match parent T with
        | Some p =>
            pv <- total_logged_seconds_getter (update_schedule_info f) p ;;
            pz <- as_int pv ;;
            total_logged_seconds_setter f p (pz - old_value + seconds)
        | None => ret tt
        end
      else ret tt
  end.

(** [Task.remaining_seconds]. *)
Definition remaining_seconds (fuel : nat) (t : nat) : M Z :=
  s <- schedule_seconds_getter (update_schedule_info fuel) t ;;
  l <- total_logged_seconds_getter (update_schedule_info fuel) t ;;
  sz <- as_int s ;;
  lz <- as_int l ;;
  ret (sz - lz).

(** [Task.parents]: the ancestors, root first. *)
Fixpoint parents_loop (fuel : nat) (h : Heap) (task : option nat)
         (acc : list nat) : option (list nat) :=
  match task with
  | None => Some acc
  | Some p =>
      match fuel with
      | O => None
      | S f =>
          match h !! p with
          | Some P => parents_loop f h (parent P) (p :: acc)
          | None => None
          end
      end
  end.

Definition parents (fuel : nat) (h : Heap) (t : nat) : option (list nat) :=
  match h !! t with
  | Some T => parents_loop fuel h (parent T) []
  | None => None
  end.

(** ** Date ranges *)

(** [datetime.datetime.max] and [datetime.datetime.min], in seconds. *)
Definition datetime_max : Z := 253402300799.
Definition datetime_min : Z := -62135596800.

(** Modelled from the spec: [DateRangeMixin._validate_dates] is not among
    the sources.  Given any two of start, end and duration the third is
    computed, and a directly set start or end recomputes the duration,
    which is never negative: when the two dates are out of order the start
    is kept and the end is taken from the duration.  A missing start is the
    current time. *)
Definition _validate_dates (now : Z) (start end_ duration : option Z)
  : Z * Z * Z :=
  let d0 := Z.max 0 (default 0 duration) in
  match start, end_ with
  | Some s, Some e => if e <? s then (s, s + d0, d0) else (s, e, e - s)
  | Some s, None => (s, s + d0, d0)
  | None, Some e =>
      match duration with
      | Some _ => (e - d0, e, d0)
      | None => if e <? now then (now, now, 0) else (now, e, e - now)
      end
  | None, None => (now, now + d0, d0)
  end.

(** [Task._start_setter] and [Task._end_setter], over the function that
    expands the parent. *)
Definition start_setter_with (expand : option nat -> Z -> Z -> M unit)
           (now : Z) (t : nat) (start_in : option Z) : M unit :=
  T <- get_task t ;;
  modify_task t
    (set_dates (_validate_dates now start_in (Some (_end T))
                                (Some (_duration T)))) ;;;
  T' <- get_task t ;;
  expand (parent T') (_start T') (_end T').

Definition end_setter_with (expand : option nat -> Z -> Z -> M unit)
           (now : Z) (t : nat) (end_in : option Z) : M unit :=
  T <- get_task t ;;
  modify_task t
    (set_dates (_validate_dates now (Some (_start T)) end_in
                                (Some (_duration T)))) ;;;
  T' <- get_task t ;;
  expand (parent T') (_start T') (_end T').

(** [Task._expand_dates]. *)
Fixpoint _expand_dates (fuel : nat) (now : Z) (task : option nat)
         (start end_ : Z) : M unit :=
  match task with
  | None => ret tt
  | Some p =>
      match fuel with
      | O => raise RecursionError
      | S f =>
          P <- get_task p ;;
          (if start <? _start P
           then start_setter_with (_expand_dates f now) now p (Some start)
           else ret tt) ;;;
          P' <- get_task p ;;
          (if _end P' <? end_
           then end_setter_with (_expand_dates f now) now p (Some end_)
           else ret tt)
      end
  end.

Definition start_setter (fuel : nat) (now : Z) (t : nat)
           (start_in : option Z) : M unit :=
  start_setter_with (_expand_dates fuel now) now t start_in.

Definition end_setter (fuel : nat) (now : Z) (t : nat)
           (end_in : option Z) : M unit :=
  end_setter_with (_expand_dates fuel now) now t end_in.

(** The loop of [update_task_date_values] over [task.children]. *)
Fixpoint children_range (removed_child : nat) (cs : list nat)
         (start end_ : Z) : M (Z * Z) :=
  match cs with
  | [] => ret (start, end_)
  | c :: cs' =>
      if Nat.eqb c removed_child then
        children_range removed_child cs' start end_
      else
        C <- get_task c ;;
        let start' := if _start C <? start then _start C else start in
        let end' := if end_ <? _end C then _end C else end_ in
        children_range removed_child cs' start' end'
  end.

(** [update_task_date_values], the listener of the [remove] event of
    [Task.children]; the child is still in the list when it runs. *)
Definition update_task_date_values (fuel : nat) (now : Z)
           (task removed_child : nat) : M unit :=
  T <- get_task task ;;
  r <- children_range removed_child (children T) datetime_max datetime_min ;;
  if negb (fst r =? datetime_max) && negb (snd r =? datetime_min) then
    start_setter fuel now task (Some (fst r)) ;;;
    end_setter fuel now task (Some (snd r))
  else
    start_setter fuel now task (Some now).

(** ** Cycle detection *)

(** The two structural relations of a task. *)
Inductive Relation : Type := RChildren | RDepends.

Definition relation_name (r : Relation) : string :=
  match r with
  | RChildren => "children"
  | RDepends => "depends"
  end.

Definition related (r : Relation) (T : Task) : list nat :=
  match r with
  | RChildren => children T
  | RDepends => depends T
  end.

(** Modelled from the spec: [check_circular_dependency] is imported from
    [stalker.models] and is not among the sources.  Before an edge to
    [entity] is committed, [other_entity] must not already be reachable
    from [entity] by a traversal of the named relation; otherwise a cycle
    error naming the relation is raised. *)
Fixpoint reaches (fuel : nat) (r : Relation) (h : Heap)
         (entity other_entity : nat) : res bool :=
  if Nat.eqb entity other_entity then Ok true
  else
    match fuel with
    | O => Raise RecursionError
    | S f =>
        match h !! entity with
        | None => Raise LookupError
        | Some T =>
            (fix walk (cs : list nat) : res bool :=
               match cs with
               | [] => Ok false
               | c :: cs' =>
                   match reaches f r h c other_entity with
                   | Ok true => Ok true
                   | Ok false => walk cs'
                   | Raise e => Raise e
                   end
               end) (related r T)
        end
    end.

Definition check_circular_dependency (fuel : nat)
           (entity other_entity : nat) (r : Relation) : M unit :=
  fun h => match reaches fuel r h entity other_entity with
           | Ok true => Raise (CircularDependencyError (relation_name r))
           | Ok false => Ok (tt, h)
           | Raise e => Raise e
           end.

(** ** Validators of [Task] *)

(** Membership by object identity (distinct tasks are taken to differ in
    their names, so that [Task.__eq__] is identity). *)
Definition task_in (t : nat) (l : list nat) : bool :=
  existsb (Nat.eqb t) l.

(** The [while parent:] loop of [_validate_depends]. *)
Fixpoint depends_parent_loop (fuel : nat) (parent_ : option nat)
         (depends_ : nat) : M unit :=
  match parent_ with
  | None => ret tt
  | Some p =>
      match fuel with
      | O => raise RecursionError
      | S f =>
          D <- get_task depends_ ;;
          if task_in p (depends D) then
            raise (CircularDependencyError "parents")
          else
            P <- get_task p ;;
            depends_parent_loop f (parent P) depends_
      end
  end.

(** [Task._validate_depends]. *)
Definition _validate_depends (fuel : nat) (t : nat) (depends_ : nat)
  : M nat :=
  check_circular_dependency fuel depends_ t RDepends ;;;
  check_circular_dependency fuel depends_ t RChildren ;;;
  T <- get_task t ;;
  depends_parent_loop fuel (parent T) depends_ ;;;
  ret depends_.

(** [task.depends.append(d)]: the validator, then the store. *)
Definition depends_append (fuel : nat) (t : nat) (d : nat) : M unit :=
  d' <- _validate_depends fuel t d ;;
  T <- get_task t ;;
  modify_task t (set_depends (depends T ++ [d'])).

(** [Task._validate_parent]. *)
Definition _validate_parent (fuel : nat) (t : nat) (parent_ : option nat)
  : M (option nat) :=
  let upd := update_schedule_info fuel in
  (match parent_ with
   | Some p =>
       check_circular_dependency fuel t p RChildren ;;;
       check_circular_dependency fuel t p RDepends
   | None => ret tt
   end) ;;;
  T <- get_task t ;;
  let old_parent := parent T in
  let new_parent := parent_ in
  (match old_parent with
   | Some op =>
       a <- schedule_seconds_getter upd op ;;
       b <- schedule_seconds_getter upd t ;;
       az <- as_int a ;; bz <- as_int b ;;
       schedule_seconds_setter fuel op (az - bz) ;;;
       a <- total_logged_seconds_getter upd op ;;
       b <- total_logged_seconds_getter upd t ;;
       az <- as_int a ;; bz <- as_int b ;;
       total_logged_seconds_setter fuel op (az - bz)
   | None => ret tt
   end) ;;;
  (match new_parent with
   | Some np =>
       NP <- get_task np ;;
       if is_leaf NP then
         b <- schedule_seconds_getter upd t ;;
         bz <- as_int b ;;
         schedule_seconds_setter fuel np bz ;;;
         b <- total_logged_seconds_getter upd t ;;
         bz <- as_int b ;;
         total_logged_seconds_setter fuel np bz
       else
         a <- schedule_seconds_getter upd np ;;
         b <- schedule_seconds_getter upd t ;;
         az <- as_int a ;; bz <- as_int b ;;
         schedule_seconds_setter fuel np (az + bz) ;;;
         a <- total_logged_seconds_getter upd np ;;
         b <- total_logged_seconds_getter upd t ;;
         az <- as_int a ;; bz <- as_int b ;;
         total_logged_seconds_setter fuel np (az + bz)
   | None => ret tt
   end) ;;;
  ret parent_.

(** [Task._validate_children]; it runs before [child] is in the list. *)
Definition _validate_children (fuel : nat) (now : Z) (t : nat) (child : nat)
  : M nat :=
  let upd := update_schedule_info fuel in
  modify_task t (set_resources []) ;;;
  T <- get_task t ;;
  (if is_leaf T then
     old_schedule_seconds <- schedule_seconds_getter upd t ;;
     cl <- total_logged_seconds_getter upd child ;;
     modify_task t (set_logged_cache cl) ;;;
     cs <- schedule_seconds_getter upd child ;;
     modify_task t (set_schedule_cache cs) ;;;
     (match parent T with
      | Some p =>
          P <- get_task p ;;
          pz <- as_int (_schedule_seconds P) ;;
          oz <- as_int old_schedule_seconds ;;
          modify_task p (set_schedule_cache (Some (pz - oz))) ;;;
          P' <- get_task p ;;
          pz' <- as_int (_schedule_seconds P') ;;
          cs' <- schedule_seconds_getter upd child ;;
          cz <- as_int cs' ;;
          modify_task p (set_schedule_cache (Some (pz' + cz)))
      | None => ret tt
      end) ;;;
     modify_task t (set_start_field datetime_max) ;;;
     modify_task t (set_end_field datetime_min)
   else ret tt) ;;;
  C <- get_task child ;;
  _expand_dates fuel now (Some t) (_start C) (_end C) ;;;
  ret child.

(** Python's [list.remove]: the first occurrence goes. *)
Fixpoint list_remove (x : nat) (l : list nat) : list nat :=
  match l with
  | [] => []
  | y :: l' => if Nat.eqb x y then l' else y :: list_remove x l'
  end.

(** [task.parent = new_parent].  The [parent] and [children] relationships
    are declared with [back_populates]: after the validator of [parent]
    the task is taken out of the old parent's [children] (firing its
    [remove] listener) and appended to the new parent's (firing
    [_validate_children]); nothing moves when the parent object is the
    same. *)
Definition parent_set (fuel : nat) (now : Z) (t : nat)
           (new_parent : option nat) : M unit :=
  np <- _validate_parent fuel t new_parent ;;
  T <- get_task t ;;
  (if decide (parent T = np) then ret tt
   else
     (match parent T with
      | Some op =>
          update_task_date_values fuel now op t ;;;
          OP <- get_task op ;;
          modify_task op (set_children (list_remove t (children OP)))
      | None => ret tt
      end) ;;;
     (match np with
      | Some p =>
          c <- _validate_children fuel now p t ;;
          P <- get_task p ;;
          modify_task p (set_children (children P ++ [c]))
      | None => ret tt
      end)) ;;;
  modify_task t (set_parent np).

(** [Task._validate_time_logs]. *)
Definition _validate_time_logs (fuel : nat) (t : nat) (time_log : nat)
  : M nat :=
  T <- get_task t ;;
  (match parent T with
   | Some p =>
       a <- total_logged_seconds_getter (update_schedule_info fuel) p ;;
       az <- as_int a ;;
       match L !! time_log with
       | Some l => total_logged_seconds_setter fuel p (az + total_seconds l)
       | None => raise LookupError
       end
   | None => ret tt
   end) ;;;
  ret time_log.

End Caches.

(** ** Schedule attributes of a task *)

Definition CONSTRAIN_NONE : nat := 0.
Definition CONSTRAIN_START : nat := 1.
Definition CONSTRAIN_END : nat := 2.
Definition CONSTRAIN_BOTH : nat := 3.

Section Schedule.

Context (cfg : Config).
Context (L : Logs).

(** [Task._reschedule]. *)
Definition _reschedule (fuel : nat) (now : Z) (t : nat)
           (schedule_timing_ : Z) (schedule_unit_ : ScheduleUnit) : M unit :=
  T <- get_task t ;;
  if is_leaf T then
    match datetime_units_to_timedelta cfg schedule_unit_ with
    | None => ret tt
    | Some unit_ =>
        let calculated_duration := schedule_timing_ * unit_ in
        (if Nat.eqb (schedule_constraint T) CONSTRAIN_NONE
            || Nat.eqb (schedule_constraint T) CONSTRAIN_START then
           modify_task t
             (set_dates (_validate_dates now (Some (_start T)) None
                                         (Some calculated_duration)))
         else if Nat.eqb (schedule_constraint T) CONSTRAIN_END then
           modify_task t
             (set_dates (_validate_dates now None (Some (_end T))
                                         (Some calculated_duration)))
         else if Nat.eqb (schedule_constraint T) CONSTRAIN_BOTH then
           modify_task t
             (set_dates (_validate_dates now (Some (_start T))
                                         (Some (_end T)) None))
         else ret tt) ;;;
        s <- schedule_seconds_getter cfg (update_schedule_info cfg L fuel) t ;;
        modify_task t (set_schedule_cache s)
    end
  else ret tt.

(** The [set] listener of [Task.schedule_timing]. *)
Definition update_parents_schedule_seconds_with_schedule_timing
           (fuel : nat) (t : nat)
           (new_schedule_timing old_schedule_timing : Z) : M unit :=
  T <- get_task t ;;
  match parent T with
  | Some p =>
      let old_schedule_seconds :=
        to_seconds cfg old_schedule_timing (schedule_unit T) in
      let new_schedule_seconds :=
        to_seconds cfg new_schedule_timing (schedule_unit T) in
      a <- schedule_seconds_getter cfg (update_schedule_info cfg L fuel) p ;;
      az <- as_int a ;;
      schedule_seconds_setter cfg L fuel p
        (az - old_schedule_seconds + new_schedule_seconds)
  | None => ret tt
  end.

(** The [set] listener of [Task.schedule_unit]. *)
Definition update_parents_schedule_seconds_with_schedule_unit
           (fuel : nat) (t : nat)
           (new_schedule_unit old_schedule_unit : ScheduleUnit) : M unit :=
  T <- get_task t ;;
  match parent T with
  | Some p =>
      let schedule_timing_ := schedule_timing T in
      let old_schedule_seconds :=
        to_seconds cfg schedule_timing_ old_schedule_unit in
      let new_schedule_seconds :=
        to_seconds cfg schedule_timing_ new_schedule_unit in
      a <- schedule_seconds_getter cfg (update_schedule_info cfg L fuel) p ;;
      parent_schedule_seconds <-
        (if truthy a then
           a' <- schedule_seconds_getter cfg
                   (update_schedule_info cfg L fuel) p ;;
           as_int a'
         else ret 0) ;;
      schedule_seconds_setter cfg L fuel p
        (parent_schedule_seconds - old_schedule_seconds
         + new_schedule_seconds)
  | None => ret tt
  end.

(** [task.schedule_timing = v]: validator, listener, store. *)
Definition schedule_timing_set (fuel : nat) (now : Z) (t : nat) (v : Z)
  : M unit :=
  T <- get_task t ;;
  _reschedule fuel now t v (schedule_unit T) ;;;
  update_parents_schedule_seconds_with_schedule_timing
    fuel t v (schedule_timing T) ;;;
  T' <- get_task t ;;
  modify_task t (set_schedule v (schedule_unit T')).

(** [task.schedule_unit = u]: validator, listener, store. *)
Definition schedule_unit_set (fuel : nat) (now : Z) (t : nat)
           (u : ScheduleUnit) : M unit :=
  T <- get_task t ;;
  (if negb (schedule_timing T =? 0)
   then _reschedule fuel now t (schedule_timing T) u
   else ret tt) ;;;
  update_parents_schedule_seconds_with_schedule_unit
    fuel t u (schedule_unit T) ;;;
  T' <- get_task t ;;
  modify_task t (set_schedule (schedule_timing T') u).

(** The units in increasing order, after the minute. *)
Definition larger_units : list ScheduleUnit :=
  [UHour; UDay; UWeek; UMonth; UYear].

(** Modelled from the spec: [ScheduleMixin.least_meaningful_time_unit] is
    not among the sources.  The seconds are counted in minutes, then in
    each larger unit in increasing order for as long as the count stays
    whole; the last whole count and its unit are the result. *)
Fixpoint lmtu_loop (seconds : Z) (us : list ScheduleUnit)
         (best : Z * ScheduleUnit) : Z * ScheduleUnit :=
  match us with
  | [] => best
  | u :: us' =>
      if seconds mod unit_seconds cfg u =? 0
      then lmtu_loop seconds us' (seconds / unit_seconds cfg u, u)
      else best
  end.

Definition least_meaningful_time_unit (seconds : Z) : Z * ScheduleUnit :=
  lmtu_loop seconds larger_units (seconds / unit_seconds cfg UMin, UMin).

(** [TimeLog._expand_task_schedule_timing]. *)
Definition _expand_task_schedule_timing (fuel : nat) (now : Z)
           (self : TimeLog) (task : nat) : M unit :=
  task_remaining_seconds <- remaining_seconds cfg L fuel task ;;
  let tlog_total_seconds := total_seconds self in
  if task_remaining_seconds <? tlog_total_seconds then
    s <- schedule_seconds_getter cfg (update_schedule_info cfg L fuel) task ;;
    sz <- as_int s ;;
    let r := least_meaningful_time_unit
               (sz + tlog_total_seconds - task_remaining_seconds) in
    schedule_timing_set fuel now task (fst r) ;;;
    schedule_unit_set fuel now task (snd r)
  else ret tt.

(** [TimeLog._validate_task]. *)
Definition _validate_task (fuel : nat) (now : Z) (self : TimeLog)
           (task : nat) : M nat :=
  _expand_task_schedule_timing fuel now self task ;;;
  ret task.

End Schedule.

(** ** Time logs of a resource *)

(** The condition of the overbooking check between [self] and one of the
    resource's time logs. *)
Definition overbooked (self time_log : TimeLog) : bool :=
  (tl_start time_log =? tl_start self)
  || (tl_end time_log =? tl_end self)
  || ((tl_start time_log <? tl_end self) && (tl_end self <? tl_end time_log))
  || ((tl_start time_log <? tl_start self)
      && (tl_start self <? tl_end time_log)).

(** The loop of [_validate_resource] over [resource.time_logs]. *)
Fixpoint overbooking_loop (logs : Logs) (self_id : nat) (self : TimeLog)
         (ids : list nat) : res unit :=
  match ids with
  | [] => Ok tt
  | i :: ids' =>
      match logs !! i with
      | None => Raise LookupError
      | Some time_log =>
          if negb (Nat.eqb i self_id) && overbooked self time_log
          then Raise (OverBookedError self_id i)
          else overbooking_loop logs self_id self ids'
      end
  end.

(** [TimeLog._validate_resource]; [resource_logs] maps a user to its
    [time_logs], a missing resource is [None]. *)
Definition _validate_resource (logs : Logs)
           (resource_logs : gmap nat (list nat))
           (self_id : nat) (self : TimeLog) (resource : option nat)
  : res nat :=
  match resource with
  | None => Raise TypeError
  | Some r =>
      match overbooking_loop logs self_id self
                             (default [] (resource_logs !! r)) with
      | Ok _ => Ok r
      | Raise e => Raise e
      end
  end.

(** ** The object store and the operations on time logs *)

Record State : Type := mkState {
  tasks : Heap;
  logs : Logs;
  users : gmap nat (list nat)
}.

Definition set_tl_resource (r : option nat) (l : TimeLog) : TimeLog :=
  mkTimeLog (tl_task l) r (tl_start l) (tl_end l).

Definition set_tl_task (t : option nat) (l : TimeLog) : TimeLog :=
  mkTimeLog t (tl_resource l) (tl_start l) (tl_end l).

Definition set_tl_start (v : Z) (l : TimeLog) : TimeLog :=
  mkTimeLog (tl_task l) (tl_resource l) v (tl_end l).

Definition set_tl_end (v : Z) (l : TimeLog) : TimeLog :=
  mkTimeLog (tl_task l) (tl_resource l) (tl_start l) v.

Section Logging.

Context (cfg : Config).

(** [__update_total_logged_seconds__]. *)
Definition __update_total_logged_seconds__ (L : Logs) (fuel : nat)
           (tlog : TimeLog) (new_duration old_duration : Z) : M unit :=
  match tl_task tlog with
  | Some task =>
      T <- get_task task ;;
      match parent T with
      | Some p =>
          let old_total_seconds := old_duration in
          let new_total_seconds := new_duration in
          a <- total_logged_seconds_getter L
                 (update_schedule_info cfg L fuel) p ;;
          az <- as_int a ;;
          total_logged_seconds_setter cfg L fuel p
            (az - old_total_seconds + new_total_seconds)
      | None => ret tt
      end
  | None => ret tt
  end.

(** The [set] listener of [TimeLog._start]; it runs before the new value
    is stored. *)
Definition update_time_log_task_parents_for_start (L : Logs) (fuel : nat)
           (tlog : TimeLog) (new_start old_start : option Z) : M unit :=
  match old_start, new_start with
  | Some old_start', Some new_start' =>
      let old_duration := tl_end tlog - old_start' in
      let new_duration := tl_end tlog - new_start' in
      __update_total_logged_seconds__ L fuel tlog new_duration old_duration
  | _, _ => ret tt
  end.

(** The [set] listener of [TimeLog._end]. *)
Definition update_time_log_task_parents_for_end (L : Logs) (fuel : nat)
           (tlog : TimeLog) (new_end old_end : option Z) : M unit :=
  match old_end, new_end with
  | Some old_end', Some new_end' =>
      let old_duration := old_end' - tl_start tlog in
      let new_duration := new_end' - tl_start tlog in
      __update_total_logged_seconds__ L fuel tlog new_duration old_duration
  | _, _ => ret tt
  end.

(** Storing the reconciled dates of a time log: [_start] and then [_end]
    are assigned, each assignment firing its listener first. *)
Definition timelog_store_dates (fuel : nat) (id : nat) (d : Z * Z * Z)
           (st : State) : res State :=
  match logs st !! id with
  | None => Raise LookupError
  | Some tlog =>
      match update_time_log_task_parents_for_start (logs st) fuel tlog
              (Some (fst (fst d))) (Some (tl_start tlog)) (tasks st) with
      | Raise e => Raise e
      | Ok (_, h1) =>
          let tlog1 := set_tl_start (fst (fst d)) tlog in
          let logs1 := <[id := tlog1]> (logs st) in
          match update_time_log_task_parents_for_end logs1 fuel tlog1
                  (Some (snd (fst d))) (Some (tl_end tlog1)) h1 with
          | Raise e => Raise e
          | Ok (_, h2) =>
              Ok (mkState h2 (<[id := set_tl_end (snd (fst d)) tlog1]> logs1)
                          (users st))
          end
      end
  end.

(** [tlog.start = v] and [tlog.end = v]: the dates are reconciled and
    stored. *)
Definition timelog_start_set (fuel : nat) (now : Z) (id : nat) (v : Z)
           (st : State) : res State :=
  match logs st !! id with
  | None => Raise LookupError
  | Some tlog =>
      timelog_store_dates fuel id
        (_validate_dates now (Some v) (Some (tl_end tlog))
                         (Some (total_seconds tlog))) st
  end.

Definition timelog_end_set (fuel : nat) (now : Z) (id : nat) (v : Z)
           (st : State) : res State :=
  match logs st !! id with
  | None => Raise LookupError
  | Some tlog =>
      timelog_store_dates fuel id
        (_validate_dates now (Some (tl_start tlog)) (Some v)
                         (Some (total_seconds tlog))) st
  end.

(** [TimeLog(task, resource, start, end, duration)]:
    [DateRangeMixin.__init__] reconciles the three dates and stores the
    result (the log has no task yet, so the listeners of [_start] and
    [_end] do nothing); then [self.resource = resource] and
    [self.task = task], whose validators read the reconciled dates.  Each
    relationship is declared with [back_populates], so the log is
    appended to [resource.time_logs] and to [task.time_logs] (firing
    [_validate_time_logs]) after its validator. *)
Definition timelog_init (fuel : nat) (now : Z) (id : nat) (task : nat)
           (resource : option nat) (start end_ duration : option Z)
           (st : State) : res State :=
  let d := _validate_dates now start end_ duration in
  let self0 := mkTimeLog None None (fst (fst d)) (snd (fst d)) in
  let logs0 := <[id := self0]> (logs st) in
  match _validate_resource logs0 (users st) id self0 resource with
  | Raise e => Raise e
  | Ok r =>
      let users1 :=
        <[r := default [] (users st !! r) ++ [id]]> (users st) in
      let self1 := set_tl_resource (Some r) self0 in
      let logs1 := <[id := self1]> logs0 in
      match (task' <- _validate_task cfg logs1 fuel now self1 task ;;
             time_log <- _validate_time_logs cfg logs1 fuel task' id ;;
             T <- get_task task' ;;
             modify_task task' (set_time_logs (time_logs T ++ [time_log])) ;;;
             ret task') (tasks st) with
      | Raise e => Raise e
      | Ok (task', h) =>
          Ok (mkState h (<[id := set_tl_task (Some task') self1]> logs1)
                      users1)
      end
  end.

(** [TimeLog(task, resource, start, end)]: the constructor called with
    both dates and no duration. *)
Definition timelog_create (fuel : nat) (now : Z) (id : nat) (task : nat)
           (resource : option nat) (start end_ : Z) (st : State)
  : res State :=
  timelog_init fuel now id task resource (Some start) (Some end_) None st.

End Logging.

(** ** Priority *)

(** The integers of Python 2: an [int] holds a machine word, a [long]
    has no bound. *)
Inductive PyInteger : Type :=
| PInt (z : Z)
| PLong (z : Z).

(** A float, by its truncation toward zero. *)
Inductive PyFloat : Type :=
| FFinite (truncated : Z)
| FNan
| FInf (negative : bool).

(** The Python values a caller can hand to a setter.  An object of any
    other class carries what [int()] makes of it, which is what its
    [__int__] returns, an [int] or a [long] as the method chooses, or the
    exception raised ([TypeError] when the class has no [__int__]), and,
    when its class derives from [int], the integer it holds. *)
Inductive PyValue : Type :=
| PyNone
| PyBool (b : bool)
| PyInt (z : Z)
| PyLong (z : Z)
| PyFloatV (f : PyFloat)
| PyStr (s : string)
| PyObject (int_result : res PyInteger) (int_value : option Z).

(** Whitespace that [int()] strips around a numeric string. *)
Definition is_space (c : Ascii.ascii) : bool :=
  let n := Ascii.nat_of_ascii c in
  Nat.eqb n 32 || (Nat.leb 9 n && Nat.leb n 13).

Definition digit_of (c : Ascii.ascii) : option Z :=
  let n := Ascii.nat_of_ascii c in
  if Nat.leb 48 n && Nat.leb n 57 then Some (Z.of_nat n - 48) else None.

Fixpoint lstrip (s : string) : string :=
  match s with
  | EmptyString => EmptyString
  | String c s' => if is_space c then lstrip s' else s
  end.

Fixpoint string_rev (s acc : string) : string :=
  match s with
  | EmptyString => acc
  | String c s' => string_rev s' (String c acc)
  end.

Definition strip (s : string) : string :=
  string_rev (lstrip (string_rev (lstrip s) EmptyString)) EmptyString.

Fixpoint parse_digits (s : string) (acc : Z) : option Z :=
  match s with
  | EmptyString => Some acc
  | String c s' =>
      match digit_of c with
      | Some d => parse_digits s' (10 * acc + d)
      | None => None
      end
  end.

Definition parse_unsigned (s : string) : option Z :=
  match s with
  | EmptyString => None
  | _ => parse_digits s 0
  end.

(** [int(s)] for a string: surrounding whitespace, an optional sign and
    decimal digits. *)
Definition int_of_string (s : string) : option Z :=
  match strip s with
  | String c s' =>
      if Ascii.eqb c "-"%char then option_map Z.opp (parse_unsigned s')
      else if Ascii.eqb c "+"%char then parse_unsigned s'
      else parse_unsigned (String c s')
  | EmptyString => None
  end.

(** An integer computed by the interpreter is an [int] when it fits the
    machine word and a [long] otherwise. *)
Definition fits_int (cfg : Config) (z : Z) : bool :=
  (- sys_maxint cfg - 1 <=? z) && (z <=? sys_maxint cfg).

Definition integer_of (cfg : Config) (z : Z) : PyInteger :=
  if fits_int cfg z then PInt z else PLong z.

(** The builtin [int(v)] of Python 2. *)
Definition py_int (cfg : Config) (v : PyValue) : res PyInteger :=
  match v with
  | PyNone => Raise TypeError
  | PyBool b => Ok (PInt (if b then 1 else 0))
  | PyInt z => Ok (PInt z)
  | PyLong z => Ok (integer_of cfg z)
  | PyFloatV (FFinite z) => Ok (integer_of cfg z)
  | PyFloatV FNan => Raise ValueError
  | PyFloatV (FInf _) => Raise OverflowError
  | PyStr s =>
      match int_of_string s with
      | Some z => Ok (integer_of cfg z)
      | None => Raise ValueError
      end
  | PyObject int_result _ => int_result
  end.

(** The integer as a value. *)
Definition value_of (i : PyInteger) : PyValue :=
  match i with
  | PInt z => PyInt z
  | PLong z => PyLong z
  end.

(** [isinstance(v, int)], with the integer when it holds. *)
Definition isinstance_int (v : PyValue) : option Z :=
  match v with
  | PyInt z => Some z
  | PyBool b => Some (if b then 1 else 0)
  | PyObject _ (Some z) => Some z
  | _ => None
  end.

(** [Task._validate_priority]. *)
Definition _validate_priority (cfg : Config) (priority_ : PyValue) : res Z :=
  match
    match py_int cfg priority_ with
    | Ok i => Ok (value_of i)
    | Raise ValueError => Ok priority_
    | Raise TypeError => Ok priority_
    | Raise e => Raise e
    end
  with
  | Raise e => Raise e
  | Ok p =>
      let p1 := match isinstance_int p with
                | Some z => z
                | None => task_priority cfg
                end in
      Ok (if p1 <? 0 then 0 else if 1000 <? p1 then 1000 else p1)
  end.

(** ** Further properties of [Task] *)

(** [Task.level]: the [while current:] loop counts the task and its
    ancestors. *)
Fixpoint level_loop (fuel : nat) (h : Heap) (current : option nat) (i : nat)
  : option nat :=
  match current with
  | None => Some i
  | Some c =>
      match fuel with
      | O => None
      | S f =>
          match h !! c with
          | Some C => level_loop f h (parent C) (i + 1)
          | None => None
          end
      end
  end.

Definition level (fuel : nat) (h : Heap) (t : nat) : option nat :=
  level_loop fuel h (Some t) 0.

Section Responsible.

(** The association table [Task_Responsible] (a task to its [_responsible]
    users) and [task.project.lead]. *)
Context (responsible_of : gmap nat (list nat)).
Context (project_lead : nat -> option nat).

(** The loop of [_responsible_getter] over [reversed(self.parents)];
    [get] is the getter of the parents. *)
Fixpoint responsible_loop (get : nat -> option (list nat)) (ps : list nat)
  : option (option (list nat)) :=
  match ps with
  | [] => Some None
  | p :: ps' =>
      match get p with
      | None => None
      | Some [] => responsible_loop get ps'
      | Some r => Some (Some r)
      end
  end.

(** [Task._responsible_getter]. *)
Fixpoint _responsible_getter (fuel : nat) (h : Heap) (t : nat)
  : option (list nat) :=
  match fuel with
  | O => None
  | S f =>
      match default [] (responsible_of !! t) with
      | [] =>
          match parents f h t with
          | None => None
          | Some ps =>
              match responsible_loop (_responsible_getter f h)
                                     (reverse ps) with
              | None => None
              | Some (Some r) => Some r
              | Some None =>
                  match project_lead t with
                  | Some u => Some [u]
                  | None => Some []
                  end
              end
          end
      | r => Some r
      end
  end.

End Responsible.

(** * Specification vocabulary and example stores *)

(** The condition of the check, as a proposition. *)
Definition conflict (self time_log : TimeLog) : Prop :=
  tl_start time_log = tl_start self
  \/ tl_end time_log = tl_end self
  \/ (tl_start time_log < tl_end self < tl_end time_log)
  \/ (tl_start time_log < tl_start self < tl_end time_log).

(** Two intervals overlap when each starts before the other ends;
    intervals that only touch do not. *)
Definition overlaps (self time_log : TimeLog) : Prop :=
  tl_start self < tl_end time_log /\ tl_start time_log < tl_end self.

(** [time_log] lies strictly inside [self]: both its boundaries are
    strictly between the boundaries of [self]. *)
Definition strictly_inside (time_log self : TimeLog) : Prop :=
  tl_start self < tl_start time_log /\ tl_end time_log < tl_end self.

(** A resource with one time log over [10, 20). *)
Definition booked_logs : Logs :=
  {[ 1%nat := mkTimeLog (Some 0%nat) (Some 7%nat) 10 20 ]}.
Definition booked_users : gmap nat (list nat) := {[ 7%nat := [1%nat] ]}.

(** The ancestors of [t], nearest first. *)
Fixpoint is_chain (h : Heap) (t : nat) (l : list nat) : Prop :=
  match l with
  | [] => exists T, h !! t = Some T /\ parent T = None
  | p :: l' =>
      (exists T, h !! t = Some T /\ parent T = Some p) /\ is_chain h p l'
  end.

(** Every task of [l] is a container whose cache of logged seconds is
    initialised. *)
Definition logged_ready (h : Heap) (l : list nat) : Prop :=
  Forall (fun p => exists P c, h !! p = Some P /\ is_container P = true
                               /\ _total_logged_seconds P = Some c) l.

(** Every task of [l] is a container whose cache of schedule seconds is
    initialised and not negative. *)
Definition schedule_ready (h : Heap) (l : list nat) : Prop :=
  Forall (fun p => exists P c, h !! p = Some P /\ is_container P = true
                               /\ _schedule_seconds P = Some c /\ 0 <= c) l.

(** Adding [delta] to a cache. *)
Definition add_schedule (delta : Z) (T : Task) : Task :=
  set_schedule_cache (Some (default 0 (_schedule_seconds T) + delta)) T.

Definition add_logged (delta : Z) (T : Task) : Task :=
  set_logged_cache (Some (default 0 (_total_logged_seconds T) + delta)) T.

(** Adding [delta] to the cache of every task of [l]. *)
Definition bump_schedule (delta : Z) (l : list nat) (h : Heap) : Heap :=
  foldr (fun p m => alter (add_schedule delta) p m) h l.

Definition bump_logged (delta : Z) (l : list nat) (h : Heap) : Heap :=
  foldr (fun p m => alter (add_logged delta) p m) h l.

(** The configuration used in the examples: calendar lengths of the
    units, the documented default priority and the [sys.maxint] of a
    64-bit interpreter. *)
Definition example_cfg : Config :=
  mkConfig
    (fun u => match u with
              | UMin => 60 | UHour => 3600 | UDay => 86400
              | UWeek => 604800 | UMonth => 2592000 | UYear => 31536000
              end)
    (fun u => Some match u with
                   | UMin => 60 | UHour => 3600 | UDay => 86400
                   | UWeek => 604800 | UMonth => 2592000
                   | UYear => 31536000
                   end)
    500
    9223372036854775807.

(** A leaf task without parent, scheduled for [timing] units [u]. *)
Definition leaf_task (parent_ : option nat) (tlogs : list nat)
           (timing : Z) (u : ScheduleUnit) : Task :=
  mkTask parent_ [] [] [] tlogs timing u CONSTRAIN_NONE None None 0 0 0 500.

(** A container task with initialised caches. *)
Definition container_task (parent_ : option nat) (children_ : list nat)
           (schedule logged : Z) : Task :=
  mkTask parent_ children_ [] [] [] 1 UHour CONSTRAIN_NONE
         (Some schedule) (Some logged) 0 100 100 500.

(** One resource with two time logs, over [10, 20) and [30, 40), on a
    root task. *)
Definition two_logs_state : State :=
  mkState {[ 0%nat := leaf_task None [1%nat; 2%nat] 1 UHour ]}
          {[ 1%nat := mkTimeLog (Some 0%nat) (Some 7%nat) 10 20;
             2%nat := mkTimeLog (Some 0%nat) (Some 7%nat) 30 40 ]}
          {[ 7%nat := [1%nat; 2%nat] ]}.

(** What a mutation of the dates of the time log [id] to [d] leaves
    behind: the log holds the new dates, and the cached logged seconds of
    every ancestor in [chain] moved by the change of the duration. *)
Definition dates_mutated (st : State) (id : nat) (tlog : TimeLog)
           (chain : list nat) (d : Z * Z * Z) (st' : State) : Prop :=
  logs st' !! id
  = Some (mkTimeLog (tl_task tlog) (tl_resource tlog)
                    (fst (fst d)) (snd (fst d)))
  /\ users st' = users st
  /\ (forall a A, a ∈ chain -> tasks st !! a = Some A ->
        exists A', tasks st' !! a = Some A'
                   /\ _total_logged_seconds A'
                      = Some (default 0 (_total_logged_seconds A)
                              + (snd (fst d) - fst (fst d)
                                 - total_seconds tlog)))
  /\ (forall k, k ∉ chain -> tasks st' !! k = tasks st !! k).

(** A root container 1 over a container 2 over the leaf 3, which holds
    the time log 5 over [10, 20) of the resource 7. *)
Definition nested_state : State :=
  mkState {[ 1%nat := container_task None [2%nat] 3600 10;
             2%nat := container_task (Some 1%nat) [3%nat] 3600 10;
             3%nat := leaf_task (Some 2%nat) [5%nat] 1 UHour ]}
          {[ 5%nat := mkTimeLog (Some 3%nat) (Some 7%nat) 10 20 ]}
          {[ 7%nat := [5%nat] ]}.

(** A root container 1 over a container 2 over the leaf 3 scheduled for
    ten hours, and a new leaf 4 scheduled for one hour. *)
Definition grown_tree : Heap :=
  {[ 1%nat := container_task None [2%nat] 36000 0;
     2%nat := container_task (Some 1%nat) [3%nat] 36000 0;
     3%nat := leaf_task (Some 2%nat) [] 10 UHour;
     4%nat := leaf_task None [] 1 UHour ]}.

(** A container 1 that depends on the task 3, its child 2, and 3. *)
Definition depending_parent : Heap :=
  {[ 1%nat := set_depends [3%nat] (container_task None [2%nat] 3600 0);
     2%nat := leaf_task (Some 1%nat) [] 1 UHour;
     3%nat := leaf_task None [] 1 UHour ]}.

(** The root 1 with the child 2; the task 3 depends on 1. *)
Definition depending_on_parent : Heap :=
  {[ 1%nat := container_task None [2%nat] 3600 0;
     2%nat := leaf_task (Some 1%nat) [] 1 UHour;
     3%nat := set_depends [1%nat] (leaf_task None [] 1 UHour) ]}.

(** A task without its two caches. *)
Definition erase (T : Task) : Task :=
  set_schedule_cache None (set_logged_cache None T).

(** Two stores that hold the same tasks up to the caches, and the very
    same tasks at the identities in [D]. *)
Definition sim (D : nat -> Prop) (h1 h2 : Heap) : Prop :=
  (forall k, erase <$> h1 !! k = erase <$> h2 !! k)
  /\ (forall k, D k -> h1 !! k = h2 !! k).

(** A computation that runs alike on similar stores and leaves the tasks
    in [post] equal. *)
Definition simulates {A} (m : M A) (post : nat -> Prop) : Prop :=
  forall h1 a h1', m h1 = Ok (a, h1') ->
    forall D h2, sim D h1 h2 ->
      exists h2', m h2 = Ok (a, h2') /\ sim (fun k => D k \/ post k) h1' h2'.

(** The children of every task are in the store and of lower rank: the
    hierarchy is a finite forest. *)
Definition tree_ok (rk : nat -> nat) (h : Heap) : Prop :=
  forall t T, h !! t = Some T ->
    forall c, c ∈ children T -> is_Some (h !! c) /\ (rk c < rk t)%nat.

(** The time logs of every task are in the store of logs. *)
Definition logs_ok (L : Logs) (h : Heap) : Prop :=
  forall t T, h !! t = Some T ->
    forall i, i ∈ time_logs T -> is_Some (L !! i).

(** Two stores that hold the same tasks up to the caches. *)
Definition same_skeleton (h1 h2 : Heap) : Prop :=
  forall k, erase <$> h1 !! k = erase <$> h2 !! k.

(** Both caches of the task [t] are initialised. *)
Definition cached (h : Heap) (t : nat) : Prop :=
  exists T s l, h !! t = Some T /\ _schedule_seconds T = Some s
                /\ _total_logged_seconds T = Some l.

(** The two caches of the task [t]. *)
Definition caches (h : Heap) (t : nat) : option (option Z * option Z) :=
  (fun T => (_schedule_seconds T, _total_logged_seconds T)) <$> h !! t.

(** Every task of [l] caches at least [s] schedule seconds. *)
Definition schedule_at_least (s : Z) (h : Heap) (l : list nat) : Prop :=
  Forall (fun p => exists P c, h !! p = Some P
                               /\ _schedule_seconds P = Some c /\ s <= c) l.

(** The cached schedule seconds of a task, when initialised. *)
Definition schedule_cache (h : Heap) (k : nat) : option Z :=
  h !! k ≫= _schedule_seconds.

(** The store after [_validate_parent] moved the contribution of a leaf
    from the chain [c1] to the chain [c2]. *)
Definition reparented (s lg : Z) (c1 c2 : list nat) (h : Heap) : Heap :=
  bump_logged lg c2
    (bump_schedule s c2
       (bump_logged (- lg) c1 (bump_schedule (- s) c1 h))).

(** A task without its dates. *)
Definition erase_dates (T : Task) : Task := set_dates (0, 0, 0) T.

(** [h'] holds the tasks of [h] up to their dates. *)
Definition date_frame (h h' : Heap) : Prop :=
  forall k, erase_dates <$> h' !! k = erase_dates <$> h !! k.

(** The ancestors above the first one of a chain form a chain. *)
Definition chain_tail (h : Heap) (l : list nat) : Prop :=
  match l with
  | [] => True
  | q :: l' => is_chain h q l'
  end.

(** What the start and end setters need of the function that expands the
    ancestors [l] of a task. *)
Definition expands (expand : option nat -> Z -> Z -> M unit) (l : list nat)
  : Prop :=
  forall h s e, chain_tail h l ->
    exists h', expand (head l) s e h = Ok (tt, h')
               /\ date_frame h h' /\ (forall k, k ∉ l -> h' !! k = h !! k).

(** A root container 1 over [0, 100) with the single child 2. *)
Definition single_child_tree : Heap :=
  {[ 1%nat := container_task None [2%nat] 3600 0;
     2%nat := leaf_task (Some 1%nat) [] 1 UHour ]}.

(** A root container 1 over the leaf 2 (one hour) and the container 3,
    which holds the leaf 4 (two hours). *)
Definition family_tree : Heap :=
  {[ 1%nat := container_task None [2%nat; 3%nat] 10800 0;
     2%nat := leaf_task (Some 1%nat) [] 1 UHour;
     3%nat := container_task (Some 1%nat) [4%nat] 7200 0;
     4%nat := leaf_task (Some 3%nat) [] 2 UHour ]}.

(** A task without its dates and its cache of schedule seconds. *)
Definition erase_plan (T : Task) : Task :=
  set_schedule_cache None (set_dates (0, 0, 0) T).

(** A root leaf task scheduled for four days, and its resource 7
    without time logs. *)
Definition four_days_state : State :=
  mkState {[ 1%nat := leaf_task None [] 4 UDay ]} ∅ {[ 7%nat := [] ]}.

(** The state of a child between the calls of the loop body: either it
    is known to be equal in the two stores, or it is a leaf. *)
Definition settled (D : nat -> Prop) (c : nat) (h : Heap) : Prop :=
  D c \/ exists C, h !! c = Some C /\ is_container C = false.

(** The cached logged seconds of a task, when initialised. *)
Definition logged_cache (h : Heap) (k : nat) : option Z :=
  h !! k ≫= _total_logged_seconds.

(** A task without its cache of schedule seconds, and without its cache
    of logged seconds. *)
Definition erase_schedule (T : Task) : Task := set_schedule_cache None T.
Definition erase_logged (T : Task) : Task := set_logged_cache None T.

(** The seconds of the time logs [ids]. *)
Definition logs_seconds (L : Logs) (ids : list nat) : Z :=
  foldr (fun i acc => default 0 (total_seconds <$> L !! i) + acc) 0 ids.

Definition add_pair (x y : Z * Z) : Z * Z := (fst x + fst y, snd x + snd y).

(** The logged seconds and the schedule seconds of the subtree of [t]: a
    leaf counts its time logs and its nominal duration, a container the
    sums over its children. *)
Fixpoint subtree_seconds (cfg : Config) (L : Logs) (fuel : nat) (h : Heap)
         (t : nat) : Z * Z :=
  match fuel with
  | O => (0, 0)
  | S f =>
      match h !! t with
      | None => (0, 0)
      | Some T =>
          if is_container T then
            foldr (fun c acc => add_pair (subtree_seconds cfg L f h c) acc)
                  (0, 0) (children T)
          else
            (logs_seconds L (time_logs T),
             to_seconds cfg (schedule_timing T) (schedule_unit T))
      end
  end.

(** The caches of the task [c], when it is a container, hold the seconds
    of its subtree. *)
Definition fresh (cfg : Config) (L : Logs) (f : nat) (h : Heap) (c : nat)
  : Prop :=
  exists C, h !! c = Some C
            /\ (is_container C = true ->
                caches h c
                = Some (Some (snd (subtree_seconds cfg L f h c)),
                        Some (fst (subtree_seconds cfg L f h c)))).

(** A root container 1 whose caches are not initialised, over the leaf 2
    (one hour, with the time log 5 over [10, 20)) and the leaf 3 (two
    hours). *)
Definition uncached_tree : Heap :=
  {[ 1%nat := erase (container_task None [2%nat; 3%nat] 0 0);
     2%nat := leaf_task (Some 1%nat) [5%nat] 1 UHour;
     3%nat := leaf_task (Some 1%nat) [] 2 UHour ]}.

Definition uncached_logs : Logs :=
  {[ 5%nat := mkTimeLog (Some 2%nat) (Some 7%nat) 10 20 ]}.

(** Every task of [l] starts before it ends. *)
Definition ordered (h : Heap) (l : list nat) : Prop :=
  forall a A, a ∈ l -> h !! a = Some A -> _start A <= _end A.

(** The date range of every task of [l] covers the range from [s] to
    [e]. *)
Definition covers (h : Heap) (l : list nat) (s e : Z) : Prop :=
  forall a, a ∈ l ->
    exists A, h !! a = Some A /\ _start A <= s /\ e <= _end A.

(** No date range of [h] is smaller in [h']. *)
Definition grown (h h' : Heap) : Prop :=
  forall k A, h !! k = Some A ->
    exists A', h' !! k = Some A'
               /\ _start A' <= _start A /\ _end A <= _end A'.

(** Along the chain [a :: l] the date range of every task lies within
    the range of the next one. *)
Fixpoint nested (h : Heap) (a : nat) (l : list nat) : Prop :=
  match l with
  | [] => True
  | b :: l' =>
      (exists A B, h !! a = Some A /\ h !! b = Some B
                   /\ _start B <= _start A /\ _end A <= _end B)
      /\ nested h b l'
  end.

Definition nested_tail (h : Heap) (l : list nat) : Prop :=
  match l with
  | [] => True
  | q :: l' => nested h q l'
  end.

(** What the start and end setters need of the function that expands the
    ancestors [l] of a task, for the ranges to stay nested. *)
Definition expands_nested (expand : option nat -> Z -> Z -> M unit)
           (l : list nat) : Prop :=
  forall h s e, chain_tail h l -> s <= e -> ordered h l -> nested_tail h l ->
    exists h', expand (head l) s e h = Ok (tt, h')
               /\ date_frame h h' /\ (forall k, k ∉ l -> h' !! k = h !! k)
               /\ grown h h' /\ ordered h' l /\ nested_tail h' l
               /\ covers h' (option_list (head l)) s e.

(** The users a task names itself, whether it names any, and the lead of
    its project as a list. *)
Definition own_responsible (responsible_of : gmap nat (list nat)) (t : nat)
  : list nat :=
  default [] (responsible_of !! t).

Definition has_responsible (responsible_of : gmap nat (list nat)) (t : nat)
  : bool :=
  match own_responsible responsible_of t with
  | [] => false
  | _ => true
  end.

Definition has_lead (project_lead : nat -> option nat) (t : nat) : bool :=
  match project_lead t with
  | Some _ => true
  | None => false
  end.

Definition lead_list (project_lead : nat -> option nat) (t : nat)
  : list nat :=
  match project_lead t with
  | Some u => [u]
  | None => []
  end.

(** The responsible users along a task and its ancestors [tl], nearest
    first: the users named by the nearest task that names any, otherwise
    the lead of the project of the topmost task whose project has one. *)
Definition responsible_along (responsible_of : gmap nat (list nat))
           (project_lead : nat -> option nat) (tl : list nat) : list nat :=
  match find (has_responsible responsible_of) tl with
  | Some a => own_responsible responsible_of a
  | None =>
      match find (has_lead project_lead) (reverse tl) with
      | Some y => lead_list project_lead y
      | None => []
      end
  end.

(** Parent links and lists of children agree, and no list of children
    holds a task twice. *)
Definition linked (h : Heap) : Prop :=
  forall a A, h !! a = Some A ->
    NoDup (children A)
    /\ forall c, c ∈ children A
                 <-> exists C, h !! c = Some C /\ parent C = Some a.

(** [h'] holds the tasks of [h] with the same children and, but for the
    task [t], the same time logs and the same schedule. *)
Definition same_plan_but (t : nat) (h h' : Heap) : Prop :=
  forall k,
    match h !! k, h' !! k with
    | Some A, Some B =>
        children A = children B
        /\ (k <> t -> time_logs A = time_logs B
                      /\ schedule_timing A = schedule_timing B
                      /\ schedule_unit A = schedule_unit B)
    | None, None => True
    | _, _ => False
    end.

(** The cached schedule seconds, or logged seconds, of every task of [l]
    are the seconds of its subtree. *)
Definition schedule_fresh (cfg : Config) (L : Logs) (f : nat) (h : Heap)
           (l : list nat) : Prop :=
  forall a, a ∈ l ->
    schedule_cache h a = Some (snd (subtree_seconds cfg L f h a)).

Definition logged_fresh (cfg : Config) (L : Logs) (f : nat) (h : Heap)
           (l : list nat) : Prop :=
  forall a, a ∈ l ->
    logged_cache h a = Some (fst (subtree_seconds cfg L f h a)).

(** Two lookups that agree on the children, the time logs and the
    schedule of the task. *)
Definition plan_eq (o1 o2 : option Task) : Prop :=
  match o1, o2 with
  | Some A, Some B =>
      children A = children B /\ time_logs A = time_logs B
      /\ schedule_timing A = schedule_timing B
      /\ schedule_unit A = schedule_unit B
  | None, None => True
  | _, _ => False
  end.

(** ** Tactics for stores written out key by key *)

(** Case analysis on a lookup in a store written out key by key. *)
Ltac lookup_cases H :=
  repeat (apply lookup_insert_Some in H as [[<- <-]|[? H]]);
  try (apply lookup_singleton_Some in H as [<- <-]);
  try (by rewrite lookup_empty in H).

Ltac elem_cases H :=
  repeat (apply elem_of_cons in H as [->|H]);
  try (by apply elem_of_nil in H).

(** Membership and duplicates in a list of literals. *)
Ltac not_elem :=
  let H := fresh in
  intros H; repeat (apply elem_of_cons in H as [H|H]; [discriminate|]);
  by apply elem_of_nil in H.

Ltac no_dup := repeat (apply NoDup_cons; split; [not_elem|]); apply NoDup_nil_2.

(** * Properties *)

(** ** Priority *)

Lemma _validate_priority_range cfg v z :
  _validate_priority cfg v = Ok z -> 0 <= z <= 1000.
Proof.
  unfold _validate_priority.
  assert (Hclamp : forall p1 : Z,
             0 <= (if p1 <? 0 then 0 else if 1000 <? p1 then 1000 else p1)
             <= 1000).
  { intros p1. destruct (Z.ltb_spec p1 0); [lia|].
    destruct (Z.ltb_spec 1000 p1); lia. }
  destruct (py_int cfg v) as [z0|[]]; simpl; try discriminate;
    intros [= <-]; apply Hclamp.
Qed.

Lemma _validate_priority_returns cfg v :
  (forall e, py_int cfg v = Raise e -> e = ValueError \/ e = TypeError) ->
  exists z, _validate_priority cfg v = Ok z.
Proof.
  intros Hv. unfold _validate_priority.
  destruct (py_int cfg v) as [i|e]; [eauto|].
  destruct (Hv e eq_refl) as [-> | ->]; eauto.
Qed.

Lemma _validate_priority_raises cfg v e :
  py_int cfg v = Raise e -> e <> ValueError -> e <> TypeError ->
  _validate_priority cfg v = Raise e.
Proof.
  intros Hv H1 H2. unfold _validate_priority. rewrite Hv.
  by destruct e.
Qed.

(** Among the values of the built-in classes only a float infinity makes
    [int()] raise anything but [ValueError] and [TypeError]. *)
Lemma py_int_builtin cfg v e :
  (forall r o, v <> PyObject r o) ->
  (forall negative, v <> PyFloatV (FInf negative)) ->
  py_int cfg v = Raise e -> e = ValueError \/ e = TypeError.
Proof.
  intros Hobj Hinf.
  destruct v as [| b | z | z | [z | | b] | s | r o]; simpl;
    try discriminate.
  - intros [= <-]. by right.
  - intros [= <-]. by left.
  - exfalso. by apply (Hinf b).
  - destruct (int_of_string s); [discriminate|]. intros [= <-]. by left.
  - exfalso. by apply (Hobj r o).
Qed.

(** C10: the conversion [int(priority)] of a float infinity raises
    [OverflowError], which the validator does not catch: setting the
    priority to [float('inf')] raises instead of storing a value. *)
Theorem validate_priority_infinity_raises :
  forall cfg negative,
    _validate_priority cfg (PyFloatV (FInf negative)) = Raise OverflowError.
Proof. reflexivity. Qed.

(** ** Overbooking *)

Lemma overbooked_conflict self l : overbooked self l = true <-> conflict self l.
Proof.
  unfold overbooked, conflict.
  rewrite !orb_true_iff, !andb_true_iff, !Z.eqb_eq, !Z.ltb_lt. tauto.
Qed.

Lemma overbooking_loop_raises logs id self ids :
  (forall j, j ∈ ids -> is_Some (logs !! j)) ->
  (exists j, overbooking_loop logs id self ids = Raise (OverBookedError id j))
  <-> (exists j l, j ∈ ids /\ j <> id /\ logs !! j = Some l
                   /\ conflict self l).
Proof.
  induction ids as [|i ids IH]; intros Hres; simpl.
  - split; [intros [j [=]] | intros (j & l & Hin & _)].
    by apply elem_of_nil in Hin.
  - destruct (Hres i) as [l Hl]; [by left|]. rewrite Hl.
    destruct (negb (i =? id)%nat && overbooked self l) eqn:Hc.
    + apply andb_true_iff in Hc as [Hne Hov].
      apply negb_true_iff, Nat.eqb_neq in Hne.
      apply overbooked_conflict in Hov.
      split; [intros _ | eauto].
      exists i, l. repeat split; auto. by left.
    + rewrite IH by (intros j Hj; apply Hres; by right).
      split.
      * intros (j & l' & Hin & Hne & Hl' & Hcf).
        exists j, l'. repeat split; auto. by right.
      * intros (j & l' & Hin & Hne & Hl' & Hcf).
        apply elem_of_cons in Hin as [-> | Hin]; [| eauto 8].
        exfalso. rewrite Hl in Hl'. injection Hl' as <-.
        apply andb_false_iff in Hc as [Hc | Hc].
        -- apply negb_false_iff, Nat.eqb_eq in Hc. contradiction.
        -- apply overbooked_conflict in Hcf. congruence.
Qed.

Lemma overbooking_loop_result logs id self ids :
  (forall j, j ∈ ids -> is_Some (logs !! j)) ->
  overbooking_loop logs id self ids = Ok tt
  \/ exists j, overbooking_loop logs id self ids = Raise (OverBookedError id j).
Proof.
  induction ids as [|i ids IH]; intros Hres; simpl; [by left|].
  destruct (Hres i) as [l Hl]; [by left|]. rewrite Hl.
  destruct (negb (i =? id)%nat && overbooked self l); [right; eauto|].
  apply IH. intros j Hj. apply Hres. by right.
Qed.

(** C3: a new time log over [5, 25) contains the existing log over
    [10, 20) of the same resource, whose two boundaries lie strictly
    inside the new interval; the check compares only the new log's
    boundaries with the existing interval and returns the resource. *)
Theorem validate_resource_misses_containment :
  _validate_resource booked_logs booked_users 2
    (mkTimeLog None None 5 25) (Some 7%nat) = Ok 7%nat.
Proof. reflexivity. Qed.

(** C4, as the claim words it: a time log starting where an existing one
    of the resource ends would be rejected.  It is accepted. *)
Lemma validate_resource_touching_accepted :
  _validate_resource booked_logs booked_users 2
    (mkTimeLog None None 20 30) (Some 7%nat) <> Raise (OverBookedError 2 1)
  /\ _validate_resource booked_logs booked_users 2
       (mkTimeLog None None 20 30) (Some 7%nat) = Ok 7%nat
  /\ _validate_resource booked_logs booked_users 2
       (mkTimeLog None None 0 10) (Some 7%nat) = Ok 7%nat.
Proof. repeat split; discriminate. Qed.

(** C4 (amended): for a fixed resource, with intervals of positive
    length, a new time log is rejected with [OverBookedError] only when
    its interval overlaps the interval of another log of the resource,
    and it is rejected whenever it overlaps one that does not lie
    strictly inside it, where intervals that only touch do not overlap:
    a log that starts where the resource's other logs end, or ends where
    they start, is accepted.  The case of a log strictly inside the new
    interval is set apart. *)
Theorem validate_resource_overbooking :
  forall logs users_ id self r ids,
    users_ !! r = Some ids ->
    (forall j, j ∈ ids -> is_Some (logs !! j)) ->
    tl_start self < tl_end self ->
    (forall j l, j ∈ ids -> j <> id -> logs !! j = Some l ->
                 tl_start l < tl_end l) ->
    ((exists j, _validate_resource logs users_ id self (Some r)
                = Raise (OverBookedError id j))
     -> exists j l, j ∈ ids /\ j <> id /\ logs !! j = Some l
                    /\ overlaps self l)
    /\ ((exists j l, j ∈ ids /\ j <> id /\ logs !! j = Some l
                     /\ overlaps self l /\ ~ strictly_inside l self)
        -> exists j, _validate_resource logs users_ id self (Some r)
                     = Raise (OverBookedError id j))
    /\ ((forall j l, j ∈ ids -> j <> id -> logs !! j = Some l ->
                     tl_end l <= tl_start self \/ tl_end self <= tl_start l)
        -> _validate_resource logs users_ id self (Some r) = Ok r).
Proof.
  intros logs users_ id self r ids Hu Hres Hself Hproper.
  pose proof (overbooking_loop_raises logs id self ids Hres) as Hiff.
  pose proof (overbooking_loop_result logs id self ids Hres) as Hcase.
  assert (Hrun : forall j,
             _validate_resource logs users_ id self (Some r)
             = Raise (OverBookedError id j)
             <-> overbooking_loop logs id self ids
                 = Raise (OverBookedError id j)).
  { intros j. unfold _validate_resource. rewrite Hu. simpl.
    destruct (overbooking_loop logs id self ids) as [[]|e]; split;
      intros Hj; try discriminate; by injection Hj as ->. }
  assert (Hsound : (exists j, overbooking_loop logs id self ids
                              = Raise (OverBookedError id j))
                   -> exists j l, j ∈ ids /\ j <> id /\ logs !! j = Some l
                                  /\ overlaps self l).
  { intros Hex. apply Hiff in Hex as (j & l & Hin & Hne & Hl & Hcf).
    exists j, l. repeat split; auto.
    - pose proof (Hproper j l Hin Hne Hl). unfold conflict in Hcf. lia.
    - pose proof (Hproper j l Hin Hne Hl). unfold conflict in Hcf. lia. }
  split; [|split].
  - intros [j Hj]. apply Hsound. exists j. by apply Hrun.
  - intros (j & l & Hin & Hne & Hl & [Ho1 Ho2] & Hns).
    assert (Hex : exists j, overbooking_loop logs id self ids
                            = Raise (OverBookedError id j)).
    { apply Hiff. exists j, l. repeat split; auto.
      pose proof (Hproper j l Hin Hne Hl).
      unfold conflict, strictly_inside in *. lia. }
    destruct Hex as [j' Hj']. exists j'. by apply Hrun.
  - intros Hapart.
    destruct Hcase as [Hok | Hex].
    + unfold _validate_resource. rewrite Hu. simpl. by rewrite Hok.
    + exfalso. apply Hsound in Hex as (j & l & Hin & Hne & Hl & [Ho1 Ho2]).
      destruct (Hapart j l Hin Hne Hl); lia.
Qed.

Lemma validate_resource_overbooking_witness :
  _validate_resource booked_logs booked_users 2
    (mkTimeLog None None 20 30) (Some 7%nat) = Ok 7%nat
  /\ exists j, _validate_resource booked_logs booked_users 2
                 (mkTimeLog None None 15 25) (Some 7%nat)
               = Raise (OverBookedError 2 j).
Proof.
  assert (Hres : forall j, j ∈ [1%nat] -> is_Some (booked_logs !! j)).
  { intros j Hj. apply list_elem_of_singleton in Hj as ->.
    exists (mkTimeLog (Some 0%nat) (Some 7%nat) 10 20). reflexivity. }
  assert (Hproper : forall j l, j ∈ [1%nat] -> j <> 2%nat ->
                      booked_logs !! j = Some l -> tl_start l < tl_end l).
  { intros j l Hj _ Hl. apply list_elem_of_singleton in Hj as ->.
    vm_compute in Hl. injection Hl as <-. simpl. lia. }
  split.
  - refine (proj2 (proj2 (validate_resource_overbooking booked_logs
              booked_users 2 (mkTimeLog None None 20 30) 7%nat [1%nat]
              _ Hres _ Hproper)) _).
    + reflexivity.
    + simpl. lia.
    + intros j l Hj _ Hl. apply list_elem_of_singleton in Hj as ->.
      vm_compute in Hl. injection Hl as <-. simpl. lia.
  - refine (proj1 (proj2 (validate_resource_overbooking booked_logs
              booked_users 2 (mkTimeLog None None 15 25) 7%nat [1%nat]
              _ Hres _ Hproper)) _).
    + reflexivity.
    + simpl. lia.
    + exists 1%nat, (mkTimeLog (Some 0%nat) (Some 7%nat) 10 20).
      split; [by apply list_elem_of_singleton|]. split; [lia|].
      split; [reflexivity|]. unfold overlaps, strictly_inside. simpl. lia.
Defined.

(** ** The monad *)

Lemma bind_ok {A B} (m : M A) (k : A -> M B) h a h' :
  m h = Ok (a, h') -> bind m k h = k a h'.
Proof. intros H. unfold bind. by rewrite H. Qed.

Lemma bind_raise {A B} (m : M A) (k : A -> M B) h e :
  m h = Raise e -> bind m k h = Raise e.
Proof. intros H. unfold bind. by rewrite H. Qed.

Lemma bind_inv {A B} (m : M A) (k : A -> M B) h b h' :
  bind m k h = Ok (b, h') ->
  exists a h1, m h = Ok (a, h1) /\ k a h1 = Ok (b, h').
Proof.
  unfold bind. destruct (m h) as [[a h1]|e]; [eauto | discriminate].
Qed.

Lemma get_task_ok h t T : h !! t = Some T -> get_task t h = Ok (T, h).
Proof. intros H. unfold get_task. by rewrite H. Qed.

Lemma get_task_inv h t T h' :
  get_task t h = Ok (T, h') -> h !! t = Some T /\ h' = h.
Proof.
  unfold get_task. destruct (h !! t); [|discriminate].
  intros [= -> ->]. done.
Qed.

Lemma modify_task_ok h t T f :
  h !! t = Some T -> modify_task t f h = Ok (tt, <[t := f T]> h).
Proof. intros H. unfold modify_task. by rewrite H. Qed.

Lemma modify_task_inv h t f u h' :
  modify_task t f h = Ok (u, h') ->
  exists T, h !! t = Some T /\ h' = <[t := f T]> h.
Proof.
  unfold modify_task. destruct (h !! t) as [T|]; [|discriminate].
  intros [= _ <-]. eauto.
Qed.

(** ** Bumps along a chain *)

Section Bump.

Context (f : Task -> Task).

Lemma foldr_alter_notin (l : list nat) (h : Heap) (k : nat) :
  k ∉ l -> foldr (fun p m => alter f p m) h l !! k = h !! k.
Proof.
  induction l as [|p l IH]; intros Hk; simpl; [done|].
  apply not_elem_of_cons in Hk as [Hne Hk].
  rewrite lookup_alter_ne by done. by apply IH.
Qed.

Lemma foldr_alter_in (l : list nat) (h : Heap) (k : nat) :
  NoDup l -> k ∈ l -> foldr (fun p m => alter f p m) h l !! k = f <$> h !! k.
Proof.
  induction l as [|p l IH]; intros Hnd Hk; simpl.
  - by apply elem_of_nil in Hk.
  - apply NoDup_cons in Hnd as [Hp Hnd].
    apply elem_of_cons in Hk as [-> | Hk].
    + rewrite lookup_alter_eq. by rewrite foldr_alter_notin.
    + rewrite lookup_alter_ne by (intros ->; contradiction). by apply IH.
Qed.

Lemma foldr_alter_insert (l : list nat) (h : Heap) (t : nat) (T : Task) :
  t ∉ l ->
  <[t := T]> (foldr (fun p m => alter f p m) h l)
  = foldr (fun p m => alter f p m) (<[t := T]> h) l.
Proof.
  intros Ht. apply map_eq. intros k.
  destruct (decide (k = t)) as [->|Hne].
  - rewrite lookup_insert_eq, foldr_alter_notin by done.
    by rewrite lookup_insert_eq.
  - rewrite lookup_insert_ne by done.
    induction l as [|p l IH]; simpl; [by rewrite lookup_insert_ne|].
    apply not_elem_of_cons in Ht as [Hpt Ht].
    destruct (decide (k = p)) as [->|Hkp].
    + rewrite !lookup_alter_eq. f_equal. by apply IH.
    + rewrite !lookup_alter_ne by done. by apply IH.
Qed.

End Bump.

Lemma current_value_default (v : option Z) :
  (if truthy v then default 0 v else 0) = default 0 v.
Proof.
  destruct v as [z|]; simpl; [|done].
  destruct (Z.eqb_spec z 0); simpl; lia.
Qed.

(** ** Chains *)

Lemma is_chain_ext h h' t l :
  (forall k, parent <$> h !! k = parent <$> h' !! k) ->
  is_chain h t l -> is_chain h' t l.
Proof.
  intros Hext. revert t.
  induction l as [|p l IH]; intros t; simpl.
  - intros (T & HT & Hp). specialize (Hext t). rewrite HT in Hext.
    destruct (h' !! t) as [T'|]; [|discriminate].
    injection Hext as Hext. exists T'. split; congruence.
  - intros [(T & HT & Hp) Hc]. split; [|by apply IH].
    specialize (Hext t). rewrite HT in Hext.
    destruct (h' !! t) as [T'|]; [|discriminate].
    injection Hext as Hext. exists T'. split; congruence.
Qed.

Lemma is_chain_head h t l :
  is_chain h t l -> exists T, h !! t = Some T /\ parent T = head l.
Proof. destruct l; simpl; [done | intros [? _]; done]. Qed.

Lemma is_chain_lookup h t l k :
  is_chain h t l -> k ∈ l -> is_Some (h !! k).
Proof.
  revert t. induction l as [|p l IH]; intros t Hc Hk.
  - by apply elem_of_nil in Hk.
  - destruct Hc as [_ Hc].
    apply elem_of_cons in Hk as [-> | Hk]; [|by eapply IH].
    apply is_chain_head in Hc as (P & HP & _). eauto.
Qed.

(** ** Getters on initialised caches *)

Section CacheFacts.

Context (cfg : Config) (L : Logs).

Lemma schedule_seconds_getter_cached upd h p P c :
  h !! p = Some P -> is_container P = true ->
  _schedule_seconds P = Some c -> 0 <= c ->
  schedule_seconds_getter cfg upd p h = Ok (Some c, h).
Proof.
  intros HP Hc Hs Hnn. unfold schedule_seconds_getter.
  rewrite (bind_ok _ _ _ _ _ (get_task_ok _ _ _ HP)). rewrite Hc, Hs.
  destruct (Z.ltb_spec c 0); [lia|].
  unfold bind at 1. unfold ret at 1.
  rewrite (bind_ok _ _ _ _ _ (get_task_ok _ _ _ HP)). by rewrite Hs.
Qed.

Lemma schedule_seconds_getter_leaf upd h t T :
  h !! t = Some T -> is_container T = false ->
  schedule_seconds_getter cfg upd t h
  = Ok (Some (to_seconds cfg (schedule_timing T) (schedule_unit T)), h).
Proof.
  intros HT Hc. unfold schedule_seconds_getter.
  rewrite (bind_ok _ _ _ _ _ (get_task_ok _ _ _ HT)). by rewrite Hc.
Qed.

Lemma total_logged_seconds_getter_cached upd h p P c :
  h !! p = Some P -> is_container P = true ->
  _total_logged_seconds P = Some c ->
  total_logged_seconds_getter L upd p h = Ok (Some c, h).
Proof.
  intros HP Hc Hs. unfold total_logged_seconds_getter, is_leaf.
  rewrite (bind_ok _ _ _ _ _ (get_task_ok _ _ _ HP)). rewrite Hc, Hs. simpl.
  unfold bind at 1. unfold ret at 1.
  rewrite (bind_ok _ _ _ _ _ (get_task_ok _ _ _ HP)). by rewrite Hs.
Qed.

(** ** The setters along a chain of initialised ancestors *)

Lemma schedule_ready_cons h p l :
  schedule_ready h (p :: l) ->
  (exists P c, h !! p = Some P /\ is_container P = true
               /\ _schedule_seconds P = Some c /\ 0 <= c)
  /\ schedule_ready h l.
Proof. intros H. by apply Forall_cons in H. Qed.

Lemma logged_ready_cons h p l :
  logged_ready h (p :: l) ->
  (exists P c, h !! p = Some P /\ is_container P = true
               /\ _total_logged_seconds P = Some c)
  /\ logged_ready h l.
Proof. intros H. by apply Forall_cons in H. Qed.

Lemma logged_ready_ext h h' l :
  (forall k, k ∈ l -> h' !! k = h !! k) ->
  logged_ready h l -> logged_ready h' l.
Proof.
  intros Hext Hr. apply Forall_forall. intros p Hp.
  rewrite Hext by done. revert p Hp. by apply Forall_forall.
Qed.

Lemma schedule_ready_ext h h' l :
  (forall k, k ∈ l -> h' !! k = h !! k) ->
  schedule_ready h l -> schedule_ready h' l.
Proof.
  intros Hext Hr. apply Forall_forall. intros p Hp.
  rewrite Hext by done. revert p Hp. by apply Forall_forall.
Qed.

Lemma schedule_seconds_setter_chain l :
  forall fuel h t T v,
    is_chain h t l -> NoDup (t :: l) ->
    h !! t = Some T -> is_container T = true ->
    schedule_ready h l -> (length l < fuel)%nat ->
    schedule_seconds_setter cfg L fuel t v h
    = Ok (tt, <[t := set_schedule_cache (Some v) T]>
                (bump_schedule (v - default 0 (_schedule_seconds T)) l h)).
Proof.
  induction l as [|p l IH]; intros fuel h t T v Hch Hnd HT Hcont Hrdy Hfuel;
    (destruct fuel as [|f]; [simpl in Hfuel; lia|]); simpl.
  - destruct Hch as (T' & HT' & Hpar). rewrite HT in HT'. injection HT' as <-.
    rewrite (bind_ok _ _ _ _ _ (get_task_ok _ _ _ HT)). rewrite Hcont, Hpar.
    unfold bind at 1. unfold ret at 1. by apply modify_task_ok.
  - destruct Hch as [(T' & HT' & Hpar) Hch].
    rewrite HT in HT'. injection HT' as <-.
    apply schedule_ready_cons in Hrdy as [(P & c & HP & HPc & HPs & Hnn) Hrdy].
    apply NoDup_cons in Hnd as [Htl Hnd].
    apply not_elem_of_cons in Htl as [Htp Htl].
    rewrite (bind_ok _ _ _ _ _ (get_task_ok _ _ _ HT)). rewrite Hcont, Hpar.
    rewrite current_value_default.
    unfold bind at 1. unfold bind at 1.
    rewrite (schedule_seconds_getter_cached _ _ _ _ _ HP HPc HPs Hnn).
    unfold bind at 1. simpl.
    rewrite (IH f h p P _ Hch Hnd HP HPc Hrdy ltac:(simpl in Hfuel; lia)).
    rewrite HPs. simpl.
    assert (Hp_notin : p ∉ l) by (by apply NoDup_cons in Hnd as [? _]).
    erewrite modify_task_ok; cycle 1.
    { rewrite lookup_insert_ne by done.
      unfold bump_schedule. rewrite foldr_alter_notin by done. exact HT. }
    do 3 f_equal.
    apply map_eq. intros k. destruct (decide (k = p)) as [->|Hkp].
    + rewrite lookup_insert_eq, lookup_alter_eq.
      unfold bump_schedule. rewrite foldr_alter_notin by done.
      rewrite HP. simpl. unfold add_schedule. rewrite HPs. simpl.
      do 3 f_equal. lia.
    + rewrite lookup_insert_ne, lookup_alter_ne by done.
      unfold bump_schedule.
      replace (c - default 0 (_schedule_seconds T) + v - c)
        with (v - default 0 (_schedule_seconds T)) by lia.
      done.
Qed.

Lemma total_logged_seconds_setter_chain l :
  forall fuel h t T v,
    is_chain h t l -> NoDup (t :: l) ->
    h !! t = Some T -> is_container T = true ->
    logged_ready h l -> (length l < fuel)%nat ->
    total_logged_seconds_setter cfg L fuel t v h
    = Ok (tt, bump_logged (v - default 0 (_total_logged_seconds T)) l
                (<[t := set_logged_cache (Some v) T]> h)).
Proof.
  induction l as [|p l IH]; intros fuel h t T v Hch Hnd HT Hcont Hrdy Hfuel;
    (destruct fuel as [|f]; [simpl in Hfuel; lia|]); simpl.
  - destruct Hch as (T' & HT' & Hpar). rewrite HT in HT'. injection HT' as <-.
    rewrite (bind_ok _ _ _ _ _ (get_task_ok _ _ _ HT)). rewrite Hcont.
    rewrite (bind_ok _ _ _ _ _ (modify_task_ok _ _ _ _ HT)). by rewrite Hpar.
  - destruct Hch as [(T' & HT' & Hpar) Hch].
    rewrite HT in HT'. injection HT' as <-.
    apply logged_ready_cons in Hrdy as [(P & c & HP & HPc & HPs) Hrdy].
    apply NoDup_cons in Hnd as [Htl Hnd].
    apply not_elem_of_cons in Htl as [Htp Htl].
    assert (Hp_notin : p ∉ l) by (by apply NoDup_cons in Hnd as [? _]).
    rewrite (bind_ok _ _ _ _ _ (get_task_ok _ _ _ HT)). rewrite Hcont.
    rewrite (bind_ok _ _ _ _ _ (modify_task_ok _ _ _ _ HT)). rewrite Hpar.
    rewrite current_value_default.
    set (h1 := <[t := set_logged_cache (Some v) T]> h).
    assert (HP1 : h1 !! p = Some P).
    { unfold h1. rewrite lookup_insert_ne by done. exact HP. }
    rewrite (bind_ok _ _ _ _ _
               (total_logged_seconds_getter_cached _ _ _ _ _ HP1 HPc HPs)).
    simpl. unfold bind at 1. unfold ret at 1.
    rewrite (IH f h1 p P _).
    + rewrite HPs. simpl. do 2 f_equal.
      replace (c - default 0 (_total_logged_seconds T) + v - c)
        with (v - default 0 (_total_logged_seconds T)) by lia.
      unfold bump_logged. rewrite <- foldr_alter_insert by done. simpl.
      apply map_eq. intros k. destruct (decide (k = p)) as [->|Hkp].
      * rewrite lookup_insert_eq, lookup_alter_eq.
        rewrite foldr_alter_notin by done. rewrite HP1. simpl.
        unfold add_logged. rewrite HPs. simpl. do 3 f_equal. lia.
      * by rewrite lookup_insert_ne, lookup_alter_ne.
    + eapply is_chain_ext; [|exact Hch]. intros k. unfold h1.
      destruct (decide (k = t)) as [->|Hk].
      * by rewrite lookup_insert_eq, HT.
      * by rewrite lookup_insert_ne.
    + done.
    + done.
    + done.
    + eapply logged_ready_ext; [|exact Hrdy]. intros k Hk. unfold h1.
      rewrite lookup_insert_ne; [done|]. intros ->. contradiction.
    + simpl in Hfuel. lia.
Qed.

End CacheFacts.

(** ** Mutating the dates of a time log *)

Section TimeLogFacts.

Context (cfg : Config).

Lemma bump_logged_parent delta l (h : Heap) k :
  parent <$> bump_logged delta l h !! k = parent <$> h !! k.
Proof.
  unfold bump_logged. induction l as [|p l IH]; simpl; [done|].
  destruct (decide (k = p)) as [->|Hne].
  - rewrite lookup_alter_eq, <- IH.
    by destruct (foldr _ h l !! p).
  - by rewrite lookup_alter_ne.
Qed.

Lemma bump_logged_ready delta l (h : Heap) :
  NoDup l -> logged_ready h l -> logged_ready (bump_logged delta l h) l.
Proof.
  intros Hnd Hr. apply Forall_forall. intros p Hp.
  unfold logged_ready in Hr. rewrite Forall_forall in Hr.
  destruct (Hr p Hp) as (P & c & HP & Hc & Hs).
  exists (add_logged delta P), (c + delta).
  unfold bump_logged. rewrite foldr_alter_in by done. rewrite HP. simpl.
  unfold add_logged. rewrite Hs. done.
Qed.

Lemma update_total_logged_seconds_chain L fuel tlog task T p l
      new_duration old_duration h :
  tl_task tlog = Some task ->
  h !! task = Some T -> parent T = Some p ->
  is_chain h p l -> NoDup (p :: l) -> logged_ready h (p :: l) ->
  (length l < fuel)%nat ->
  __update_total_logged_seconds__ cfg L fuel tlog new_duration old_duration h
  = Ok (tt, bump_logged (new_duration - old_duration) (p :: l) h).
Proof.
  intros Htask HT Hpar Hch Hnd Hrdy Hfuel.
  unfold __update_total_logged_seconds__. rewrite Htask.
  rewrite (bind_ok _ _ _ _ _ (get_task_ok _ _ _ HT)). rewrite Hpar.
  pose proof Hrdy as Hrdy'.
  apply logged_ready_cons in Hrdy' as [(P & c & HP & HPc & HPs) Hrdyl].
  rewrite (bind_ok _ _ _ _ _
             (total_logged_seconds_getter_cached _ _ _ _ _ _ HP HPc HPs)).
  simpl. unfold bind at 1. unfold ret at 1.
  rewrite (total_logged_seconds_setter_chain cfg L l fuel h p P _
             Hch Hnd HP HPc Hrdyl Hfuel).
  rewrite HPs. simpl. do 2 f_equal.
  replace (c - old_duration + new_duration - c)
    with (new_duration - old_duration) by lia.
  assert (Hp_notin : p ∉ l) by (by apply NoDup_cons in Hnd as [? _]).
  unfold bump_logged. rewrite <- foldr_alter_insert by done. simpl.
  apply map_eq. intros k. destruct (decide (k = p)) as [->|Hkp].
  - rewrite lookup_insert_eq, lookup_alter_eq.
    rewrite foldr_alter_notin by done. rewrite HP. simpl.
    unfold add_logged. rewrite HPs. simpl. do 3 f_equal. lia.
  - by rewrite lookup_insert_ne, lookup_alter_ne.
Qed.

Lemma timelog_store_dates_chain fuel id d st tlog task T p l :
  logs st !! id = Some tlog -> tl_task tlog = Some task ->
  tasks st !! task = Some T -> parent T = Some p ->
  task ∉ p :: l ->
  is_chain (tasks st) p l -> NoDup (p :: l) ->
  logged_ready (tasks st) (p :: l) -> (length l < fuel)%nat ->
  timelog_store_dates cfg fuel id d st
  = Ok (mkState
          (bump_logged (snd (fst d) - fst (fst d)
                        - (tl_end tlog - fst (fst d)))
             (p :: l)
             (bump_logged (tl_end tlog - fst (fst d)
                           - (tl_end tlog - tl_start tlog))
                (p :: l) (tasks st)))
          (<[id := mkTimeLog (Some task) (tl_resource tlog)
                             (fst (fst d)) (snd (fst d))]> (logs st))
          (users st)).
Proof.
  intros Hlog Htask HT Hpar Hnotin Hch Hnd Hrdy Hfuel.
  unfold timelog_store_dates. rewrite Hlog.
  unfold update_time_log_task_parents_for_start.
  rewrite (update_total_logged_seconds_chain _ _ _ task T p l _ _ _
             Htask HT Hpar Hch Hnd Hrdy Hfuel).
  unfold update_time_log_task_parents_for_end.
  set (h1 := bump_logged _ (p :: l) (tasks st)).
  assert (HT1 : h1 !! task = Some T).
  { unfold h1, bump_logged. by rewrite foldr_alter_notin. }
  rewrite (update_total_logged_seconds_chain _ _ _ task T p l _ _ h1).
  - unfold h1. f_equal. f_equal.
    rewrite insert_insert_eq. unfold set_tl_end, set_tl_start. simpl.
    by rewrite Htask.
  - done.
  - done.
  - done.
  - eapply is_chain_ext; [|exact Hch]. intros k. unfold h1.
    by rewrite bump_logged_parent.
  - done.
  - by apply bump_logged_ready.
  - done.
Qed.


Lemma dates_mutated_bump (st : State) id tlog task l d :
  tl_task tlog = Some task ->
  NoDup l -> logged_ready (tasks st) l ->
  dates_mutated st id tlog l d
    (mkState
       (bump_logged (snd (fst d) - fst (fst d)
                     - (tl_end tlog - fst (fst d)))
          l
          (bump_logged (tl_end tlog - fst (fst d)
                        - (tl_end tlog - tl_start tlog))
             l (tasks st)))
       (<[id := mkTimeLog (Some task) (tl_resource tlog)
                          (fst (fst d)) (snd (fst d))]> (logs st))
       (users st)).
Proof.
  intros Htask Hnd Hrdy. unfold dates_mutated. simpl.
  split; [by rewrite lookup_insert_eq, Htask|]. split; [done|]. split.
  - intros a A Ha HA. unfold bump_logged.
    rewrite !foldr_alter_in by done. rewrite HA. simpl.
    eexists. split; [done|]. unfold add_logged, total_seconds. simpl.
    f_equal. lia.
  - intros k Hk. unfold bump_logged. by rewrite !foldr_alter_notin.
Qed.

(** C5, as the claim words it: a mutation of the start would re-run the
    overbooking check.  Moving the start of the second log to 15 puts it
    inside the first log's interval; the mutation is stored, although the
    check on the new interval reports the conflict. *)
Lemma timelog_start_set_skips_overbooking_check :
  exists st',
    timelog_start_set example_cfg 5 0 2 15 two_logs_state = Ok st'
    /\ logs st' !! 2%nat = Some (mkTimeLog (Some 0%nat) (Some 7%nat) 15 40)
    /\ _validate_resource (logs st') (users st') 2
         (mkTimeLog (Some 0%nat) (Some 7%nat) 15 40) (Some 7%nat)
       = Raise (OverBookedError 2 1).
Proof. eexists. split; [vm_compute; reflexivity|]. split; reflexivity. Qed.

(** C5 (amended): mutating the start or the end of an existing time log
    does not run the overbooking check; the dates are reconciled and
    stored, and the duration delta (new duration minus old duration) is
    added to the cached logged seconds of every ancestor of the owning
    task, up the entire chain. *)
Theorem timelog_dates_set_propagates_delta :
  forall fuel now id v st tlog task T p l,
    logs st !! id = Some tlog -> tl_task tlog = Some task ->
    tasks st !! task = Some T -> parent T = Some p ->
    task ∉ p :: l ->
    is_chain (tasks st) p l -> NoDup (p :: l) ->
    logged_ready (tasks st) (p :: l) -> (length l < fuel)%nat ->
    (exists st',
        timelog_start_set cfg fuel now id v st = Ok st'
        /\ dates_mutated st id tlog (p :: l)
             (_validate_dates now (Some v) (Some (tl_end tlog))
                              (Some (total_seconds tlog))) st')
    /\ (exists st',
          timelog_end_set cfg fuel now id v st = Ok st'
          /\ dates_mutated st id tlog (p :: l)
               (_validate_dates now (Some (tl_start tlog)) (Some v)
                                (Some (total_seconds tlog))) st').
Proof.
  intros fuel now id v st tlog task T p l Hlog Htask HT Hpar Hnotin Hch Hnd
         Hrdy Hfuel.
  split; eexists; (split;
    [ unfold timelog_start_set, timelog_end_set; rewrite Hlog;
      eapply timelog_store_dates_chain; eassumption
    | by apply dates_mutated_bump ]).
Qed.

End TimeLogFacts.

Lemma timelog_dates_set_propagates_delta_witness :
  exists st',
    timelog_start_set example_cfg 3 0 5 4 nested_state = Ok st'
    /\ dates_mutated nested_state 5
         (mkTimeLog (Some 3%nat) (Some 7%nat) 10 20) [2%nat; 1%nat]
         (4, 20, 16) st'.
Proof.
  refine (proj1 (timelog_dates_set_propagates_delta example_cfg 3 0 5 4
            nested_state (mkTimeLog (Some 3%nat) (Some 7%nat) 10 20)
            3%nat (leaf_task (Some 2%nat) [5%nat] 1 UHour) 2%nat [1%nat]
            _ _ _ _ _ _ _ _ _)).
  - reflexivity.
  - reflexivity.
  - reflexivity.
  - reflexivity.
  - intros H. repeat (apply elem_of_cons in H as [H|H]; [discriminate|]).
    by apply elem_of_nil in H.
  - simpl. split; eexists; split; reflexivity.
  - repeat constructor; intros H;
      repeat (apply elem_of_cons in H as [H|H]; [discriminate|]);
      by apply elem_of_nil in H.
  - repeat constructor; eexists _, _; repeat split; reflexivity.
  - simpl. lia.
Defined.

(** ** Dependencies *)

(** C7, as the claim words it: the ancestor 1 of the task 2 already
    depends directly on the task 3, so adding 3 to the dependencies of 2
    would be rejected.  It is accepted and stored: the loop over the
    ancestors tests whether the ancestor is among the dependencies of the
    new dependency, not whether the new dependency is among the
    ancestor's. *)
Lemma validate_depends_accepts_dependency_of_ancestor :
  (parent <$> depending_parent !! 2%nat) = Some (Some 1%nat)
  /\ (depends <$> depending_parent !! 1%nat) = Some [3%nat]
  /\ exists h',
      depends_append 5 2 3 depending_parent = Ok (tt, h')
      /\ (depends <$> h' !! 2%nat) = Some [3%nat].
Proof.
  split; [reflexivity|]. split; [reflexivity|].
  eexists. split; [vm_compute; reflexivity | reflexivity].
Qed.

(** What the loop over the ancestors rejects. *)
Lemma depends_parent_loop_raises fuel h p d D :
  h !! d = Some D -> task_in p (depends D) = true ->
  depends_parent_loop (S fuel) (Some p) d h
  = Raise (CircularDependencyError "parents").
Proof.
  intros HD Hin. simpl.
  rewrite (bind_ok _ _ _ _ _ (get_task_ok _ _ _ HD)). by rewrite Hin.
Qed.

(** The loop over the chain of ancestors, nearest first. *)
Lemma depends_parent_loop_chain fuel h t T l d D :
  h !! t = Some T -> is_chain h t l -> h !! d = Some D ->
  (length l <= fuel)%nat ->
  depends_parent_loop fuel (parent T) d h
  = if existsb (fun p => task_in p (depends D)) l
    then Raise (CircularDependencyError "parents")
    else Ok (tt, h).
Proof.
  revert fuel t T.
  induction l as [|p l IH]; intros fuel t T HT Hc HD Hf.
  - destruct Hc as (T' & HT' & Hp).
    assert (T' = T) as -> by congruence.
    rewrite Hp. by destruct fuel.
  - destruct Hc as [(T' & HT' & Hp) Hc].
    assert (T' = T) as -> by congruence.
    rewrite Hp. simpl in Hf. destruct fuel as [|f]; [lia|]. simpl.
    rewrite (bind_ok _ _ _ _ _ (get_task_ok h d D HD)).
    destruct (task_in p (depends D)); [done|]. simpl.
    destruct (is_chain_head _ _ _ Hc) as (P & HP & _).
    rewrite (bind_ok _ _ _ _ _ (get_task_ok h p P HP)).
    apply (IH f p P HP Hc HD). lia.
Qed.

Lemma task_in_elem p l : task_in p l = true <-> p ∈ l.
Proof.
  unfold task_in. rewrite existsb_exists. split.
  - intros (x & Hin & Heq). apply Nat.eqb_eq in Heq as ->.
    by apply list_elem_of_In.
  - intros Hin. exists p. split; [by apply list_elem_of_In|].
    apply Nat.eqb_refl.
Qed.

Lemma ancestor_listed l ds :
  existsb (fun p => task_in p ds) l = true
  <-> exists p, p ∈ l /\ p ∈ ds.
Proof.
  rewrite existsb_exists. split.
  - intros (p & Hin & Hp). exists p.
    split; [by apply list_elem_of_In | by apply task_in_elem].
  - intros (p & Hin & Hp). exists p.
    split; [by apply list_elem_of_In | by apply task_in_elem].
Qed.

(** C7 (amended): when the dependency D is added to the task T and the
    two calls of [check_circular_dependency] pass, the walk over the
    ancestors of T rejects with [CircularDependencyError] exactly when D
    depends directly on one of them, that is when an ancestor of T is
    listed in [D.depends].  The rejection comes from the validator,
    before anything is stored, so the dependencies of T are unchanged;
    otherwise the validator leaves the store as it is and D is appended
    to the dependencies of T.  Whether an ancestor of T depends on D
    plays no part. *)
Theorem validate_depends_rejects_dependency_on_ancestor :
  forall fuel h t T l d D,
    h !! t = Some T -> is_chain h t l -> h !! d = Some D ->
    (length l <= fuel)%nat ->
    reaches fuel RDepends h d t = Ok false ->
    reaches fuel RChildren h d t = Ok false ->
    ((exists p, p ∈ l /\ p ∈ depends D) ->
     _validate_depends fuel t d h = Raise (CircularDependencyError "parents")
     /\ depends_append fuel t d h
        = Raise (CircularDependencyError "parents"))
    /\ ((forall p, p ∈ l -> p ∉ depends D) ->
        _validate_depends fuel t d h = Ok (d, h)
        /\ depends_append fuel t d h
           = Ok (tt, <[t := set_depends (depends T ++ [d]) T]> h)).
Proof.
  intros fuel h t T l d D HT Hc HD Hf Hdep Hch.
  pose proof (depends_parent_loop_chain fuel h t T l d D HT Hc HD Hf)
    as Hloop.
  assert (Hval : _validate_depends fuel t d h
                 = if existsb (fun p => task_in p (depends D)) l
                   then Raise (CircularDependencyError "parents")
                   else Ok (d, h)).
  { unfold _validate_depends, check_circular_dependency, bind at 1 2.
    rewrite Hdep, Hch.
    rewrite (bind_ok _ _ _ _ _ (get_task_ok h t T HT)).
    unfold bind. rewrite Hloop.
    by destruct (existsb (fun p => task_in p (depends D)) l). }
  split.
  - intros Hex. apply ancestor_listed in Hex.
    rewrite Hex in Hval. split; [done|].
    unfold depends_append. by apply bind_raise.
  - intros Hnone.
    assert (Hex : existsb (fun p => task_in p (depends D)) l = false).
    { apply not_true_iff_false. intros Hex.
      apply ancestor_listed in Hex as (p & Hp & Hin).
      by apply (Hnone p Hp). }
    rewrite Hex in Hval. split; [done|].
    unfold depends_append. rewrite (bind_ok _ _ _ _ _ Hval).
    rewrite (bind_ok _ _ _ _ _ (get_task_ok h t T HT)).
    by apply modify_task_ok.
Qed.

Lemma validate_depends_rejects_dependency_on_ancestor_witness :
  depends_append 5 2 3 depending_on_parent
  = Raise (CircularDependencyError "parents")
  /\ depends_append 5 2 3 depending_parent
     = Ok (tt, <[2%nat := set_depends [3%nat] (leaf_task (Some 1%nat) [] 1 UHour)]>
                 depending_parent).
Proof.
  split.
  - refine (proj2 (proj1 (validate_depends_rejects_dependency_on_ancestor 5
              depending_on_parent 2 (leaf_task (Some 1%nat) [] 1 UHour)
              [1%nat] 3 (set_depends [1%nat] (leaf_task None [] 1 UHour))
              _ _ _ _ _ _) _)).
    + reflexivity.
    + simpl. split; [by eexists|]. by eexists.
    + reflexivity.
    + simpl. lia.
    + reflexivity.
    + reflexivity.
    + exists 1%nat. split; by apply list_elem_of_singleton.
  - refine (proj2 (proj2 (validate_depends_rejects_dependency_on_ancestor 5
              depending_parent 2 (leaf_task (Some 1%nat) [] 1 UHour)
              [1%nat] 3 (leaf_task None [] 1 UHour)
              _ _ _ _ _ _) _)).
    + reflexivity.
    + simpl. split; [by eexists|]. by eexists.
    + reflexivity.
    + simpl. lia.
    + reflexivity.
    + reflexivity.
    + intros p _ Hp. by apply elem_of_nil in Hp.
Defined.

(** ** Children *)

(** C1: the leaf 3 (ten hours) sits under the container 2 under the root
    1, both caching 36000 seconds.  Giving the new leaf 4 (one hour) the
    parent 3 replaces the cache of 3 and re-bases the cache of its parent
    2 to 3600, but the root keeps 36000: it no longer equals the sum over
    its only child, and its getter returns the stale value. *)
Theorem add_child_to_leaf_leaves_root_stale :
  exists h',
    parent_set example_cfg ∅ 5 0 4 (Some 3%nat) grown_tree = Ok (tt, h')
    /\ (children <$> h' !! 1%nat) = Some [2%nat]
    /\ (children <$> h' !! 3%nat) = Some [4%nat]
    /\ schedule_seconds_getter example_cfg
         (update_schedule_info example_cfg ∅ 5) 2 h' = Ok (Some 3600, h')
    /\ schedule_seconds_getter example_cfg
         (update_schedule_info example_cfg ∅ 5) 1 h' = Ok (Some 36000, h').
Proof.
  eexists. split; [vm_compute; reflexivity|].
  repeat split; vm_compute; reflexivity.
Qed.

(** ** Recomputing the caches *)

Lemma erase_fields T T' :
  erase T = erase T' ->
  parent T = parent T' /\ children T = children T'
  /\ time_logs T = time_logs T'
  /\ schedule_timing T = schedule_timing T'
  /\ schedule_unit T = schedule_unit T'
  /\ is_container T = is_container T'.
Proof.
  unfold erase, set_schedule_cache, set_logged_cache, is_container. simpl.
  intros [= -> -> _ _ -> -> -> _ _ _ _ _]. done.
Qed.

Lemma erase_set_caches T T' a b :
  erase T = erase T' ->
  set_logged_cache a (set_schedule_cache b T)
  = set_logged_cache a (set_schedule_cache b T').
Proof.
  unfold erase, set_schedule_cache, set_logged_cache. simpl.
  intros [= -> -> -> -> -> -> -> -> -> -> -> ->]. done.
Qed.

Lemma erase_set_schedule_cache a T : erase (set_schedule_cache a T) = erase T.
Proof. done. Qed.

Lemma erase_set_logged_cache a T : erase (set_logged_cache a T) = erase T.
Proof. done. Qed.

Lemma sim_lookup D h1 h2 k T :
  sim D h1 h2 -> h1 !! k = Some T ->
  exists T2, h2 !! k = Some T2 /\ erase T = erase T2.
Proof.
  intros [Hsk _] HT. specialize (Hsk k). rewrite HT in Hsk.
  destruct (h2 !! k) as [T2|]; [|discriminate].
  simpl in Hsk. exists T2. split; [done | congruence].
Qed.

Lemma sim_mono (D D' : nat -> Prop) h1 h2 :
  (forall k, D' k -> D k) -> sim D h1 h2 -> sim D' h1 h2.
Proof. intros Hsub [Hsk Heq]. split; auto. Qed.

Lemma sim_insert (D : nat -> Prop) h1 h2 t T1 T2 :
  sim D h1 h2 -> erase T1 = erase T2 -> (D t -> T1 = T2) ->
  sim D (<[t := T1]> h1) (<[t := T2]> h2).
Proof.
  intros [Hsk Heq] He HD. split; intros k.
  - destruct (decide (k = t)) as [->|Hne].
    + rewrite !lookup_insert_eq. simpl. by rewrite He.
    + rewrite !lookup_insert_ne by done. apply Hsk.
  - intros Hk. destruct (decide (k = t)) as [->|Hne].
    + rewrite !lookup_insert_eq. f_equal. auto.
    + rewrite !lookup_insert_ne by done. auto.
Qed.

Lemma sim_insert_eq (D : nat -> Prop) h1 h2 t T :
  sim D h1 h2 ->
  (forall T1, h1 !! t = Some T1 -> erase T1 = erase T) ->
  is_Some (h1 !! t) ->
  sim (fun k => D k \/ t = k) (<[t := T]> h1) (<[t := T]> h2).
Proof.
  intros [Hsk Heq] He [T1 HT1]. split; intros k.
  - destruct (decide (k = t)) as [->|Hne].
    + by rewrite !lookup_insert_eq.
    + rewrite !lookup_insert_ne by done. apply Hsk.
  - intros Hk. destruct (decide (k = t)) as [->|Hne].
    + by rewrite !lookup_insert_eq.
    + rewrite !lookup_insert_ne by done. destruct Hk as [Hk|Hk]; [auto|].
      congruence.
Qed.

Section UpdateFacts.

Context (cfg : Config) (L : Logs).

Lemma sum_time_logs_pure ids acc (h1 h2 : Heap) z h1' :
  sum_time_logs L ids acc h1 = Ok (z, h1') ->
  h1' = h1 /\ sum_time_logs L ids acc h2 = Ok (z, h2).
Proof.
  revert acc. induction ids as [|i ids IH]; intros acc; simpl.
  - intros [= -> ->]. done.
  - destruct (L !! i); [apply IH | discriminate].
Qed.

Lemma total_logged_seconds_getter_leaf_run upd h t T v h' :
  h !! t = Some T -> is_container T = false ->
  total_logged_seconds_getter L upd t h = Ok (v, h') ->
  exists z, v = Some z /\ h' = h
            /\ forall h2 : Heap,
                sum_time_logs L (time_logs T) 0 h2 = Ok (z, h2).
Proof.
  intros HT Hl. unfold total_logged_seconds_getter, is_leaf.
  rewrite (bind_ok _ _ _ _ _ (get_task_ok _ _ _ HT)). rewrite Hl. simpl.
  intros Hrun. apply bind_inv in Hrun as (s & h0 & Hsum & Hrun).
  injection Hrun as <- <-. exists s.
  destruct (sum_time_logs_pure _ _ _ h _ _ Hsum) as [-> _].
  repeat split. intros h2.
  by destruct (sum_time_logs_pure _ _ _ h2 _ _ Hsum) as [_ ?].
Qed.

Lemma total_logged_seconds_getter_leaf upd h t T z :
  h !! t = Some T -> is_container T = false ->
  sum_time_logs L (time_logs T) 0 h = Ok (z, h) ->
  total_logged_seconds_getter L upd t h = Ok (Some z, h).
Proof.
  intros HT Hl Hsum. unfold total_logged_seconds_getter, is_leaf.
  rewrite (bind_ok _ _ _ _ _ (get_task_ok _ _ _ HT)). rewrite Hl. simpl.
  by rewrite (bind_ok _ _ _ _ _ Hsum).
Qed.

Section Getters.

Context (upd : nat -> M unit).
Context (Hupd : forall t, simulates (upd t) (eq t)).

Lemma schedule_seconds_getter_sim c h1 v h1' (D : nat -> Prop) h2 :
  schedule_seconds_getter cfg upd c h1 = Ok (v, h1') ->
  sim D h1 h2 ->
  (D c \/ exists C, h1 !! c = Some C /\ is_container C = false) ->
  exists h2', schedule_seconds_getter cfg upd c h2 = Ok (v, h2')
              /\ sim D h1' h2'.
Proof.
  intros Hrun Hsim Hc. unfold schedule_seconds_getter in *.
  apply bind_inv in Hrun as (C & h & Hget & Hrun).
  apply get_task_inv in Hget as [HC ->].
  destruct (sim_lookup _ _ _ _ _ Hsim HC) as (C2 & HC2 & He).
  apply erase_fields in He as (_ & _ & _ & Ht & Hu & Hcont).
  rewrite (bind_ok _ _ _ _ _ (get_task_ok _ _ _ HC2)). rewrite <- Hcont.
  destruct (is_container C) eqn:HCc.
  - destruct Hc as [HD | (C' & HC' & Hleaf)]; [|congruence].
    assert (C2 = C) as ->.
    { destruct Hsim as [_ Heq]. rewrite (Heq c HD) in HC. congruence. }
    apply bind_inv in Hrun as ([] & h & Hu1 & Hrun).
    assert (exists h2a, (match _schedule_seconds C with
                         | Some v0 => if v0 <? 0 then upd c else ret tt
                         | None => upd c
                         end) h2 = Ok (tt, h2a) /\ sim D h h2a)
      as (h2a & Hu2 & Hsim').
    { destruct (_schedule_seconds C) as [v0|];
        [destruct (v0 <? 0)|].
      - destruct (Hupd c _ _ _ Hu1 _ _ Hsim) as (h2a & ? & Hs).
        exists h2a. split; [done|].
        eapply sim_mono; [|exact Hs]. intros k Hk. by left.
      - injection Hu1 as <-. eauto.
      - destruct (Hupd c _ _ _ Hu1 _ _ Hsim) as (h2a & ? & Hs).
        exists h2a. split; [done|].
        eapply sim_mono; [|exact Hs]. intros k Hk. by left. }
    rewrite (bind_ok _ _ _ _ _ Hu2).
    apply bind_inv in Hrun as (C' & h' & Hget & Hrun).
    apply get_task_inv in Hget as [HC' ->].
    injection Hrun as <- <-.
    assert (HC2' : h2a !! c = Some C').
    { destruct Hsim' as [_ Heq]. by rewrite <- (Heq c HD). }
    rewrite (bind_ok _ _ _ _ _ (get_task_ok _ _ _ HC2')). eauto.
  - injection Hrun as <- <-. rewrite Ht, Hu. eauto.
Qed.

Lemma total_logged_seconds_getter_sim c h1 v h1' (D : nat -> Prop) h2 :
  total_logged_seconds_getter L upd c h1 = Ok (v, h1') ->
  sim D h1 h2 ->
  (D c \/ exists C, h1 !! c = Some C /\ is_container C = false) ->
  exists h2', total_logged_seconds_getter L upd c h2 = Ok (v, h2')
              /\ sim D h1' h2'.
Proof.
  intros Hrun Hsim Hc. unfold total_logged_seconds_getter, is_leaf in *.
  apply bind_inv in Hrun as (C & h & Hget & Hrun).
  apply get_task_inv in Hget as [HC ->].
  destruct (sim_lookup _ _ _ _ _ Hsim HC) as (C2 & HC2 & He).
  apply erase_fields in He as (_ & _ & Hlogs & _ & _ & Hcont).
  rewrite (bind_ok _ _ _ _ _ (get_task_ok _ _ _ HC2)). rewrite <- Hcont.
  destruct (is_container C) eqn:HCc; simpl in *.
  - destruct Hc as [HD | (C' & HC' & Hleaf)]; [|congruence].
    assert (C2 = C) as ->.
    { destruct Hsim as [_ Heq]. rewrite (Heq c HD) in HC. congruence. }
    apply bind_inv in Hrun as ([] & h & Hu1 & Hrun).
    assert (exists h2a, (match _total_logged_seconds C with
                         | Some _ => ret tt
                         | None => upd c
                         end) h2 = Ok (tt, h2a) /\ sim D h h2a)
      as (h2a & Hu2 & Hsim').
    { destruct (_total_logged_seconds C) as [v0|].
      - injection Hu1 as <-. eauto.
      - destruct (Hupd c _ _ _ Hu1 _ _ Hsim) as (h2a & ? & Hs).
        exists h2a. split; [done|].
        eapply sim_mono; [|exact Hs]. intros k Hk. by left. }
    rewrite (bind_ok _ _ _ _ _ Hu2).
    apply bind_inv in Hrun as (C' & h' & Hget & Hrun).
    apply get_task_inv in Hget as [HC' ->].
    injection Hrun as <- <-.
    assert (HC2' : h2a !! c = Some C').
    { destruct Hsim' as [_ Heq]. by rewrite <- (Heq c HD). }
    rewrite (bind_ok _ _ _ _ _ (get_task_ok _ _ _ HC2')). eauto.
  - apply bind_inv in Hrun as (s & h & Hsum & Hrun).
    injection Hrun as <- <-.
    destruct (sum_time_logs_pure _ _ _ h2 _ _ Hsum) as [-> Hsum2].
    rewrite <- Hlogs. rewrite (bind_ok _ _ _ _ _ Hsum2). eauto.
Qed.


Lemma schedule_seconds_getter_leaf_inv c h C v h' :
  h !! c = Some C -> is_container C = false ->
  schedule_seconds_getter cfg upd c h = Ok (v, h') -> h' = h.
Proof.
  intros HC Hl. rewrite (schedule_seconds_getter_leaf _ _ _ _ _ HC Hl).
  by intros [= _ <-].
Qed.

Lemma total_logged_seconds_getter_leaf_inv c h C v h' :
  h !! c = Some C -> is_container C = false ->
  total_logged_seconds_getter L upd c h = Ok (v, h') -> h' = h.
Proof.
  intros HC Hl. unfold total_logged_seconds_getter, is_leaf.
  rewrite (bind_ok _ _ _ _ _ (get_task_ok _ _ _ HC)). rewrite Hl. simpl.
  intros Hrun. apply bind_inv in Hrun as (s & h0 & Hsum & Hrun).
  injection Hrun as _ <-.
  by destruct (sum_time_logs_pure _ _ _ h _ _ Hsum) as [-> _].
Qed.

Lemma schedule_seconds_getter_step c h1 v h1' (D : nat -> Prop) h2 :
  schedule_seconds_getter cfg upd c h1 = Ok (v, h1') ->
  sim D h1 h2 -> settled D c h1 ->
  exists h2', schedule_seconds_getter cfg upd c h2 = Ok (v, h2')
              /\ sim D h1' h2' /\ settled D c h1'.
Proof.
  intros Hrun Hsim Hc.
  destruct (schedule_seconds_getter_sim _ _ _ _ _ _ Hrun Hsim Hc)
    as (h2' & H2 & Hs).
  exists h2'. split; [done|]. split; [done|].
  destruct Hc as [HD | (C & HC & Hl)]; [by left|]. right.
  rewrite (schedule_seconds_getter_leaf_inv _ _ _ _ _ HC Hl Hrun). eauto.
Qed.

Lemma total_logged_seconds_getter_step c h1 v h1' (D : nat -> Prop) h2 :
  total_logged_seconds_getter L upd c h1 = Ok (v, h1') ->
  sim D h1 h2 -> settled D c h1 ->
  exists h2', total_logged_seconds_getter L upd c h2 = Ok (v, h2')
              /\ sim D h1' h2' /\ settled D c h1'.
Proof.
  intros Hrun Hsim Hc.
  destruct (total_logged_seconds_getter_sim _ _ _ _ _ _ Hrun Hsim Hc)
    as (h2' & H2 & Hs).
  exists h2'. split; [done|]. split; [done|].
  destruct Hc as [HD | (C & HC & Hl)]; [by left|]. right.
  rewrite (total_logged_seconds_getter_leaf_inv _ _ _ _ _ HC Hl Hrun). eauto.
Qed.

Lemma sum_children_sim cs :
  forall a b h1 r h1' (D : nat -> Prop) h2,
    sum_children cfg L upd cs a b h1 = Ok (r, h1') ->
    sim D h1 h2 ->
    exists h2', sum_children cfg L upd cs a b h2 = Ok (r, h2')
                /\ sim D h1' h2'.
Proof.
  induction cs as [|c cs IH]; intros a b h1 r h1' D h2 Hrun Hsim; simpl in *.
  - injection Hrun as <- <-. eauto.
  - apply bind_inv in Hrun as (C & h & Hget & Hrun).
    apply get_task_inv in Hget as [HC ->].
    destruct (sim_lookup _ _ _ _ _ Hsim HC) as (C2 & HC2 & He).
    apply erase_fields in He as (_ & _ & _ & _ & _ & Hcont).
    rewrite (bind_ok _ _ _ _ _ (get_task_ok _ _ _ HC2)). rewrite <- Hcont.
    apply bind_inv in Hrun as ([] & ha & Hu1 & Hrun).
    assert (exists (D' : nat -> Prop) h2a,
               (if is_container C then upd c else ret tt) h2 = Ok (tt, h2a)
               /\ sim D' ha h2a /\ (forall k, D k -> D' k)
               /\ settled D' c ha)
      as (D' & h2a & Hu2 & HsimA & Hsub & Hset).
    { destruct (is_container C) eqn:HCc.
      - destruct (Hupd c _ _ _ Hu1 _ _ Hsim) as (h2a & ? & Hs).
        exists (fun k => D k \/ c = k), h2a.
        repeat split; [done | apply Hs | apply Hs | by left | by left; right].
      - injection Hu1 as <-. exists D, h2.
        repeat split; [apply Hsim | apply Hsim | done | right; eauto]. }
    rewrite (bind_ok _ _ _ _ _ Hu2).
    apply bind_inv in Hrun as (s & hb & Hg1 & Hrun).
    destruct (schedule_seconds_getter_step _ _ _ _ _ _ Hg1 HsimA Hset)
      as (h2b & Hg1' & HsimB & HsetB).
    rewrite (bind_ok _ _ _ _ _ Hg1').
    apply bind_inv in Hrun as (b' & hc & Hblk1 & Hrun).
    assert (exists h2c,
               (if truthy s
                then s' <- schedule_seconds_getter cfg upd c;;
                     v <- as_int s';; ret (b + v)
                else ret b) h2b = Ok (b', h2c)
               /\ sim D' hc h2c /\ settled D' c hc)
      as (h2c & Hblk1' & HsimC & HsetC).
    { destruct (truthy s).
      - apply bind_inv in Hblk1 as (s' & hx & Hg & Hblk1).
        destruct (schedule_seconds_getter_step _ _ _ _ _ _ Hg HsimB HsetB)
          as (h2x & Hg' & HsimX & HsetX).
        rewrite (bind_ok _ _ _ _ _ Hg').
        destruct s' as [z|]; [|discriminate]. simpl in *.
        injection Hblk1 as <- <-. eauto.
      - injection Hblk1 as <- <-. eauto. }
    rewrite (bind_ok _ _ _ _ _ Hblk1').
    apply bind_inv in Hrun as (l & hd & Hg2 & Hrun).
    destruct (total_logged_seconds_getter_step _ _ _ _ _ _ Hg2 HsimC HsetC)
      as (h2d & Hg2' & HsimD & HsetD).
    rewrite (bind_ok _ _ _ _ _ Hg2').
    apply bind_inv in Hrun as (a' & he & Hblk2 & Hrun).
    assert (exists h2e,
               (if truthy l
                then l' <- total_logged_seconds_getter L upd c;;
                     v <- as_int l';; ret (a + v)
                else ret a) h2d = Ok (a', h2e)
               /\ sim D' he h2e)
      as (h2e & Hblk2' & HsimE).
    { destruct (truthy l).
      - apply bind_inv in Hblk2 as (l' & hx & Hg & Hblk2).
        destruct (total_logged_seconds_getter_step _ _ _ _ _ _ Hg HsimD HsetD)
          as (h2x & Hg' & HsimX & HsetX).
        rewrite (bind_ok _ _ _ _ _ Hg').
        destruct l' as [z|]; [|discriminate]. simpl in *.
        injection Hblk2 as <- <-. eauto.
      - injection Hblk2 as <- <-. eauto. }
    rewrite (bind_ok _ _ _ _ _ Hblk2').
    destruct (IH _ _ _ _ _ _ _ Hrun HsimE) as (h2' & Hrec & HsimF).
    exists h2'. split; [done|]. eapply sim_mono; [|exact HsimF]. done.
Qed.

End Getters.

Lemma update_schedule_info_sim fuel :
  forall t, simulates (update_schedule_info cfg L fuel t) (eq t).
Proof.
  induction fuel as [|f IH]; intros t h1 [] h1' Hrun D h2 Hsim; simpl in *;
    [discriminate|].
  apply bind_inv in Hrun as (T & h & Hget & Hrun).
  apply get_task_inv in Hget as [HT ->].
  destruct (sim_lookup _ _ _ _ _ Hsim HT) as (T2 & HT2 & He).
  pose proof (erase_fields _ _ He) as (_ & Hch & Hlogs & Htm & Hun & Hcont).
  rewrite (bind_ok _ _ _ _ _ (get_task_ok _ _ _ HT2)). rewrite <- Hcont.
  destruct (is_container T) eqn:HTc.
  - apply bind_inv in Hrun as (sums & ha & Hsum & Hrun).
    destruct (sum_children_sim _ IH _ _ _ _ _ _ _ _ Hsum Hsim)
      as (h2a & Hsum2 & HsimA).
    rewrite <- Hch. rewrite (bind_ok _ _ _ _ _ Hsum2).
    apply bind_inv in Hrun as ([] & hb & Hm1 & Hm2).
    apply modify_task_inv in Hm1 as (Ta & HTa & ->).
    apply modify_task_inv in Hm2 as (Tb & HTb & ->).
    rewrite lookup_insert_eq in HTb. injection HTb as <-.
    destruct (sim_lookup _ _ _ _ _ HsimA HTa) as (Ta2 & HTa2 & Hea).
    rewrite (bind_ok _ _ _ _ _ (modify_task_ok _ _ _ _ HTa2)).
    erewrite modify_task_ok by apply lookup_insert_eq.
    eexists. split; [done|].
    rewrite !insert_insert_eq.
    rewrite (erase_set_caches _ _ _ _ Hea).
    apply sim_insert_eq; [done| |eauto].
    intros T1 HT1. rewrite HTa in HT1. injection HT1 as <-.
    by rewrite erase_set_logged_cache, erase_set_schedule_cache.
  - apply bind_inv in Hrun as (s & ha & Hg1 & Hrun).
    rewrite (schedule_seconds_getter_leaf _ _ _ _ _ HT HTc) in Hg1.
    injection Hg1 as <- <-.
    assert (HT2c : is_container T2 = false) by congruence.
    rewrite (bind_ok _ _ _ _ _
               (schedule_seconds_getter_leaf _ _ _ _ _ HT2 HT2c)).
    apply bind_inv in Hrun as ([] & hb & Hm1 & Hrun).
    apply modify_task_inv in Hm1 as (Ta & HTa & ->).
    rewrite HT in HTa. injection HTa as <-.
    rewrite (bind_ok _ _ _ _ _ (modify_task_ok _ _ _ _ HT2)).
    apply bind_inv in Hrun as (l & hc & Hg2 & Hm2).
    apply (total_logged_seconds_getter_leaf_run _ _ _
             (set_schedule_cache _ T) _ _
             (lookup_insert_eq _ _ _) HTc) in Hg2 as (z & -> & -> & Hpure).
    simpl in Hpure. rewrite Hlogs in Hpure.
    rewrite (bind_ok _ _ _ _ _
               (total_logged_seconds_getter_leaf _ _ _
                  (set_schedule_cache _ T2) _
                  (lookup_insert_eq _ _ _) HT2c (Hpure _))).
    apply modify_task_inv in Hm2 as (Tb & HTb & ->).
    rewrite lookup_insert_eq in HTb. injection HTb as <-.
    erewrite modify_task_ok by apply lookup_insert_eq.
    eexists. split; [done|].
    rewrite !insert_insert_eq. rewrite <- Htm, <- Hun.
    replace (set_logged_cache (Some z)
               (set_schedule_cache
                  (Some (to_seconds cfg (schedule_timing T) (schedule_unit T)))
                  T2))
      with (set_logged_cache (Some z)
              (set_schedule_cache
                 (Some (to_seconds cfg (schedule_timing T) (schedule_unit T)))
                 T))
      by (by apply erase_set_caches).
    apply sim_insert_eq; [done| |eauto].
    intros T1 HT1. rewrite HT in HT1. injection HT1 as <-.
    by rewrite erase_set_logged_cache, erase_set_schedule_cache.
Qed.

End UpdateFacts.

(** ** The recomputation terminates on a forest *)

Lemma same_skeleton_refl h : same_skeleton h h.
Proof. done. Qed.

Lemma same_skeleton_trans h1 h2 h3 :
  same_skeleton h1 h2 -> same_skeleton h2 h3 -> same_skeleton h1 h3.
Proof. intros H12 H23 k. by rewrite H12. Qed.

Lemma same_skeleton_lookup h1 h2 k T :
  same_skeleton h1 h2 -> h2 !! k = Some T ->
  exists T1, h1 !! k = Some T1 /\ erase T1 = erase T.
Proof.
  intros Hsk HT. specialize (Hsk k). rewrite HT in Hsk.
  destruct (h1 !! k) as [T1|]; [|discriminate].
  simpl in Hsk. exists T1. split; [done | congruence].
Qed.

Lemma same_skeleton_is_Some h1 h2 k :
  same_skeleton h1 h2 -> is_Some (h2 !! k) -> is_Some (h1 !! k).
Proof.
  intros Hsk [T HT].
  destruct (same_skeleton_lookup _ _ _ _ Hsk HT) as (T1 & ? & _). eauto.
Qed.

Lemma same_skeleton_insert h t T T' :
  h !! t = Some T -> erase T' = erase T -> same_skeleton (<[t := T']> h) h.
Proof.
  intros HT He k. destruct (decide (k = t)) as [->|Hne].
  - rewrite lookup_insert_eq, HT. simpl. by rewrite He.
  - by rewrite lookup_insert_ne.
Qed.

Lemma tree_ok_skeleton rk h1 h2 :
  same_skeleton h1 h2 -> tree_ok rk h2 -> tree_ok rk h1.
Proof.
  intros Hsk Hok t T HT c Hc.
  assert (Hsk' : same_skeleton h2 h1) by (intros k; by rewrite Hsk).
  destruct (same_skeleton_lookup _ _ _ _ Hsk' HT) as (T2 & HT2 & He).
  apply erase_fields in He as (_ & Hch & _).
  rewrite <- Hch in Hc. destruct (Hok t T2 HT2 c Hc) as [Hs Hrk].
  split; [|done]. by eapply same_skeleton_is_Some.
Qed.

Lemma logs_ok_skeleton L h1 h2 :
  same_skeleton h1 h2 -> logs_ok L h2 -> logs_ok L h1.
Proof.
  intros Hsk Hok t T HT i Hi.
  assert (Hsk' : same_skeleton h2 h1) by (intros k; by rewrite Hsk).
  destruct (same_skeleton_lookup _ _ _ _ Hsk' HT) as (T2 & HT2 & He).
  apply erase_fields in He as (_ & _ & Hl & _).
  rewrite <- Hl in Hi. by apply (Hok t T2 HT2 i).
Qed.

Section TotalFacts.

Context (cfg : Config) (L : Logs) (rk : nat -> nat).

Lemma sum_time_logs_total ids :
  (forall i, i ∈ ids -> is_Some (L !! i)) ->
  forall acc, exists z, forall h : Heap,
      sum_time_logs L ids acc h = Ok (z, h).
Proof.
  induction ids as [|i ids IH]; intros Hres acc; simpl.
  - by exists acc.
  - destruct (Hres i) as [l Hl]; [by left|]. rewrite Hl.
    apply IH. intros j Hj. apply Hres. by right.
Qed.

Section GetterTotal.

Context (upd : nat -> M unit) (f : nat).
Context (Hupd : forall c h,
            tree_ok rk h -> logs_ok L h ->
            is_Some (h !! c) -> (rk c < f)%nat ->
            exists h', upd c h = Ok (tt, h') /\ same_skeleton h' h
                       /\ cached h' c).

Lemma schedule_seconds_getter_total c h :
  tree_ok rk h -> logs_ok L h -> is_Some (h !! c) -> (rk c < f)%nat ->
  exists z h', schedule_seconds_getter cfg upd c h = Ok (Some z, h')
               /\ same_skeleton h' h.
Proof.
  intros Htree Hlogs [C HC] Hrk. unfold schedule_seconds_getter.
  rewrite (bind_ok _ _ _ _ _ (get_task_ok _ _ _ HC)).
  destruct (is_container C) eqn:HCc; [|eauto using same_skeleton_refl].
  assert (Hrun : forall T s, h !! c = Some T -> _schedule_seconds T = Some s ->
             exists z h', (T' <- get_task c;; ret (_schedule_seconds T')) h
                          = Ok (Some z, h') /\ same_skeleton h' h).
  { intros T s HT Hs. rewrite (bind_ok _ _ _ _ _ (get_task_ok _ _ _ HT)).
    rewrite Hs. eauto using same_skeleton_refl. }
  assert (Hvia : exists z h',
             (upd c;;; T' <- get_task c;; ret (_schedule_seconds T')) h
             = Ok (Some z, h') /\ same_skeleton h' h).
  { destruct (Hupd c h Htree Hlogs (ex_intro _ C HC) Hrk)
      as (h' & Hu & Hsk & (T' & s & l & HT' & Hs & _)).
    rewrite (bind_ok _ _ _ _ _ Hu).
    rewrite (bind_ok _ _ _ _ _ (get_task_ok _ _ _ HT')). rewrite Hs. eauto. }
  destruct (_schedule_seconds C) as [v|] eqn:Hv; [|exact Hvia].
  destruct (v <? 0); [exact Hvia|].
  unfold bind at 1. unfold ret at 1. by apply (Hrun C v).
Qed.

Lemma total_logged_seconds_getter_total c h :
  tree_ok rk h -> logs_ok L h -> is_Some (h !! c) -> (rk c < f)%nat ->
  exists z h', total_logged_seconds_getter L upd c h = Ok (Some z, h')
               /\ same_skeleton h' h.
Proof.
  intros Htree Hlogs [C HC] Hrk. unfold total_logged_seconds_getter, is_leaf.
  rewrite (bind_ok _ _ _ _ _ (get_task_ok _ _ _ HC)).
  destruct (is_container C) eqn:HCc; simpl.
  - destruct (_total_logged_seconds C) as [v|] eqn:Hv.
    + unfold bind at 1. unfold ret at 1.
      rewrite (bind_ok _ _ _ _ _ (get_task_ok _ _ _ HC)). rewrite Hv.
      eauto using same_skeleton_refl.
    + destruct (Hupd c h Htree Hlogs (ex_intro _ C HC) Hrk)
        as (h' & Hu & Hsk & (T' & s & l & HT' & _ & Hl)).
      rewrite (bind_ok _ _ _ _ _ Hu).
      rewrite (bind_ok _ _ _ _ _ (get_task_ok _ _ _ HT')). rewrite Hl. eauto.
  - destruct (sum_time_logs_total (time_logs C) (Hlogs c C HC) 0) as [z Hz].
    rewrite (bind_ok _ _ _ _ _ (Hz h)). eauto using same_skeleton_refl.
Qed.

Lemma sum_children_total cs :
  forall a b h,
    tree_ok rk h -> logs_ok L h ->
    (forall c, c ∈ cs -> is_Some (h !! c) /\ (rk c < f)%nat) ->
    exists r h', sum_children cfg L upd cs a b h = Ok (r, h')
                 /\ same_skeleton h' h.
Proof.
  induction cs as [|c cs IH]; intros a b h Htree Hlogs Hcs; simpl.
  - eauto using same_skeleton_refl.
  - destruct (Hcs c) as [[C HC] Hrk]; [by left|].
    rewrite (bind_ok _ _ _ _ _ (get_task_ok _ _ _ HC)).
    assert (exists ha, (if is_container C then upd c else ret tt) h
                       = Ok (tt, ha) /\ same_skeleton ha h)
      as (ha & Hu & Hska).
    { destruct (is_container C).
      - destruct (Hupd c h Htree Hlogs (ex_intro _ C HC) Hrk)
          as (h' & ? & ? & _). eauto.
      - eauto using same_skeleton_refl. }
    rewrite (bind_ok _ _ _ _ _ Hu).
    destruct (schedule_seconds_getter_total c ha) as (s & hb & Hg1 & Hskb);
      [by eapply tree_ok_skeleton | by eapply logs_ok_skeleton
      | by eapply same_skeleton_is_Some | done |].
    rewrite (bind_ok _ _ _ _ _ Hg1).
    pose proof (same_skeleton_trans _ _ _ Hskb Hska) as Hskb'.
    assert (exists b' hc,
               (if truthy (Some s)
                then s' <- schedule_seconds_getter cfg upd c;;
                     v <- as_int s';; ret (b + v)
                else ret b) hb = Ok (b', hc) /\ same_skeleton hc h)
      as (b' & hc & Hblk1 & Hskc).
    { destruct (truthy (Some s)); [|eauto].
      destruct (schedule_seconds_getter_total c hb) as (s' & hx & Hg & Hskx);
        [by eapply tree_ok_skeleton | by eapply logs_ok_skeleton
        | by eapply same_skeleton_is_Some | done |].
      rewrite (bind_ok _ _ _ _ _ Hg). simpl.
      eexists _, _. split; [done|]. by eapply same_skeleton_trans. }
    rewrite (bind_ok _ _ _ _ _ Hblk1).
    destruct (total_logged_seconds_getter_total c hc)
      as (l & hd & Hg2 & Hskd);
      [by eapply tree_ok_skeleton | by eapply logs_ok_skeleton
      | by eapply same_skeleton_is_Some | done |].
    rewrite (bind_ok _ _ _ _ _ Hg2).
    pose proof (same_skeleton_trans _ _ _ Hskd Hskc) as Hskd'.
    assert (exists a' he,
               (if truthy (Some l)
                then l' <- total_logged_seconds_getter L upd c;;
                     v <- as_int l';; ret (a + v)
                else ret a) hd = Ok (a', he) /\ same_skeleton he h)
      as (a' & he & Hblk2 & Hske).
    { destruct (truthy (Some l)); [|eauto].
      destruct (total_logged_seconds_getter_total c hd)
        as (l' & hx & Hg & Hskx);
        [by eapply tree_ok_skeleton | by eapply logs_ok_skeleton
        | by eapply same_skeleton_is_Some | done |].
      rewrite (bind_ok _ _ _ _ _ Hg). simpl.
      eexists _, _. split; [done|]. by eapply same_skeleton_trans. }
    rewrite (bind_ok _ _ _ _ _ Hblk2).
    destruct (IH a' b' he) as (r & h' & Hrec & Hsk');
      [by eapply tree_ok_skeleton | by eapply logs_ok_skeleton | |].
    { intros c' Hc'. destruct (Hcs c') as [? ?]; [by right|].
      split; [|done]. by eapply same_skeleton_is_Some. }
    exists r, h'. split; [done|]. by eapply same_skeleton_trans.
Qed.

End GetterTotal.

Lemma update_schedule_info_total fuel :
  forall t h,
    tree_ok rk h -> logs_ok L h -> is_Some (h !! t) -> (rk t < fuel)%nat ->
    exists h', update_schedule_info cfg L fuel t h = Ok (tt, h')
               /\ same_skeleton h' h /\ cached h' t.
Proof.
  induction fuel as [|f IH]; intros t h Htree Hlogs [T HT] Hrk; [lia|].
  simpl. rewrite (bind_ok _ _ _ _ _ (get_task_ok _ _ _ HT)).
  destruct (is_container T) eqn:HTc.
  - destruct (sum_children_total _ f IH (children T) 0 0 h Htree Hlogs)
      as (r & ha & Hsum & Hska).
    { intros c Hc. destruct (Htree t T HT c Hc). split; [done | lia]. }
    rewrite (bind_ok _ _ _ _ _ Hsum).
    destruct (same_skeleton_lookup _ _ _ _ Hska HT) as (Ta & HTa & Hea).
    rewrite (bind_ok _ _ _ _ _ (modify_task_ok _ _ _ _ HTa)).
    erewrite modify_task_ok by apply lookup_insert_eq.
    eexists. split; [done|]. rewrite insert_insert_eq. split.
    + eapply same_skeleton_trans; [|exact Hska].
      by eapply same_skeleton_insert.
    + eexists _, _, _. rewrite lookup_insert_eq. done.
  - rewrite (bind_ok _ _ _ _ _
               (schedule_seconds_getter_leaf _ _ _ _ _ HT HTc)).
    rewrite (bind_ok _ _ _ _ _ (modify_task_ok _ _ _ _ HT)).
    destruct (sum_time_logs_total (time_logs T) (Hlogs t T HT) 0) as [z Hz].
    rewrite (bind_ok _ _ _ _ _
               (total_logged_seconds_getter_leaf _ _ _ _
                  (set_schedule_cache _ T) _
                  (lookup_insert_eq _ _ _) HTc (Hz _))).
    erewrite modify_task_ok by apply lookup_insert_eq.
    eexists. split; [done|]. rewrite insert_insert_eq. split.
    + by eapply same_skeleton_insert.
    + eexists _, _, _. rewrite lookup_insert_eq. done.
Qed.

(** C9: on a forest of tasks, [update_schedule_info] returns, and a
    second call in succession returns as well and leaves the cached
    [schedule_seconds] and [total_logged_seconds] of the task (the whole
    task in fact) as the first call left them. *)
Theorem update_schedule_info_idempotent :
  forall fuel t h,
    tree_ok rk h -> logs_ok L h -> is_Some (h !! t) -> (rk t < fuel)%nat ->
    exists h' h'',
      update_schedule_info cfg L fuel t h = Ok (tt, h')
      /\ update_schedule_info cfg L fuel t h' = Ok (tt, h'')
      /\ cached h' t
      /\ caches h'' t = caches h' t
      /\ h'' !! t = h' !! t.
Proof.
  intros fuel t h Htree Hlogs Hsome Hrk.
  destruct (update_schedule_info_total fuel t h Htree Hlogs Hsome Hrk)
    as (h' & Hrun & Hsk & Hcached).
  assert (Hsim : sim (fun _ => False) h h').
  { split; [|done]. intros k. by rewrite Hsk. }
  destruct (update_schedule_info_sim cfg L fuel t h tt h' Hrun _ _ Hsim)
    as (h'' & Hrun2 & [_ Heq]).
  exists h', h''. repeat split; try done.
  - unfold caches. by rewrite (Heq t (or_intror eq_refl)).
  - symmetry. apply Heq. by right.
Qed.

End TotalFacts.

Lemma nested_state_tree_ok :
  tree_ok (fun k => 4 - k)%nat (tasks nested_state).
Proof.
  intros t T HT c Hc. simpl in HT. lookup_cases HT; simpl in Hc;
    elem_cases Hc; (split; [by eexists | simpl; lia]).
Qed.

Lemma nested_state_logs_ok :
  logs_ok (logs nested_state) (tasks nested_state).
Proof.
  intros t T HT i Hi. simpl in HT. lookup_cases HT; simpl in Hi;
    elem_cases Hi; by eexists.
Qed.

Lemma update_schedule_info_idempotent_witness :
  exists h' h'',
    update_schedule_info example_cfg (logs nested_state) 4 1
      (tasks nested_state) = Ok (tt, h')
    /\ update_schedule_info example_cfg (logs nested_state) 4 1 h'
       = Ok (tt, h'')
    /\ cached h' 1
    /\ caches h'' 1 = caches h' 1
    /\ h'' !! 1%nat = h' !! 1%nat.
Proof.
  apply (update_schedule_info_idempotent example_cfg (logs nested_state)
           (fun k => 4 - k)%nat 4 1 (tasks nested_state)).
  - exact nested_state_tree_ok.
  - exact nested_state_logs_ok.
  - by eexists.
  - simpl. lia.
Defined.

(** ** Reparenting *)

Section ReparentFacts.

Context (cfg : Config) (L : Logs).

Lemma bump_schedule_parent delta l (h : Heap) k :
  parent <$> bump_schedule delta l h !! k = parent <$> h !! k.
Proof.
  unfold bump_schedule. induction l as [|p l IH]; simpl; [done|].
  destruct (decide (k = p)) as [->|Hne].
  - rewrite lookup_alter_eq, <- IH.
    by destruct (foldr _ h l !! p).
  - by rewrite lookup_alter_ne.
Qed.

Lemma bump_cons_schedule delta p l (h : Heap) P c :
  p ∉ l -> h !! p = Some P -> _schedule_seconds P = Some c ->
  <[p := set_schedule_cache (Some (c + delta)) P]> (bump_schedule delta l h)
  = bump_schedule delta (p :: l) h.
Proof.
  intros Hp HP Hc. unfold bump_schedule. simpl.
  apply map_eq. intros k. destruct (decide (k = p)) as [->|Hkp].
  - rewrite lookup_insert_eq, lookup_alter_eq.
    rewrite foldr_alter_notin by done. rewrite HP. simpl.
    unfold add_schedule. by rewrite Hc.
  - by rewrite lookup_insert_ne, lookup_alter_ne.
Qed.

Lemma bump_cons_logged delta p l (h : Heap) P c :
  p ∉ l -> h !! p = Some P -> _total_logged_seconds P = Some c ->
  bump_logged delta l (<[p := set_logged_cache (Some (c + delta)) P]> h)
  = bump_logged delta (p :: l) h.
Proof.
  intros Hp HP Hc. unfold bump_logged.
  rewrite <- foldr_alter_insert by done. simpl.
  apply map_eq. intros k. destruct (decide (k = p)) as [->|Hkp].
  - rewrite lookup_insert_eq, lookup_alter_eq.
    rewrite foldr_alter_notin by done. rewrite HP. simpl.
    unfold add_logged. by rewrite Hc.
  - by rewrite lookup_insert_ne, lookup_alter_ne.
Qed.

(** [p.schedule_seconds = p.schedule_seconds + delta] on a ready chain. *)
Lemma schedule_seconds_rebase fuel h p l delta :
  is_chain h p l -> NoDup (p :: l) -> schedule_ready h (p :: l) ->
  (length l < fuel)%nat ->
  forall c, (_schedule_seconds <$> h !! p) = Some (Some c) ->
  schedule_seconds_setter cfg L fuel p (c + delta) h
  = Ok (tt, bump_schedule delta (p :: l) h).
Proof.
  intros Hch Hnd Hrdy Hfuel c Hc.
  apply schedule_ready_cons in Hrdy as [(P & c' & HP & HPc & HPs & Hnn) Hrdy].
  rewrite HP in Hc. simpl in Hc. rewrite HPs in Hc. injection Hc as ->.
  rewrite (schedule_seconds_setter_chain cfg L l fuel h p P _
             Hch Hnd HP HPc Hrdy Hfuel).
  rewrite HPs. simpl. do 2 f_equal.
  replace (c + delta - c) with delta by lia.
  apply bump_cons_schedule; [|done|done]. by apply NoDup_cons in Hnd as [? _].
Qed.

Lemma total_logged_seconds_rebase fuel h p l delta :
  is_chain h p l -> NoDup (p :: l) -> logged_ready h (p :: l) ->
  (length l < fuel)%nat ->
  forall c, (_total_logged_seconds <$> h !! p) = Some (Some c) ->
  total_logged_seconds_setter cfg L fuel p (c + delta) h
  = Ok (tt, bump_logged delta (p :: l) h).
Proof.
  intros Hch Hnd Hrdy Hfuel c Hc.
  apply logged_ready_cons in Hrdy as [(P & c' & HP & HPc & HPs) Hrdy].
  rewrite HP in Hc. simpl in Hc. rewrite HPs in Hc. injection Hc as ->.
  rewrite (total_logged_seconds_setter_chain cfg L l fuel h p P _
             Hch Hnd HP HPc Hrdy Hfuel).
  rewrite HPs. simpl. do 2 f_equal.
  replace (c + delta - c) with delta by lia.
  apply bump_cons_logged; [|done|done]. by apply NoDup_cons in Hnd as [? _].
Qed.


Lemma foldr_alter_lookup (f : Task -> Task) (l : list nat) (h : Heap) k :
  NoDup l ->
  foldr (fun p m => alter f p m) h l !! k
  = (if decide (k ∈ l) then f else id) <$> h !! k.
Proof.
  intros Hnd. destruct (decide (k ∈ l)).
  - by apply foldr_alter_in.
  - rewrite foldr_alter_notin by done. by destruct (h !! k).
Qed.

Lemma logged_ready_bump_schedule delta l l' (h : Heap) :
  NoDup l -> logged_ready h l' -> logged_ready (bump_schedule delta l h) l'.
Proof.
  intros Hnd Hr. apply Forall_forall. intros p Hp.
  unfold logged_ready in Hr. rewrite Forall_forall in Hr.
  destruct (Hr p Hp) as (P & c & HP & Hc & Hs).
  unfold bump_schedule. rewrite foldr_alter_lookup by done. rewrite HP.
  destruct (decide (p ∈ l)); simpl; eauto.
Qed.

Lemma logged_ready_bump_logged delta l l' (h : Heap) :
  NoDup l -> logged_ready h l' -> logged_ready (bump_logged delta l h) l'.
Proof.
  intros Hnd Hr. apply Forall_forall. intros p Hp.
  unfold logged_ready in Hr. rewrite Forall_forall in Hr.
  destruct (Hr p Hp) as (P & c & HP & Hc & Hs).
  unfold bump_logged. rewrite foldr_alter_lookup by done. rewrite HP.
  destruct (decide (p ∈ l)); simpl; eauto.
Qed.

Lemma schedule_ready_bump_logged delta l l' (h : Heap) :
  NoDup l -> schedule_ready h l' -> schedule_ready (bump_logged delta l h) l'.
Proof.
  intros Hnd Hr. apply Forall_forall. intros p Hp.
  unfold schedule_ready in Hr. rewrite Forall_forall in Hr.
  destruct (Hr p Hp) as (P & c & HP & Hc & Hs & Hnn).
  unfold bump_logged. rewrite foldr_alter_lookup by done. rewrite HP.
  destruct (decide (p ∈ l)); simpl; eauto 8.
Qed.

Lemma schedule_ready_bump_schedule delta l l' (h : Heap) :
  NoDup l -> schedule_ready h l' ->
  (0 <= delta \/ schedule_at_least (- delta) h l) ->
  schedule_ready (bump_schedule delta l h) l'.
Proof.
  intros Hnd Hr Hd. apply Forall_forall. intros p Hp.
  unfold schedule_ready in Hr. rewrite Forall_forall in Hr.
  destruct (Hr p Hp) as (P & c & HP & Hc & Hs & Hnn).
  unfold bump_schedule. rewrite foldr_alter_lookup by done. rewrite HP.
  destruct (decide (p ∈ l)) as [Hin|]; simpl; [|eauto 8].
  exists (add_schedule delta P), (c + delta).
  unfold add_schedule. rewrite Hs. simpl. repeat split; try done.
  destruct Hd as [Hd | Hd]; [lia|].
  unfold schedule_at_least in Hd. rewrite Forall_forall in Hd.
  destruct (Hd p Hin) as (P' & c' & HP' & Hs' & Hle).
  rewrite HP in HP'. injection HP' as <-. rewrite Hs in Hs'.
  injection Hs' as <-. lia.
Qed.

(** [p.schedule_seconds (op)= t.schedule_seconds] for a leaf [t]. *)
Lemma schedule_seconds_augmented {B} (k : unit -> M B)
      fuel h t T p l (op : Z -> Z -> Z) delta :
  h !! t = Some T -> is_container T = false ->
  is_chain h p l -> NoDup (p :: l) -> schedule_ready h (p :: l) ->
  (length l < fuel)%nat ->
  (forall c, op c (to_seconds cfg (schedule_timing T) (schedule_unit T))
             = c + delta) ->
  (a <- schedule_seconds_getter cfg (update_schedule_info cfg L fuel) p;;
   b <- schedule_seconds_getter cfg (update_schedule_info cfg L fuel) t;;
   az <- as_int a;; bz <- as_int b;;
   x <- schedule_seconds_setter cfg L fuel p (op az bz);; k x) h
  = k tt (bump_schedule delta (p :: l) h).
Proof.
  intros HT Hleaf Hch Hnd Hrdy Hfuel Hop.
  pose proof Hrdy as Hrdy'.
  apply schedule_ready_cons in Hrdy' as [(P & c & HP & HPc & HPs & Hnn) _].
  rewrite (bind_ok _ _ _ _ _
             (schedule_seconds_getter_cached _ _ _ _ _ _ HP HPc HPs Hnn)).
  rewrite (bind_ok _ _ _ _ _
             (schedule_seconds_getter_leaf _ _ _ _ _ HT Hleaf)).
  simpl. unfold bind at 1. unfold ret at 1.
  unfold bind at 1. unfold ret at 1. rewrite Hop.
  apply bind_ok. apply schedule_seconds_rebase; try done.
  by rewrite HP; simpl; rewrite HPs.
Qed.

(** [p.total_logged_seconds (op)= t.total_logged_seconds] for a leaf. *)
Lemma total_logged_seconds_augmented_last fuel h t T p l
      (op : Z -> Z -> Z) lg delta :
  h !! t = Some T -> is_container T = false ->
  (forall h' : Heap, sum_time_logs L (time_logs T) 0 h' = Ok (lg, h')) ->
  is_chain h p l -> NoDup (p :: l) -> logged_ready h (p :: l) ->
  (length l < fuel)%nat ->
  (forall c, op c lg = c + delta) ->
  (a <- total_logged_seconds_getter L (update_schedule_info cfg L fuel) p;;
   b <- total_logged_seconds_getter L (update_schedule_info cfg L fuel) t;;
   az <- as_int a;; bz <- as_int b;;
   total_logged_seconds_setter cfg L fuel p (op az bz)) h
  = Ok (tt, bump_logged delta (p :: l) h).
Proof.
  intros HT Hleaf Hsum Hch Hnd Hrdy Hfuel Hop.
  pose proof Hrdy as Hrdy'.
  apply logged_ready_cons in Hrdy' as [(P & c & HP & HPc & HPs) _].
  rewrite (bind_ok _ _ _ _ _
             (total_logged_seconds_getter_cached _ _ _ _ _ _ HP HPc HPs)).
  rewrite (bind_ok _ _ _ _ _
             (total_logged_seconds_getter_leaf _ _ _ _ _ _ HT Hleaf
                                               (Hsum h))).
  simpl. unfold bind at 1. unfold ret at 1.
  unfold bind at 1. unfold ret at 1. rewrite Hop.
  apply total_logged_seconds_rebase; try done.
  by rewrite HP; simpl; rewrite HPs.
Qed.

Lemma is_container_false_children T :
  is_container T = false -> children T = [].
Proof.
  unfold is_container. destruct (children T); [done | discriminate].
Qed.

Lemma reaches_children_leaf fuel (h : Heap) t T p :
  h !! t = Some T -> is_container T = false -> t <> p ->
  reaches (S fuel) RChildren h t p = Ok false.
Proof.
  intros HT Hleaf Hne. simpl.
  destruct (Nat.eqb_spec t p); [done|]. rewrite HT. simpl.
  by rewrite (is_container_false_children _ Hleaf).
Qed.

Lemma check_circular_dependency_ok fuel r (h : Heap) a b :
  reaches fuel r h a b = Ok false ->
  check_circular_dependency fuel a b r h = Ok (tt, h).
Proof. intros H. unfold check_circular_dependency. by rewrite H. Qed.

Lemma validate_parent_moves_contribution fuel h t T p1 l1 p2 l2 P2 lg :
  h !! t = Some T -> is_container T = false -> parent T = Some p1 ->
  0 <= to_seconds cfg (schedule_timing T) (schedule_unit T) ->
  (forall h' : Heap, sum_time_logs L (time_logs T) 0 h' = Ok (lg, h')) ->
  is_chain h p1 l1 -> NoDup (p1 :: l1) -> t ∉ p1 :: l1 ->
  is_chain h p2 l2 -> NoDup (p2 :: l2) -> t ∉ p2 :: l2 ->
  h !! p2 = Some P2 -> is_container P2 = true ->
  schedule_ready h (p1 :: l1) -> schedule_ready h (p2 :: l2) ->
  logged_ready h (p1 :: l1) -> logged_ready h (p2 :: l2) ->
  schedule_at_least
    (to_seconds cfg (schedule_timing T) (schedule_unit T)) h (p1 :: l1) ->
  reaches fuel RDepends h t p2 = Ok false ->
  (length l1 < fuel)%nat -> (length l2 < fuel)%nat ->
  _validate_parent cfg L fuel t (Some p2) h
  = Ok (Some p2,
        reparented (to_seconds cfg (schedule_timing T) (schedule_unit T))
                   lg (p1 :: l1) (p2 :: l2) h).
Proof.
  intros HT Hleaf Hpar Hs Hsum Hc1 Hnd1 Ht1 Hc2 Hnd2 Ht2 HP2 HP2c
         Hsr1 Hsr2 Hlr1 Hlr2 Hal Hdep Hf1 Hf2.
  set (s := to_seconds cfg (schedule_timing T) (schedule_unit T)) in *.
  unfold _validate_parent. cbv beta iota zeta.
  assert (Htp2 : t <> p2) by (intros ->; apply Ht2; by left).
  destruct fuel as [|f]; [simpl in Hf1; lia|].
  assert (Hchk :
    (check_circular_dependency (S f) t p2 RChildren;;;
     check_circular_dependency (S f) t p2 RDepends) h = Ok (tt, h)).
  { rewrite (bind_ok _ _ _ _ _
               (check_circular_dependency_ok _ _ _ _ _
                  (reaches_children_leaf f h t T p2 HT Hleaf Htp2))).
    by apply check_circular_dependency_ok. }
  rewrite (bind_ok _ _ _ _ _ Hchk).
  rewrite (bind_ok _ _ _ _ _ (get_task_ok _ _ _ HT)). rewrite Hpar.
  set (h1 := bump_schedule (- s) (p1 :: l1) h).
  set (h2 := bump_logged (- lg) (p1 :: l1) h1).
  set (h3 := bump_schedule s (p2 :: l2) h2).
  assert (HT1 : h1 !! t = Some T).
  { unfold h1, bump_schedule. by rewrite foldr_alter_notin. }
  assert (HT2 : h2 !! t = Some T).
  { unfold h2, bump_logged. by rewrite foldr_alter_notin. }
  assert (HT3 : h3 !! t = Some T).
  { unfold h3, bump_schedule. by rewrite foldr_alter_notin. }
  assert (Hpar1 : forall k, parent <$> h !! k = parent <$> h1 !! k).
  { intros k. unfold h1. by rewrite bump_schedule_parent. }
  assert (Hpar2 : forall k, parent <$> h !! k = parent <$> h2 !! k).
  { intros k. unfold h2. by rewrite bump_logged_parent. }
  assert (Hpar3 : forall k, parent <$> h !! k = parent <$> h3 !! k).
  { intros k. unfold h3. by rewrite bump_schedule_parent. }
  assert (HP2' : exists P2', h2 !! p2 = Some P2' /\ is_leaf P2' = false).
  { unfold h2, h1, bump_logged, bump_schedule.
    rewrite !foldr_alter_lookup by done. rewrite HP2. simpl.
    eexists. split; [done|]. unfold is_leaf.
    destruct (decide (p2 ∈ p1 :: l1)); exact (f_equal negb HP2c). }
  destruct HP2' as (P2' & HP2' & HP2l).
  unfold bind at 1.
  rewrite (schedule_seconds_augmented _ (S f) h t T p1 l1 Z.sub (- s));
    [|done..].
  fold h1.
  rewrite (total_logged_seconds_augmented_last (S f) h1 t T p1 l1 Z.sub lg
             (- lg));
    [|try done..]; cycle 1.
  { by eapply is_chain_ext. }
  { by apply logged_ready_bump_schedule. }
  fold h2. cbv beta iota.
  unfold bind at 1.
  rewrite (bind_ok _ _ _ _ _ (get_task_ok _ _ _ HP2')). rewrite HP2l.
  rewrite (schedule_seconds_augmented _ (S f) h2 t T p2 l2 Z.add s);
    [|try done..]; cycle 1.
  { by eapply is_chain_ext. }
  { apply schedule_ready_bump_logged; [done|].
    apply schedule_ready_bump_schedule; [done|done|].
    right. by rewrite Z.opp_involutive. }
  fold h3.
  rewrite (total_logged_seconds_augmented_last (S f) h3 t T p2 l2 Z.add lg
             lg);
    [|try done..]; cycle 1.
  { by eapply is_chain_ext. }
  { apply logged_ready_bump_schedule; [done|].
    apply logged_ready_bump_logged; [done|].
    by apply logged_ready_bump_schedule. }
  done.
Qed.

Lemma validate_parent_detaches fuel h t T p1 l1 lg :
  h !! t = Some T -> is_container T = false -> parent T = Some p1 ->
  (forall h' : Heap, sum_time_logs L (time_logs T) 0 h' = Ok (lg, h')) ->
  is_chain h p1 l1 -> NoDup (p1 :: l1) -> t ∉ p1 :: l1 ->
  schedule_ready h (p1 :: l1) -> logged_ready h (p1 :: l1) ->
  (length l1 < fuel)%nat ->
  _validate_parent cfg L fuel t None h
  = Ok (None,
        bump_logged (- lg) (p1 :: l1)
          (bump_schedule
             (- to_seconds cfg (schedule_timing T) (schedule_unit T))
             (p1 :: l1) h)).
Proof.
  intros HT Hleaf Hpar Hsum Hc1 Hnd1 Ht1 Hsr1 Hlr1 Hf1.
  set (s := to_seconds cfg (schedule_timing T) (schedule_unit T)) in *.
  unfold _validate_parent. cbv beta iota zeta.
  unfold bind at 1. unfold ret at 1.
  rewrite (bind_ok _ _ _ _ _ (get_task_ok _ _ _ HT)). rewrite Hpar.
  set (h1 := bump_schedule (- s) (p1 :: l1) h).
  assert (HT1 : h1 !! t = Some T).
  { unfold h1, bump_schedule. by rewrite foldr_alter_notin. }
  assert (Hpar1 : forall k, parent <$> h !! k = parent <$> h1 !! k).
  { intros k. unfold h1. by rewrite bump_schedule_parent. }
  unfold bind at 1.
  rewrite (schedule_seconds_augmented _ fuel h t T p1 l1 Z.sub (- s));
    [|done..].
  fold h1.
  rewrite (total_logged_seconds_augmented_last fuel h1 t T p1 l1 Z.sub lg
             (- lg));
    [|try done..]; cycle 1.
  { by eapply is_chain_ext. }
  { by apply logged_ready_bump_schedule. }
  done.
Qed.

End ReparentFacts.
(** ** Date ranges along a chain *)

Lemma date_frame_refl h : date_frame h h.
Proof. done. Qed.

Lemma date_frame_trans h1 h2 h3 :
  date_frame h1 h2 -> date_frame h2 h3 -> date_frame h1 h3.
Proof. intros H12 H23 k. by rewrite H23. Qed.

Lemma date_frame_insert (h : Heap) t T d :
  h !! t = Some T -> date_frame h (<[t := set_dates d T]> h).
Proof.
  intros HT k. destruct (decide (k = t)) as [->|Hne].
  - by rewrite lookup_insert_eq, HT.
  - by rewrite lookup_insert_ne.
Qed.

Lemma erase_dates_fields T T' :
  erase_dates T = erase_dates T' ->
  parent T = parent T' /\ children T = children T'
  /\ _schedule_seconds T = _schedule_seconds T'
  /\ _total_logged_seconds T = _total_logged_seconds T'
  /\ is_container T = is_container T'.
Proof.
  unfold erase_dates, set_dates, is_container. simpl.
  intros [= -> -> _ _ _ _ _ _ -> ->]. done.
Qed.

Lemma date_frame_lookup h h' k T :
  date_frame h h' -> h !! k = Some T ->
  exists T', h' !! k = Some T' /\ erase_dates T' = erase_dates T.
Proof.
  intros Hf HT. specialize (Hf k). rewrite HT in Hf.
  destruct (h' !! k) as [T'|]; [|discriminate].
  simpl in Hf. exists T'. split; [done | congruence].
Qed.

Lemma date_frame_parent h h' :
  date_frame h h' -> forall k, parent <$> h !! k = parent <$> h' !! k.
Proof.
  intros Hf k. specialize (Hf k).
  destruct (h !! k) as [T|], (h' !! k) as [T'|]; try done. simpl in *.
  f_equal. symmetry. apply erase_dates_fields. congruence.
Qed.

Lemma is_chain_date_frame h h' t l :
  date_frame h h' -> is_chain h t l -> is_chain h' t l.
Proof. intros Hf. apply is_chain_ext. by apply date_frame_parent. Qed.

Lemma is_chain_tail h p l : is_chain h p l -> chain_tail h l.
Proof. destruct l; simpl; [done | by intros [_ ?]]. Qed.

Lemma chain_tail_date_frame h h' l :
  date_frame h h' -> chain_tail h l -> chain_tail h' l.
Proof. destruct l; [done|]. apply is_chain_date_frame. Qed.

Section DateFacts.

Context (now : Z).

Lemma setter_with_total expand (d : Task -> Z * Z * Z) h p l :
  is_chain h p l -> p ∉ l -> expands expand l ->
  exists h' P,
    h !! p = Some P
    /\ (T <- get_task p;;
        modify_task p (set_dates (d T));;;
        T' <- get_task p;;
        expand (parent T') (_start T') (_end T')) h = Ok (tt, h')
    /\ date_frame h h'
    /\ (forall k, k ∉ p :: l -> h' !! k = h !! k)
    /\ h' !! p = Some (set_dates (d P) P).
Proof.
  intros Hch Hp Hexp.
  destruct (is_chain_head _ _ _ Hch) as (P & HP & Hpar).
  set (h1 := <[p := set_dates (d P) P]> h).
  assert (Hf1 : date_frame h h1) by (by apply date_frame_insert).
  destruct (Hexp h1 (_start (set_dates (d P) P)) (_end (set_dates (d P) P)))
    as (h' & Hrun & Hf & Hout).
  { eapply chain_tail_date_frame; [exact Hf1|]. by eapply is_chain_tail. }
  exists h', P. split; [done|]. split; [|split; [|split]].
  - rewrite (bind_ok _ _ _ _ _ (get_task_ok _ _ _ HP)).
    rewrite (bind_ok _ _ _ _ _ (modify_task_ok _ _ _ _ HP)). fold h1.
    rewrite (bind_ok _ _ _ _ _
               (get_task_ok h1 p _ (lookup_insert_eq _ _ _))).
    change (parent (set_dates (d P) P)) with (parent P). rewrite Hpar.
    exact Hrun.
  - by eapply date_frame_trans.
  - intros k Hk. apply not_elem_of_cons in Hk as [Hkp Hk].
    rewrite Hout by done. unfold h1. by rewrite lookup_insert_ne.
  - rewrite Hout by done. unfold h1. by rewrite lookup_insert_eq.
Qed.

Lemma expands_nil expand :
  (forall s e h, expand None s e h = Ok (tt, h)) -> expands expand [].
Proof.
  intros Hnone h s e _. exists h. simpl. rewrite Hnone.
  split; [done|]. split; [apply date_frame_refl | done].
Qed.

Lemma _expand_dates_expands l :
  forall fuel, NoDup l -> (length l <= fuel)%nat ->
               expands (_expand_dates fuel now) l.
Proof.
  induction l as [|p l IH]; intros fuel Hnd Hfuel.
  - apply expands_nil. intros s e h. by destruct fuel.
  - destruct fuel as [|f]; [simpl in Hfuel; lia|].
    apply NoDup_cons in Hnd as [Hp Hnd].
    assert (Hexp : expands (_expand_dates f now) l)
      by (apply IH; [done | simpl in Hfuel; lia]).
    intros h s e Hch. simpl in Hch. simpl.
    destruct (is_chain_head _ _ _ Hch) as (P & HP & Hpar).
    rewrite (bind_ok _ _ _ _ _ (get_task_ok _ _ _ HP)).
    assert (exists ha,
               (if s <? _start P
                then start_setter_with (_expand_dates f now) now p (Some s)
                else ret tt) h = Ok (tt, ha)
               /\ date_frame h ha
               /\ (forall k, k ∉ p :: l -> ha !! k = h !! k))
      as (ha & Hra & Hfa & Houta).
    { destruct (s <? _start P).
      - destruct (setter_with_total (_expand_dates f now)
                    (fun T => _validate_dates now (Some s) (Some (_end T))
                                              (Some (_duration T)))
                    h p l Hch Hp Hexp) as (ha & _ & _ & ? & ? & ? & _).
        eauto.
      - exists h. split; [done|]. split; [apply date_frame_refl | done]. }
    rewrite (bind_ok _ _ _ _ _ Hra).
    assert (Hcha : is_chain ha p l) by (by eapply is_chain_date_frame).
    destruct (is_chain_head _ _ _ Hcha) as (Pa & HPa & _).
    rewrite (bind_ok _ _ _ _ _ (get_task_ok _ _ _ HPa)).
    destruct (_end Pa <? e).
    + destruct (setter_with_total (_expand_dates f now)
                  (fun T => _validate_dates now (Some (_start T)) (Some e)
                                            (Some (_duration T)))
                  ha p l Hcha Hp Hexp) as (hb & _ & _ & Hrb & Hfb & Hob & _).
      exists hb. split; [exact Hrb|]. split.
      * by eapply date_frame_trans.
      * intros k Hk. rewrite Hob by done. by apply Houta.
    + exists ha. split; [done|]. by split.
Qed.

Lemma start_setter_total fuel h p l start_in :
  is_chain h p l -> NoDup (p :: l) -> (length l <= fuel)%nat ->
  exists h' P,
    h !! p = Some P
    /\ start_setter fuel now p start_in h = Ok (tt, h')
    /\ date_frame h h'
    /\ (forall k, k ∉ p :: l -> h' !! k = h !! k)
    /\ h' !! p = Some (set_dates (_validate_dates now start_in
                                    (Some (_end P)) (Some (_duration P))) P).
Proof.
  intros Hch Hnd Hfuel. apply NoDup_cons in Hnd as [Hp Hnd].
  apply (setter_with_total (_expand_dates fuel now)
           (fun T => _validate_dates now start_in (Some (_end T))
                                     (Some (_duration T)))
           h p l Hch Hp).
  by apply _expand_dates_expands.
Qed.

Lemma end_setter_total fuel h p l end_in :
  is_chain h p l -> NoDup (p :: l) -> (length l <= fuel)%nat ->
  exists h' P,
    h !! p = Some P
    /\ end_setter fuel now p end_in h = Ok (tt, h')
    /\ date_frame h h'
    /\ (forall k, k ∉ p :: l -> h' !! k = h !! k)
    /\ h' !! p = Some (set_dates (_validate_dates now (Some (_start P))
                                    end_in (Some (_duration P))) P).
Proof.
  intros Hch Hnd Hfuel. apply NoDup_cons in Hnd as [Hp Hnd].
  apply (setter_with_total (_expand_dates fuel now)
           (fun T => _validate_dates now (Some (_start T)) end_in
                                     (Some (_duration T)))
           h p l Hch Hp).
  by apply _expand_dates_expands.
Qed.


Lemma _validate_dates_start s e d :
  fst (fst (_validate_dates now (Some s) e d)) = s.
Proof.
  unfold _validate_dates. destruct e as [e|]; [|done].
  by destruct (e <? s).
Qed.

Lemma _validate_dates_ordered s e d :
  s <= e -> _validate_dates now (Some s) (Some e) d = (s, e, e - s).
Proof.
  intros Hle. unfold _validate_dates.
  destruct (Z.ltb_spec e s); [lia | done].
Qed.

Lemma children_range_spec t cs :
  forall a b (h : Heap),
    (forall c, c ∈ cs -> c <> t -> is_Some (h !! c)) ->
    exists r,
      children_range t cs a b h = Ok (r, h)
      /\ fst r <= a /\ b <= snd r
      /\ (forall c C, c ∈ cs -> c <> t -> h !! c = Some C ->
                      fst r <= _start C /\ _end C <= snd r)
      /\ ((forall c, c ∈ cs -> c = t) -> r = (a, b)).
Proof.
  induction cs as [|c0 cs IH]; intros a b h Hres; simpl.
  - exists (a, b). simpl. split; [done|]. split; [lia|]. split; [lia|].
    split; [|done]. intros c C Hc. by apply elem_of_nil in Hc.
  - destruct (Nat.eqb_spec c0 t) as [Heq|Hne].
    + destruct (IH a b h) as (r & Hrun & Ha & Hb & Henv & Hnone).
      { intros c Hc. apply Hres. by right. }
      exists r. split; [done|]. split; [done|]. split; [done|]. split.
      * intros c C Hc Hct HC. apply elem_of_cons in Hc as [->|Hc]; [done|].
        by apply (Henv c C).
      * intros Hall. apply Hnone. intros c Hc. apply Hall. by right.
    + destruct (Hres c0) as [C0 HC0]; [by left | done |].
      rewrite (bind_ok _ _ _ _ _ (get_task_ok _ _ _ HC0)).
      destruct (IH (if _start C0 <? a then _start C0 else a)
                   (if b <? _end C0 then _end C0 else b) h)
        as (r & Hrun & Ha & Hb & Henv & Hnone).
      { intros c' Hc'. apply Hres. by right. }
      exists r.
      assert (Ha' : fst r <= a /\ fst r <= _start C0).
      { destruct (Z.ltb_spec (_start C0) a); lia. }
      assert (Hb' : b <= snd r /\ _end C0 <= snd r).
      { destruct (Z.ltb_spec b (_end C0)); lia. }
      split; [done|]. split; [lia|]. split; [lia|]. split.
      * intros c' C' Hc' Hct HC'.
        apply elem_of_cons in Hc' as [->|Hc'].
        -- rewrite HC0 in HC'. injection HC' as <-. lia.
        -- by apply (Henv c' C').
      * intros Hall. exfalso. apply Hne. apply Hall. by left.
Qed.

Lemma update_task_date_values_spec fuel h p P l t :
  h !! p = Some P -> is_chain h p l -> NoDup (p :: l) ->
  (length l <= fuel)%nat ->
  (forall c, c ∈ children P -> c <> t -> is_Some (h !! c)) ->
  exists h' P',
    update_task_date_values fuel now p t h = Ok (tt, h')
    /\ date_frame h h'
    /\ (forall k, k ∉ p :: l -> h' !! k = h !! k)
    /\ h' !! p = Some P'
    /\ ((forall c, c ∈ children P -> c = t) ->
        P' = set_dates (_validate_dates now (Some now) (Some (_end P))
                                        (Some (_duration P))) P)
    /\ ((exists c C, c ∈ children P /\ c <> t /\ h !! c = Some C
                     /\ _start C < datetime_max /\ datetime_min < _end C
                     /\ _start C <= _end C) ->
        forall c C, c ∈ children P -> c <> t -> h !! c = Some C ->
                    _start P' <= _start C /\ _end C <= _end P').
Proof.
  intros HP Hch Hnd Hfuel Hres. unfold update_task_date_values.
  rewrite (bind_ok _ _ _ _ _ (get_task_ok _ _ _ HP)).
  destruct (children_range_spec t (children P) datetime_max datetime_min h
              Hres) as (r & Hrun & Ha & Hb & Henv & Hnone).
  rewrite (bind_ok _ _ _ _ _ Hrun).
  destruct (negb (fst r =? datetime_max) && negb (snd r =? datetime_min))
    eqn:Hcond.
  - apply andb_true_iff in Hcond as [Hc1 Hc2].
    apply negb_true_iff, Z.eqb_neq in Hc1.
    apply negb_true_iff, Z.eqb_neq in Hc2.
    destruct (start_setter_total fuel h p l (Some (fst r)) Hch Hnd Hfuel)
      as (h1 & P0 & HP0 & Hr1 & Hf1 & Ho1 & HP1).
    rewrite HP in HP0. injection HP0 as <-.
    rewrite (bind_ok _ _ _ _ _ Hr1).
    destruct (end_setter_total fuel h1 p l (Some (snd r)))
      as (h2 & P1 & HP1' & Hr2 & Hf2 & Ho2 & HP2);
      [by eapply is_chain_date_frame | done | done |].
    rewrite HP1 in HP1'. injection HP1' as <-.
    eexists h2, _. split; [exact Hr2|]. split.
    { by eapply date_frame_trans. }
    split. { intros k Hk. rewrite Ho2 by done. by apply Ho1. }
    split; [exact HP2|]. split.
    + intros Hall. apply Hnone in Hall. subst r. by simpl in Hc1.
    + intros (c0 & C0 & Hc0 & Hne0 & HC0 & _ & _ & Hle0) c C Hc Hne HC.
      destruct (Henv c0 C0 Hc0 Hne0 HC0) as [Hs0 He0].
      destruct (Henv c C Hc Hne HC) as [Hs He].
      simpl. destruct (_end P <? fst r); simpl;
        (destruct (Z.ltb_spec (snd r) (fst r)); [lia|]); simpl; lia.
  - destruct (start_setter_total fuel h p l (Some now) Hch Hnd Hfuel)
      as (h1 & P0 & HP0 & Hr1 & Hf1 & Ho1 & HP1).
    rewrite HP in HP0. injection HP0 as <-.
    eexists h1, _. split; [exact Hr1|]. split; [done|]. split; [done|].
    split; [exact HP1|]. split; [done|].
    intros (c0 & C0 & Hc0 & Hne0 & HC0 & Hmax & Hmin & Hle0).
    exfalso. destruct (Henv c0 C0 Hc0 Hne0 HC0) as [Hs0 He0].
    apply andb_false_iff in Hcond as [Hc | Hc];
      apply negb_false_iff, Z.eqb_eq in Hc; lia.
Qed.

End DateFacts.
(** ** Assigning the parent *)

Section ParentSetFacts.

Context (cfg : Config) (L : Logs) (now : Z).

Lemma old_parent_block fuel h p1 l1 P1 t :
  h !! p1 = Some P1 -> is_chain h p1 l1 -> NoDup (p1 :: l1) ->
  (length l1 <= fuel)%nat ->
  (forall c, c ∈ children P1 -> c <> t -> is_Some (h !! c)) ->
  exists h' P',
    (update_task_date_values fuel now p1 t;;;
     OP <- get_task p1;;
     modify_task p1 (set_children (list_remove t (children OP)))) h
    = Ok (tt, h')
    /\ h' !! p1 = Some (set_children (list_remove t (children P1)) P')
    /\ erase_dates P' = erase_dates P1
    /\ (forall k, k <> p1 -> erase_dates <$> h' !! k = erase_dates <$> h !! k)
    /\ (forall k, k ∉ p1 :: l1 -> h' !! k = h !! k)
    /\ ((forall c, c ∈ children P1 -> c = t) ->
        P' = set_dates (_validate_dates now (Some now) (Some (_end P1))
                                        (Some (_duration P1))) P1)
    /\ ((exists c C, c ∈ children P1 /\ c <> t /\ h !! c = Some C
                     /\ _start C < datetime_max /\ datetime_min < _end C
                     /\ _start C <= _end C) ->
        forall c C, c ∈ children P1 -> c <> t -> h !! c = Some C ->
                    _start P' <= _start C /\ _end C <= _end P').
Proof.
  intros HP Hch Hnd Hfuel Hres.
  destruct (update_task_date_values_spec now fuel h p1 P1 l1 t
              HP Hch Hnd Hfuel Hres)
    as (h5 & P' & Hrun & Hf & Hout & HP' & HA & HB).
  destruct (date_frame_lookup _ _ _ _ Hf HP) as (P'' & HP'' & He).
  rewrite HP' in HP''. injection HP'' as <-.
  pose proof (erase_dates_fields _ _ He) as (_ & Hchild & _).
  exists (<[p1 := set_children (list_remove t (children P')) P']> h5), P'.
  split.
  { rewrite (bind_ok _ _ _ _ _ Hrun).
    rewrite (bind_ok _ _ _ _ _ (get_task_ok _ _ _ HP')).
    by apply modify_task_ok. }
  split; [by rewrite lookup_insert_eq, Hchild|].
  split; [done|]. split.
  { intros k Hk. rewrite lookup_insert_ne by done. apply Hf. }
  split.
  { intros k Hk. rewrite lookup_insert_ne; [by apply Hout|].
    intros ->. apply Hk. by left. }
  done.
Qed.


(** C8, as the claim words it: after the last child is removed both
    dates of the parent would be the current time.  The parent ranged
    over [0, 100); at time 50 its start becomes 50 and its end stays
    100. *)
Lemma remove_last_child_keeps_end :
  exists h',
    parent_set example_cfg ∅ 5 50 2 None single_child_tree = Ok (tt, h')
    /\ (_start <$> h' !! 1%nat) = Some 50
    /\ (_end <$> h' !! 1%nat) = Some 100
    /\ (_end <$> h' !! 1%nat) <> Some 50.
Proof.
  eexists. split; [vm_compute; reflexivity|].
  split; [reflexivity|]. split; [reflexivity | discriminate].
Qed.

(** C8 (amended): removing the last remaining child of a container
    sets the parent's start to the current time, while its end is kept
    unless it lies before the new start (then it is the start plus the
    duration); the parent is a leaf again and its schedule seconds are
    its own nominal timing.  Removing a non-last child leaves the
    parent's range enveloping the ranges of the remaining children. *)
Theorem remove_child_updates_parent_dates :
  forall fuel h t T p1 l1 P1 lg,
    h !! t = Some T -> is_container T = false -> parent T = Some p1 ->
    (forall h' : Heap, sum_time_logs L (time_logs T) 0 h' = Ok (lg, h')) ->
    h !! p1 = Some P1 ->
    is_chain h p1 l1 -> NoDup (p1 :: l1) -> t ∉ p1 :: l1 ->
    schedule_ready h (p1 :: l1) -> logged_ready h (p1 :: l1) ->
    (forall c, c ∈ children P1 -> c <> t -> is_Some (h !! c)) ->
    (length l1 < fuel)%nat ->
    exists h' P1',
      parent_set cfg L fuel now t None h = Ok (tt, h')
      /\ h' !! p1 = Some P1'
      /\ children P1' = list_remove t (children P1)
      /\ (forall k, k ∉ t :: p1 :: l1 -> h' !! k = h !! k)
      /\ (children P1 = [t] ->
          is_leaf P1' = true
          /\ _start P1' = now
          /\ _end P1' = (if _end P1 <? now
                         then now + Z.max 0 (_duration P1) else _end P1)
          /\ schedule_seconds_getter cfg (update_schedule_info cfg L fuel)
               p1 h'
             = Ok (Some (to_seconds cfg (schedule_timing P1)
                                    (schedule_unit P1)), h'))
      /\ ((exists c C, c ∈ children P1 /\ c <> t /\ h !! c = Some C
                       /\ _start C < datetime_max /\ datetime_min < _end C
                       /\ _start C <= _end C) ->
          forall c C, c ∈ children P1 -> c <> t -> h !! c = Some C ->
                      _start P1' <= _start C /\ _end C <= _end P1').
Proof.
  intros fuel h t T p1 l1 P1 lg HT Hleaf Hpar Hsum HP1 Hch Hnd Ht Hsr Hlr
         Hres Hfuel.
  set (s := to_seconds cfg (schedule_timing T) (schedule_unit T)).
  set (h2 := bump_logged (- lg) (p1 :: l1)
               (bump_schedule (- s) (p1 :: l1) h)).
  assert (Hlook : forall k, k ∉ p1 :: l1 -> h2 !! k = h !! k).
  { intros k Hk. unfold h2, bump_logged, bump_schedule.
    by rewrite !foldr_alter_notin. }
  assert (HT2 : h2 !! t = Some T) by (by rewrite Hlook).
  set (P1b := add_logged (- lg) (add_schedule (- s) P1)).
  assert (HP1b : h2 !! p1 = Some P1b).
  { unfold h2, bump_logged, bump_schedule.
    rewrite !foldr_alter_in by (done || by left). by rewrite HP1. }
  assert (Hch2 : is_chain h2 p1 l1).
  { eapply is_chain_ext; [|exact Hch]. intros k. unfold h2.
    by rewrite bump_logged_parent, bump_schedule_parent. }
  assert (Hsome : forall k, is_Some (h !! k) -> is_Some (h2 !! k)).
  { intros k [K HK]. unfold h2, bump_logged, bump_schedule.
    rewrite !foldr_alter_lookup by done. rewrite HK. simpl. eauto. }
  destruct (old_parent_block fuel h2 p1 l1 P1b t HP1b Hch2 Hnd
              ltac:(lia))
    as (h' & P' & Hrun & HP' & He & Hdates & Hout & HA & HB).
  { intros c Hc Hct. apply Hsome. by apply Hres. }
  assert (Htp : t <> p1) by (intros ->; apply Ht; by left).
  assert (HT' : h' !! t = Some T) by (by rewrite Hout).
  exists (<[t := set_parent None T]> h'),
         (set_children (list_remove t (children P1)) P').
  split.
  { unfold parent_set.
    rewrite (bind_ok _ _ _ _ _
               (validate_parent_detaches cfg L fuel h t T p1 l1 lg
                  HT Hleaf Hpar Hsum Hch Hnd Ht Hsr Hlr Hfuel)).
    fold s. fold h2.
    rewrite (bind_ok _ _ _ _ _ (get_task_ok _ _ _ HT2)). rewrite Hpar.
    destruct (decide (Some p1 = None)) as [|_]; [done|].
    unfold bind at 1. unfold bind at 1.
    change (children P1b) with (children P1) in Hrun. rewrite Hrun.
    unfold ret at 1. by apply modify_task_ok. }
  split; [by rewrite lookup_insert_ne|].
  split; [done|]. split.
  { intros k Hk. apply not_elem_of_cons in Hk as [Hkt Hk].
    rewrite lookup_insert_ne by done. rewrite Hout by done. by apply Hlook. }
  split.
  - intros Hone.
    assert (HP'eq : P' = set_dates
                           (_validate_dates now (Some now) (Some (_end P1))
                                            (Some (_duration P1))) P1b).
    { apply HA. intros c Hc. change (children P1b) with (children P1) in Hc.
      rewrite Hone in Hc. by apply list_elem_of_singleton in Hc. }
    assert (Hleaf' : is_leaf (set_children (list_remove t (children P1)) P')
                     = true).
    { unfold is_leaf, is_container. simpl. rewrite Hone. simpl.
      by rewrite Nat.eqb_refl. }
    split; [done|]. split.
    { rewrite HP'eq. simpl. by destruct (_end P1 <? now). }
    split.
    { rewrite HP'eq. simpl. by destruct (_end P1 <? now). }
    rewrite (schedule_seconds_getter_leaf cfg _ _ p1
               (set_children (list_remove t (children P1)) P')).
    + rewrite HP'eq. done.
    + by rewrite lookup_insert_ne.
    + unfold is_leaf in Hleaf'. by apply negb_true_iff in Hleaf'.
  - intros Hex c C Hc Hct HC.
    assert (Hrem : forall c C, c ∈ children P1 -> c <> t -> h !! c = Some C ->
                     exists C2, h2 !! c = Some C2 /\ _start C2 = _start C
                                /\ _end C2 = _end C).
    { intros c0 C0 _ _ HC0. unfold h2, bump_logged, bump_schedule.
      rewrite !foldr_alter_lookup by done. rewrite HC0. simpl.
      eexists. split; [done|]. by repeat case_decide. }
    destruct (Hrem c C Hc Hct HC) as (C2 & HC2 & <- & <-).
    apply (fun H => HB H c C2 Hc Hct HC2).
    destruct Hex as (c0 & C0 & Hc0 & Hne0 & HC0 & Hmax & Hmin & Hle).
    destruct (Hrem c0 C0 Hc0 Hne0 HC0) as (C02 & HC02 & Hs0 & He0).
    exists c0, C02. rewrite Hs0, He0. done.
Qed.

Lemma erase_dates_schedule_cache (o1 o2 : option Task) :
  erase_dates <$> o1 = erase_dates <$> o2 ->
  o1 ≫= _schedule_seconds = o2 ≫= _schedule_seconds.
Proof.
  destruct o1 as [T1|], o2 as [T2|]; try done. simpl. intros He.
  assert (He' : erase_dates T1 = erase_dates T2) by congruence.
  by apply erase_dates_fields in He' as (_ & _ & ? & _).
Qed.

Lemma erase_dates_parent (o1 o2 : option Task) :
  erase_dates <$> o1 = erase_dates <$> o2 -> parent <$> o1 = parent <$> o2.
Proof.
  destruct o1 as [T1|], o2 as [T2|]; try done. simpl. intros He.
  assert (He' : erase_dates T1 = erase_dates T2) by congruence.
  f_equal. by apply erase_dates_fields in He' as (? & _).
Qed.

Lemma new_parent_block fuel h p2 l2 P2 t T :
  h !! p2 = Some P2 -> is_container P2 = true ->
  h !! t = Some T -> t <> p2 ->
  is_chain h p2 l2 -> NoDup (p2 :: l2) -> (length l2 < fuel)%nat ->
  exists h',
    (c <- _validate_children cfg L fuel now p2 t;;
     P <- get_task p2;;
     modify_task p2 (set_children (children P ++ [c]))) h = Ok (tt, h')
    /\ (forall k, schedule_cache h' k = schedule_cache h k)
    /\ (forall k, parent <$> h' !! k = parent <$> h !! k)
    /\ (forall k, k ∉ p2 :: l2 -> h' !! k = h !! k)
    /\ (children <$> h' !! p2) = Some (children P2 ++ [t]).
Proof.
  intros HP2 HP2c HT Htp Hch Hnd Hfuel.
  set (h1 := <[p2 := set_resources [] P2]> h).
  assert (HT1 : h1 !! t = Some T).
  { unfold h1. by rewrite lookup_insert_ne. }
  assert (Hch1 : is_chain h1 p2 l2).
  { eapply is_chain_ext; [|exact Hch]. intros k. unfold h1.
    destruct (decide (k = p2)) as [->|Hne].
    - by rewrite lookup_insert_eq, HP2.
    - by rewrite lookup_insert_ne. }
  destruct (_expand_dates_expands now (p2 :: l2) fuel Hnd ltac:(simpl; lia)
              h1 (_start T) (_end T) Hch1)
    as (h2 & Hrun & Hf & Hout).
  simpl in Hrun.
  destruct (date_frame_lookup h1 h2 p2 _ Hf (lookup_insert_eq _ _ _))
    as (P2' & HP2' & He).
  exists (<[p2 := set_children (children P2' ++ [t]) P2']> h2).
  pose proof (erase_dates_fields _ _ He) as (Hpar' & Hchild' & Hss' & _).
  simpl in Hpar', Hchild', Hss'.
  split.
  { assert (Hvc : _validate_children cfg L fuel now p2 t h = Ok (t, h2)).
    { unfold _validate_children. cbv zeta.
      rewrite (bind_ok _ _ _ _ _ (modify_task_ok _ _ _ _ HP2)).
      fold h1.
      rewrite (bind_ok _ _ _ _ _
                 (get_task_ok h1 p2 _ (lookup_insert_eq _ _ _))).
      unfold is_leaf.
      change (is_container (set_resources [] P2)) with (is_container P2).
      rewrite HP2c. simpl negb. cbv iota.
      unfold bind at 1. unfold ret at 1.
      rewrite (bind_ok _ _ _ _ _ (get_task_ok _ _ _ HT1)).
      by rewrite (bind_ok _ _ _ _ _ Hrun). }
    rewrite (bind_ok _ _ _ _ _ Hvc).
    rewrite (bind_ok _ _ _ _ _ (get_task_ok _ _ _ HP2')).
    by apply modify_task_ok. }
  split.
  { intros k. unfold schedule_cache.
    destruct (decide (k = p2)) as [->|Hne].
    - rewrite lookup_insert_eq, HP2. simpl. by rewrite Hss'.
    - rewrite lookup_insert_ne by done.
      rewrite (erase_dates_schedule_cache _ _ (Hf k)). unfold h1.
      by rewrite lookup_insert_ne. }
  split.
  { intros k. destruct (decide (k = p2)) as [->|Hne].
    - rewrite lookup_insert_eq, HP2. simpl. by rewrite Hpar'.
    - rewrite lookup_insert_ne by done.
      rewrite (erase_dates_parent _ _ (Hf k)). unfold h1.
      by rewrite lookup_insert_ne. }
  split.
  { intros k Hk. rewrite lookup_insert_ne by (intros ->; apply Hk; by left).
    rewrite Hout by done. unfold h1.
    rewrite lookup_insert_ne; [done|]. intros ->. apply Hk. by left. }
  rewrite lookup_insert_eq. simpl. by rewrite Hchild'.
Qed.

Lemma schedule_cache_reparented s lg c1 c2 (h : Heap) k c :
  NoDup c1 -> NoDup c2 -> schedule_cache h k = Some c ->
  schedule_cache (reparented s lg c1 c2 h) k
  = Some (c + (if decide (k ∈ c2) then s else 0)
          - (if decide (k ∈ c1) then s else 0)).
Proof.
  intros Hnd1 Hnd2. unfold schedule_cache, reparented, bump_logged,
    bump_schedule.
  rewrite !foldr_alter_lookup by done.
  destruct (h !! k) as [K|]; [|done]. simpl. intros HK.
  destruct (decide (k ∈ c1)), (decide (k ∈ c2)); simpl;
    unfold add_schedule; simpl; rewrite ?HK; simpl; f_equal; lia.
Qed.

Lemma schedule_cache_reparented_outside s lg c1 c2 (h : Heap) k :
  k ∉ c1 -> k ∉ c2 ->
  schedule_cache (reparented s lg c1 c2 h) k = schedule_cache h k.
Proof.
  intros H1 H2. unfold schedule_cache, reparented, bump_logged,
    bump_schedule.
  by rewrite !foldr_alter_notin.
Qed.

Lemma chain_root_last (h : Heap) l :
  forall p r R,
    is_chain h p l -> r ∈ p :: l -> h !! r = Some R -> parent R = None ->
    last (p :: l) = Some r.
Proof.
  induction l as [|q l IH]; intros p r R Hch Hr HR Hroot.
  - apply list_elem_of_singleton in Hr as ->. done.
  - destruct Hch as [(P & HP & Hpar) Hch].
    apply elem_of_cons in Hr as [->|Hr].
    + rewrite HR in HP. injection HP as <-. congruence.
    + change (last (p :: q :: l)) with (last (q :: l)). by eapply IH.
Qed.

Lemma schedule_ready_cache (h : Heap) l k :
  schedule_ready h l -> k ∈ l -> exists c, schedule_cache h k = Some c.
Proof.
  intros Hr Hk. unfold schedule_ready in Hr. rewrite Forall_forall in Hr.
  destruct (Hr k Hk) as (K & c & HK & _ & Hc & _).
  exists c. unfold schedule_cache. by rewrite HK.
Qed.

(** C6, as the claim words it: the old parent's schedule seconds would
    drop by the contribution of the task.  The leaf 2 (3600 seconds) moves
    from the container 1 to the container 3, which is itself a child of
    1: the cache of 3 grows by 3600 and the cache of 1 stays 10800. *)
Lemma reparent_below_old_parent_keeps_its_cache :
  exists h',
    parent_set example_cfg ∅ 5 0 2 (Some 3%nat) family_tree = Ok (tt, h')
    /\ schedule_cache family_tree 1 = Some 10800
    /\ schedule_cache h' 1 = Some 10800
    /\ schedule_cache h' 1 <> Some (10800 - 3600)
    /\ schedule_cache h' 3 = Some (7200 + 3600).
Proof.
  eexists. split; [vm_compute; reflexivity|].
  repeat split; try reflexivity. discriminate.
Qed.

(** C6 (amended): reparenting a leaf task from the container P1 to the
    container P2 subtracts the task's schedule seconds from the cache of
    P1 and of every ancestor of P1, and adds them to the cache of P2 and
    of every ancestor of P2; a task on both chains is therefore left
    unchanged, and so is the cache of every root-level task when the two
    chains end in the same root. *)
Theorem reparent_leaf_moves_schedule_seconds :
  forall fuel h t T p1 l1 P1 p2 l2 P2 lg,
    h !! t = Some T -> is_container T = false -> parent T = Some p1 ->
    0 <= to_seconds cfg (schedule_timing T) (schedule_unit T) ->
    (forall h' : Heap, sum_time_logs L (time_logs T) 0 h' = Ok (lg, h')) ->
    h !! p1 = Some P1 ->
    is_chain h p1 l1 -> NoDup (p1 :: l1) -> t ∉ p1 :: l1 ->
    h !! p2 = Some P2 -> is_container P2 = true ->
    is_chain h p2 l2 -> NoDup (p2 :: l2) -> t ∉ p2 :: l2 ->
    schedule_ready h (p1 :: l1) -> schedule_ready h (p2 :: l2) ->
    logged_ready h (p1 :: l1) -> logged_ready h (p2 :: l2) ->
    schedule_at_least
      (to_seconds cfg (schedule_timing T) (schedule_unit T)) h (p1 :: l1) ->
    (forall c, c ∈ children P1 -> c <> t -> is_Some (h !! c)) ->
    reaches fuel RDepends h t p2 = Ok false ->
    (length l1 < fuel)%nat -> (length l2 < fuel)%nat ->
    exists h',
      parent_set cfg L fuel now t (Some p2) h = Ok (tt, h')
      /\ (parent <$> h' !! t) = Some (Some p2)
      /\ (forall k c,
            schedule_cache h k = Some c ->
            schedule_cache h' k
            = Some (c + (if decide (k ∈ p2 :: l2)
                         then to_seconds cfg (schedule_timing T)
                                         (schedule_unit T) else 0)
                    - (if decide (k ∈ p1 :: l1)
                       then to_seconds cfg (schedule_timing T)
                                       (schedule_unit T) else 0)))
      /\ (forall r R,
            h !! r = Some R -> parent R = None ->
            last (p1 :: l1) = last (p2 :: l2) ->
            schedule_cache h' r = schedule_cache h r).
Proof.
  intros fuel h t T p1 l1 P1 p2 l2 P2 lg HT Hleaf Hpar Hs Hsum HP1 Hc1 Hnd1
         Ht1 HP2 HP2c Hc2 Hnd2 Ht2 Hsr1 Hsr2 Hlr1 Hlr2 Hal Hres Hdep Hf1 Hf2.
  set (s := to_seconds cfg (schedule_timing T) (schedule_unit T)) in *.
  set (h4 := reparented s lg (p1 :: l1) (p2 :: l2) h).
  assert (Hlook4 : forall k,
             h4 !! k
             = (if decide (k ∈ p2 :: l2) then add_logged lg else id)
               <$> ((if decide (k ∈ p2 :: l2) then add_schedule s else id)
               <$> ((if decide (k ∈ p1 :: l1) then add_logged (- lg) else id)
               <$> ((if decide (k ∈ p1 :: l1) then add_schedule (- s) else id)
               <$> h !! k)))).
  { intros k. unfold h4, reparented, bump_logged, bump_schedule.
    by rewrite !foldr_alter_lookup. }
  assert (Hpar4 : forall k, parent <$> h4 !! k = parent <$> h !! k).
  { intros k. unfold h4, reparented.
    by rewrite !bump_logged_parent, !bump_schedule_parent,
         !bump_logged_parent, !bump_schedule_parent. }
  assert (Hshape4 : forall k K, h !! k = Some K ->
             exists K4, h4 !! k = Some K4 /\ children K4 = children K
                        /\ is_container K4 = is_container K).
  { intros k K HK. rewrite Hlook4, HK. simpl. eexists. split; [done|].
    by repeat case_decide. }
  assert (HT4 : h4 !! t = Some T).
  { rewrite Hlook4, HT. by repeat (case_decide; [contradiction|]). }
  assert (Hvp : _validate_parent cfg L fuel t (Some p2) h = Ok (Some p2, h4)).
  { by eapply validate_parent_moves_contribution. }
  assert (Htp1 : t <> p1) by (intros ->; apply Ht1; by left).
  assert (Htp2 : t <> p2) by (intros ->; apply Ht2; by left).
  assert (Hfinal : exists h8,
    ((if decide (parent T = Some p2) then ret tt
      else
        (match parent T with
         | Some op =>
             update_task_date_values fuel now op t;;;
             OP <- get_task op;;
             modify_task op (set_children (list_remove t (children OP)))
         | None => ret tt
         end);;;
        (c <- _validate_children cfg L fuel now p2 t;;
         P <- get_task p2;;
         modify_task p2 (set_children (children P ++ [c])))) h4
     = Ok (tt, h8))
    /\ h8 !! t = Some T
    /\ (forall k, schedule_cache h8 k = schedule_cache h4 k)).
  { destruct (decide (parent T = Some p2)) as [Heq|Hneq].
    { exists h4. by repeat split. }
    rewrite Hpar.
    assert (Hp12 : p1 <> p2) by congruence.
    destruct (Hshape4 p1 P1 HP1) as (P1b & HP1b & Hch1b & _).
    destruct (old_parent_block fuel h4 p1 l1 P1b t HP1b)
      as (h6 & P' & Hrun6 & HP6 & He6 & Hd6 & Hout6 & _ & _).
    { eapply is_chain_ext; [|exact Hc1]. intros k. by rewrite Hpar4. }
    { done. }
    { lia. }
    { intros c Hc Hct. rewrite Hch1b in Hc.
      destruct (Hres c Hc Hct) as [C HC].
      destruct (Hshape4 c C HC) as (C4 & HC4 & _). eauto. }
    destruct (Hshape4 p2 P2 HP2) as (P2b & HP2b & _ & HP2bc).
    assert (HP26 : exists P26, h6 !! p2 = Some P26
                               /\ is_container P26 = true).
    { pose proof (Hd6 p2 ltac:(congruence)) as He. rewrite HP2b in He.
      destruct (h6 !! p2) as [P26|]; [|discriminate].
      exists P26. split; [done|]. simpl in He.
      assert (He' : erase_dates P26 = erase_dates P2b) by congruence.
      apply erase_dates_fields in He' as (_ & _ & _ & _ & ->). congruence. }
    destruct HP26 as (P26 & HP26 & HP26c).
    assert (HT6 : h6 !! t = Some T) by (by rewrite Hout6).
    assert (Hpar6 : forall k, parent <$> h6 !! k = parent <$> h4 !! k).
    { intros k. destruct (decide (k = p1)) as [->|Hne].
      - rewrite HP6, HP1b. simpl. f_equal.
        by apply erase_dates_fields in He6 as (? & _).
      - by apply erase_dates_parent, Hd6. }
    destruct (new_parent_block fuel h6 p2 l2 P26 t T HP26 HP26c HT6 Htp2)
      as (h8 & Hrun8 & Hcache8 & _ & Hout8 & _).
    { eapply is_chain_ext; [|exact Hc2]. intros k.
      by rewrite Hpar6, Hpar4. }
    { done. }
    { done. }
    exists h8. split.
    { unfold bind at 1. rewrite Hrun6. exact Hrun8. }
    split; [by rewrite Hout8|].
    intros k. rewrite Hcache8. unfold schedule_cache.
    destruct (decide (k = p1)) as [->|Hne].
    - rewrite HP6, HP1b. simpl.
      by apply erase_dates_fields in He6 as (_ & _ & ? & _).
    - by apply erase_dates_schedule_cache, Hd6. }
  destruct Hfinal as (h8 & Hrun8 & HT8 & Hcache8).
  exists (<[t := set_parent (Some p2) T]> h8).
  assert (Hcachef : forall k,
             schedule_cache (<[t := set_parent (Some p2) T]> h8) k
             = schedule_cache h4 k).
  { intros k. rewrite <- Hcache8. unfold schedule_cache.
    destruct (decide (k = t)) as [->|Hne].
    - by rewrite lookup_insert_eq, HT8.
    - by rewrite lookup_insert_ne. }
  split.
  { unfold parent_set. rewrite (bind_ok _ _ _ _ _ Hvp).
    rewrite (bind_ok _ _ _ _ _ (get_task_ok _ _ _ HT4)).
    rewrite (bind_ok _ _ _ _ _ Hrun8). by apply modify_task_ok. }
  split; [by rewrite lookup_insert_eq|].
  split.
  { intros k c Hk. rewrite Hcachef. by apply schedule_cache_reparented. }
  intros r R HR Hroot Hlast. rewrite Hcachef. unfold h4.
  destruct (decide (r ∈ p1 :: l1)) as [Hr1|Hr1],
           (decide (r ∈ p2 :: l2)) as [Hr2|Hr2].
  - destruct (schedule_ready_cache _ _ _ Hsr1 Hr1) as (c & Hc).
    rewrite (schedule_cache_reparented _ _ _ _ _ _ c Hnd1 Hnd2 Hc).
    rewrite Hc. rewrite !decide_True by done. f_equal. lia.
  - exfalso. apply Hr2. apply last_Some_elem_of. rewrite <- Hlast.
    by eapply chain_root_last.
  - exfalso. apply Hr1. apply last_Some_elem_of. rewrite Hlast.
    by eapply chain_root_last.
  - by apply schedule_cache_reparented_outside.
Qed.

End ParentSetFacts.

Lemma reparent_leaf_moves_schedule_seconds_witness :
  exists h',
    parent_set example_cfg ∅ 5 0 2 (Some 3%nat) family_tree = Ok (tt, h')
    /\ (parent <$> h' !! 2%nat) = Some (Some 3%nat).
Proof.
  destruct (reparent_leaf_moves_schedule_seconds example_cfg ∅ 0 5
              family_tree 2 (leaf_task (Some 1%nat) [] 1 UHour)
              1 [] (container_task None [2%nat; 3%nat] 10800 0)
              3 [1%nat] (container_task (Some 1%nat) [4%nat] 7200 0) 0)
    as (h' & Hrun & Hpar & _).
  - reflexivity.
  - reflexivity.
  - reflexivity.
  - vm_compute. discriminate.
  - intros h'. reflexivity.
  - reflexivity.
  - simpl. eexists. split; reflexivity.
  - no_dup.
  - not_elem.
  - reflexivity.
  - reflexivity.
  - simpl. split; [eexists; split; reflexivity|].
    eexists. split; reflexivity.
  - no_dup.
  - not_elem.
  - repeat constructor; eexists _, _; repeat split; try reflexivity;
      vm_compute; discriminate.
  - repeat constructor; eexists _, _; repeat split; try reflexivity;
      vm_compute; discriminate.
  - repeat constructor; eexists _, _; repeat split; reflexivity.
  - repeat constructor; eexists _, _; repeat split; reflexivity.
  - repeat constructor; eexists _, _; repeat split; try reflexivity;
      vm_compute; discriminate.
  - intros c Hc Hne. simpl in Hc. elem_cases Hc; [done | by eexists].
  - reflexivity.
  - simpl. lia.
  - simpl. lia.
  - exists h'. by split.
Defined.

Lemma remove_child_updates_parent_dates_witness :
  exists h' P1',
    parent_set example_cfg ∅ 5 50 2 None single_child_tree = Ok (tt, h')
    /\ h' !! 1%nat = Some P1'
    /\ children P1' = [].
Proof.
  destruct (remove_child_updates_parent_dates example_cfg ∅ 50 5
              single_child_tree 2 (leaf_task (Some 1%nat) [] 1 UHour)
              1 [] (container_task None [2%nat] 3600 0) 0)
    as (h' & P1' & Hrun & HP & Hch & _).
  - reflexivity.
  - reflexivity.
  - reflexivity.
  - intros h'. reflexivity.
  - reflexivity.
  - simpl. eexists. split; reflexivity.
  - no_dup.
  - not_elem.
  - repeat constructor; eexists _, _; repeat split; try reflexivity;
      vm_compute; discriminate.
  - repeat constructor; eexists _, _; repeat split; reflexivity.
  - intros c Hc Hne. simpl in Hc. elem_cases Hc. done.
  - simpl. lia.
  - exists h', P1'. repeat split; done.
Defined.

(** ** Expanding the schedule timing of a task *)

Lemma erase_plan_fields T T' :
  erase_plan T' = erase_plan T ->
  parent T' = parent T /\ children T' = children T
  /\ time_logs T' = time_logs T
  /\ schedule_timing T' = schedule_timing T
  /\ schedule_unit T' = schedule_unit T
  /\ is_container T' = is_container T.
Proof.
  unfold erase_plan, set_schedule_cache, set_dates, is_container. simpl.
  intros [= -> -> _ _ -> -> -> _ _ _]. done.
Qed.

Lemma schedule_at_least_mono s s' (h : Heap) l :
  s' <= s -> schedule_at_least s h l -> schedule_at_least s' h l.
Proof.
  intros Hle Hal. unfold schedule_at_least in *.
  eapply Forall_impl; [exact Hal|]. simpl.
  intros p (P & c & HP & Hc & Hsc). exists P, c. repeat split; try done. lia.
Qed.

Section ExpandFacts.

Context (cfg : Config) (L : Logs) (now : Z).

Lemma reschedule_leaf fuel h t T v u :
  h !! t = Some T -> is_container T = false ->
  exists T',
    _reschedule cfg L fuel now t v u h = Ok (tt, <[t := T']> h)
    /\ erase_plan T' = erase_plan T.
Proof.
  intros HT Hleaf. unfold _reschedule, is_leaf.
  rewrite (bind_ok _ _ _ _ _ (get_task_ok _ _ _ HT)). rewrite Hleaf. simpl.
  destruct (datetime_units_to_timedelta cfg u) as [unit_|].
  - assert (Hdates : exists d,
      (if (schedule_constraint T =? CONSTRAIN_NONE)%nat
          || (schedule_constraint T =? CONSTRAIN_START)%nat
       then modify_task t
              (set_dates (_validate_dates now (Some (_start T)) None
                                          (Some (v * unit_))))
       else if (schedule_constraint T =? CONSTRAIN_END)%nat
       then modify_task t
              (set_dates (_validate_dates now None (Some (_end T))
                                          (Some (v * unit_))))
       else if (schedule_constraint T =? CONSTRAIN_BOTH)%nat
       then modify_task t
              (set_dates (_validate_dates now (Some (_start T))
                                          (Some (_end T)) None))
       else ret tt) h = Ok (tt, <[t := set_dates d T]> h)).
    { destruct ((schedule_constraint T =? CONSTRAIN_NONE)%nat
                || (schedule_constraint T =? CONSTRAIN_START)%nat);
        [eexists; by apply modify_task_ok|].
      destruct (schedule_constraint T =? CONSTRAIN_END)%nat;
        [eexists; by apply modify_task_ok|].
      destruct (schedule_constraint T =? CONSTRAIN_BOTH)%nat;
        [eexists; by apply modify_task_ok|].
      exists (_start T, _end T, _duration T). unfold ret.
      rewrite insert_id; [done|]. rewrite HT. by destruct T. }
    destruct Hdates as [d Hdates].
    rewrite (bind_ok _ _ _ _ _ Hdates).
    rewrite (bind_ok _ _ _ _ _
               (schedule_seconds_getter_leaf cfg _ _ t (set_dates d T)
                  (lookup_insert_eq _ _ _) Hleaf)).
    erewrite modify_task_ok by apply lookup_insert_eq.
    rewrite insert_insert_eq. eexists. split; [done|]. done.
  - exists T. unfold ret. rewrite insert_id by done. done.
Qed.

(** The listeners re-base the parent with the difference of the nominal
    seconds. *)
Lemma parent_rebase_block fuel h t T l old_seconds new_seconds :
  h !! t = Some T -> is_chain h t l -> NoDup l -> schedule_ready h l ->
  (length l < fuel)%nat ->
  match parent T with
  | Some p =>
      a <- schedule_seconds_getter cfg (update_schedule_info cfg L fuel) p;;
      az <- as_int a;;
      schedule_seconds_setter cfg L fuel p (az - old_seconds + new_seconds)
  | None => ret tt
  end h = Ok (tt, bump_schedule (new_seconds - old_seconds) l h).
Proof.
  intros HT Hch Hnd Hrdy Hfuel.
  destruct (is_chain_head _ _ _ Hch) as (T' & HT' & Hpar).
  rewrite HT in HT'. injection HT' as <-. rewrite Hpar.
  destruct l as [|p l]; simpl; [done|].
  destruct Hch as [_ Hch].
  pose proof Hrdy as Hrdy'.
  apply schedule_ready_cons in Hrdy' as [(P & c & HP & HPc & HPs & Hnn) _].
  rewrite (bind_ok _ _ _ _ _
             (schedule_seconds_getter_cached _ _ _ _ _ _ HP HPc HPs Hnn)).
  simpl. unfold bind at 1. unfold ret at 1.
  replace (c - old_seconds + new_seconds)
    with (c + (new_seconds - old_seconds)) by lia.
  apply schedule_seconds_rebase; try done; [simpl in Hfuel; lia|].
  by rewrite HP; simpl; rewrite HPs.
Qed.


Lemma parent_rebase_block_unit fuel h t T l old_seconds new_seconds :
  h !! t = Some T -> is_chain h t l -> NoDup l -> schedule_ready h l ->
  (length l < fuel)%nat ->
  match parent T with
  | Some p =>
      a <- schedule_seconds_getter cfg (update_schedule_info cfg L fuel) p;;
      parent_schedule_seconds <-
        (if truthy a
         then a' <- schedule_seconds_getter cfg
                      (update_schedule_info cfg L fuel) p;;
              as_int a'
         else ret 0);;
      schedule_seconds_setter cfg L fuel p
        (parent_schedule_seconds - old_seconds + new_seconds)
  | None => ret tt
  end h = Ok (tt, bump_schedule (new_seconds - old_seconds) l h).
Proof.
  intros HT Hch Hnd Hrdy Hfuel.
  destruct (is_chain_head _ _ _ Hch) as (T' & HT' & Hpar).
  rewrite HT in HT'. injection HT' as <-. rewrite Hpar.
  destruct l as [|p l]; simpl; [done|].
  destruct Hch as [_ Hch].
  pose proof Hrdy as Hrdy'.
  apply schedule_ready_cons in Hrdy' as [(P & c & HP & HPc & HPs & Hnn) _].
  pose proof (schedule_seconds_getter_cached cfg
                (update_schedule_info cfg L fuel) _ _ _ _ HP HPc HPs Hnn)
    as Hget.
  rewrite (bind_ok _ _ _ _ _ Hget).
  assert (Hpsec :
    (if truthy (Some c)
     then a' <- schedule_seconds_getter cfg
                  (update_schedule_info cfg L fuel) p;;
          as_int a'
     else ret 0) h = Ok (c, h)).
  { simpl. destruct (Z.eqb_spec c 0) as [->|Hne]; simpl; [done|].
    by rewrite (bind_ok _ _ _ _ _ Hget). }
  rewrite (bind_ok _ _ _ _ _ Hpsec).
  replace (c - old_seconds + new_seconds)
    with (c + (new_seconds - old_seconds)) by lia.
  apply schedule_seconds_rebase; try done; [simpl in Hfuel; lia|].
  by rewrite HP; simpl; rewrite HPs.
Qed.

Lemma bump_schedule_insert delta l (h : Heap) t T :
  t ∉ l ->
  bump_schedule delta l (<[t := T]> h) = <[t := T]> (bump_schedule delta l h).
Proof. intros Ht. unfold bump_schedule. by rewrite foldr_alter_insert. Qed.

Lemma schedule_timing_set_spec fuel h t T l v :
  h !! t = Some T -> is_container T = false ->
  is_chain h t l -> NoDup (t :: l) -> schedule_ready h l ->
  (length l < fuel)%nat ->
  exists T',
    schedule_timing_set cfg L fuel now t v h
    = Ok (tt, <[t := set_schedule v (schedule_unit T) T']>
                (bump_schedule
                   (to_seconds cfg v (schedule_unit T)
                    - to_seconds cfg (schedule_timing T) (schedule_unit T))
                   l h))
    /\ erase_plan T' = erase_plan T.
Proof.
  intros HT Hleaf Hch Hnd Hrdy Hfuel.
  apply NoDup_cons in Hnd as [Ht Hnd].
  destruct (reschedule_leaf fuel h t T v (schedule_unit T) HT Hleaf)
    as (T' & Hres & He).
  pose proof (erase_plan_fields _ _ He) as (Hpar & _ & _ & Htm & Hun & _).
  exists T'. split; [|done].
  unfold schedule_timing_set.
  rewrite (bind_ok _ _ _ _ _ (get_task_ok _ _ _ HT)).
  rewrite (bind_ok _ _ _ _ _ Hres).
  set (h1 := <[t := T']> h).
  assert (HT1 : h1 !! t = Some T') by apply lookup_insert_eq.
  assert (Hblock :
    update_parents_schedule_seconds_with_schedule_timing cfg L fuel t v
      (schedule_timing T) h1
    = Ok (tt, bump_schedule
                (to_seconds cfg v (schedule_unit T)
                 - to_seconds cfg (schedule_timing T) (schedule_unit T))
                l h1)).
  { unfold update_parents_schedule_seconds_with_schedule_timing.
    rewrite (bind_ok _ _ _ _ _ (get_task_ok _ _ _ HT1)).
    rewrite Hun.
    apply (parent_rebase_block fuel h1 t T' l); try done.
    - eapply is_chain_ext; [|exact Hch]. intros k. unfold h1.
      destruct (decide (k = t)) as [->|Hne].
      + rewrite lookup_insert_eq, HT. simpl. by rewrite Hpar.
      + by rewrite lookup_insert_ne.
    - eapply schedule_ready_ext; [|exact Hrdy]. intros k Hk. unfold h1.
      rewrite lookup_insert_ne; [done|]. by intros ->. }
  rewrite (bind_ok _ _ _ _ _ Hblock).
  unfold h1. rewrite bump_schedule_insert by done.
  rewrite (bind_ok _ _ _ _ _ (get_task_ok _ _ _ (lookup_insert_eq _ _ _))).
  erewrite modify_task_ok by apply lookup_insert_eq.
  by rewrite insert_insert_eq, Hun.
Qed.

Lemma schedule_unit_set_spec fuel h t T l u :
  h !! t = Some T -> is_container T = false ->
  is_chain h t l -> NoDup (t :: l) -> schedule_ready h l ->
  (length l < fuel)%nat ->
  exists T',
    schedule_unit_set cfg L fuel now t u h
    = Ok (tt, <[t := set_schedule (schedule_timing T) u T']>
                (bump_schedule
                   (to_seconds cfg (schedule_timing T) u
                    - to_seconds cfg (schedule_timing T) (schedule_unit T))
                   l h))
    /\ erase_plan T' = erase_plan T.
Proof.
  intros HT Hleaf Hch Hnd Hrdy Hfuel.
  apply NoDup_cons in Hnd as [Ht Hnd].
  assert (Hres : exists T',
    (if negb (schedule_timing T =? 0)
     then _reschedule cfg L fuel now t (schedule_timing T) u
     else ret tt) h = Ok (tt, <[t := T']> h)
    /\ erase_plan T' = erase_plan T).
  { destruct (negb (schedule_timing T =? 0)).
    - by apply reschedule_leaf.
    - exists T. unfold ret. by rewrite insert_id. }
  destruct Hres as (T' & Hres & He).
  pose proof (erase_plan_fields _ _ He) as (Hpar & _ & _ & Htm & Hun & _).
  exists T'. split; [|done].
  unfold schedule_unit_set.
  rewrite (bind_ok _ _ _ _ _ (get_task_ok _ _ _ HT)).
  rewrite (bind_ok _ _ _ _ _ Hres).
  set (h1 := <[t := T']> h).
  assert (HT1 : h1 !! t = Some T') by apply lookup_insert_eq.
  assert (Hblock :
    update_parents_schedule_seconds_with_schedule_unit cfg L fuel t u
      (schedule_unit T) h1
    = Ok (tt, bump_schedule
                (to_seconds cfg (schedule_timing T) u
                 - to_seconds cfg (schedule_timing T) (schedule_unit T))
                l h1)).
  { unfold update_parents_schedule_seconds_with_schedule_unit.
    rewrite (bind_ok _ _ _ _ _ (get_task_ok _ _ _ HT1)).
    rewrite Htm.
    apply (parent_rebase_block_unit fuel h1 t T' l); try done.
    - eapply is_chain_ext; [|exact Hch]. intros k. unfold h1.
      destruct (decide (k = t)) as [->|Hne].
      + rewrite lookup_insert_eq, HT. simpl. by rewrite Hpar.
      + by rewrite lookup_insert_ne.
    - eapply schedule_ready_ext; [|exact Hrdy]. intros k Hk. unfold h1.
      rewrite lookup_insert_ne; [done|]. by intros ->. }
  rewrite (bind_ok _ _ _ _ _ Hblock).
  unfold h1. rewrite bump_schedule_insert by done.
  rewrite (bind_ok _ _ _ _ _ (get_task_ok _ _ _ (lookup_insert_eq _ _ _))).
  erewrite modify_task_ok by apply lookup_insert_eq.
  by rewrite insert_insert_eq, Htm.
Qed.

Lemma lmtu_loop_nonneg seconds us best :
  0 <= seconds -> (forall u, 0 <= unit_seconds cfg u) -> 0 <= fst best ->
  0 <= fst (lmtu_loop cfg seconds us best).
Proof.
  intros Hs Hu. revert best.
  induction us as [|u us IH]; intros best Hb; simpl; [done|].
  destruct (seconds mod unit_seconds cfg u =? 0); [|done].
  apply IH. simpl. by apply Z_div_nonneg_nonneg.
Qed.

Lemma least_meaningful_time_unit_nonneg seconds :
  0 <= seconds -> (forall u, 0 <= unit_seconds cfg u) ->
  0 <= fst (least_meaningful_time_unit cfg seconds).
Proof.
  intros Hs Hu. unfold least_meaningful_time_unit.
  apply lmtu_loop_nonneg; try done. simpl. by apply Z_div_nonneg_nonneg.
Qed.

Lemma expand_task_schedule_timing_spec fuel h self task T l lg :
  h !! task = Some T -> is_container T = false ->
  (forall h' : Heap, sum_time_logs L (time_logs T) 0 h' = Ok (lg, h')) ->
  is_chain h task l -> NoDup (task :: l) -> (length l < fuel)%nat ->
  schedule_ready h l ->
  schedule_at_least
    (to_seconds cfg (schedule_timing T) (schedule_unit T)) h l ->
  (forall u, 0 <= unit_seconds cfg u) ->
  0 <= lg + total_seconds self ->
  to_seconds cfg (schedule_timing T) (schedule_unit T) - lg
  < total_seconds self ->
  exists h' T',
    _expand_task_schedule_timing cfg L fuel now self task h = Ok (tt, h')
    /\ h' !! task = Some T'
    /\ (schedule_timing T', schedule_unit T')
       = least_meaningful_time_unit cfg
           (to_seconds cfg (schedule_timing T) (schedule_unit T)
            + total_seconds self
            - (to_seconds cfg (schedule_timing T) (schedule_unit T) - lg))
    /\ time_logs T' = time_logs T
    /\ is_leaf T' = true.
Proof.
  intros HT Hleaf Hsum Hch Hnd Hfuel Hrdy Hal Hunits Hpos Hlt.
  set (S := to_seconds cfg (schedule_timing T) (schedule_unit T)) in *.
  set (r := least_meaningful_time_unit cfg
              (S + total_seconds self - (S - lg))).
  assert (Hrem : remaining_seconds cfg L fuel task h = Ok (S - lg, h)).
  { unfold remaining_seconds.
    rewrite (bind_ok _ _ _ _ _
               (schedule_seconds_getter_leaf _ _ _ _ _ HT Hleaf)).
    by rewrite (bind_ok _ _ _ _ _
                  (total_logged_seconds_getter_leaf _ _ _ _ _ _ HT Hleaf
                     (Hsum h))). }
  destruct (schedule_timing_set_spec fuel h task T l (fst r)
              HT Hleaf Hch Hnd Hrdy Hfuel) as (T1 & Hrun1 & He1).
  fold S in Hrun1.
  set (d1 := to_seconds cfg (fst r) (schedule_unit T) - S) in *.
  set (h1 := <[task := set_schedule (fst r) (schedule_unit T) T1]>
               (bump_schedule d1 l h)) in *.
  pose proof (erase_plan_fields _ _ He1)
    as (Hpar1 & Hch1 & Hlogs1 & Htm1 & Hun1 & Hcont1).
  pose proof Hnd as Hnd'. apply NoDup_cons in Hnd' as [Ht Hndl].
  assert (Hr0 : 0 <= fst r).
  { apply least_meaningful_time_unit_nonneg; [lia | done]. }
  destruct (schedule_unit_set_spec fuel h1 task
              (set_schedule (fst r) (schedule_unit T) T1) l (snd r))
    as (T2 & Hrun2 & He2).
  { apply lookup_insert_eq. }
  { unfold is_container in *. simpl. by rewrite Hch1. }
  { eapply is_chain_ext; [|exact Hch]. intros k. unfold h1.
    destruct (decide (k = task)) as [->|Hne].
    - rewrite lookup_insert_eq, HT. simpl. by rewrite Hpar1.
    - rewrite lookup_insert_ne by done. by rewrite bump_schedule_parent. }
  { done. }
  { eapply schedule_ready_ext.
    - intros k Hk. unfold h1. rewrite lookup_insert_ne; [done|].
      by intros ->.
    - apply schedule_ready_bump_schedule; [done|done|]. right.
      eapply schedule_at_least_mono; [|exact Hal]. unfold d1, to_seconds.
      specialize (Hunits (schedule_unit T)). nia. }
  { done. }
  pose proof (erase_plan_fields _ _ He2)
    as (_ & Hch2 & Hlogs2 & _ & _ & _).
  simpl in Hrun2, Hch2, Hlogs2.
  eexists _, _. split.
  { unfold _expand_task_schedule_timing.
    rewrite (bind_ok _ _ _ _ _ Hrem).
    destruct (Z.ltb_spec (S - lg) (total_seconds self)); [|lia].
    rewrite (bind_ok _ _ _ _ _
               (schedule_seconds_getter_leaf _ _ _ _ _ HT Hleaf)).
    simpl. unfold bind at 1. unfold ret at 1.
    fold S. fold r. rewrite (bind_ok _ _ _ _ _ Hrun1). exact Hrun2. }
  split; [apply lookup_insert_eq|].
  split; [by destruct r|].
  split; [simpl; congruence|].
  unfold is_leaf, is_container. simpl. rewrite Hch2, Hch1.
  apply is_container_false_children in Hleaf. by rewrite Hleaf.
Qed.

End ExpandFacts.

(** C2: when the duration of a new time log of a leaf task exceeds the
    remaining seconds (schedule seconds minus logged seconds, before the
    log is added), the task's timing and unit become the least meaningful
    time unit of schedule seconds plus duration minus remaining seconds;
    and a leaf of four days with a five-day log for its resource is
    expanded to five days with no remaining seconds. *)
Theorem expand_task_schedule_timing_grows :
  (forall cfg L now fuel h self task T l lg,
      h !! task = Some T -> is_container T = false ->
      (forall h' : Heap, sum_time_logs L (time_logs T) 0 h' = Ok (lg, h')) ->
      is_chain h task l -> NoDup (task :: l) -> (length l < fuel)%nat ->
      schedule_ready h l ->
      schedule_at_least
        (to_seconds cfg (schedule_timing T) (schedule_unit T)) h l ->
      (forall u, 0 <= unit_seconds cfg u) ->
      0 <= lg + total_seconds self ->
      to_seconds cfg (schedule_timing T) (schedule_unit T) - lg
      < total_seconds self ->
      exists h' T',
        _validate_task cfg L fuel now self task h = Ok (task, h')
        /\ h' !! task = Some T'
        /\ (schedule_timing T', schedule_unit T')
           = least_meaningful_time_unit cfg
               (to_seconds cfg (schedule_timing T) (schedule_unit T)
                + total_seconds self
                - (to_seconds cfg (schedule_timing T) (schedule_unit T)
                   - lg)))
  /\ (exists st',
        timelog_create example_cfg 5 0 9 1 (Some 7%nat) 0 (5 * 86400)
                       four_days_state = Ok st'
        /\ ((fun T => (schedule_timing T, schedule_unit T))
              <$> tasks st' !! 1%nat) = Some (5, UDay)
        /\ remaining_seconds example_cfg (logs st') 5 1 (tasks st')
           = Ok (0, tasks st')).
Proof.
  split.
  - intros cfg L now fuel h self task T l lg HT Hleaf Hsum Hch Hnd Hfuel
           Hrdy Hal Hunits Hpos Hlt.
    destruct (expand_task_schedule_timing_spec cfg L now fuel h self task T
                l lg HT Hleaf Hsum Hch Hnd Hfuel Hrdy Hal Hunits Hpos Hlt)
      as (h' & T' & Hrun & HT' & Hres & _).
    exists h', T'. split; [|by split].
    unfold _validate_task. by rewrite (bind_ok _ _ _ _ _ Hrun).
  - eexists. split; [vm_compute; reflexivity|].
    split; vm_compute; reflexivity.
Qed.

Lemma expand_task_schedule_timing_grows_witness :
  exists h' T',
    _validate_task example_cfg ∅ 5 0 (mkTimeLog None (Some 7%nat) 0 432000)
                   1 (tasks four_days_state) = Ok (1%nat, h')
    /\ h' !! 1%nat = Some T'
    /\ (schedule_timing T', schedule_unit T') = (5, UDay).
Proof.
  destruct (proj1 expand_task_schedule_timing_grows example_cfg ∅ 0 5%nat
              (tasks four_days_state)
              (mkTimeLog None (Some 7%nat) 0 432000) 1%nat
              (leaf_task None [] 4 UDay) [] 0)
    as (h' & T' & Hrun & HT' & Hres).
  - reflexivity.
  - reflexivity.
  - intros h'. reflexivity.
  - simpl. eexists. split; reflexivity.
  - repeat constructor. apply not_elem_of_nil.
  - simpl. lia.
  - constructor.
  - constructor.
  - intros []; simpl; lia.
  - simpl. unfold total_seconds. simpl. lia.
  - vm_compute. reflexivity.
  - exists h', T'. split; [done|]. split; [done|].
    rewrite Hres. vm_compute. reflexivity.
Defined.

(** ** Ancestors: [parents], [level] and the loop of [_validate_depends] *)

Lemma is_chain_inj h t l1 :
  forall l2, is_chain h t l1 -> is_chain h t l2 -> l1 = l2.
Proof.
  revert t. induction l1 as [|p l1 IH]; intros t [|q l2]; simpl.
  - done.
  - intros (T & HT & Hp) [(T' & HT' & Hq) _]. congruence.
  - intros [(T & HT & Hp) _] (T' & HT' & Hq). congruence.
  - intros [(T & HT & Hp) H1] [(T' & HT' & Hq) H2].
    assert (p = q) as -> by congruence.
    f_equal. by apply (IH q).
Qed.

Lemma is_chain_suffix h l1 :
  forall t p l2, is_chain h t (l1 ++ p :: l2) -> is_chain h p l2.
Proof.
  induction l1 as [|q l1 IH]; intros t p l2; simpl.
  - by intros [_ H].
  - intros [_ H]. by apply (IH q).
Qed.

Lemma is_chain_notin h t l : is_chain h t l -> t ∉ l.
Proof.
  intros Hc Hin.
  apply list_elem_of_split in Hin as (l1 & l2 & ->).
  pose proof (is_chain_suffix _ _ _ _ _ Hc) as Hs.
  pose proof (is_chain_inj _ _ _ _ Hc Hs) as Heq.
  apply (f_equal length) in Heq.
  rewrite length_app in Heq. simpl in Heq. lia.
Qed.

Lemma is_chain_NoDup h l : forall t, is_chain h t l -> NoDup (t :: l).
Proof.
  induction l as [|p l IH]; intros t Hc.
  - apply NoDup_singleton.
  - apply NoDup_cons. split; [by eapply is_chain_notin|].
    destruct Hc as [_ Hc]. by apply IH.
Qed.

Lemma parents_loop_chain h l :
  forall fuel t T acc,
    h !! t = Some T -> is_chain h t l -> (length l <= fuel)%nat ->
    parents_loop fuel h (parent T) acc = Some (reverse l ++ acc).
Proof.
  induction l as [|p l IH]; intros fuel t T acc HT Hc Hf.
  - destruct Hc as (T' & HT' & Hp).
    assert (T' = T) as -> by congruence.
    rewrite Hp. by destruct fuel.
  - destruct Hc as [(T' & HT' & Hp) Hc].
    assert (T' = T) as -> by congruence.
    rewrite Hp. simpl in Hf. destruct fuel as [|f]; [lia|]. simpl.
    destruct (is_chain_head _ _ _ Hc) as (P & HP & _).
    rewrite HP. rewrite (IH f p P (p :: acc) HP Hc); [|lia].
    by rewrite reverse_cons, <- app_assoc.
Qed.

Lemma parents_loop_inv h :
  forall fuel t T acc ps,
    h !! t = Some T ->
    parents_loop fuel h (parent T) acc = Some ps ->
    exists l, is_chain h t l /\ ps = reverse l ++ acc
              /\ (length l <= fuel)%nat.
Proof.
  induction fuel as [|f IH]; intros t T acc ps HT Hr.
  - destruct (parent T) as [p|] eqn:Hp; [done|].
    exists []. simpl in *. split; [by exists T|].
    split; [congruence|lia].
  - destruct (parent T) as [p|] eqn:Hp.
    + simpl in Hr. destruct (h !! p) as [P|] eqn:HP; [|done].
      destruct (IH p P (p :: acc) ps HP Hr) as (l & Hc & -> & Hl).
      exists (p :: l). simpl. split; [split; [by exists T|done]|].
      split; [by rewrite reverse_cons, <- app_assoc|lia].
    + exists []. simpl in *. split; [by exists T|].
      split; [congruence|lia].
Qed.

Lemma level_loop_chain h l :
  forall fuel t i,
    is_chain h t l -> (length l < fuel)%nat ->
    level_loop fuel h (Some t) i = Some (i + S (length l))%nat.
Proof.
  induction l as [|p l IH]; intros fuel t i Hc Hf.
  - destruct Hc as (T & HT & Hp).
    destruct fuel as [|f]; [simpl in Hf; lia|]. simpl.
    rewrite HT, Hp. destruct f; simpl; f_equal; lia.
  - destruct Hc as [(T & HT & Hp) Hc]. simpl in Hf.
    destruct fuel as [|f]; [lia|]. simpl.
    rewrite HT, Hp. rewrite (IH f p (i + 1)%nat Hc); [|lia].
    f_equal. lia.
Qed.

(** X1: [Task.parents] lists the ancestors of a task root first.  When
    the ancestors of [t], nearest first, are [l] and the loop is given
    room for them, the result is [l] reversed; and whatever list it
    returns, read backwards, is the chain of parent links from [t] up to
    a task without parent. *)
Theorem parents_root_first :
  forall fuel h t,
    is_Some (h !! t) ->
    (forall l, is_chain h t l -> (length l <= fuel)%nat ->
               parents fuel h t = Some (reverse l))
    /\ (forall ps, parents fuel h t = Some ps ->
                   is_chain h t (reverse ps) /\ (length ps <= fuel)%nat).
Proof.
  intros fuel h t [T HT]. unfold parents. rewrite HT. split.
  - intros l Hc Hf.
    rewrite (parents_loop_chain h l fuel t T [] HT Hc Hf).
    by rewrite app_nil_r.
  - intros ps Hr.
    destruct (parents_loop_inv h fuel t T [] ps HT Hr) as (l & Hc & -> & Hl).
    rewrite app_nil_r, reverse_involutive, length_reverse. done.
Qed.

Lemma parents_root_first_witness :
  parents 5 (tasks nested_state) 3 = Some [1%nat; 2%nat].
Proof.
  apply (proj1 (parents_root_first 5 (tasks nested_state) 3
                  ltac:(by eexists)) [2%nat; 1%nat]).
  - simpl. split; [by eexists|]. split; [by eexists|]. by eexists.
  - simpl. lia.
Defined.

(** X2: [Task.level] is one more than the number of ancestors that
    [Task.parents] returns. *)
Theorem level_counts_parents :
  forall fuel h t ps,
    parents fuel h t = Some ps ->
    level (S fuel) h t = Some (S (length ps)).
Proof.
  intros fuel h t ps Hr. unfold parents in Hr.
  destruct (h !! t) as [T|] eqn:HT; [|done].
  destruct (parents_loop_inv h fuel t T [] ps HT Hr) as (l & Hc & -> & Hl).
  unfold level. rewrite (level_loop_chain h l (S fuel) t 0%nat Hc); [|lia].
  by rewrite app_nil_r, length_reverse.
Qed.

Lemma level_counts_parents_witness :
  level 6 (tasks nested_state) 3 = Some 3%nat.
Proof.
  apply (level_counts_parents 5 (tasks nested_state) 3 [1%nat; 2%nat]).
  reflexivity.
Defined.

(** X3: the [while parent:] loop of [_validate_depends] walks the
    ancestors of the task and raises the cycle error exactly when one of
    them is listed in [depends.depends]; otherwise it returns and leaves
    the store untouched. *)
Theorem depends_parent_loop_checks_ancestors :
  forall fuel h t T l d D,
    h !! t = Some T -> is_chain h t l -> h !! d = Some D ->
    (length l <= fuel)%nat ->
    depends_parent_loop fuel (parent T) d h
    = if existsb (fun p => task_in p (depends D)) l
      then Raise (CircularDependencyError "parents")
      else Ok (tt, h).
Proof.
  intros fuel h t T l d D HT Hc HD Hf.
  by apply (depends_parent_loop_chain fuel h t T l d D).
Qed.

Lemma depends_parent_loop_checks_ancestors_witness :
  depends_parent_loop 5 (Some 2%nat) 1 (tasks nested_state)
  = Ok (tt, tasks nested_state).
Proof.
  apply (depends_parent_loop_checks_ancestors 5 (tasks nested_state) 3
           (leaf_task (Some 2%nat) [5%nat] 1 UHour) [2%nat; 1%nat] 1
           (container_task None [2%nat] 3600 10)).
  - reflexivity.
  - simpl. split; [by eexists|]. split; [by eexists|]. by eexists.
  - reflexivity.
  - simpl. lia.
Defined.

(** ** The cache setters along the chain of ancestors *)

Lemma bump_schedule_lookup delta l (h : Heap) k :
  NoDup l ->
  bump_schedule delta l h !! k
  = (if decide (k ∈ l) then add_schedule delta else id) <$> h !! k.
Proof. intros Hnd. by apply foldr_alter_lookup. Qed.

Lemma bump_logged_lookup delta l (h : Heap) k :
  NoDup l ->
  bump_logged delta l h !! k
  = (if decide (k ∈ l) then add_logged delta else id) <$> h !! k.
Proof. intros Hnd. by apply foldr_alter_lookup. Qed.

Lemma schedule_ready_elem h l a :
  schedule_ready h l -> a ∈ l ->
  exists A c, h !! a = Some A /\ is_container A = true
              /\ _schedule_seconds A = Some c /\ 0 <= c.
Proof.
  intros Hr Hin. unfold schedule_ready in Hr.
  rewrite Forall_forall in Hr. by apply Hr.
Qed.

Lemma logged_ready_elem h l a :
  logged_ready h l -> a ∈ l ->
  exists A c, h !! a = Some A /\ is_container A = true
              /\ _total_logged_seconds A = Some c.
Proof.
  intros Hr Hin. unfold logged_ready in Hr.
  rewrite Forall_forall in Hr. by apply Hr.
Qed.

Lemma bump_schedule_frame delta l (h : Heap) k :
  NoDup l ->
  erase_schedule <$> bump_schedule delta l h !! k = erase_schedule <$> h !! k.
Proof.
  intros Hnd. rewrite bump_schedule_lookup by done.
  destruct (h !! k) as [K|]; [|done]. simpl. by case_decide.
Qed.

Lemma bump_logged_frame delta l (h : Heap) k :
  NoDup l ->
  erase_logged <$> bump_logged delta l h !! k = erase_logged <$> h !! k.
Proof.
  intros Hnd. rewrite bump_logged_lookup by done.
  destruct (h !! k) as [K|]; [|done]. simpl. by case_decide.
Qed.

(** X4: [_schedule_seconds_setter] on a container stores the value in
    its own cache and adds the difference to the stored value to the
    cache of every ancestor, up to the root; nothing but caches of
    schedule seconds changes, and no task outside the chain changes. *)
Theorem schedule_seconds_setter_propagates :
  forall cfg L fuel h t T l v,
    h !! t = Some T -> is_container T = true ->
    is_chain h t l -> schedule_ready h l -> (length l < fuel)%nat ->
    exists h',
      schedule_seconds_setter cfg L fuel t v h = Ok (tt, h')
      /\ schedule_cache h' t = Some v
      /\ (forall a c, a ∈ l -> schedule_cache h a = Some c ->
            schedule_cache h' a
            = Some (c + (v - default 0 (_schedule_seconds T))))
      /\ (forall k, k ∉ t :: l -> h' !! k = h !! k)
      /\ (forall k, erase_schedule <$> h' !! k = erase_schedule <$> h !! k).
Proof.
  intros cfg L fuel h t T l v HT Hcont Hc Hr Hf.
  pose proof (is_chain_NoDup _ _ _ Hc) as Hnd.
  pose proof Hnd as Hnd'. apply NoDup_cons in Hnd' as [Hnt Hndl].
  eexists. split.
  { by apply (schedule_seconds_setter_chain cfg L l fuel h t T v). }
  repeat split.
  - unfold schedule_cache. by rewrite lookup_insert_eq.
  - intros a c Ha Hca. unfold schedule_cache in *.
    rewrite lookup_insert_ne by (intros ->; done).
    rewrite bump_schedule_lookup by done.
    rewrite decide_True by done.
    destruct (h !! a) as [A|]; [|done]. simpl in *. by rewrite Hca.
  - intros k Hk. apply not_elem_of_cons in Hk as [Hkt Hkl].
    rewrite lookup_insert_ne by done.
    rewrite bump_schedule_lookup by done.
    rewrite decide_False by done. by destruct (h !! k).
  - intros k. destruct (decide (k = t)) as [->|Hkt].
    + by rewrite lookup_insert_eq, HT.
    + rewrite lookup_insert_ne by done. by apply bump_schedule_frame.
Qed.

Lemma schedule_seconds_setter_propagates_witness :
  exists h',
    schedule_seconds_setter example_cfg ∅ 5 2 7200 (tasks nested_state)
    = Ok (tt, h')
    /\ schedule_cache h' 2 = Some 7200.
Proof.
  destruct (schedule_seconds_setter_propagates example_cfg ∅ 5
              (tasks nested_state) 2
              (container_task (Some 1%nat) [3%nat] 3600 10) [1%nat] 7200)
    as (h' & Hrun & Hown & _).
  - reflexivity.
  - reflexivity.
  - simpl. split; [by eexists|]. by eexists.
  - apply Forall_cons. split; [|apply Forall_nil_2].
    eexists _, _. split; [reflexivity|]. split; [reflexivity|].
    split; [reflexivity|]. lia.
  - simpl. lia.
  - by exists h'.
Defined.

(** X5: [_total_logged_seconds_setter] on a container stores the value
    in its own cache and adds the difference to the stored value to the
    cache of every ancestor, up to the root; nothing but caches of logged
    seconds changes, and no task outside the chain changes. *)
Theorem total_logged_seconds_setter_propagates :
  forall cfg L fuel h t T l v,
    h !! t = Some T -> is_container T = true ->
    is_chain h t l -> logged_ready h l -> (length l < fuel)%nat ->
    exists h',
      total_logged_seconds_setter cfg L fuel t v h = Ok (tt, h')
      /\ logged_cache h' t = Some v
      /\ (forall a c, a ∈ l -> logged_cache h a = Some c ->
            logged_cache h' a
            = Some (c + (v - default 0 (_total_logged_seconds T))))
      /\ (forall k, k ∉ t :: l -> h' !! k = h !! k)
      /\ (forall k, erase_logged <$> h' !! k = erase_logged <$> h !! k).
Proof.
  intros cfg L fuel h t T l v HT Hcont Hc Hr Hf.
  pose proof (is_chain_NoDup _ _ _ Hc) as Hnd.
  pose proof Hnd as Hnd'. apply NoDup_cons in Hnd' as [Hnt Hndl].
  eexists. split.
  { by apply (total_logged_seconds_setter_chain cfg L l fuel h t T v). }
  repeat split.
  - unfold logged_cache. rewrite bump_logged_lookup by done.
    rewrite decide_False by done. by rewrite lookup_insert_eq.
  - intros a c Ha Hca. unfold logged_cache in *.
    rewrite bump_logged_lookup by done.
    rewrite decide_True by done.
    rewrite lookup_insert_ne by (intros ->; done).
    destruct (h !! a) as [A|]; [|done]. simpl in *. by rewrite Hca.
  - intros k Hk. apply not_elem_of_cons in Hk as [Hkt Hkl].
    rewrite bump_logged_lookup by done.
    rewrite decide_False by done.
    rewrite lookup_insert_ne by done. by destruct (h !! k).
  - intros k. rewrite bump_logged_frame by done.
    destruct (decide (k = t)) as [->|Hkt].
    + by rewrite lookup_insert_eq, HT.
    + by rewrite lookup_insert_ne.
Qed.

Lemma total_logged_seconds_setter_propagates_witness :
  exists h',
    total_logged_seconds_setter example_cfg ∅ 5 2 25 (tasks nested_state)
    = Ok (tt, h')
    /\ logged_cache h' 2 = Some 25.
Proof.
  destruct (total_logged_seconds_setter_propagates example_cfg ∅ 5
              (tasks nested_state) 2
              (container_task (Some 1%nat) [3%nat] 3600 10) [1%nat] 25)
    as (h' & Hrun & Hown & _).
  - reflexivity.
  - reflexivity.
  - simpl. split; [by eexists|]. by eexists.
  - apply Forall_cons. split; [|apply Forall_nil_2].
    eexists _, _. split; [reflexivity|]. split; [reflexivity|].
    reflexivity.
  - simpl. lia.
  - by exists h'.
Defined.

(** X6: a value that is not negative, stored with
    [_schedule_seconds_setter] in a container, is what
    [_schedule_seconds_getter] returns next, without recomputing. *)
Theorem schedule_seconds_set_then_get :
  forall cfg L upd fuel h t T l v,
    h !! t = Some T -> is_container T = true ->
    is_chain h t l -> schedule_ready h l -> (length l < fuel)%nat ->
    0 <= v ->
    exists h',
      schedule_seconds_setter cfg L fuel t v h = Ok (tt, h')
      /\ schedule_seconds_getter cfg upd t h' = Ok (Some v, h').
Proof.
  intros cfg L upd fuel h t T l v HT Hcont Hc Hr Hf Hv.
  pose proof (is_chain_NoDup _ _ _ Hc) as Hnd.
  eexists. split.
  { by apply (schedule_seconds_setter_chain cfg L l fuel h t T v). }
  apply (schedule_seconds_getter_cached cfg upd _ t
           (set_schedule_cache (Some v) T) v); try done.
  by rewrite lookup_insert_eq.
Qed.

Lemma schedule_seconds_set_then_get_witness :
  exists h',
    schedule_seconds_setter example_cfg ∅ 5 2 7200 (tasks nested_state)
    = Ok (tt, h')
    /\ schedule_seconds_getter example_cfg
         (update_schedule_info example_cfg ∅ 5) 2 h' = Ok (Some 7200, h').
Proof.
  apply (schedule_seconds_set_then_get example_cfg ∅
           (update_schedule_info example_cfg ∅ 5) 5 (tasks nested_state) 2
           (container_task (Some 1%nat) [3%nat] 3600 10) [1%nat] 7200).
  - reflexivity.
  - reflexivity.
  - simpl. split; [by eexists|]. by eexists.
  - apply Forall_cons. split; [|apply Forall_nil_2].
    eexists _, _. split; [reflexivity|]. split; [reflexivity|].
    split; [reflexivity|]. lia.
  - simpl. lia.
  - lia.
Defined.

(** X7: any value stored with [_total_logged_seconds_setter] in a
    container is what [_total_logged_seconds_getter] returns next. *)
Theorem total_logged_seconds_set_then_get :
  forall cfg L upd fuel h t T l v,
    h !! t = Some T -> is_container T = true ->
    is_chain h t l -> logged_ready h l -> (length l < fuel)%nat ->
    exists h',
      total_logged_seconds_setter cfg L fuel t v h = Ok (tt, h')
      /\ total_logged_seconds_getter L upd t h' = Ok (Some v, h').
Proof.
  intros cfg L upd fuel h t T l v HT Hcont Hc Hr Hf.
  pose proof (is_chain_NoDup _ _ _ Hc) as Hnd.
  pose proof Hnd as Hnd'. apply NoDup_cons in Hnd' as [Hnt Hndl].
  eexists. split.
  { by apply (total_logged_seconds_setter_chain cfg L l fuel h t T v). }
  apply (total_logged_seconds_getter_cached L upd _ t
           (set_logged_cache (Some v) T) v); try done.
  rewrite bump_logged_lookup by done.
  rewrite decide_False by done. by rewrite lookup_insert_eq.
Qed.

Lemma total_logged_seconds_set_then_get_witness :
  exists h',
    total_logged_seconds_setter example_cfg ∅ 5 2 (-25) (tasks nested_state)
    = Ok (tt, h')
    /\ total_logged_seconds_getter ∅
         (update_schedule_info example_cfg ∅ 5) 2 h' = Ok (Some (-25), h').
Proof.
  apply (total_logged_seconds_set_then_get example_cfg ∅
           (update_schedule_info example_cfg ∅ 5) 5 (tasks nested_state) 2
           (container_task (Some 1%nat) [3%nat] 3600 10) [1%nat] (-25)).
  - reflexivity.
  - reflexivity.
  - simpl. split; [by eexists|]. by eexists.
  - apply Forall_cons. split; [|apply Forall_nil_2].
    eexists _, _. split; [reflexivity|]. split; [reflexivity|].
    reflexivity.
  - simpl. lia.
Defined.

(** ** Logged seconds: [_validate_time_logs] and repeated stores *)

Lemma logged_ready_insert_other h l t T :
  t ∉ l -> logged_ready h l -> logged_ready (<[t := T]> h) l.
Proof.
  intros Hnt. apply logged_ready_ext.
  intros k Hk. rewrite lookup_insert_ne; [done|]. by intros ->.
Qed.

Lemma is_chain_set_logged h t T l v :
  h !! t = Some T ->
  is_chain h t l -> is_chain (<[t := set_logged_cache v T]> h) t l.
Proof.
  intros HT. apply is_chain_ext. intros k.
  destruct (decide (k = t)) as [->|Hk].
  - by rewrite lookup_insert_eq, HT.
  - by rewrite lookup_insert_ne.
Qed.

(** X8: [_validate_time_logs] adds the seconds of the time log to the
    cached logged seconds of every ancestor of the task, up to the root,
    and returns the time log; a task without parent leaves the store as
    it is.  Nothing but caches of logged seconds changes. *)
Theorem validate_time_logs_adds_to_ancestors :
  forall cfg L fuel h t T l i tl,
    h !! t = Some T -> is_chain h t l -> logged_ready h l ->
    (length l <= fuel)%nat -> L !! i = Some tl ->
    exists h',
      _validate_time_logs cfg L fuel t i h = Ok (i, h')
      /\ (forall a c, a ∈ l -> logged_cache h a = Some c ->
            logged_cache h' a = Some (c + total_seconds tl))
      /\ (forall k, k ∉ l -> h' !! k = h !! k)
      /\ (forall k, erase_logged <$> h' !! k = erase_logged <$> h !! k)
      /\ (l = [] -> h' = h).
Proof.
  intros cfg L fuel h t T l i tl HT Hc Hr Hf Hi.
  pose proof (is_chain_NoDup _ _ _ Hc) as Hnd.
  apply NoDup_cons in Hnd as [Hnt Hndl].
  unfold _validate_time_logs.
  rewrite (bind_ok _ _ _ _ _ (get_task_ok h t T HT)).
  destruct l as [|p l].
  - destruct Hc as (T' & HT' & Hp).
    assert (T' = T) as -> by congruence. rewrite Hp.
    exists h. split; [done|]. repeat split; try done.
    intros a c Ha. by apply elem_of_nil in Ha.
  - destruct Hc as [(T' & HT' & Hp) Hc].
    assert (T' = T) as -> by congruence. rewrite Hp.
    destruct (logged_ready_cons _ _ _ Hr) as [(P & c & HP & HPc & Hlc) _].
    simpl in Hf.
    exists (bump_logged (total_seconds tl) (p :: l) h). split.
    { unfold bind at 1. unfold bind at 1.
      rewrite (total_logged_seconds_getter_cached L _ h p P c HP HPc Hlc).
      simpl. rewrite Hi. unfold bind at 1, ret at 1.
      rewrite (total_logged_seconds_rebase cfg L fuel h p l
                 (total_seconds tl) Hc Hndl Hr ltac:(lia) c); [done|].
      by rewrite HP; simpl; rewrite Hlc. }
    repeat split.
    + intros a c' Ha Hca. unfold logged_cache in *.
      rewrite bump_logged_lookup by done.
      rewrite decide_True by done.
      destruct (h !! a) as [A|]; [|done]. simpl in *. by rewrite Hca.
    + intros k Hk. rewrite bump_logged_lookup by done.
      rewrite decide_False by done. by destruct (h !! k).
    + intros k. by apply bump_logged_frame.
    + done.
Qed.

Lemma validate_time_logs_adds_to_ancestors_witness :
  exists h',
    _validate_time_logs example_cfg (logs nested_state) 5 3 5
      (tasks nested_state) = Ok (5%nat, h')
    /\ logged_cache h' 1 = Some 20.
Proof.
  destruct (validate_time_logs_adds_to_ancestors example_cfg
              (logs nested_state) 5 (tasks nested_state) 3
              (leaf_task (Some 2%nat) [5%nat] 1 UHour) [2%nat; 1%nat] 5
              (mkTimeLog (Some 3%nat) (Some 7%nat) 10 20))
    as (h' & Hrun & Hanc & _).
  - reflexivity.
  - simpl. split; [by eexists|]. split; [by eexists|]. by eexists.
  - apply Forall_cons. split.
    { eexists _, _. split; [reflexivity|]. split; reflexivity. }
    apply Forall_cons. split; [|apply Forall_nil_2].
    eexists _, _. split; [reflexivity|]. split; reflexivity.
  - simpl. lia.
  - reflexivity.
  - exists h'. split; [exact Hrun|].
    apply (Hanc 1%nat 10); [|reflexivity].
    apply elem_of_cons. right. apply elem_of_cons. by left.
Defined.

(** X9: storing a value with [_total_logged_seconds_setter] and then
    another one leaves the same store as storing the second value only:
    the ancestors receive the two differences, which add up. *)
Theorem total_logged_seconds_setter_overwrites :
  forall cfg L fuel h t T l v1 v2,
    h !! t = Some T -> is_container T = true ->
    is_chain h t l -> logged_ready h l -> (length l < fuel)%nat ->
    (total_logged_seconds_setter cfg L fuel t v1 ;;;
     total_logged_seconds_setter cfg L fuel t v2) h
    = total_logged_seconds_setter cfg L fuel t v2 h.
Proof.
  intros cfg L fuel h t T l v1 v2 HT Hcont Hc Hr Hf.
  pose proof (is_chain_NoDup _ _ _ Hc) as Hnd.
  pose proof Hnd as Hnd'. apply NoDup_cons in Hnd' as [Hnt Hndl].
  rewrite (bind_ok _ _ _ _ _
             (total_logged_seconds_setter_chain cfg L l fuel h t T v1
                Hc Hnd HT Hcont Hr Hf)).
  set (h1 := bump_logged (v1 - default 0 (_total_logged_seconds T)) l
               (<[t := set_logged_cache (Some v1) T]> h)).
  assert (h1 !! t = Some (set_logged_cache (Some v1) T)) as HT1.
  { unfold h1. rewrite bump_logged_lookup by done.
    rewrite decide_False by done. by rewrite lookup_insert_eq. }
  assert (is_chain h1 t l) as Hc1.
  { eapply is_chain_ext; [|by apply (is_chain_set_logged h t T l (Some v1))].
    intros k. unfold h1. symmetry. apply bump_logged_parent. }
  assert (logged_ready h1 l) as Hr1.
  { unfold h1. apply logged_ready_bump_logged; [done|].
    by apply logged_ready_insert_other. }
  rewrite (total_logged_seconds_setter_chain cfg L l fuel h1 t _ v2
             Hc1 Hnd HT1 Hcont Hr1 Hf).
  rewrite (total_logged_seconds_setter_chain cfg L l fuel h t T v2
             Hc Hnd HT Hcont Hr Hf).
  f_equal. f_equal. apply map_eq. intros k.
  rewrite !bump_logged_lookup by done.
  destruct (decide (k = t)) as [->|Hkt].
  - rewrite !decide_False by done. rewrite !lookup_insert_eq. reflexivity.
  - rewrite !lookup_insert_ne by done. unfold h1.
    rewrite bump_logged_lookup by done.
    rewrite lookup_insert_ne by done.
    case_decide as Hk; [|by destruct (h !! k)].
    destruct (logged_ready_elem _ _ _ Hr Hk) as (A & c & HA & _ & HAc).
    rewrite HA. simpl. f_equal. unfold add_logged. simpl.
    rewrite HAc. simpl. unfold set_logged_cache. simpl.
    do 2 f_equal. lia.
Qed.

Lemma total_logged_seconds_setter_overwrites_witness :
  (total_logged_seconds_setter example_cfg ∅ 5 2 25 ;;;
   total_logged_seconds_setter example_cfg ∅ 5 2 40) (tasks nested_state)
  = total_logged_seconds_setter example_cfg ∅ 5 2 40 (tasks nested_state).
Proof.
  apply (total_logged_seconds_setter_overwrites example_cfg ∅ 5
           (tasks nested_state) 2
           (container_task (Some 1%nat) [3%nat] 3600 10) [1%nat] 25 40).
  - reflexivity.
  - reflexivity.
  - simpl. split; [by eexists|]. by eexists.
  - apply Forall_cons. split; [|apply Forall_nil_2].
    eexists _, _. split; [reflexivity|]. split; reflexivity.
  - simpl. lia.
Defined.

(** ** [update_schedule_info] sums the subtree *)

Section SubtreeFacts.

Context (cfg : Config) (L : Logs) (rk : nat -> nat).

Lemma sum_time_logs_value ids :
  (forall i, i ∈ ids -> is_Some (L !! i)) ->
  forall acc (h : Heap),
    sum_time_logs L ids acc h = Ok (acc + logs_seconds L ids, h).
Proof.
  induction ids as [|i ids IH]; intros Hres acc h; simpl.
  - unfold ret. do 2 f_equal. lia.
  - destruct (Hres i) as [l Hl]; [by left|]. rewrite Hl. simpl.
    rewrite IH by (intros j Hj; apply Hres; by right).
    do 2 f_equal. lia.
Qed.

Lemma subtree_seconds_skeleton f :
  forall h1 h2 t,
    same_skeleton h1 h2 ->
    subtree_seconds cfg L f h1 t = subtree_seconds cfg L f h2 t.
Proof.
  induction f as [|f IH]; intros h1 h2 t Hsk; [done|]. simpl.
  pose proof (Hsk t) as Ht.
  destruct (h1 !! t) as [T1|], (h2 !! t) as [T2|]; try done.
  simpl in Ht. assert (erase T1 = erase T2) as He by congruence.
  destruct (erase_fields _ _ He) as (_ & Hch & Htl & Hti & Hu & Hco).
  rewrite Hco, Hch, Htl, Hti, Hu.
  destruct (is_container T2); [|done].
  clear Hch. induction (children T2) as [|c cs IHcs]; [done|]. simpl.
  by rewrite IHcs, (IH h1 h2 c Hsk).
Qed.

Lemma subtree_sum_skeleton f h1 h2 cs :
  same_skeleton h1 h2 ->
  foldr (fun c acc => add_pair (subtree_seconds cfg L f h1 c) acc) (0, 0) cs
  = foldr (fun c acc => add_pair (subtree_seconds cfg L f h2 c) acc)
          (0, 0) cs.
Proof.
  intros Hsk. induction cs as [|c cs IH]; [done|]. simpl.
  by rewrite IH, (subtree_seconds_skeleton f h1 h2 c Hsk).
Qed.

Lemma fresh_skeleton_caches f h h' c :
  same_skeleton h' h ->
  caches h' c
  = Some (Some (snd (subtree_seconds cfg L f h c)),
          Some (fst (subtree_seconds cfg L f h c))) ->
  fresh cfg L f h' c.
Proof.
  intros Hsk Hca. unfold caches in Hca.
  destruct (h' !! c) as [C'|] eqn:HC'; [|done].
  exists C'. split; [done|]. intros _. unfold caches. rewrite HC'.
  by rewrite (subtree_seconds_skeleton f h' h c Hsk).
Qed.

Lemma fresh_leaf f h c C :
  h !! c = Some C -> is_container C = false -> fresh cfg L f h c.
Proof. intros HC Hco. exists C. split; [done|]. by rewrite Hco. Qed.

Section GetterValue.

Context (upd : nat -> M unit) (f : nat).
Context (Hupd : forall c h,
            tree_ok rk h -> logs_ok L h ->
            is_Some (h !! c) -> (rk c < f)%nat ->
            exists h', upd c h = Ok (tt, h') /\ same_skeleton h' h
                       /\ caches h' c
                          = Some (Some (snd (subtree_seconds cfg L f h c)),
                                  Some (fst (subtree_seconds cfg L f h c)))).

Lemma schedule_seconds_getter_fresh c h :
  tree_ok rk h -> logs_ok L h -> (rk c < f)%nat -> fresh cfg L f h c ->
  exists h',
    schedule_seconds_getter cfg upd c h
    = Ok (Some (snd (subtree_seconds cfg L f h c)), h')
    /\ same_skeleton h' h /\ fresh cfg L f h' c.
Proof.
  intros Htree Hlogs Hrk (C & HC & Hfr). unfold schedule_seconds_getter.
  rewrite (bind_ok _ _ _ _ _ (get_task_ok _ _ _ HC)).
  destruct (is_container C) eqn:HCc.
  - specialize (Hfr eq_refl).
    assert (Hvia : exists h',
               (upd c;;; T' <- get_task c;; ret (_schedule_seconds T')) h
               = Ok (Some (snd (subtree_seconds cfg L f h c)), h')
               /\ same_skeleton h' h /\ fresh cfg L f h' c).
    { destruct (Hupd c h Htree Hlogs (ex_intro _ C HC) Hrk)
        as (h' & Hu & Hsk & Hca).
      rewrite (bind_ok _ _ _ _ _ Hu).
      pose proof (fresh_skeleton_caches f h h' c Hsk Hca) as Hfr'.
      unfold caches in Hca.
      destruct (h' !! c) as [C'|] eqn:HC'; [|done].
      rewrite (bind_ok _ _ _ _ _ (get_task_ok _ _ _ HC')).
      simpl in Hca. assert (_schedule_seconds C'
                            = Some (snd (subtree_seconds cfg L f h c)))
        as -> by congruence.
      by exists h'. }
    unfold caches in Hfr. rewrite HC in Hfr. simpl in Hfr.
    assert (_schedule_seconds C = Some (snd (subtree_seconds cfg L f h c)))
      as Hs by congruence.
    rewrite Hs. destruct (_ <? 0); [exact Hvia|].
    unfold bind at 1. unfold ret at 1.
    rewrite (bind_ok _ _ _ _ _ (get_task_ok _ _ _ HC)). rewrite Hs.
    exists h. split; [done|]. split; [apply same_skeleton_refl|].
    exists C. split; [done|]. intros _. unfold caches. by rewrite HC.
  - destruct f as [|f']; [lia|]. simpl. rewrite HC, HCc. simpl.
    exists h. split; [done|]. split; [apply same_skeleton_refl|].
    by eapply fresh_leaf.
Qed.

Lemma total_logged_seconds_getter_fresh c h :
  tree_ok rk h -> logs_ok L h -> (rk c < f)%nat -> fresh cfg L f h c ->
  total_logged_seconds_getter L upd c h
  = Ok (Some (fst (subtree_seconds cfg L f h c)), h).
Proof.
  intros Htree Hlogs Hrk (C & HC & Hfr).
  unfold total_logged_seconds_getter, is_leaf.
  rewrite (bind_ok _ _ _ _ _ (get_task_ok _ _ _ HC)).
  destruct (is_container C) eqn:HCc; simpl.
  - specialize (Hfr eq_refl).
    unfold caches in Hfr. rewrite HC in Hfr. simpl in Hfr.
    assert (_total_logged_seconds C
            = Some (fst (subtree_seconds cfg L f h c)))
      as Hs by congruence.
    rewrite Hs. unfold bind at 1. unfold ret at 1.
    rewrite (bind_ok _ _ _ _ _ (get_task_ok _ _ _ HC)). by rewrite Hs.
  - destruct f as [|f']; [lia|]. simpl. rewrite HC, HCc. simpl.
    rewrite (bind_ok _ _ _ _ _
               (sum_time_logs_value (time_logs C) (Hlogs c C HC) 0 h)).
    done.
Qed.

Lemma sum_children_value cs :
  forall a b h,
    tree_ok rk h -> logs_ok L h ->
    (forall c, c ∈ cs -> is_Some (h !! c) /\ (rk c < f)%nat) ->
    exists h',
      sum_children cfg L upd cs a b h
      = Ok (add_pair (a, b)
              (foldr (fun c acc => add_pair (subtree_seconds cfg L f h c) acc)
                     (0, 0) cs), h')
      /\ same_skeleton h' h.
Proof.
  induction cs as [|c cs IH]; intros a b h Htree Hlogs Hcs; simpl.
  - exists h. split; [|apply same_skeleton_refl].
    unfold ret, add_pair. simpl. do 2 f_equal. f_equal; lia.
  - destruct (Hcs c) as [[C HC] Hrk]; [by left|].
    rewrite (bind_ok _ _ _ _ _ (get_task_ok _ _ _ HC)).
    set (v := subtree_seconds cfg L f h c).
    assert (exists ha, (if is_container C then upd c else ret tt) h
                       = Ok (tt, ha) /\ same_skeleton ha h
                       /\ fresh cfg L f ha c)
      as (ha & Hu & Hska & Hfra).
    { destruct (is_container C) eqn:HCc.
      - destruct (Hupd c h Htree Hlogs (ex_intro _ C HC) Hrk)
          as (h' & Hu & Hsk & Hca).
        exists h'. split; [done|]. split; [done|].
        by eapply fresh_skeleton_caches.
      - exists h. split; [done|]. split; [apply same_skeleton_refl|].
        by eapply fresh_leaf. }
    rewrite (bind_ok _ _ _ _ _ Hu).
    destruct (schedule_seconds_getter_fresh c ha)
      as (hb & Hg1 & Hskb & Hfrb);
      [by eapply tree_ok_skeleton | by eapply logs_ok_skeleton
      | done | done |].
    rewrite (subtree_seconds_skeleton f ha h c Hska) in Hg1. fold v in Hg1.
    rewrite (bind_ok _ _ _ _ _ Hg1).
    pose proof (same_skeleton_trans _ _ _ Hskb Hska) as Hskb'.
    assert (exists hc,
               (if truthy (Some (snd v))
                then s' <- schedule_seconds_getter cfg upd c;;
                     z <- as_int s';; ret (b + z)
                else ret b) hb = Ok (b + snd v, hc)
               /\ same_skeleton hc h /\ fresh cfg L f hc c)
      as (hc & Hblk1 & Hskc & Hfrc).
    { simpl. destruct (snd v =? 0) eqn:Hz; simpl.
      - apply Z.eqb_eq in Hz. exists hb. rewrite Hz, Z.add_0_r. done.
      - destruct (schedule_seconds_getter_fresh c hb)
          as (hx & Hg & Hskx & Hfrx);
          [by eapply tree_ok_skeleton | by eapply logs_ok_skeleton
          | done | done |].
        rewrite (subtree_seconds_skeleton f hb h c Hskb') in Hg.
        fold v in Hg. rewrite (bind_ok _ _ _ _ _ Hg). simpl.
        exists hx. split; [done|].
        split; [by eapply same_skeleton_trans | done]. }
    rewrite (bind_ok _ _ _ _ _ Hblk1).
    assert (total_logged_seconds_getter L upd c hc = Ok (Some (fst v), hc))
      as Hg2.
    { rewrite (total_logged_seconds_getter_fresh c hc);
        [|by eapply tree_ok_skeleton | by eapply logs_ok_skeleton
         | done | done].
      by rewrite (subtree_seconds_skeleton f hc h c Hskc). }
    rewrite (bind_ok _ _ _ _ _ Hg2).
    assert ((if truthy (Some (fst v))
             then l' <- total_logged_seconds_getter L upd c;;
                  z <- as_int l';; ret (a + z)
             else ret a) hc = Ok (a + fst v, hc)) as Hblk2.
    { simpl. destruct (fst v =? 0) eqn:Hz; simpl.
      - apply Z.eqb_eq in Hz. rewrite Hz, Z.add_0_r. done.
      - by rewrite (bind_ok _ _ _ _ _ Hg2). }
    rewrite (bind_ok _ _ _ _ _ Hblk2).
    destruct (IH (a + fst v) (b + snd v) hc) as (h' & Hrec & Hsk');
      [by eapply tree_ok_skeleton | by eapply logs_ok_skeleton | |].
    { intros c' Hc'. destruct (Hcs c') as [? ?]; [by right|].
      split; [|done]. by eapply same_skeleton_is_Some. }
    exists h'. split; [|by eapply same_skeleton_trans].
    rewrite Hrec. rewrite (subtree_sum_skeleton f hc h cs Hskc).
    unfold add_pair. simpl. do 2 f_equal. f_equal; lia.
Qed.

End GetterValue.

Lemma update_schedule_info_value fuel :
  forall t h,
    tree_ok rk h -> logs_ok L h -> is_Some (h !! t) -> (rk t < fuel)%nat ->
    exists h', update_schedule_info cfg L fuel t h = Ok (tt, h')
               /\ same_skeleton h' h
               /\ caches h' t
                  = Some (Some (snd (subtree_seconds cfg L fuel h t)),
                          Some (fst (subtree_seconds cfg L fuel h t))).
Proof.
  induction fuel as [|f IH]; intros t h Htree Hlogs [T HT] Hrk; [lia|].
  simpl. rewrite (bind_ok _ _ _ _ _ (get_task_ok _ _ _ HT)). rewrite HT.
  destruct (is_container T) eqn:HTc.
  - destruct (sum_children_value _ f IH (children T) 0 0 h Htree Hlogs)
      as (ha & Hsum & Hska).
    { intros c Hc. destruct (Htree t T HT c Hc). split; [done | lia]. }
    rewrite (bind_ok _ _ _ _ _ Hsum).
    destruct (same_skeleton_lookup _ _ _ _ Hska HT) as (Ta & HTa & Hea).
    rewrite (bind_ok _ _ _ _ _ (modify_task_ok _ _ _ _ HTa)).
    erewrite modify_task_ok by apply lookup_insert_eq.
    eexists. split; [done|]. rewrite insert_insert_eq. split.
    + eapply same_skeleton_trans; [|exact Hska].
      by eapply same_skeleton_insert.
    + unfold caches. rewrite lookup_insert_eq. simpl.
      unfold add_pair. simpl. done.
  - rewrite (bind_ok _ _ _ _ _
               (schedule_seconds_getter_leaf _ _ _ _ _ HT HTc)).
    rewrite (bind_ok _ _ _ _ _ (modify_task_ok _ _ _ _ HT)).
    rewrite (bind_ok _ _ _ _ _
               (total_logged_seconds_getter_leaf _ _ _ _
                  (set_schedule_cache _ T) _
                  (lookup_insert_eq _ _ _) HTc
                  (sum_time_logs_value (time_logs T) (Hlogs t T HT) 0 _))).
    erewrite modify_task_ok by apply lookup_insert_eq.
    eexists. split; [done|]. rewrite insert_insert_eq. split.
    + by eapply same_skeleton_insert.
    + unfold caches. rewrite lookup_insert_eq. done.
Qed.

End SubtreeFacts.

Lemma uncached_tree_ok : tree_ok (fun k => 4 - k)%nat uncached_tree.
Proof.
  intros t T HT c Hc. unfold uncached_tree in HT. lookup_cases HT;
    simpl in Hc; elem_cases Hc; (split; [by eexists | simpl; lia]).
Qed.

Lemma uncached_logs_ok : logs_ok uncached_logs uncached_tree.
Proof.
  intros t T HT i Hi. unfold uncached_tree in HT. lookup_cases HT;
    simpl in Hi; elem_cases Hi; by eexists.
Qed.

(** X10: on a forest of tasks [update_schedule_info] returns and leaves
    in the two caches of the task the seconds of its subtree: for a leaf
    its nominal duration and the seconds of its time logs, for a container
    the sums of these over the leaves below it.  Only caches change. *)
Theorem update_schedule_info_sums_subtree :
  forall cfg L rk fuel t h,
    tree_ok rk h -> logs_ok L h -> is_Some (h !! t) -> (rk t < fuel)%nat ->
    exists h',
      update_schedule_info cfg L fuel t h = Ok (tt, h')
      /\ same_skeleton h' h
      /\ schedule_cache h' t = Some (snd (subtree_seconds cfg L fuel h t))
      /\ logged_cache h' t = Some (fst (subtree_seconds cfg L fuel h t)).
Proof.
  intros cfg L rk fuel t h Htree Hlogs Hsome Hrk.
  destruct (update_schedule_info_value cfg L rk fuel t h Htree Hlogs
              Hsome Hrk) as (h' & Hrun & Hsk & Hca).
  exists h'. split; [done|]. split; [done|].
  unfold caches in Hca. unfold schedule_cache, logged_cache.
  destruct (h' !! t) as [T'|]; [|done]. simpl in *.
  split; congruence.
Qed.

Lemma update_schedule_info_sums_subtree_witness :
  exists h',
    update_schedule_info example_cfg uncached_logs 4 1 uncached_tree
    = Ok (tt, h')
    /\ schedule_cache h' 1 = Some 10800
    /\ logged_cache h' 1 = Some 10.
Proof.
  destruct (update_schedule_info_sums_subtree example_cfg uncached_logs
              (fun k => 4 - k)%nat 4 1 uncached_tree)
    as (h' & Hrun & _ & Hs & Hl).
  - exact uncached_tree_ok.
  - exact uncached_logs_ok.
  - by eexists.
  - simpl. lia.
  - exists h'. split; [exact Hrun|]. split; [exact Hs | exact Hl].
Defined.

Lemma getters_recompute :
  forall cfg L rk fuel t T h,
    tree_ok rk h -> logs_ok L h -> h !! t = Some T ->
    is_container T = true -> (rk t < fuel)%nat ->
    ((forall v, _schedule_seconds T = Some v -> v < 0) ->
     exists h',
       schedule_seconds_getter cfg (update_schedule_info cfg L fuel) t h
       = Ok (Some (snd (subtree_seconds cfg L fuel h t)), h')
       /\ same_skeleton h' h /\ fresh cfg L fuel h' t)
    /\ (_total_logged_seconds T = None ->
        exists h',
          total_logged_seconds_getter L (update_schedule_info cfg L fuel) t h
          = Ok (Some (fst (subtree_seconds cfg L fuel h t)), h')
          /\ same_skeleton h' h /\ fresh cfg L fuel h' t).
Proof.
  intros cfg L rk fuel t T h Htree Hlogs HT Hcont Hrk.
  destruct (update_schedule_info_value cfg L rk fuel t h Htree Hlogs
              (ex_intro _ T HT) Hrk) as (h' & Hrun & Hsk & Hca).
  pose proof (fresh_skeleton_caches cfg L fuel h h' t Hsk Hca) as Hfr.
  unfold caches in Hca. destruct (h' !! t) as [T'|] eqn:HT'; [|done].
  simpl in Hca.
  split.
  - intros Hneg. exists h'. split; [|done].
    unfold schedule_seconds_getter.
    rewrite (bind_ok _ _ _ _ _ (get_task_ok _ _ _ HT)). rewrite Hcont.
    assert ((upd <- update_schedule_info cfg L fuel t;;
             T'' <- get_task t;; ret (_schedule_seconds T'')) h
            = Ok (Some (snd (subtree_seconds cfg L fuel h t)), h')) as Hvia.
    { rewrite (bind_ok _ _ _ _ _ Hrun).
      rewrite (bind_ok _ _ _ _ _ (get_task_ok _ _ _ HT')).
      unfold ret. do 2 f_equal. congruence. }
    destruct (_schedule_seconds T) as [v|] eqn:Hv; [|exact Hvia].
    specialize (Hneg v eq_refl).
    destruct (Z.ltb_spec v 0); [exact Hvia|lia].
  - intros Hnone. exists h'. split; [|done].
    unfold total_logged_seconds_getter, is_leaf.
    rewrite (bind_ok _ _ _ _ _ (get_task_ok _ _ _ HT)). rewrite Hcont.
    simpl. rewrite Hnone.
    rewrite (bind_ok _ _ _ _ _ Hrun).
    rewrite (bind_ok _ _ _ _ _ (get_task_ok _ _ _ HT')).
    unfold ret. do 2 f_equal. congruence.
Qed.

(** X11: the getters of a container whose cache is not initialised (for
    the schedule seconds also: is negative) run [update_schedule_info]:
    they return the seconds of the subtree and leave both caches holding
    them. *)
Theorem cache_getters_recompute :
  forall cfg L rk fuel t T h,
    tree_ok rk h -> logs_ok L h -> h !! t = Some T ->
    is_container T = true -> (rk t < fuel)%nat ->
    ((forall v, _schedule_seconds T = Some v -> v < 0) ->
     exists h',
       schedule_seconds_getter cfg (update_schedule_info cfg L fuel) t h
       = Ok (Some (snd (subtree_seconds cfg L fuel h t)), h')
       /\ same_skeleton h' h /\ fresh cfg L fuel h' t)
    /\ (_total_logged_seconds T = None ->
        exists h',
          total_logged_seconds_getter L (update_schedule_info cfg L fuel) t h
          = Ok (Some (fst (subtree_seconds cfg L fuel h t)), h')
          /\ same_skeleton h' h /\ fresh cfg L fuel h' t).
Proof.
  intros cfg L rk fuel t T h Htree Hlogs HT Hcont Hrk.
  by apply (getters_recompute cfg L rk fuel t T h).
Qed.

Lemma cache_getters_recompute_witness :
  exists h',
    schedule_seconds_getter example_cfg
      (update_schedule_info example_cfg uncached_logs 4) 1 uncached_tree
    = Ok (Some 10800, h')
    /\ same_skeleton h' uncached_tree.
Proof.
  destruct (proj1 (cache_getters_recompute example_cfg uncached_logs
                     (fun k => 4 - k)%nat 4 1
                     (erase (container_task None [2%nat; 3%nat] 0 0))
                     uncached_tree uncached_tree_ok uncached_logs_ok
                     eq_refl eq_refl ltac:(simpl; lia)))
    as (h' & Hrun & Hsk & _).
  - intros v Hv. discriminate Hv.
  - exists h'. split; [exact Hrun | exact Hsk].
Defined.

(** X12: [remaining_seconds] of a leaf, or of a container whose cache of
    schedule seconds is not initialised, is the schedule seconds of the
    subtree less its logged seconds. *)
Theorem remaining_seconds_of_subtree :
  forall cfg L rk fuel t T h,
    tree_ok rk h -> logs_ok L h -> h !! t = Some T -> (rk t < fuel)%nat ->
    (is_container T = true ->
     forall v, _schedule_seconds T = Some v -> v < 0) ->
    exists h',
      remaining_seconds cfg L fuel t h
      = Ok (snd (subtree_seconds cfg L fuel h t)
            - fst (subtree_seconds cfg L fuel h t), h')
      /\ same_skeleton h' h.
Proof.
  intros cfg L rk fuel t T h Htree Hlogs HT Hrk Hneg.
  unfold remaining_seconds.
  assert (exists h',
             schedule_seconds_getter cfg (update_schedule_info cfg L fuel) t h
             = Ok (Some (snd (subtree_seconds cfg L fuel h t)), h')
             /\ same_skeleton h' h /\ fresh cfg L fuel h' t)
    as (h' & Hg & Hsk & Hfr).
  { destruct (is_container T) eqn:Hcont.
    - apply (proj1 (getters_recompute cfg L rk fuel t T h Htree Hlogs
                      HT Hcont Hrk)). by apply Hneg.
    - apply (schedule_seconds_getter_fresh cfg L rk _ fuel
               (update_schedule_info_value cfg L rk fuel) t h Htree Hlogs
               Hrk). by eapply fresh_leaf. }
  rewrite (bind_ok _ _ _ _ _ Hg).
  rewrite (bind_ok _ _ _ _ _
             (total_logged_seconds_getter_fresh cfg L rk _ fuel
                (update_schedule_info_value cfg L rk fuel) t h'
                (tree_ok_skeleton _ _ _ Hsk Htree)
                (logs_ok_skeleton _ _ _ Hsk Hlogs) Hrk Hfr)).
  simpl. exists h'. split; [|done]. unfold bind, ret. simpl.
  by rewrite (subtree_seconds_skeleton cfg L fuel h' h t Hsk).
Qed.

Lemma remaining_seconds_of_subtree_witness :
  exists h',
    remaining_seconds example_cfg uncached_logs 4 1 uncached_tree
    = Ok (10790, h').
Proof.
  destruct (remaining_seconds_of_subtree example_cfg uncached_logs
              (fun k => 4 - k)%nat 4 1
              (erase (container_task None [2%nat; 3%nat] 0 0))
              uncached_tree uncached_tree_ok uncached_logs_ok
              eq_refl ltac:(simpl; lia))
    as (h' & Hrun & _).
  - intros _ v Hv. discriminate Hv.
  - exists h'. exact Hrun.
Defined.

(** ** Date ranges: the envelope of the children and [_expand_dates] *)

(** X13: the loop of [update_task_date_values] computes the envelope of
    the children that remain: it returns, without touching the store,
    the smallest of the initial start and the starts of the children
    other than the removed one, and the largest of the initial end and
    their ends. *)
Theorem children_range_envelope :
  forall t cs a b (h : Heap),
    (forall c, c ∈ cs -> c <> t -> is_Some (h !! c)) ->
    exists r,
      children_range t cs a b h = Ok (r, h)
      /\ fst r <= a /\ b <= snd r
      /\ (forall c C, c ∈ cs -> c <> t -> h !! c = Some C ->
                      fst r <= _start C /\ _end C <= snd r)
      /\ (fst r = a
          \/ exists c C, c ∈ cs /\ c <> t /\ h !! c = Some C
                         /\ fst r = _start C)
      /\ (snd r = b
          \/ exists c C, c ∈ cs /\ c <> t /\ h !! c = Some C
                         /\ snd r = _end C).
Proof.
  intros t cs. induction cs as [|c cs IH]; intros a b h Hcs; simpl.
  - exists (a, b). simpl. split; [done|]. split; [lia|]. split; [lia|].
    split; [|split; by left].
    intros c C Hc. by apply elem_of_nil in Hc.
  - destruct (Nat.eqb_spec c t) as [->|Hct].
    + destruct (IH a b h) as (r & Hrun & Ha & Hb & Henv & Hmin & Hmax).
      { intros c' Hc' Hne. apply Hcs; [by right|done]. }
      exists r. split; [done|]. split; [done|]. split; [done|].
      split; [|split].
      * intros c' C' Hc' Hne.
        apply elem_of_cons in Hc' as [->|Hc']; [done|]. by apply Henv.
      * destruct Hmin as [?|(c' & C' & ? & ? & ? & ?)]; [by left|].
        right. exists c', C'. split; [by right|done].
      * destruct Hmax as [?|(c' & C' & ? & ? & ? & ?)]; [by left|].
        right. exists c', C'. split; [by right|done].
    + destruct (Hcs c) as [C HC]; [by left | done |].
      rewrite (bind_ok _ _ _ _ _ (get_task_ok _ _ _ HC)).
      set (a' := if _start C <? a then _start C else a).
      set (b' := if b <? _end C then _end C else b).
      assert (a' <= a /\ a' <= _start C /\ (a' = a \/ a' = _start C))
        as (Ha1 & Ha2 & Ha3)
        by (unfold a'; destruct (Z.ltb_spec (_start C) a); lia).
      assert (b <= b' /\ _end C <= b' /\ (b' = b \/ b' = _end C))
        as (Hb1 & Hb2 & Hb3)
        by (unfold b'; destruct (Z.ltb_spec b (_end C)); lia).
      destruct (IH a' b' h) as (r & Hrun & Ha & Hb & Henv & Hmin & Hmax).
      { intros c' Hc' Hne. apply Hcs; [by right|done]. }
      exists r. split; [done|]. split; [lia|]. split; [lia|].
      split; [|split].
      * intros c' C' Hc' Hne HC'.
        apply elem_of_cons in Hc' as [->|Hc']; [|by apply (Henv c' C')].
        assert (C' = C) as -> by congruence. lia.
      * destruct Hmin as [Hmin|(c' & C' & ? & ? & ? & ?)].
        -- destruct Ha3 as [Ha3|Ha3]; [left; lia|].
           right. exists c, C. split; [by left|]. split; [done|].
           split; [done|lia].
        -- right. exists c', C'. split; [by right|done].
      * destruct Hmax as [Hmax|(c' & C' & ? & ? & ? & ?)].
        -- destruct Hb3 as [Hb3|Hb3]; [left; lia|].
           right. exists c, C. split; [by left|]. split; [done|].
           split; [done|lia].
        -- right. exists c', C'. split; [by right|done].
Qed.

Lemma children_range_envelope_witness :
  exists r,
    children_range 2 [2%nat; 3%nat] datetime_max datetime_min family_tree
    = Ok (r, family_tree)
    /\ fst r <= datetime_max.
Proof.
  destruct (children_range_envelope 2 [2%nat; 3%nat] datetime_max
              datetime_min family_tree) as (r & Hrun & Ha & _).
  - intros c Hc Hne. unfold family_tree. elem_cases Hc; [done|].
    by eexists.
  - exists r. split; [exact Hrun | exact Ha].
Defined.

Lemma grown_refl h : grown h h.
Proof. intros k A HA. exists A. split; [done|lia]. Qed.

Lemma grown_trans h1 h2 h3 : grown h1 h2 -> grown h2 h3 -> grown h1 h3.
Proof.
  intros H12 H23 k A HA.
  destruct (H12 k A HA) as (A2 & HA2 & ? & ?).
  destruct (H23 k A2 HA2) as (A3 & HA3 & ? & ?).
  exists A3. split; [done|lia].
Qed.

Lemma ordered_ext h h' l :
  (forall k, k ∈ l -> h' !! k = h !! k) -> ordered h l -> ordered h' l.
Proof.
  intros Hext Hord a A Ha HA. apply (Hord a A Ha). by rewrite <- Hext.
Qed.

Lemma nested_ext h h' l :
  forall a, (forall k, k ∈ a :: l -> h' !! k = h !! k) ->
            nested h a l -> nested h' a l.
Proof.
  induction l as [|b l IH]; intros a Hext; [done|]. simpl.
  intros [(A & B & HA & HB & Hs & He) Hn]. split.
  - exists A, B. rewrite !Hext; [done| |].
    + right. by left.
    + by left.
  - apply IH; [|done]. intros k Hk. apply Hext. by right.
Qed.

Lemma nested_covers h l :
  forall a s e, nested h a l -> covers h [a] s e -> covers h (a :: l) s e.
Proof.
  induction l as [|b l IH]; intros a s e Hn Hc; [done|].
  destruct Hn as [(A & B & HA & HB & Hs & He) Hn].
  destruct (Hc a) as (A' & HA' & ? & ?); [by left|].
  assert (A' = A) as -> by congruence.
  assert (covers h (b :: l) s e) as Hbl.
  { apply IH; [done|]. intros k Hk. apply list_elem_of_singleton in Hk as ->.
    exists B. split; [done|lia]. }
  intros k Hk. apply elem_of_cons in Hk as [->|Hk]; [|by apply Hbl].
  exists A. split; [done|lia].
Qed.

Section NestedFacts.

Context (now : Z).

Lemma setter_with_nested expand (d : Task -> Z * Z * Z) h p l P :
  is_chain h p l -> p ∉ l -> expands_nested expand l ->
  h !! p = Some P ->
  fst (fst (d P)) <= snd (fst (d P)) ->
  fst (fst (d P)) <= _start P -> _end P <= snd (fst (d P)) ->
  ordered h l -> nested_tail h l ->
  exists h',
    (T <- get_task p;;
     modify_task p (set_dates (d T));;;
     T' <- get_task p;;
     expand (parent T') (_start T') (_end T')) h = Ok (tt, h')
    /\ date_frame h h'
    /\ (forall k, k ∉ p :: l -> h' !! k = h !! k)
    /\ grown h h' /\ ordered h' (p :: l) /\ nested h' p l
    /\ h' !! p = Some (set_dates (d P) P).
Proof.
  intros Hch Hp Hexp HP Hse Hs He Hord Hnest.
  destruct (is_chain_head _ _ _ Hch) as (P0 & HP0 & Hpar).
  assert (P0 = P) as -> by congruence.
  set (h1 := <[p := set_dates (d P) P]> h).
  assert (Hf1 : date_frame h h1) by (by apply date_frame_insert).
  assert (Hl1 : forall k, k ∈ l -> h1 !! k = h !! k).
  { intros k Hk. unfold h1. rewrite lookup_insert_ne; [done|].
    by intros ->. }
  destruct (Hexp h1 (_start (set_dates (d P) P)) (_end (set_dates (d P) P)))
    as (h' & Hrun & Hf & Hout & Hgr & Hord' & Hnest' & Hcov).
  { eapply chain_tail_date_frame; [exact Hf1|]. by eapply is_chain_tail. }
  { done. }
  { by apply (ordered_ext h). }
  { destruct l as [|q l']; [done|]. simpl. by apply (nested_ext h). }
  assert (Hp' : h' !! p = Some (set_dates (d P) P)).
  { rewrite Hout by done. unfold h1. by rewrite lookup_insert_eq. }
  exists h'. split; [|split; [|split; [|split; [|split; [|split]]]]].
  - rewrite (bind_ok _ _ _ _ _ (get_task_ok _ _ _ HP)).
    rewrite (bind_ok _ _ _ _ _ (modify_task_ok _ _ _ _ HP)). fold h1.
    rewrite (bind_ok _ _ _ _ _
               (get_task_ok h1 p _ (lookup_insert_eq _ _ _))).
    change (parent (set_dates (d P) P)) with (parent P). rewrite Hpar.
    exact Hrun.
  - by eapply date_frame_trans.
  - intros k Hk. apply not_elem_of_cons in Hk as [Hkp Hk].
    rewrite Hout by done. unfold h1. by rewrite lookup_insert_ne.
  - apply (grown_trans h h1 h'); [|done].
    intros k A HA. destruct (decide (k = p)) as [->|Hkp].
    + assert (A = P) as -> by congruence.
      exists (set_dates (d P) P). unfold h1. rewrite lookup_insert_eq.
      split; [done|]. simpl. lia.
    + exists A. unfold h1. rewrite lookup_insert_ne by done.
      split; [done|lia].
  - intros a A Ha HA. apply elem_of_cons in Ha as [->|Ha].
    + assert (A = set_dates (d P) P) as -> by congruence. done.
    + by apply (Hord' a A).
  - destruct l as [|q l']; [done|]. simpl. split; [|done].
    destruct (Hcov q) as (Q & HQ & ? & ?); [simpl; by left|].
    exists (set_dates (d P) P), Q. done.
  - done.
Qed.

Lemma _expand_dates_nested l :
  forall fuel, NoDup l -> (length l <= fuel)%nat ->
               expands_nested (_expand_dates fuel now) l.
Proof.
  induction l as [|p l IH]; intros fuel Hnd Hfuel.
  - intros h s e _ _ _ _. exists h. simpl.
    split; [by destruct fuel|]. split; [apply date_frame_refl|].
    split; [done|]. split; [apply grown_refl|].
    split; [intros a A Ha; by apply elem_of_nil in Ha|].
    split; [done|]. intros a Ha. by apply elem_of_nil in Ha.
  - destruct fuel as [|f]; [simpl in Hfuel; lia|].
    apply NoDup_cons in Hnd as [Hp Hnd].
    assert (Hexp : expands_nested (_expand_dates f now) l)
      by (apply IH; [done | simpl in Hfuel; lia]).
    intros h s e Hch Hse Hord Hnest. simpl in Hch, Hnest. simpl.
    destruct (is_chain_head _ _ _ Hch) as (P & HP & Hpar).
    rewrite (bind_ok _ _ _ _ _ (get_task_ok _ _ _ HP)).
    pose proof (Hord p P ltac:(by left) HP) as HordP.
    assert (exists ha Pa,
               (if s <? _start P
                then start_setter_with (_expand_dates f now) now p (Some s)
                else ret tt) h = Ok (tt, ha)
               /\ date_frame h ha
               /\ (forall k, k ∉ p :: l -> ha !! k = h !! k)
               /\ grown h ha /\ ordered ha (p :: l) /\ nested ha p l
               /\ ha !! p = Some Pa /\ _start Pa <= s)
      as (ha & Pa & Hra & Hfa & Houta & Hga & Horda & Hna & HPa & Hsa).
    { destruct (Z.ltb_spec s (_start P)).
      - assert (_validate_dates now (Some s) (Some (_end P))
                                (Some (_duration P))
                = (s, _end P, _end P - s)) as Hd
          by (apply _validate_dates_ordered; lia).
        destruct (setter_with_nested (_expand_dates f now)
                    (fun T => _validate_dates now (Some s) (Some (_end T))
                                              (Some (_duration T)))
                    h p l P Hch Hp Hexp HP)
          as (ha & ? & ? & ? & ? & ? & ? & HPa);
          try (rewrite Hd; simpl; lia).
        { intros a A Ha. apply Hord. by right. }
        { destruct l as [|q l']; [done|]. by destruct Hnest. }
        exists ha. eexists. do 6 (split; [done|]). split; [exact HPa|].
        rewrite Hd. simpl. lia.
      - exists h, P. split; [done|]. split; [apply date_frame_refl|].
        split; [done|]. split; [apply grown_refl|]. done. }
    rewrite (bind_ok _ _ _ _ _ Hra).
    assert (Hcha : is_chain ha p l) by (by eapply is_chain_date_frame).
    rewrite (bind_ok _ _ _ _ _ (get_task_ok _ _ _ HPa)).
    pose proof (Horda p Pa ltac:(by left) HPa) as HordPa.
    destruct (Z.ltb_spec (_end Pa) e).
    + assert (_validate_dates now (Some (_start Pa)) (Some e)
                              (Some (_duration Pa))
              = (_start Pa, e, e - _start Pa)) as Hd
        by (apply _validate_dates_ordered; lia).
      destruct (setter_with_nested (_expand_dates f now)
                  (fun T => _validate_dates now (Some (_start T)) (Some e)
                                            (Some (_duration T)))
                  ha p l Pa Hcha Hp Hexp HPa)
        as (hb & Hrb & Hfb & Hob & Hgb & Hordb & Hnb & HPb);
        try (rewrite Hd; simpl; lia).
      { intros a A Ha. apply Horda. by right. }
      { destruct l as [|q l']; [done|]. by destruct Hna. }
      exists hb. split; [exact Hrb|].
      split; [by eapply date_frame_trans|].
      split; [intros k Hk; rewrite Hob by done; by apply Houta|].
      split; [by eapply grown_trans|]. split; [done|]. split; [done|].
      intros a Ha. apply list_elem_of_singleton in Ha as ->.
      eexists. split; [exact HPb|]. rewrite Hd. simpl. lia.
    + exists ha. split; [done|]. repeat (split; [done|]).
      intros a Ha. apply list_elem_of_singleton in Ha as ->.
      exists Pa. split; [done|lia].
Qed.

End NestedFacts.

(** X14: [_expand_dates] returns on any chain of ancestors and changes
    nothing but dates of tasks of the chain; it changes nothing at all
    when the range already lies within the range of the task. *)
Theorem expand_dates_frame :
  forall fuel now h p l s e,
    is_chain h p l -> (length l < fuel)%nat ->
    exists h',
      _expand_dates fuel now (Some p) s e h = Ok (tt, h')
      /\ date_frame h h'
      /\ (forall k, k ∉ p :: l -> h' !! k = h !! k)
      /\ (forall P, h !! p = Some P -> _start P <= s -> e <= _end P ->
                    h' = h).
Proof.
  intros fuel now h p l s e Hch Hfuel.
  destruct (_expand_dates_expands now (p :: l) fuel
              (is_chain_NoDup _ _ _ Hch) ltac:(simpl; lia) h s e Hch)
    as (h' & Hrun & Hfr & Hout).
  exists h'. split; [exact Hrun|]. split; [done|]. split; [done|].
  intros P HP Hs He. simpl in Hrun.
  destruct fuel as [|f]; [lia|]. simpl in Hrun.
  rewrite (bind_ok _ _ _ _ _ (get_task_ok _ _ _ HP)) in Hrun.
  destruct (Z.ltb_spec s (_start P)); [lia|].
  unfold bind at 1 in Hrun. unfold ret at 1 in Hrun.
  rewrite (bind_ok _ _ _ _ _ (get_task_ok _ _ _ HP)) in Hrun.
  destruct (Z.ltb_spec (_end P) e); [lia|].
  unfold ret in Hrun. congruence.
Qed.

Lemma expand_dates_frame_witness :
  exists h',
    _expand_dates 5 0 (Some 2%nat) (-10) 200 (tasks nested_state)
    = Ok (tt, h')
    /\ h' !! 3%nat = tasks nested_state !! 3%nat.
Proof.
  destruct (expand_dates_frame 5 0 (tasks nested_state) 2 [1%nat] (-10) 200)
    as (h' & Hrun & _ & Hout & _).
  - simpl. split; [by eexists|]. by eexists.
  - simpl. lia.
  - exists h'. split; [exact Hrun|]. apply Hout. not_elem.
Defined.

(** X15: when the ranges along the chain of ancestors are nested and
    each task starts before it ends, [_expand_dates] with a start before
    the end leaves the ranges nested and ordered, never shrinks a range,
    and makes the range of every task of the chain cover the given
    one. *)
Theorem expand_dates_keeps_ranges_nested :
  forall fuel now h p l s e,
    is_chain h p l -> (length l < fuel)%nat -> s <= e ->
    ordered h (p :: l) -> nested h p l ->
    exists h',
      _expand_dates fuel now (Some p) s e h = Ok (tt, h')
      /\ covers h' (p :: l) s e
      /\ nested h' p l /\ ordered h' (p :: l) /\ grown h h'.
Proof.
  intros fuel now h p l s e Hch Hfuel Hse Hord Hnest.
  destruct (_expand_dates_nested now (p :: l) fuel
              (is_chain_NoDup _ _ _ Hch) ltac:(simpl; lia) h s e
              Hch Hse Hord Hnest)
    as (h' & Hrun & _ & _ & Hgr & Hord' & Hnest' & Hcov).
  exists h'. split; [exact Hrun|]. split; [|done].
  by apply nested_covers.
Qed.

Lemma expand_dates_keeps_ranges_nested_witness :
  exists h',
    _expand_dates 5 0 (Some 2%nat) (-10) 200 (tasks nested_state)
    = Ok (tt, h')
    /\ covers h' [2%nat; 1%nat] (-10) 200.
Proof.
  destruct (expand_dates_keeps_ranges_nested 5 0 (tasks nested_state) 2
              [1%nat] (-10) 200) as (h' & Hrun & Hcov & _).
  - simpl. split; [by eexists|]. by eexists.
  - simpl. lia.
  - lia.
  - intros a A Ha HA. elem_cases Ha; vm_compute in HA;
      injection HA as <-; simpl; lia.
  - simpl. split; [|done]. eexists _, _.
    split; [reflexivity|]. split; [reflexivity|]. simpl. lia.
  - exists h'. split; [exact Hrun | exact Hcov].
Defined.

Lemma expand_dates_noop fuel now h p P s e :
  h !! p = Some P -> _start P <= s -> e <= _end P ->
  _expand_dates (S fuel) now (Some p) s e h = Ok (tt, h).
Proof.
  intros HP Hs He. simpl.
  rewrite (bind_ok _ _ _ _ _ (get_task_ok _ _ _ HP)).
  destruct (Z.ltb_spec s (_start P)); [lia|].
  unfold bind at 1. unfold ret at 1.
  rewrite (bind_ok _ _ _ _ _ (get_task_ok _ _ _ HP)).
  destruct (Z.ltb_spec (_end P) e); [lia|]. done.
Qed.

(** X27: when the ranges along the chain of ancestors are nested and
    ordered, a second [_expand_dates] with the same range changes
    nothing: expanding twice leaves the store that expanding once
    leaves. *)
Theorem expand_dates_idempotent :
  forall fuel now h p l s e,
    is_chain h p l -> (length l < fuel)%nat -> s <= e ->
    ordered h (p :: l) -> nested h p l ->
    (_expand_dates fuel now (Some p) s e ;;;
     _expand_dates fuel now (Some p) s e) h
    = _expand_dates fuel now (Some p) s e h.
Proof.
  intros fuel now h p l s e Hch Hfuel Hse Hord Hnest.
  destruct (_expand_dates_nested now (p :: l) fuel
              (is_chain_NoDup _ _ _ Hch) ltac:(simpl; lia) h s e
              Hch Hse Hord Hnest)
    as (h' & Hrun & _ & _ & _ & _ & _ & Hcov).
  simpl in Hrun, Hcov.
  rewrite (bind_ok _ _ _ _ _ Hrun). rewrite Hrun.
  destruct (Hcov p ltac:(by left)) as (P' & HP' & Hs' & He').
  destruct fuel as [|f]; [lia|].
  by apply (expand_dates_noop f now h' p P').
Qed.

Lemma expand_dates_idempotent_witness :
  (_expand_dates 5 0 (Some 2%nat) (-10) 200 ;;;
   _expand_dates 5 0 (Some 2%nat) (-10) 200) (tasks nested_state)
  = _expand_dates 5 0 (Some 2%nat) (-10) 200 (tasks nested_state).
Proof.
  apply (expand_dates_idempotent 5 0 (tasks nested_state) 2 [1%nat]
           (-10) 200).
  - simpl. split; [by eexists|]. by eexists.
  - simpl. lia.
  - lia.
  - intros a A Ha HA. elem_cases Ha; vm_compute in HA;
      injection HA as <-; simpl; lia.
  - simpl. split; [|done]. eexists _, _.
    split; [reflexivity|]. split; [reflexivity|]. simpl. lia.
Defined.

(** ** Priority *)

(** X16: [_validate_priority] returns, and returns an integer from 0
    to 1000, whenever [int(priority)] returns or raises [ValueError] or
    [TypeError]; for a value of the built-in classes (None, a boolean,
    an int, a long, a float, a string) that is every value but a float
    infinity.  Any other exception of [int(priority)], such as the one
    that the [__int__] of an object raises, leaves the validator. *)
Theorem validate_priority_total_in_range :
  forall cfg v,
    ((forall e, py_int cfg v = Raise e -> e = ValueError \/ e = TypeError) ->
     exists z, _validate_priority cfg v = Ok z /\ 0 <= z <= 1000)
    /\ ((forall r o, v <> PyObject r o) ->
        (forall negative, v <> PyFloatV (FInf negative)) ->
        exists z, _validate_priority cfg v = Ok z /\ 0 <= z <= 1000)
    /\ (forall e, py_int cfg v = Raise e ->
                  e <> ValueError -> e <> TypeError ->
                  _validate_priority cfg v = Raise e).
Proof.
  intros cfg v.
  assert (Hret : (forall e, py_int cfg v = Raise e ->
                            e = ValueError \/ e = TypeError) ->
                 exists z, _validate_priority cfg v = Ok z
                           /\ 0 <= z <= 1000).
  { intros Hv. destruct (_validate_priority_returns cfg v Hv) as [z Hz].
    exists z. split; [done|]. by apply (_validate_priority_range cfg v). }
  split; [exact Hret|]. split.
  - intros Hobj Hinf. apply Hret. intros e.
    by apply py_int_builtin.
  - intros e. apply _validate_priority_raises.
Qed.

Lemma validate_priority_total_in_range_witness :
  (exists z, _validate_priority example_cfg (PyStr " 1500 ") = Ok z
             /\ 0 <= z <= 1000)
  /\ (exists z, _validate_priority example_cfg
                  (PyObject (Raise TypeError) None) = Ok z
                /\ 0 <= z <= 1000)
  /\ _validate_priority example_cfg
       (PyObject (Raise (OtherException "RuntimeError")) None)
     = Raise (OtherException "RuntimeError").
Proof.
  split; [|split].
  - apply (proj1 (proj2 (validate_priority_total_in_range example_cfg
                           (PyStr " 1500 "))));
      intros; discriminate.
  - apply (proj1 (validate_priority_total_in_range example_cfg
                    (PyObject (Raise TypeError) None))).
    intros e [= <-]. by right.
  - apply (proj2 (proj2 (validate_priority_total_in_range example_cfg
             (PyObject (Raise (OtherException "RuntimeError")) None))));
      [reflexivity | discriminate | discriminate].
Defined.

(** X17: a priority that [_validate_priority] returned is accepted
    unchanged when it is validated again. *)
Theorem validate_priority_idempotent :
  forall cfg v z,
    _validate_priority cfg v = Ok z ->
    _validate_priority cfg (PyInt z) = Ok z.
Proof.
  intros cfg v z Hz.
  pose proof (_validate_priority_range cfg v z Hz) as Hr.
  unfold _validate_priority. simpl.
  destruct (Z.ltb_spec z 0); [lia|].
  destruct (Z.ltb_spec 1000 z); [lia|]. done.
Qed.

Lemma validate_priority_idempotent_witness :
  _validate_priority example_cfg (PyInt 1000) = Ok 1000.
Proof.
  apply (validate_priority_idempotent example_cfg (PyFloatV (FFinite 2500))).
  reflexivity.
Defined.

(** ** Detaching a leaf and attaching it: the caches of the ancestors *)

Lemma erase_dates_caches (o1 o2 : option Task) :
  erase_dates <$> o1 = erase_dates <$> o2 ->
  o1 ≫= _schedule_seconds = o2 ≫= _schedule_seconds
  /\ o1 ≫= _total_logged_seconds = o2 ≫= _total_logged_seconds.
Proof.
  destruct o1 as [T1|], o2 as [T2|]; try done. simpl. intros He.
  assert (erase_dates T1 = erase_dates T2) as He' by congruence.
  by destruct (erase_dates_fields _ _ He') as (_ & _ & -> & -> & _).
Qed.

Lemma erase_dates_plan T T' :
  erase_dates T = erase_dates T' ->
  children T = children T' /\ time_logs T = time_logs T'
  /\ schedule_timing T = schedule_timing T'
  /\ schedule_unit T = schedule_unit T'.
Proof.
  unfold erase_dates, set_dates. simpl.
  intros [= _ -> _ _ -> -> -> _ _ _]. done.
Qed.

Lemma plan_eq_refl o : plan_eq o o.
Proof. by destruct o. Qed.

Lemma plan_eq_trans o1 o2 o3 : plan_eq o1 o2 -> plan_eq o2 o3 -> plan_eq o1 o3.
Proof.
  destruct o1, o2, o3; simpl; try done.
  intros (-> & -> & -> & ->) (-> & -> & -> & ->). done.
Qed.

Lemma plan_eq_erase_dates (o1 o2 : option Task) :
  erase_dates <$> o1 = erase_dates <$> o2 -> plan_eq o1 o2.
Proof.
  destruct o1 as [A|], o2 as [B|]; simpl; try done. intros He.
  apply erase_dates_plan. congruence.
Qed.

Lemma plan_eq_bump_schedule delta l (h : Heap) k :
  NoDup l -> plan_eq (h !! k) (bump_schedule delta l h !! k).
Proof.
  intros Hnd. rewrite bump_schedule_lookup by done.
  destruct (h !! k) as [K|]; [|done]. simpl. by case_decide.
Qed.

Lemma plan_eq_bump_logged delta l (h : Heap) k :
  NoDup l -> plan_eq (h !! k) (bump_logged delta l h !! k).
Proof.
  intros Hnd. rewrite bump_logged_lookup by done.
  destruct (h !! k) as [K|]; [|done]. simpl. by case_decide.
Qed.

Section DetachFacts.

Context (cfg : Config) (L : Logs) (now : Z).

Lemma parent_set_detach_run fuel h t T p1 l1 P1 :
  h !! t = Some T -> is_container T = false ->
  (forall i, i ∈ time_logs T -> is_Some (L !! i)) ->
  is_chain h t (p1 :: l1) -> h !! p1 = Some P1 ->
  schedule_ready h (p1 :: l1) -> logged_ready h (p1 :: l1) ->
  (forall c, c ∈ children P1 -> c <> t -> is_Some (h !! c)) ->
  (length l1 < fuel)%nat ->
  exists h',
    parent_set cfg L fuel now t None h
    = Ok (tt, <[t := set_parent None T]> h')
    /\ h' !! t = Some T
    /\ (forall k,
          (erase_dates <$> h' !! k) ≫= _schedule_seconds
          = bump_schedule
              (- to_seconds cfg (schedule_timing T) (schedule_unit T))
              (p1 :: l1) h !! k ≫= _schedule_seconds)
    /\ (forall k,
          (erase_dates <$> h' !! k) ≫= _total_logged_seconds
          = bump_logged (- logs_seconds L (time_logs T)) (p1 :: l1) h !! k
              ≫= _total_logged_seconds)
    /\ (forall k, k ∉ p1 :: l1 -> h' !! k = h !! k)
    /\ (exists Pf, h' !! p1 = Some Pf
                   /\ children Pf = list_remove t (children P1)
                   /\ time_logs Pf = time_logs P1
                   /\ schedule_timing Pf = schedule_timing P1
                   /\ schedule_unit Pf = schedule_unit P1)
    /\ (forall k, k <> p1 -> plan_eq (h !! k) (h' !! k)).
Proof.
  intros HT Hleaf Hlogs Hcht HP1 Hsr Hlr Hres Hfuel.
  pose proof (is_chain_notin _ _ _ Hcht) as Ht.
  destruct Hcht as [(T0 & HT0 & Hpar) Hch].
  assert (T0 = T) as -> by congruence.
  pose proof (is_chain_NoDup _ _ _ Hch) as Hnd.
  set (lg := logs_seconds L (time_logs T)).
  assert (Hsum : forall h' : Heap,
             sum_time_logs L (time_logs T) 0 h' = Ok (lg, h')).
  { intros h'. by rewrite (sum_time_logs_value L (time_logs T) Hlogs 0 h'). }
  set (s := to_seconds cfg (schedule_timing T) (schedule_unit T)).
  set (h2 := bump_logged (- lg) (p1 :: l1)
               (bump_schedule (- s) (p1 :: l1) h)).
  assert (Hlook : forall k, k ∉ p1 :: l1 -> h2 !! k = h !! k).
  { intros k Hk. unfold h2, bump_logged, bump_schedule.
    by rewrite !foldr_alter_notin. }
  assert (HT2 : h2 !! t = Some T) by (by rewrite Hlook).
  set (P1b := add_logged (- lg) (add_schedule (- s) P1)).
  assert (HP1b : h2 !! p1 = Some P1b).
  { unfold h2, bump_logged, bump_schedule.
    rewrite !foldr_alter_in by (done || by left). by rewrite HP1. }
  assert (Hch2 : is_chain h2 p1 l1).
  { eapply is_chain_ext; [|exact Hch]. intros k. unfold h2.
    by rewrite bump_logged_parent, bump_schedule_parent. }
  assert (Hsome : forall k, is_Some (h !! k) -> is_Some (h2 !! k)).
  { intros k [K HK]. unfold h2, bump_logged, bump_schedule.
    rewrite !foldr_alter_lookup by done. rewrite HK. simpl. eauto. }
  destruct (old_parent_block now fuel h2 p1 l1 P1b t HP1b Hch2 Hnd
              ltac:(lia))
    as (h' & P' & Hrun & HP' & He & Hdates & Hout & _ & _).
  { intros c Hc Hct. apply Hsome. by apply Hres. }
  assert (Htp : t <> p1) by (intros ->; apply Ht; by left).
  assert (HT' : h' !! t = Some T) by (by rewrite Hout).
  assert (Hframe : forall k,
             erase_dates <$> (erase_dates <$> h' !! k)
             = erase_dates <$> h2 !! k
             \/ (k = p1
                 /\ h' !! k
                    = Some (set_children (list_remove t (children P1)) P'))).
  { intros k. destruct (decide (k = p1)) as [->|Hk]; [by right|].
    left. rewrite <- (Hdates k Hk). by destruct (h' !! k). }
  assert (Hcache : forall k,
             (erase_dates <$> h' !! k) ≫= _schedule_seconds
             = h2 !! k ≫= _schedule_seconds
             /\ (erase_dates <$> h' !! k) ≫= _total_logged_seconds
                = h2 !! k ≫= _total_logged_seconds).
  { intros k. destruct (Hframe k) as [Hk|[-> Hk]].
    - by apply erase_dates_caches.
    - rewrite Hk, HP1b. simpl.
      by destruct (erase_dates_fields _ _ He) as (_ & _ & -> & -> & _). }
  exists h'. split.
  { unfold parent_set.
    rewrite (bind_ok _ _ _ _ _
               (validate_parent_detaches cfg L fuel h t T p1 l1 lg
                  HT Hleaf Hpar Hsum Hch Hnd Ht Hsr Hlr Hfuel)).
    fold s. fold h2.
    rewrite (bind_ok _ _ _ _ _ (get_task_ok _ _ _ HT2)). rewrite Hpar.
    destruct (decide (Some p1 = None)) as [|_]; [done|].
    unfold bind at 1. unfold bind at 1.
    change (children P1b) with (children P1) in Hrun. rewrite Hrun.
    unfold ret at 1. by apply modify_task_ok. }
  split; [done|]. split; [|split; [|split; [|split]]].
  - intros k. rewrite (proj1 (Hcache k)). unfold h2.
    rewrite bump_logged_lookup by done.
    destruct (bump_schedule (- s) (p1 :: l1) h !! k) as [K|]; [|done].
    simpl. by case_decide.
  - intros k. rewrite (proj2 (Hcache k)). unfold h2.
    rewrite !bump_logged_lookup by done.
    rewrite bump_schedule_lookup by done.
    destruct (h !! k) as [K|]; [|done].
    simpl. by case_decide.
  - intros k Hk. rewrite Hout by done. by apply Hlook.
  - eexists. split; [exact HP'|].
    destruct (erase_dates_plan _ _ He) as (_ & Htl & Hti & Hu).
    simpl. rewrite Htl, Hti, Hu. done.
  - intros k Hk.
    apply (plan_eq_trans _ (h2 !! k)).
    + unfold h2.
      apply (plan_eq_trans _ (bump_schedule (- s) (p1 :: l1) h !! k)).
      * by apply plan_eq_bump_schedule.
      * by apply plan_eq_bump_logged.
    + apply plan_eq_erase_dates. symmetry. by apply Hdates.
Qed.

End DetachFacts.

Lemma erase_dates_bind_caches (o : option Task) :
  (erase_dates <$> o) ≫= _schedule_seconds = o ≫= _schedule_seconds
  /\ (erase_dates <$> o) ≫= _total_logged_seconds
     = o ≫= _total_logged_seconds.
Proof. by destruct o. Qed.

(** X18: [task.parent = None] on a leaf subtracts the schedule seconds
    of the leaf and the seconds of its time logs from the caches of every
    former ancestor, up to the root, and leaves the task without parent;
    no task beside the leaf and its former ancestors changes. *)
Theorem detach_leaf_subtracts_from_ancestors :
  forall cfg L now fuel h t T p l P,
    h !! t = Some T -> is_container T = false ->
    (forall i, i ∈ time_logs T -> is_Some (L !! i)) ->
    is_chain h t (p :: l) -> h !! p = Some P ->
    schedule_ready h (p :: l) -> logged_ready h (p :: l) ->
    (forall c, c ∈ children P -> c <> t -> is_Some (h !! c)) ->
    (length l < fuel)%nat ->
    exists h',
      parent_set cfg L fuel now t None h = Ok (tt, h')
      /\ (parent <$> h' !! t) = Some None
      /\ (forall a c, a ∈ p :: l -> schedule_cache h a = Some c ->
            schedule_cache h' a
            = Some (c - to_seconds cfg (schedule_timing T)
                                   (schedule_unit T)))
      /\ (forall a c, a ∈ p :: l -> logged_cache h a = Some c ->
            logged_cache h' a
            = Some (c - logs_seconds L (time_logs T)))
      /\ (forall k, k ∉ t :: p :: l -> h' !! k = h !! k).
Proof.
  intros cfg L now fuel h t T p l P HT Hleaf Hlogs Hch HP Hsr Hlr Hres Hf.
  pose proof (is_chain_notin _ _ _ Hch) as Ht.
  assert (Hnd : NoDup (p :: l)).
  { destruct Hch as [_ Hch]. by eapply is_chain_NoDup. }
  destruct (parent_set_detach_run cfg L now fuel h t T p l P
              HT Hleaf Hlogs Hch HP Hsr Hlr Hres Hf)
    as (h' & Hrun & HT' & Hs & Hl & Hout & _).
  eexists. split; [exact Hrun|]. split; [|split; [|split]].
  - by rewrite lookup_insert_eq.
  - intros a c Ha Hc. unfold schedule_cache in *.
    rewrite lookup_insert_ne by (intros ->; done).
    rewrite <- (proj1 (erase_dates_bind_caches (h' !! a))), Hs.
    rewrite bump_schedule_lookup by done. rewrite decide_True by done.
    destruct (h !! a) as [A|]; [|done]. simpl in *. rewrite Hc. simpl.
    reflexivity.
  - intros a c Ha Hc. unfold logged_cache in *.
    rewrite lookup_insert_ne by (intros ->; done).
    rewrite <- (proj2 (erase_dates_bind_caches (h' !! a))), Hl.
    rewrite bump_logged_lookup by done. rewrite decide_True by done.
    destruct (h !! a) as [A|]; [|done]. simpl in *. rewrite Hc. simpl.
    reflexivity.
  - intros k Hk. apply not_elem_of_cons in Hk as [Hkt Hk].
    rewrite lookup_insert_ne by done. by apply Hout.
Qed.

Lemma detach_leaf_subtracts_from_ancestors_witness :
  exists h',
    parent_set example_cfg (logs nested_state) 5 0 3 None
      (tasks nested_state) = Ok (tt, h')
    /\ (parent <$> h' !! 3%nat) = Some None
    /\ schedule_cache h' 1 = Some 0
    /\ logged_cache h' 1 = Some 0.
Proof.
  destruct (detach_leaf_subtracts_from_ancestors example_cfg
              (logs nested_state) 0 5 (tasks nested_state) 3
              (leaf_task (Some 2%nat) [5%nat] 1 UHour) 2 [1%nat]
              (container_task (Some 1%nat) [3%nat] 3600 10))
    as (h' & Hrun & Hpar & Hs & Hl & _).
  - reflexivity.
  - reflexivity.
  - intros i Hi. simpl in Hi. elem_cases Hi. by eexists.
  - simpl. split; [by eexists|]. split; [by eexists|]. by eexists.
  - reflexivity.
  - apply Forall_cons. split.
    { eexists _, _. split; [reflexivity|]. split; [reflexivity|].
      split; [reflexivity|]. lia. }
    apply Forall_cons. split; [|apply Forall_nil_2].
    eexists _, _. split; [reflexivity|]. split; [reflexivity|].
    split; [reflexivity|]. lia.
  - apply Forall_cons. split.
    { eexists _, _. split; [reflexivity|]. split; reflexivity. }
    apply Forall_cons. split; [|apply Forall_nil_2].
    eexists _, _. split; [reflexivity|]. split; reflexivity.
  - intros c Hc Hne. simpl in Hc. elem_cases Hc. done.
  - simpl. lia.
  - exists h'. split; [exact Hrun|]. split; [exact Hpar|]. split.
    + apply (Hs 1%nat 3600); [|reflexivity].
      apply elem_of_cons. right. apply elem_of_cons. by left.
    + apply (Hl 1%nat 10); [|reflexivity].
      apply elem_of_cons. right. apply elem_of_cons. by left.
Defined.

(** ** Assigning [schedule_timing] and [schedule_unit] *)

(** X19: [task.schedule_timing = v] on a leaf stores the timing and adds
    the change of the nominal seconds of the leaf to the cached schedule
    seconds of every ancestor, up to the root; the getter of the leaf then
    returns the new nominal seconds.  No task beside the leaf and its
    ancestors changes. *)
Theorem schedule_timing_set_shifts_ancestors :
  forall cfg L now fuel h t T l v,
    h !! t = Some T -> is_container T = false ->
    is_chain h t l -> schedule_ready h l -> (length l < fuel)%nat ->
    exists h' T',
      schedule_timing_set cfg L fuel now t v h = Ok (tt, h')
      /\ h' !! t = Some T'
      /\ schedule_timing T' = v /\ schedule_unit T' = schedule_unit T
      /\ parent T' = parent T /\ is_container T' = false
      /\ (forall a c, a ∈ l -> schedule_cache h a = Some c ->
            schedule_cache h' a
            = Some (c + (to_seconds cfg v (schedule_unit T)
                         - to_seconds cfg (schedule_timing T)
                                      (schedule_unit T))))
      /\ (forall k, k ∉ t :: l -> h' !! k = h !! k)
      /\ (forall upd,
            schedule_seconds_getter cfg upd t h'
            = Ok (Some (to_seconds cfg v (schedule_unit T)), h')).
Proof.
  intros cfg L now fuel h t T l v HT Hleaf Hch Hsr Hf.
  pose proof (is_chain_NoDup _ _ _ Hch) as Hnd.
  pose proof Hnd as Hnd'. apply NoDup_cons in Hnd' as [Hnt Hndl].
  destruct (schedule_timing_set_spec cfg L now fuel h t T l v
              HT Hleaf Hch Hnd Hsr Hf) as (T' & Hrun & He).
  destruct (erase_plan_fields _ _ He) as (Hp & Hc & _ & _ & _ & Hco).
  eexists _, _. split; [exact Hrun|].
  split; [by rewrite lookup_insert_eq|].
  split; [done|]. split; [done|]. split; [done|].
  split; [by rewrite <- Hleaf, <- Hco|]. split; [|split].
  - intros a c Ha Hca. unfold schedule_cache in *.
    rewrite lookup_insert_ne by (intros ->; done).
    rewrite bump_schedule_lookup by done. rewrite decide_True by done.
    destruct (h !! a) as [A|]; [|done]. simpl in *. by rewrite Hca.
  - intros k Hk. apply not_elem_of_cons in Hk as [Hkt Hk].
    rewrite lookup_insert_ne by done.
    rewrite bump_schedule_lookup by done. rewrite decide_False by done.
    by destruct (h !! k).
  - intros upd.
    rewrite (schedule_seconds_getter_leaf cfg upd _ t
               (set_schedule v (schedule_unit T) T'));
      [done | by rewrite lookup_insert_eq |].
    by rewrite <- Hleaf, <- Hco.
Qed.

Lemma schedule_timing_set_shifts_ancestors_witness :
  exists h' T',
    schedule_timing_set example_cfg (logs nested_state) 5 0 3 4
      (tasks nested_state) = Ok (tt, h')
    /\ h' !! 3%nat = Some T'
    /\ schedule_timing T' = 4
    /\ schedule_cache h' 1 = Some 14400.
Proof.
  destruct (schedule_timing_set_shifts_ancestors example_cfg
              (logs nested_state) 0 5 (tasks nested_state) 3
              (leaf_task (Some 2%nat) [5%nat] 1 UHour) [2%nat; 1%nat] 4)
    as (h' & T' & Hrun & HT' & Hv & _ & _ & _ & Hs & _).
  - reflexivity.
  - reflexivity.
  - simpl. split; [by eexists|]. split; [by eexists|]. by eexists.
  - apply Forall_cons. split.
    { eexists _, _. split; [reflexivity|]. split; [reflexivity|].
      split; [reflexivity|]. lia. }
    apply Forall_cons. split; [|apply Forall_nil_2].
    eexists _, _. split; [reflexivity|]. split; [reflexivity|].
    split; [reflexivity|]. lia.
  - simpl. lia.
  - exists h', T'. split; [exact Hrun|]. split; [exact HT'|].
    split; [exact Hv|].
    apply (Hs 1%nat 3600); [|reflexivity].
    apply elem_of_cons. right. apply elem_of_cons. by left.
Defined.

(** X20: [task.schedule_unit = u] on a leaf stores the unit and adds the
    change of the nominal seconds of the leaf to the cached schedule
    seconds of every ancestor, up to the root; the getter of the leaf then
    returns the new nominal seconds.  No task beside the leaf and its
    ancestors changes. *)
Theorem schedule_unit_set_shifts_ancestors :
  forall cfg L now fuel h t T l u,
    h !! t = Some T -> is_container T = false ->
    is_chain h t l -> schedule_ready h l -> (length l < fuel)%nat ->
    exists h' T',
      schedule_unit_set cfg L fuel now t u h = Ok (tt, h')
      /\ h' !! t = Some T'
      /\ schedule_timing T' = schedule_timing T /\ schedule_unit T' = u
      /\ parent T' = parent T /\ is_container T' = false
      /\ (forall a c, a ∈ l -> schedule_cache h a = Some c ->
            schedule_cache h' a
            = Some (c + (to_seconds cfg (schedule_timing T) u
                         - to_seconds cfg (schedule_timing T)
                                      (schedule_unit T))))
      /\ (forall k, k ∉ t :: l -> h' !! k = h !! k)
      /\ (forall upd,
            schedule_seconds_getter cfg upd t h'
            = Ok (Some (to_seconds cfg (schedule_timing T) u), h')).
Proof.
  intros cfg L now fuel h t T l u HT Hleaf Hch Hsr Hf.
  pose proof (is_chain_NoDup _ _ _ Hch) as Hnd.
  pose proof Hnd as Hnd'. apply NoDup_cons in Hnd' as [Hnt Hndl].
  destruct (schedule_unit_set_spec cfg L now fuel h t T l u
              HT Hleaf Hch Hnd Hsr Hf) as (T' & Hrun & He).
  destruct (erase_plan_fields _ _ He) as (Hp & Hc & _ & _ & _ & Hco).
  eexists _, _. split; [exact Hrun|].
  split; [by rewrite lookup_insert_eq|].
  split; [done|]. split; [done|]. split; [done|].
  split; [by rewrite <- Hleaf, <- Hco|]. split; [|split].
  - intros a c Ha Hca. unfold schedule_cache in *.
    rewrite lookup_insert_ne by (intros ->; done).
    rewrite bump_schedule_lookup by done. rewrite decide_True by done.
    destruct (h !! a) as [A|]; [|done]. simpl in *. by rewrite Hca.
  - intros k Hk. apply not_elem_of_cons in Hk as [Hkt Hk].
    rewrite lookup_insert_ne by done.
    rewrite bump_schedule_lookup by done. rewrite decide_False by done.
    by destruct (h !! k).
  - intros upd.
    rewrite (schedule_seconds_getter_leaf cfg upd _ t
               (set_schedule (schedule_timing T) u T'));
      [done | by rewrite lookup_insert_eq |].
    by rewrite <- Hleaf, <- Hco.
Qed.

Lemma schedule_unit_set_shifts_ancestors_witness :
  exists h' T',
    schedule_unit_set example_cfg (logs nested_state) 5 0 3 UDay
      (tasks nested_state) = Ok (tt, h')
    /\ h' !! 3%nat = Some T'
    /\ schedule_unit T' = UDay
    /\ schedule_cache h' 1 = Some 86400.
Proof.
  destruct (schedule_unit_set_shifts_ancestors example_cfg
              (logs nested_state) 0 5 (tasks nested_state) 3
              (leaf_task (Some 2%nat) [5%nat] 1 UHour) [2%nat; 1%nat] UDay)
    as (h' & T' & Hrun & HT' & _ & Hu & _ & _ & Hs & _).
  - reflexivity.
  - reflexivity.
  - simpl. split; [by eexists|]. split; [by eexists|]. by eexists.
  - apply Forall_cons. split.
    { eexists _, _. split; [reflexivity|]. split; [reflexivity|].
      split; [reflexivity|]. lia. }
    apply Forall_cons. split; [|apply Forall_nil_2].
    eexists _, _. split; [reflexivity|]. split; [reflexivity|].
    split; [reflexivity|]. lia.
  - simpl. lia.
  - exists h', T'. split; [exact Hrun|]. split; [exact HT'|].
    split; [exact Hu|].
    apply (Hs 1%nat 3600); [|reflexivity].
    apply elem_of_cons. right. apply elem_of_cons. by left.
Defined.

(** ** Creating a time log within the remaining seconds of a leaf *)

Lemma logs_seconds_insert (L : Logs) i x ids :
  i ∉ ids -> logs_seconds (<[i := x]> L) ids = logs_seconds L ids.
Proof.
  induction ids as [|j ids IH]; intros Hi; [done|]. simpl.
  apply not_elem_of_cons in Hi as [Hij Hi].
  rewrite lookup_insert_ne by done. by rewrite IH.
Qed.

Lemma logs_seconds_app (L : Logs) a b :
  logs_seconds L (a ++ b) = logs_seconds L a + logs_seconds L b.
Proof.
  induction a as [|i a IH]; simpl; [done|]. rewrite IH. lia.
Qed.

Lemma overbooking_loop_free logs id self ids :
  (forall j, j ∈ ids -> exists l, logs !! j = Some l
                                  /\ (j <> id -> ~ conflict self l)) ->
  overbooking_loop logs id self ids = Ok tt.
Proof.
  induction ids as [|j ids IH]; intros Hfree; [done|]. simpl.
  destruct (Hfree j) as (l & Hl & Hnc); [by left|]. rewrite Hl.
  destruct (Nat.eqb_spec j id) as [->|Hne]; simpl.
  - apply IH. intros k Hk. apply Hfree. by right.
  - destruct (overbooked self l) eqn:Hob.
    + apply overbooked_conflict in Hob. by destruct (Hnc Hne).
    + apply IH. intros k Hk. apply Hfree. by right.
Qed.

Lemma validate_time_logs_run cfg L fuel h t T l i tl :
  h !! t = Some T -> is_chain h t l -> logged_ready h l ->
  (length l <= fuel)%nat -> L !! i = Some tl ->
  _validate_time_logs cfg L fuel t i h
  = Ok (i, bump_logged (total_seconds tl) l h).
Proof.
  intros HT Hc Hr Hf Hi.
  pose proof (is_chain_NoDup _ _ _ Hc) as Hnd.
  apply NoDup_cons in Hnd as [Hnt Hndl].
  unfold _validate_time_logs.
  rewrite (bind_ok _ _ _ _ _ (get_task_ok h t T HT)).
  destruct l as [|p l].
  - destruct Hc as (T' & HT' & Hp).
    assert (T' = T) as -> by congruence. by rewrite Hp.
  - destruct Hc as [(T' & HT' & Hp) Hc].
    assert (T' = T) as -> by congruence. rewrite Hp.
    destruct (logged_ready_cons _ _ _ Hr) as [(P & c & HP & HPc & Hlc) _].
    simpl in Hf.
    unfold bind at 1. unfold bind at 1.
    rewrite (total_logged_seconds_getter_cached L _ h p P c HP HPc Hlc).
    simpl. rewrite Hi. unfold bind at 1, ret at 1.
    rewrite (total_logged_seconds_rebase cfg L fuel h p l
               (total_seconds tl) Hc Hndl Hr ltac:(lia) c); [done|].
    by rewrite HP; simpl; rewrite Hlc.
Qed.

Lemma remaining_seconds_leaf cfg L fuel h t T :
  h !! t = Some T -> is_container T = false ->
  (forall i, i ∈ time_logs T -> is_Some (L !! i)) ->
  remaining_seconds cfg L fuel t h
  = Ok (to_seconds cfg (schedule_timing T) (schedule_unit T)
        - logs_seconds L (time_logs T), h).
Proof.
  intros HT Hleaf Hlogs. unfold remaining_seconds.
  rewrite (bind_ok _ _ _ _ _
             (schedule_seconds_getter_leaf cfg _ _ _ _ HT Hleaf)).
  rewrite (bind_ok _ _ _ _ _
             (total_logged_seconds_getter_leaf L _ _ _ _ _ HT Hleaf
                (sum_time_logs_value L (time_logs T) Hlogs 0 h))).
  done.
Qed.

Lemma timelog_create_run cfg fuel now id task r start end_ st T l :
  start <= end_ ->
  tasks st !! task = Some T -> is_container T = false ->
  is_chain (tasks st) task l -> logged_ready (tasks st) l ->
  (length l <= fuel)%nat ->
  logs st !! id = None ->
  (forall i, i ∈ time_logs T -> is_Some (logs st !! i)) ->
  (forall j, j ∈ default [] (users st !! r) ->
             exists l', logs st !! j = Some l'
                        /\ ~ conflict (mkTimeLog None None start end_) l') ->
  end_ - start
  <= to_seconds cfg (schedule_timing T) (schedule_unit T)
     - logs_seconds (logs st) (time_logs T) ->
  timelog_create cfg fuel now id task (Some r) start end_ st
  = Ok (mkState
          (<[task := set_time_logs (time_logs T ++ [id]) T]>
             (bump_logged (end_ - start) l (tasks st)))
          (<[id := mkTimeLog (Some task) (Some r) start end_]>
             (<[id := mkTimeLog None (Some r) start end_]>
                (<[id := mkTimeLog None None start end_]> (logs st))))
          (<[r := default [] (users st !! r) ++ [id]]> (users st))).
Proof.
  intros Hord HT Hleaf Hch Hlr Hf Hid Hlogs Hfree Hbudget.
  pose proof (is_chain_NoDup _ _ _ Hch) as Hnd.
  apply NoDup_cons in Hnd as [Hnt Hndl].
  assert (Hfresh : forall i, is_Some (logs st !! i) -> i <> id).
  { intros i [x Hx] ->. congruence. }
  assert (Hnotin : id ∉ time_logs T).
  { intros Hin. by apply (Hfresh id (Hlogs id Hin)). }
  unfold timelog_create, timelog_init.
  replace (_validate_dates now (Some start) (Some end_) None)
    with (start, end_, end_ - start)
    by (unfold _validate_dates; destruct (Z.ltb_spec end_ start);
        [lia | done]).
  cbv zeta. cbn [fst snd].
  set (self0 := mkTimeLog None None start end_).
  set (logs0 := <[id := self0]> (logs st)).
  assert (_validate_resource logs0 (users st) id self0 (Some r) = Ok r)
    as ->.
  { unfold _validate_resource. rewrite overbooking_loop_free; [done|].
    intros j Hj. destruct (Hfree j Hj) as (l' & Hl' & Hnc).
    exists l'. split; [|done]. unfold logs0.
    rewrite lookup_insert_ne; [done|].
    intros <-. congruence. }
  set (self1 := set_tl_resource (Some r) self0).
  set (logs1 := <[id := self1]> logs0).
  assert (Hlogs1 : forall i, i ∈ time_logs T -> is_Some (logs1 !! i)).
  { intros i Hi. unfold logs1, logs0.
    pose proof (Hfresh i (Hlogs i Hi)).
    rewrite !lookup_insert_ne by done. by apply Hlogs. }
  assert (Hsec : logs_seconds logs1 (time_logs T)
                 = logs_seconds (logs st) (time_logs T)).
  { unfold logs1, logs0. by rewrite !logs_seconds_insert. }
  assert (Hval : _validate_task cfg logs1 fuel now self1 task (tasks st)
                 = Ok (task, tasks st)).
  { unfold _validate_task, _expand_task_schedule_timing.
    unfold bind at 1. unfold bind at 1.
    rewrite (remaining_seconds_leaf cfg logs1 fuel (tasks st) task T
               HT Hleaf Hlogs1).
    rewrite Hsec.
    change (total_seconds self1) with (end_ - start).
    destruct (Z.ltb_spec
                (to_seconds cfg (schedule_timing T) (schedule_unit T)
                 - logs_seconds (logs st) (time_logs T)) (end_ - start));
      [lia|done]. }
  rewrite (bind_ok _ _ _ _ _ Hval).
  rewrite (bind_ok _ _ _ _ _
             (validate_time_logs_run cfg logs1 fuel (tasks st) task T l id
                self1 HT Hch Hlr Hf (lookup_insert_eq _ _ _))).
  change (total_seconds self1) with (end_ - start).
  assert (HT2 : bump_logged (end_ - start) l (tasks st) !! task = Some T).
  { rewrite bump_logged_lookup by done. rewrite decide_False by done.
    by rewrite HT. }
  rewrite (bind_ok _ _ _ _ _ (get_task_ok _ _ _ HT2)).
  rewrite (bind_ok _ _ _ _ _ (modify_task_ok _ _ _ _ HT2)).
  done.
Qed.

(** X21: creating a time log with its dates in order (start no later
    than end), for a leaf task and a resource none of whose time logs
    conflicts with it, of a duration within the remaining seconds of the
    task, returns: the log is stored with its task and
    resource and appended to the time logs of both, the schedule of the
    task stays as it is, the cached logged seconds of every ancestor grow
    by the duration, and the logged seconds that the getter of the task
    returns grow by the duration, so that its remaining seconds shrink
    by it. *)
Theorem timelog_create_within_budget :
  forall cfg fuel now id task r start end_ st T l,
    start <= end_ ->
    tasks st !! task = Some T -> is_container T = false ->
    is_chain (tasks st) task l -> logged_ready (tasks st) l ->
    (length l <= fuel)%nat ->
    logs st !! id = None ->
    (forall i, i ∈ time_logs T -> is_Some (logs st !! i)) ->
    (forall j, j ∈ default [] (users st !! r) ->
               exists l', logs st !! j = Some l'
                          /\ ~ conflict (mkTimeLog None None start end_) l') ->
    end_ - start
    <= to_seconds cfg (schedule_timing T) (schedule_unit T)
       - logs_seconds (logs st) (time_logs T) ->
    exists st',
      timelog_create cfg fuel now id task (Some r) start end_ st = Ok st'
      /\ logs st' !! id = Some (mkTimeLog (Some task) (Some r) start end_)
      /\ (forall j, j <> id -> logs st' !! j = logs st !! j)
      /\ users st' !! r = Some (default [] (users st !! r) ++ [id])
      /\ tasks st' !! task = Some (set_time_logs (time_logs T ++ [id]) T)
      /\ (forall a c, a ∈ l -> logged_cache (tasks st) a = Some c ->
            logged_cache (tasks st') a = Some (c + (end_ - start)))
      /\ (forall k, k ∉ task :: l -> tasks st' !! k = tasks st !! k)
      /\ (forall upd,
            total_logged_seconds_getter (logs st') upd task (tasks st')
            = Ok (Some (logs_seconds (logs st) (time_logs T)
                        + (end_ - start)), tasks st'))
      /\ (forall fuel',
            remaining_seconds cfg (logs st') fuel' task (tasks st')
            = Ok (to_seconds cfg (schedule_timing T) (schedule_unit T)
                  - logs_seconds (logs st) (time_logs T)
                  - (end_ - start), tasks st')).
Proof.
  intros cfg fuel now id task r start end_ st T l
         Hord HT Hleaf Hch Hlr Hf Hid Hlogs Hfree Hbudget.
  pose proof (is_chain_NoDup _ _ _ Hch) as Hnd.
  apply NoDup_cons in Hnd as [Hnt Hndl].
  assert (Hfresh : forall i, is_Some (logs st !! i) -> i <> id).
  { intros i [x Hx] ->. congruence. }
  assert (Hnotin : id ∉ time_logs T).
  { intros Hin. by apply (Hfresh id (Hlogs id Hin)). }
  eexists. split.
  { by apply (timelog_create_run cfg fuel now id task r start end_ st T l). }
  simpl. split; [by rewrite lookup_insert_eq|].
  split; [intros j Hj; by rewrite !lookup_insert_ne|].
  split; [by rewrite lookup_insert_eq|].
  split; [by rewrite lookup_insert_eq|].
  set (L' := <[id := mkTimeLog (Some task) (Some r) start end_]>
               (<[id := mkTimeLog None (Some r) start end_]>
                  (<[id := mkTimeLog None None start end_]> (logs st)))).
  set (h' := <[task := set_time_logs (time_logs T ++ [id]) T]>
               (bump_logged (end_ - start) l (tasks st))).
  assert (Hpres : forall i, i ∈ time_logs T ++ [id] -> is_Some (L' !! i)).
  { intros i Hi. apply elem_of_app in Hi as [Hi|Hi].
    - pose proof (Hfresh i (Hlogs i Hi)). unfold L'.
      rewrite !lookup_insert_ne by done. by apply Hlogs.
    - apply list_elem_of_singleton in Hi as ->. unfold L'.
      rewrite lookup_insert_eq. by eexists. }
  assert (Hsec : logs_seconds L' (time_logs T ++ [id])
                 = logs_seconds (logs st) (time_logs T) + (end_ - start)).
  { rewrite logs_seconds_app. unfold L'.
    rewrite !logs_seconds_insert by done. simpl.
    rewrite lookup_insert_eq. simpl. unfold total_seconds. simpl. lia. }
  split; [|split; [|split]].
  - intros a c Ha Hc. unfold logged_cache in *. unfold h'.
    rewrite lookup_insert_ne by (intros ->; done).
    rewrite bump_logged_lookup by done. rewrite decide_True by done.
    destruct (tasks st !! a) as [A|]; [|done]. simpl in *. by rewrite Hc.
  - intros k Hk. apply not_elem_of_cons in Hk as [Hkt Hk]. unfold h'.
    rewrite lookup_insert_ne by done.
    rewrite bump_logged_lookup by done. rewrite decide_False by done.
    by destruct (tasks st !! k).
  - intros upd.
    rewrite (total_logged_seconds_getter_leaf L' upd h' task
               (set_time_logs (time_logs T ++ [id]) T)
               (logs_seconds L' (time_logs T ++ [id])));
      [| by unfold h'; rewrite lookup_insert_eq | done
       | exact (sum_time_logs_value L' _ Hpres 0 h') ].
    by rewrite Hsec.
  - intros fuel'.
    rewrite (remaining_seconds_leaf cfg L' fuel' h' task
               (set_time_logs (time_logs T ++ [id]) T));
      [| by unfold h'; rewrite lookup_insert_eq | done | exact Hpres ].
    change (time_logs (set_time_logs (time_logs T ++ [id]) T))
      with (time_logs T ++ [id]).
    rewrite Hsec. simpl. do 2 f_equal. lia.
Qed.

Lemma timelog_create_within_budget_witness :
  exists st',
    timelog_create example_cfg 5 0 9 3 (Some 7%nat) 30 40 nested_state
    = Ok st'
    /\ logs st' !! 9%nat = Some (mkTimeLog (Some 3%nat) (Some 7%nat) 30 40)
    /\ logged_cache (tasks st') 1 = Some 20.
Proof.
  destruct (timelog_create_within_budget example_cfg 5 0 9 3 7 30 40
              nested_state (leaf_task (Some 2%nat) [5%nat] 1 UHour)
              [2%nat; 1%nat])
    as (st' & Hrun & Hlog & _ & _ & _ & Hanc & _).
  - lia.
  - reflexivity.
  - reflexivity.
  - simpl. split; [by eexists|]. split; [by eexists|]. by eexists.
  - apply Forall_cons. split.
    { eexists _, _. split; [reflexivity|]. split; reflexivity. }
    apply Forall_cons. split; [|apply Forall_nil_2].
    eexists _, _. split; [reflexivity|]. split; reflexivity.
  - simpl. lia.
  - reflexivity.
  - intros i Hi. simpl in Hi. elem_cases Hi. by eexists.
  - intros j Hj. vm_compute in Hj. elem_cases Hj.
    eexists. split; [reflexivity|]. unfold conflict. simpl. lia.
  - vm_compute. discriminate.
  - exists st'. split; [exact Hrun|]. split; [exact Hlog|].
    apply (Hanc 1%nat 10); [|reflexivity].
    apply elem_of_cons. right. apply elem_of_cons. by left.
Defined.

(** ** The responsible users of a task *)

Lemma find_all_false {A} (f : A -> bool) (l : list A) :
  (forall x, x ∈ l -> f x = false) -> find f l = None.
Proof.
  induction l as [|x l IH]; intros Hall; [done|]. simpl.
  rewrite (Hall x) by (by left). apply IH. intros y Hy. apply Hall.
  by right.
Qed.

Lemma find_none_all {A} (f : A -> bool) (l : list A) :
  find f l = None -> forall x, x ∈ l -> f x = false.
Proof.
  induction l as [|x l IH]; intros Hf y Hy.
  - by apply elem_of_nil in Hy.
  - simpl in Hf. destruct (f x) eqn:Hx; [done|].
    apply elem_of_cons in Hy as [->|Hy]; [done|]. by apply IH.
Qed.

Lemma find_some_true {A} (f : A -> bool) (l : list A) a :
  find f l = Some a -> f a = true.
Proof.
  induction l as [|x l IH]; [done|]. simpl.
  destruct (f x) eqn:Hx; [|done]. by intros [= <-].
Qed.

Lemma find_app_some {A} (f : A -> bool) (l1 l2 : list A) a :
  find f l1 = Some a -> find f (l1 ++ l2) = Some a.
Proof.
  induction l1 as [|x l1 IH]; [done|]. simpl. by destruct (f x).
Qed.

Lemma find_app_none {A} (f : A -> bool) (l1 l2 : list A) :
  find f l1 = None -> find f (l1 ++ l2) = find f l2.
Proof.
  induction l1 as [|x l1 IH]; [done|]. simpl. by destruct (f x).
Qed.

Section ResponsibleFacts.

Context (responsible_of : gmap nat (list nat)).
Context (project_lead : nat -> option nat).

Lemma responsible_loop_empty (get : nat -> option (list nat)) ps :
  (forall q, q ∈ ps -> get q = Some []) ->
  responsible_loop get ps = Some None.
Proof.
  induction ps as [|p ps IH]; intros Hall; [done|]. simpl.
  rewrite (Hall p) by (by left). apply IH. intros q Hq. apply Hall.
  by right.
Qed.

Lemma has_responsible_own t :
  has_responsible responsible_of t = true ->
  own_responsible responsible_of t <> [].
Proof. unfold has_responsible. by destruct (own_responsible _ t). Qed.

Lemma has_lead_list t :
  has_lead project_lead t = true -> lead_list project_lead t <> [].
Proof. unfold has_lead, lead_list. by destruct (project_lead t). Qed.

Lemma responsible_getter_chain h n :
  forall l t fuel,
    (length l <= n)%nat -> is_chain h t l -> (length l < fuel)%nat ->
    _responsible_getter responsible_of project_lead fuel h t
    = Some (responsible_along responsible_of project_lead (t :: l)).
Proof.
  induction n as [n IH] using lt_wf_ind.
  intros l t fuel Hn Hch Hf.
  destruct fuel as [|f]; [lia|]. simpl.
  unfold responsible_along. simpl. unfold has_responsible at 1.
  change (default [] (responsible_of !! t))
    with (own_responsible responsible_of t).
  destruct (own_responsible responsible_of t) as [|u us] eqn:Hown;
    [|by rewrite Hown].
  destruct (is_chain_head _ _ _ Hch) as (T & HT & _).
  assert (parents f h t = Some (reverse l)) as ->.
  { unfold parents. rewrite HT.
    rewrite (parents_loop_chain h l f t T [] HT Hch ltac:(lia)).
    by rewrite app_nil_r. }
  rewrite reverse_involutive.
  assert (Hsuffix : forall l1 q l2, l = l1 ++ q :: l2 ->
             _responsible_getter responsible_of project_lead f h q
             = Some (responsible_along responsible_of project_lead
                       (q :: l2))).
  { intros l1 q l2 ->. rewrite length_app in Hn, Hf. simpl in Hn, Hf.
    apply (IH (length l2)); [lia | lia | | lia].
    by eapply is_chain_suffix. }
  destruct (find (has_responsible responsible_of) l) as [a|] eqn:Hfind.
  - destruct l as [|p l']; [done|].
    simpl. rewrite (Hsuffix [] p l' eq_refl).
    assert (responsible_along responsible_of project_lead (p :: l')
            = own_responsible responsible_of a) as ->
      by (unfold responsible_along; by rewrite Hfind).
    pose proof (has_responsible_own a (find_some_true _ _ _ Hfind)) as Hne.
    by destruct (own_responsible responsible_of a).
  - pose proof (find_none_all _ _ Hfind) as Hnone.
    destruct (find (has_lead project_lead) (reverse l)) as [y|] eqn:Hlead.
    + rewrite reverse_cons. rewrite (find_app_some _ _ _ _ Hlead).
      destruct l as [|p l']; [done|].
      simpl. rewrite (Hsuffix [] p l' eq_refl).
      assert (responsible_along responsible_of project_lead (p :: l')
              = lead_list project_lead y) as ->
        by (unfold responsible_along; by rewrite Hfind, Hlead).
      pose proof (has_lead_list y (find_some_true _ _ _ Hlead)) as Hne.
      by destruct (lead_list project_lead y).
    + rewrite reverse_cons.
      rewrite (find_app_none _ _ _ Hlead). simpl.
      rewrite responsible_loop_empty.
      * unfold has_lead. destruct (project_lead t) as [u|] eqn:Ht; [|done].
        unfold lead_list. by rewrite Ht.
      * intros q Hq. apply list_elem_of_split in Hq as (l1 & l2 & Hl).
        rewrite (Hsuffix l1 q l2 Hl). f_equal.
        unfold responsible_along.
        rewrite find_all_false.
        { rewrite find_all_false; [done|].
          intros x Hx. apply (find_none_all _ _ Hlead).
          rewrite elem_of_reverse. rewrite elem_of_reverse in Hx.
          rewrite Hl. apply elem_of_app. by right. }
        intros x Hx. apply Hnone. rewrite Hl. apply elem_of_app. by right.
Qed.

End ResponsibleFacts.

(** X22: [_responsible_getter] returns the users that the task names
    itself when it names any, otherwise those of the nearest ancestor that
    names any, and otherwise the lead of the project of the topmost task
    of the chain whose project has a lead (no user when none has). *)
Theorem responsible_getter_resolves :
  forall responsible_of project_lead fuel h t l,
    is_chain h t l -> (length l < fuel)%nat ->
    _responsible_getter responsible_of project_lead fuel h t
    = Some (responsible_along responsible_of project_lead (t :: l)).
Proof.
  intros responsible_of project_lead fuel h t l Hch Hf.
  by apply (responsible_getter_chain responsible_of project_lead h
              (length l) l t fuel).
Qed.

Lemma responsible_getter_resolves_witness :
  _responsible_getter {[ 1%nat := [8%nat] ]} (fun _ => Some 9%nat) 5
    (tasks nested_state) 3
  = Some [8%nat].
Proof.
  rewrite (responsible_getter_resolves {[ 1%nat := [8%nat] ]}
             (fun _ => Some 9%nat) 5 (tasks nested_state) 3
             [2%nat; 1%nat]).
  - vm_compute. reflexivity.
  - simpl. split; [by eexists|]. split; [by eexists|]. by eexists.
  - simpl. lia.
Defined.

(** ** Incremental updates agree with recomputation *)

Lemma chain_parent_in h l :
  forall t x X c,
    is_chain h t l -> x ∈ t :: l -> h !! x = Some X -> parent X = Some c ->
    c ∈ l.
Proof.
  induction l as [|p l IH]; intros t x X c Hch Hx HX Hp.
  - apply list_elem_of_singleton in Hx as ->.
    destruct Hch as (T & HT & HTp). congruence.
  - destruct Hch as [(T & HT & HTp) Hch].
    apply elem_of_cons in Hx as [->|Hx].
    + assert (c = p) as -> by congruence. by left.
    + right. by apply (IH p x X c).
Qed.

Lemma chain_pred_exists h l :
  forall t c,
    is_chain h t l -> c ∈ l ->
    exists x X, x ∈ t :: l /\ h !! x = Some X /\ parent X = Some c.
Proof.
  induction l as [|p l IH]; intros t c Hch Hc.
  - by apply elem_of_nil in Hc.
  - destruct Hch as [(T & HT & HTp) Hch].
    apply elem_of_cons in Hc as [->|Hc].
    + exists t, T. split; [by left|done].
    + destruct (IH p c Hch Hc) as (x & X & Hx & HX & Hp).
      exists x, X. split; [by right|done].
Qed.

Lemma chain_pred_unique h l :
  forall t x1 X1 x2 X2 c,
    is_chain h t l -> x1 ∈ t :: l -> x2 ∈ t :: l ->
    h !! x1 = Some X1 -> h !! x2 = Some X2 ->
    parent X1 = Some c -> parent X2 = Some c -> x1 = x2.
Proof.
  induction l as [|p l IH]; intros t x1 X1 x2 X2 c Hch H1 H2 HX1 HX2 Hp1 Hp2.
  - apply list_elem_of_singleton in H1 as ->.
    by apply list_elem_of_singleton in H2 as ->.
  - pose proof (is_chain_NoDup _ _ _ Hch) as Hnd.
    destruct Hch as [(T & HT & HTp) Hch].
    pose proof (is_chain_notin _ _ _ Hch) as Hpl.
    apply elem_of_cons in H1 as [->|H1];
      apply elem_of_cons in H2 as [->|H2]; [done| | |].
    + assert (c = p) as -> by congruence.
      destruct Hpl. by apply (chain_parent_in h l p x2 X2 p).
    + assert (c = p) as -> by congruence.
      destruct Hpl. by apply (chain_parent_in h l p x1 X1 p).
    + by apply (IH p x1 X1 x2 X2 c).
Qed.

Lemma foldr_add_pair_ext (F G : nat -> Z * Z) cs :
  (forall c, c ∈ cs -> F c = G c) ->
  foldr (fun c acc => add_pair (F c) acc) (0, 0) cs
  = foldr (fun c acc => add_pair (G c) acc) (0, 0) cs.
Proof.
  induction cs as [|c cs IH]; intros Hext; [done|]. simpl.
  rewrite (Hext c) by (by left). rewrite IH; [done|].
  intros c' Hc'. apply Hext. by right.
Qed.

Lemma foldr_add_pair_one (F G : nat -> Z * Z) cs x d :
  NoDup cs -> x ∈ cs -> G x = add_pair (F x) d ->
  (forall c, c ∈ cs -> c <> x -> G c = F c) ->
  foldr (fun c acc => add_pair (G c) acc) (0, 0) cs
  = add_pair (foldr (fun c acc => add_pair (F c) acc) (0, 0) cs) d.
Proof.
  induction cs as [|c cs IH]; intros Hnd Hx HGx Hext.
  - by apply elem_of_nil in Hx.
  - apply NoDup_cons in Hnd as [Hc Hnd]. simpl.
    apply elem_of_cons in Hx as [->|Hx].
    + rewrite HGx.
      rewrite (foldr_add_pair_ext G F cs).
      * unfold add_pair. simpl. f_equal; lia.
      * intros c' Hc'. apply Hext; [by right|]. by intros ->.
    + rewrite (Hext c) by (by left || by intros ->).
      rewrite IH; try done.
      * unfold add_pair. simpl. f_equal; lia.
      * intros c' Hc' Hne. apply Hext; [by right|done].
Qed.

Section ShiftFacts.

Context (cfg : Config) (L L' : Logs) (rk : nat -> nat) (h h' : Heap).
Context (t : nat) (l : list nat) (T T' : Task).
Context (Htree : tree_ok rk h) (Hlink : linked h).
Context (Hplan : same_plan_but t h h').
Context (HL : forall k K, h !! k = Some K -> k <> t ->
                          logs_seconds L' (time_logs K)
                          = logs_seconds L (time_logs K)).
Context (Hch : is_chain h t l).
Context (HT : h !! t = Some T) (Hleaf : is_container T = false).
Context (HT' : h' !! t = Some T').

Lemma subtree_seconds_shift f :
  forall c, (rk c < f)%nat ->
    subtree_seconds cfg L' f h' c
    = if decide (c ∈ t :: l)
      then add_pair (subtree_seconds cfg L f h c)
             (logs_seconds L' (time_logs T') - logs_seconds L (time_logs T),
              to_seconds cfg (schedule_timing T') (schedule_unit T')
              - to_seconds cfg (schedule_timing T) (schedule_unit T))
      else subtree_seconds cfg L f h c.
Proof.
  induction f as [|f IH]; intros c Hrk; [lia|]. simpl.
  pose proof (Hplan c) as Hc.
  destruct (h !! c) as [C|] eqn:HC, (h' !! c) as [C'|] eqn:HC'; try done.
  - destruct Hc as [Hchild Hrest].
    assert (is_container C' = is_container C) as ->
      by (unfold is_container; by rewrite Hchild).
    rewrite <- Hchild.
    case_decide as Hin.
    + apply elem_of_cons in Hin as [->|Hin].
      * assert (C = T) as -> by congruence.
        assert (C' = T') as -> by congruence.
        rewrite Hleaf. unfold add_pair. simpl. f_equal; lia.
      * destruct (chain_pred_exists h l t c Hch Hin) as (x & X & Hx & HX & Hp).
        destruct (Hlink c C HC) as [Hnd Hiff].
        assert (x ∈ children C) as Hxc by (apply Hiff; eauto).
        assert (is_container C = true) as ->.
        { unfold is_container. destruct (children C); [|done].
          by apply elem_of_nil in Hxc. }
        apply (foldr_add_pair_one _ _ (children C) x); [done | done | |].
        -- rewrite IH by (destruct (Htree c C HC x Hxc); lia).
           by rewrite decide_True.
        -- intros c' Hc' Hne.
           rewrite IH by (destruct (Htree c C HC c' Hc'); lia).
           rewrite decide_False; [done|]. intros Hin'.
           apply Hiff in Hc' as (C'' & HC'' & Hp'').
           apply Hne.
           by apply (chain_pred_unique h l t c' C'' x X c).
    + apply not_elem_of_cons in Hin as [Hct Hcl].
      destruct (Hrest Hct) as (Htl & Hti & Hu).
      destruct (is_container C) eqn:Hco.
      * apply foldr_add_pair_ext. intros c' Hc'.
        rewrite IH by (destruct (Htree c C HC c' Hc'); lia).
        rewrite decide_False; [done|]. intros Hin'.
        destruct (Hlink c C HC) as [_ Hiff].
        apply Hiff in Hc' as (C'' & HC'' & Hp'').
        apply Hcl. by apply (chain_parent_in h l t c' C'' c).
      * rewrite <- Htl, <- Hti, <- Hu. f_equal. by apply (HL c C).
  - rewrite decide_False; [done|]. intros Hin.
    apply elem_of_cons in Hin as [->|Hin]; [congruence|].
    destruct (is_chain_lookup _ _ _ _ Hch Hin). congruence.
Qed.

End ShiftFacts.

Lemma same_plan_but_bump_schedule t T Tn delta l (h : Heap) :
  NoDup l -> h !! t = Some T -> children T = children Tn ->
  same_plan_but t h (<[t := Tn]> (bump_schedule delta l h)).
Proof.
  intros Hnd HT Hc k. destruct (decide (k = t)) as [->|Hk].
  - rewrite HT, lookup_insert_eq. done.
  - rewrite lookup_insert_ne by done.
    rewrite bump_schedule_lookup by done.
    destruct (h !! k) as [K|]; [|done]. simpl. by case_decide.
Qed.

Lemma same_plan_but_bump_logged t T Tn delta l (h : Heap) :
  NoDup l -> h !! t = Some T -> children T = children Tn ->
  same_plan_but t h (<[t := Tn]> (bump_logged delta l h)).
Proof.
  intros Hnd HT Hc k. destruct (decide (k = t)) as [->|Hk].
  - rewrite HT, lookup_insert_eq. done.
  - rewrite lookup_insert_ne by done.
    rewrite bump_logged_lookup by done.
    destruct (h !! k) as [K|]; [|done]. simpl. by case_decide.
Qed.

Lemma schedule_fresh_shift cfg L rk f h t T Tn l delta :
  tree_ok rk h -> linked h ->
  h !! t = Some T -> is_container T = false -> is_chain h t l ->
  children T = children Tn ->
  delta = to_seconds cfg (schedule_timing Tn) (schedule_unit Tn)
          - to_seconds cfg (schedule_timing T) (schedule_unit T) ->
  (forall a, a ∈ l -> (rk a < f)%nat) ->
  schedule_fresh cfg L f h l ->
  schedule_fresh cfg L f (<[t := Tn]> (bump_schedule delta l h)) l.
Proof.
  intros Htree Hlink HT Hleaf Hch Hc -> Hrk Hfresh a Ha.
  pose proof (is_chain_NoDup _ _ _ Hch) as Hnd.
  apply NoDup_cons in Hnd as [Hnt Hndl].
  rewrite (subtree_seconds_shift cfg L L rk h _ t l T Tn Htree Hlink
             (same_plan_but_bump_schedule t T Tn _ l h Hndl HT Hc)
             ltac:(done) Hch HT Hleaf (lookup_insert_eq _ _ _) f a
             (Hrk a Ha)).
  rewrite decide_True by (by right). simpl.
  unfold schedule_cache. rewrite lookup_insert_ne by (intros ->; done).
  rewrite bump_schedule_lookup by done. rewrite decide_True by done.
  pose proof (Hfresh a Ha) as Hf. unfold schedule_cache in Hf.
  destruct (h !! a) as [A|]; [|done]. simpl in *. by rewrite Hf.
Qed.

(** X23: assigning [schedule_timing] or [schedule_unit] on a leaf keeps
    the caches of its ancestors in step with the tree: when the cached
    schedule seconds of every ancestor are the schedule seconds of its
    subtree before, they are the schedule seconds of its subtree in the
    new store. *)
Theorem schedule_set_keeps_caches_fresh :
  forall cfg L rk now fuel f h t T l,
    tree_ok rk h -> linked h ->
    h !! t = Some T -> is_container T = false ->
    is_chain h t l -> schedule_ready h l -> (length l < fuel)%nat ->
    (forall a, a ∈ l -> (rk a < f)%nat) ->
    schedule_fresh cfg L f h l ->
    (forall v, exists h',
        schedule_timing_set cfg L fuel now t v h = Ok (tt, h')
        /\ schedule_fresh cfg L f h' l)
    /\ (forall u, exists h',
          schedule_unit_set cfg L fuel now t u h = Ok (tt, h')
          /\ schedule_fresh cfg L f h' l).
Proof.
  intros cfg L rk now fuel f h t T l Htree Hlink HT Hleaf Hch Hsr Hf Hrk
         Hfresh.
  pose proof (is_chain_NoDup _ _ _ Hch) as Hnd.
  split.
  - intros v.
    destruct (schedule_timing_set_spec cfg L now fuel h t T l v
                HT Hleaf Hch Hnd Hsr Hf) as (T' & Hrun & He).
    destruct (erase_plan_fields _ _ He) as (_ & Hc & _ & _ & _ & _).
    eexists. split; [exact Hrun|].
    by apply (schedule_fresh_shift cfg L rk f h t T).
  - intros u.
    destruct (schedule_unit_set_spec cfg L now fuel h t T l u
                HT Hleaf Hch Hnd Hsr Hf) as (T' & Hrun & He).
    destruct (erase_plan_fields _ _ He) as (_ & Hc & _ & _ & _ & _).
    eexists. split; [exact Hrun|].
    by apply (schedule_fresh_shift cfg L rk f h t T).
Qed.

Lemma nested_state_linked : linked (tasks nested_state).
Proof.
  intros a A HA. simpl in HA. lookup_cases HA; simpl.
  - split; [no_dup|]. intros c. split.
    + intros Hc. elem_cases Hc. by eexists.
    + intros (C & HC & Hp). lookup_cases HC; simpl in Hp; try done.
      by left.
  - split; [no_dup|]. intros c. split.
    + intros Hc. elem_cases Hc. by eexists.
    + intros (C & HC & Hp). lookup_cases HC; simpl in Hp; try done.
      by left.
  - split; [no_dup|]. intros c. split.
    + intros Hc. by apply elem_of_nil in Hc.
    + intros (C & HC & Hp). lookup_cases HC; simpl in Hp; done.
Qed.

Lemma nested_state_chain : is_chain (tasks nested_state) 3 [2%nat; 1%nat].
Proof. simpl. split; [by eexists|]. split; [by eexists|]. by eexists. Qed.

Lemma nested_state_schedule_ready :
  schedule_ready (tasks nested_state) [2%nat; 1%nat].
Proof.
  apply Forall_cons. split.
  { eexists _, _. split; [reflexivity|]. split; [reflexivity|].
    split; [reflexivity|]. lia. }
  apply Forall_cons. split; [|apply Forall_nil_2].
  eexists _, _. split; [reflexivity|]. split; [reflexivity|].
  split; [reflexivity|]. lia.
Qed.

Lemma nested_state_logged_ready :
  logged_ready (tasks nested_state) [2%nat; 1%nat].
Proof.
  apply Forall_cons. split.
  { eexists _, _. split; [reflexivity|]. split; reflexivity. }
  apply Forall_cons. split; [|apply Forall_nil_2].
  eexists _, _. split; [reflexivity|]. split; reflexivity.
Qed.

Lemma schedule_set_keeps_caches_fresh_witness :
  exists h',
    schedule_timing_set example_cfg (logs nested_state) 5 0 3 4
      (tasks nested_state) = Ok (tt, h')
    /\ schedule_fresh example_cfg (logs nested_state) 4 h' [2%nat; 1%nat].
Proof.
  apply (proj1 (schedule_set_keeps_caches_fresh example_cfg
                  (logs nested_state) (fun k => 4 - k)%nat 0 5 4
                  (tasks nested_state) 3
                  (leaf_task (Some 2%nat) [5%nat] 1 UHour) [2%nat; 1%nat]
                  nested_state_tree_ok nested_state_linked eq_refl eq_refl
                  nested_state_chain nested_state_schedule_ready
                  ltac:(simpl; lia)
                  ltac:(intros a Ha; elem_cases Ha; simpl; lia)
                  ltac:(intros a Ha; elem_cases Ha; reflexivity))).
Defined.

(** X24: creating a time log with its dates in order (start no later
    than end) within the remaining seconds of a leaf keeps the caches of its ancestors in step with the time logs: when
    the cached logged seconds of every ancestor are the logged seconds of
    its subtree before, they are the logged seconds of its subtree in the
    new store of tasks and time logs. *)
Theorem timelog_create_keeps_caches_fresh :
  forall cfg rk fuel f now id task r start end_ st T l,
    start <= end_ ->
    tree_ok rk (tasks st) -> linked (tasks st) ->
    logs_ok (logs st) (tasks st) ->
    tasks st !! task = Some T -> is_container T = false ->
    is_chain (tasks st) task l -> logged_ready (tasks st) l ->
    (length l <= fuel)%nat ->
    logs st !! id = None ->
    (forall j, j ∈ default [] (users st !! r) ->
               exists l', logs st !! j = Some l'
                          /\ ~ conflict (mkTimeLog None None start end_) l') ->
    end_ - start
    <= to_seconds cfg (schedule_timing T) (schedule_unit T)
       - logs_seconds (logs st) (time_logs T) ->
    (forall a, a ∈ l -> (rk a < f)%nat) ->
    logged_fresh cfg (logs st) f (tasks st) l ->
    exists st',
      timelog_create cfg fuel now id task (Some r) start end_ st = Ok st'
      /\ logged_fresh cfg (logs st') f (tasks st') l.
Proof.
  intros cfg rk fuel f now id task r start end_ st T l Hord Htree Hlink
         Hlogs HT Hleaf Hch Hlr Hfuel Hid Hfree Hbudget Hrk Hfresh.
  pose proof (is_chain_NoDup _ _ _ Hch) as Hnd.
  apply NoDup_cons in Hnd as [Hnt Hndl].
  assert (Hnew : forall i, is_Some (logs st !! i) -> i <> id).
  { intros i [x Hx] ->. congruence. }
  assert (Hnotin : forall k K, tasks st !! k = Some K -> id ∉ time_logs K).
  { intros k K HK Hin. by apply (Hnew id (Hlogs k K HK id Hin)). }
  eexists. split.
  { apply (timelog_create_run cfg fuel now id task r start end_ st T l);
      try done. by apply (Hlogs task T). }
  simpl. intros a Ha.
  rewrite (subtree_seconds_shift cfg (logs st) _ rk (tasks st) _ task l T
             (set_time_logs (time_logs T ++ [id]) T) Htree Hlink
             (same_plan_but_bump_logged task T
                (set_time_logs (time_logs T ++ [id]) T) _ l (tasks st)
                Hndl HT eq_refl)); try done.
  - rewrite decide_True by (by right). simpl.
    unfold logged_cache. rewrite lookup_insert_ne by (intros ->; done).
    rewrite bump_logged_lookup by done. rewrite decide_True by done.
    pose proof (Hfresh a Ha) as Hf. unfold logged_cache in Hf.
    destruct (tasks st !! a) as [A|]; [|done]. simpl in *. rewrite Hf.
    simpl. f_equal. rewrite logs_seconds_app.
    rewrite !logs_seconds_insert by (by eapply Hnotin). simpl.
    rewrite lookup_insert_eq. simpl. unfold total_seconds. simpl. lia.
  - intros k K HK Hk. rewrite !logs_seconds_insert; [done|..];
      by eapply Hnotin.
  - by rewrite lookup_insert_eq.
  - by apply Hrk.
Qed.

Lemma timelog_create_keeps_caches_fresh_witness :
  exists st',
    timelog_create example_cfg 5 0 9 3 (Some 7%nat) 30 40 nested_state
    = Ok st'
    /\ logged_fresh example_cfg (logs st') 4 (tasks st') [2%nat; 1%nat].
Proof.
  apply (timelog_create_keeps_caches_fresh example_cfg
           (fun k => 4 - k)%nat 5 4 0 9 3 7 30 40 nested_state
           (leaf_task (Some 2%nat) [5%nat] 1 UHour) [2%nat; 1%nat]
           ltac:(lia)
           nested_state_tree_ok nested_state_linked nested_state_logs_ok
           eq_refl eq_refl nested_state_chain nested_state_logged_ready
           ltac:(simpl; lia) eq_refl).
  - intros j Hj. vm_compute in Hj. elem_cases Hj.
    eexists. split; [reflexivity|]. unfold conflict. simpl. lia.
  - vm_compute. discriminate.
  - intros a Ha. elem_cases Ha; simpl; lia.
  - intros a Ha. elem_cases Ha; reflexivity.
Defined.

(** ** Changing the dates of a time log keeps the caches in step *)

Lemma logs_seconds_insert_in (L : Logs) id old new ids :
  NoDup ids -> id ∈ ids -> L !! id = Some old ->
  logs_seconds (<[id := new]> L) ids
  = logs_seconds L ids + (total_seconds new - total_seconds old).
Proof.
  induction ids as [|i ids IH]; intros Hnd Hin Hold.
  - by apply elem_of_nil in Hin.
  - apply NoDup_cons in Hnd as [Hi Hnd]. simpl.
    apply elem_of_cons in Hin as [<-|Hin].
    + rewrite lookup_insert_eq, Hold. simpl.
      rewrite logs_seconds_insert by done. lia.
    + rewrite lookup_insert_ne by (intros <-; done).
      rewrite IH by done. lia.
Qed.

Lemma same_plan_but_bump_logged_twice t d1 d2 l (h : Heap) :
  NoDup l ->
  same_plan_but t h (bump_logged d2 l (bump_logged d1 l h)).
Proof.
  intros Hnd k. rewrite !bump_logged_lookup by done.
  destruct (h !! k) as [K|]; [|done]. simpl. by repeat case_decide.
Qed.

Section FreshDates.

Context (cfg : Config) (rk : nat -> nat).

Lemma timelog_store_dates_fresh fuel f id d st tlog task T p l :
  tree_ok rk (tasks st) -> linked (tasks st) ->
  logs st !! id = Some tlog -> tl_task tlog = Some task ->
  tasks st !! task = Some T -> is_container T = false ->
  NoDup (time_logs T) -> id ∈ time_logs T ->
  (forall k K, tasks st !! k = Some K -> k <> task -> id ∉ time_logs K) ->
  is_chain (tasks st) task (p :: l) ->
  logged_ready (tasks st) (p :: l) -> (length l < fuel)%nat ->
  (forall a, a ∈ p :: l -> (rk a < f)%nat) ->
  logged_fresh cfg (logs st) f (tasks st) (p :: l) ->
  exists st',
    timelog_store_dates cfg fuel id d st = Ok st'
    /\ logs st' !! id
       = Some (mkTimeLog (Some task) (tl_resource tlog)
                         (fst (fst d)) (snd (fst d)))
    /\ logged_fresh cfg (logs st') f (tasks st') (p :: l).
Proof.
  intros Htree Hlink Hid Htask HT Hleaf Hndl Hin Hother Hch Hlr Hfuel Hrk
         Hfresh.
  pose proof (is_chain_notin _ _ _ Hch) as Hnt.
  assert (Hnd : NoDup (p :: l)).
  { destruct Hch as [_ Hch']. by eapply is_chain_NoDup. }
  pose proof Hch as [(T0 & HT0 & Hp) Hchp].
  assert (T0 = T) as -> by congruence.
  eexists. split.
  { by apply (timelog_store_dates_chain cfg fuel id d st tlog task T p l). }
  cbn [logs tasks]. split; [by rewrite lookup_insert_eq|].
  intros a Ha.
  set (new := mkTimeLog (Some task) (tl_resource tlog)
                        (fst (fst d)) (snd (fst d))).
  assert (HT2 : bump_logged
                  (snd (fst d) - fst (fst d) - (tl_end tlog - fst (fst d)))
                  (p :: l)
                  (bump_logged
                     (tl_end tlog - fst (fst d)
                      - (tl_end tlog - tl_start tlog))
                     (p :: l) (tasks st)) !! task = Some T).
  { rewrite !bump_logged_lookup by done. rewrite !decide_False by done.
    by rewrite HT. }
  rewrite (subtree_seconds_shift cfg (logs st) (<[id := new]> (logs st)) rk
             (tasks st) _ task (p :: l) T T Htree Hlink
             (same_plan_but_bump_logged_twice task _ _ (p :: l) (tasks st)
                Hnd)); try done.
  - rewrite decide_True by (by right). unfold add_pair. cbn [fst snd].
    unfold logged_cache. rewrite !bump_logged_lookup by done.
    rewrite !decide_True by done.
    pose proof (Hfresh a Ha) as Hf. unfold logged_cache in Hf.
    destruct (tasks st !! a) as [A|]; [|done]. simpl in *. rewrite Hf.
    simpl. f_equal.
    rewrite (logs_seconds_insert_in (logs st) id tlog new (time_logs T))
      by done.
    unfold total_seconds. simpl. lia.
  - intros k K HK Hk. apply logs_seconds_insert. by apply (Hother k K).
  - by apply Hrk.
Qed.

End FreshDates.

(** X25: assigning [start] or [end] of a time log of a leaf keeps the
    caches of the ancestors of the leaf in step with the time logs: when
    the cached logged seconds of every ancestor are the logged seconds of
    its subtree before, they are the logged seconds of its subtree in the
    new store of tasks and time logs. *)
Theorem timelog_dates_set_keeps_caches_fresh :
  forall cfg rk fuel f now id v st tlog task T p l,
    tree_ok rk (tasks st) -> linked (tasks st) ->
    logs st !! id = Some tlog -> tl_task tlog = Some task ->
    tasks st !! task = Some T -> is_container T = false ->
    NoDup (time_logs T) -> id ∈ time_logs T ->
    (forall k K, tasks st !! k = Some K -> k <> task -> id ∉ time_logs K) ->
    is_chain (tasks st) task (p :: l) ->
    logged_ready (tasks st) (p :: l) -> (length l < fuel)%nat ->
    (forall a, a ∈ p :: l -> (rk a < f)%nat) ->
    logged_fresh cfg (logs st) f (tasks st) (p :: l) ->
    (exists st',
        timelog_start_set cfg fuel now id v st = Ok st'
        /\ (tl_start <$> logs st' !! id) = Some v
        /\ logged_fresh cfg (logs st') f (tasks st') (p :: l))
    /\ (exists st',
          timelog_end_set cfg fuel now id v st = Ok st'
          /\ logged_fresh cfg (logs st') f (tasks st') (p :: l)).
Proof.
  intros cfg rk fuel f now id v st tlog task T p l Htree Hlink Hid Htask HT
         Hleaf Hndl Hin Hother Hch Hlr Hfuel Hrk Hfresh.
  split.
  - destruct (timelog_store_dates_fresh cfg rk fuel f id
                (_validate_dates now (Some v) (Some (tl_end tlog))
                                 (Some (total_seconds tlog)))
                st tlog task T p l) as (st' & Hrun & Hlog & Hfr);
      try done.
    exists st'. unfold timelog_start_set. rewrite Hid.
    split; [done|]. split; [|done].
    rewrite Hlog. apply (f_equal Some). apply _validate_dates_start.
  - destruct (timelog_store_dates_fresh cfg rk fuel f id
                (_validate_dates now (Some (tl_start tlog)) (Some v)
                                 (Some (total_seconds tlog)))
                st tlog task T p l) as (st' & Hrun & Hlog & Hfr);
      try done.
    exists st'. unfold timelog_end_set. rewrite Hid. done.
Qed.

Lemma timelog_dates_set_keeps_caches_fresh_witness :
  exists st',
    timelog_start_set example_cfg 5 0 5 4 nested_state = Ok st'
    /\ (tl_start <$> logs st' !! 5%nat) = Some 4
    /\ logged_fresh example_cfg (logs st') 4 (tasks st') [2%nat; 1%nat].
Proof.
  apply (proj1 (timelog_dates_set_keeps_caches_fresh example_cfg
                  (fun k => 4 - k)%nat 5 4 0 5 4 nested_state
                  (mkTimeLog (Some 3%nat) (Some 7%nat) 10 20) 3
                  (leaf_task (Some 2%nat) [5%nat] 1 UHour) 2 [1%nat]
                  nested_state_tree_ok nested_state_linked eq_refl eq_refl
                  eq_refl eq_refl ltac:(no_dup)
                  ltac:(by apply list_elem_of_singleton)
                  ltac:(intros k K HK Hk; simpl in HK; lookup_cases HK;
                        simpl; try done; apply not_elem_of_nil)
                  nested_state_chain nested_state_logged_ready
                  ltac:(simpl; lia)
                  ltac:(intros a Ha; elem_cases Ha; simpl; lia)
                  ltac:(intros a Ha; elem_cases Ha; reflexivity))).
Defined.

(** ** Detaching a leaf keeps the caches in step *)

Lemma foldr_add_pair_remove (F : nat -> Z * Z) cs t :
  NoDup cs -> t ∈ cs ->
  foldr (fun c acc => add_pair (F c) acc) (0, 0) (list_remove t cs)
  = add_pair (foldr (fun c acc => add_pair (F c) acc) (0, 0) cs)
             (- fst (F t), - snd (F t)).
Proof.
  induction cs as [|c cs IH]; intros Hnd Ht.
  - by apply elem_of_nil in Ht.
  - apply NoDup_cons in Hnd as [Hc Hnd]. simpl.
    destruct (Nat.eqb_spec t c) as [->|Hne].
    + unfold add_pair. simpl.
      destruct (foldr _ _ cs) as [a b]. simpl. f_equal; lia.
    + apply elem_of_cons in Ht as [->|Ht]; [done|]. simpl.
      rewrite IH by done. unfold add_pair. simpl. f_equal; lia.
Qed.

Lemma list_remove_elem t cs c :
  c ∈ list_remove t cs -> c ∈ cs.
Proof.
  induction cs as [|y cs IH]; simpl; [done|].
  destruct (Nat.eqb_spec t y) as [->|Hne]; intros Hc.
  - by right.
  - apply elem_of_cons in Hc as [->|Hc]; [by left|]. right. by apply IH.
Qed.

Lemma list_remove_notin t cs :
  NoDup cs -> t ∉ list_remove t cs.
Proof.
  induction cs as [|y cs IH]; intros Hnd; simpl; [apply not_elem_of_nil|].
  apply NoDup_cons in Hnd as [Hy Hnd].
  destruct (Nat.eqb_spec t y) as [->|Hne]; [done|].
  apply not_elem_of_cons. split; [done|]. by apply IH.
Qed.

Lemma list_remove_keeps t cs c :
  c ∈ cs -> c <> t -> c ∈ list_remove t cs.
Proof.
  induction cs as [|y cs IH]; intros Hc Hne; simpl.
  - by apply elem_of_nil in Hc.
  - destruct (Nat.eqb_spec t y) as [->|Hty].
    + apply elem_of_cons in Hc as [->|Hc]; done.
    + apply elem_of_cons in Hc as [->|Hc]; [by left|]. right. by apply IH.
Qed.

Section OutsideFacts.

Context (cfg : Config) (L L' : Logs) (rk : nat -> nat) (h h' : Heap).
Context (x : nat) (lx : list nat).
Context (Htree : tree_ok rk h) (Hlink : linked h).
Context (Hch : is_chain h x lx).
Context (Hplan : forall k, k ∉ x :: lx -> plan_eq (h !! k) (h' !! k)).
Context (HL : forall k K, h !! k = Some K -> k ∉ x :: lx ->
                          logs_seconds L' (time_logs K)
                          = logs_seconds L (time_logs K)).

Lemma subtree_seconds_outside f :
  forall c, c ∉ x :: lx ->
    subtree_seconds cfg L' f h' c = subtree_seconds cfg L f h c.
Proof.
  induction f as [|f IH]; intros c Hc; [done|]. simpl.
  pose proof (Hplan c Hc) as Hp. unfold plan_eq in Hp.
  destruct (h !! c) as [C|] eqn:HC, (h' !! c) as [C'|] eqn:HC'; try done.
  destruct Hp as (Hchild & Htl & Hti & Hu).
  assert (is_container C' = is_container C) as ->
    by (unfold is_container; by rewrite Hchild).
  rewrite <- Hchild, <- Htl, <- Hti, <- Hu.
  destruct (is_container C).
  - apply foldr_add_pair_ext. intros c' Hc'. apply IH. intros Hin.
    destruct (Hlink c C HC) as [_ Hiff].
    apply Hiff in Hc' as (C'' & HC'' & Hp'').
    apply Hc. right. by apply (chain_parent_in h lx x c' C'' c).
  - f_equal. by apply (HL c C).
Qed.

Context (d : Z * Z).
Context (Hx : forall f, (rk x < f)%nat ->
                        subtree_seconds cfg L' f h' x
                        = add_pair (subtree_seconds cfg L f h x) d).
Context (Hkids : forall a, a ∈ lx ->
                           children <$> h' !! a = children <$> h !! a).

Lemma subtree_seconds_above f :
  forall a, a ∈ x :: lx -> (rk a < f)%nat ->
    subtree_seconds cfg L' f h' a
    = add_pair (subtree_seconds cfg L f h a) d.
Proof.
  induction f as [|f IH]; intros a Ha Hrk; [lia|].
  apply elem_of_cons in Ha as [->|Ha]; [by apply Hx|].
  simpl. pose proof (Hkids a Ha) as Hk.
  destruct (is_chain_lookup _ _ _ _ Hch Ha) as [A HA].
  rewrite HA in *. destruct (h' !! a) as [A'|]; [|done].
  simpl in Hk. assert (children A' = children A) as Hchild by congruence.
  assert (is_container A' = is_container A) as ->
    by (unfold is_container; by rewrite Hchild).
  rewrite Hchild.
  destruct (chain_pred_exists h lx x a Hch Ha) as (y & Y & Hy & HY & Hp).
  destruct (Hlink a A HA) as [Hnd Hiff].
  assert (y ∈ children A) as Hya by (apply Hiff; eauto).
  assert (is_container A = true) as ->.
  { unfold is_container. destruct (children A); [|done].
    by apply elem_of_nil in Hya. }
  apply (foldr_add_pair_one _ _ (children A) y); [done | done | |].
  - apply IH; [done|]. destruct (Htree a A HA y Hya). lia.
  - intros c' Hc' Hne. apply subtree_seconds_outside. intros Hin'.
    apply Hiff in Hc' as (C'' & HC'' & Hp'').
    apply Hne. by apply (chain_pred_unique h lx x c' C'' y Y a).
Qed.

End OutsideFacts.

(** X26: [task.parent = None] on a leaf whose parent keeps another
    child keeps the caches of the former ancestors in step with the tree:
    when their cached schedule seconds and logged seconds are those of
    their subtrees before, they are those of their subtrees in the new
    store. *)
Theorem detach_leaf_keeps_caches_fresh :
  forall cfg L rk now fuel f h t T p l P,
    tree_ok rk h -> linked h ->
    h !! t = Some T -> is_container T = false ->
    (forall i, i ∈ time_logs T -> is_Some (L !! i)) ->
    is_chain h t (p :: l) -> h !! p = Some P ->
    schedule_ready h (p :: l) -> logged_ready h (p :: l) ->
    (exists c, c ∈ children P /\ c <> t) ->
    (length l < fuel)%nat ->
    (forall a, a ∈ p :: l -> (rk a < f)%nat) ->
    schedule_fresh cfg L f h (p :: l) -> logged_fresh cfg L f h (p :: l) ->
    exists h',
      parent_set cfg L fuel now t None h = Ok (tt, h')
      /\ schedule_fresh cfg L f h' (p :: l)
      /\ logged_fresh cfg L f h' (p :: l).
Proof.
  intros cfg L rk now fuel f h t T p l P Htree Hlink HT Hleaf Hlogs Hch HP
         Hsr Hlr (c0 & Hc0 & Hc0t) Hfuel Hrk Hsf Hlf.
  pose proof (is_chain_notin _ _ _ Hch) as Ht.
  pose proof Hch as [(T0 & HT0 & Hpar) Hchp].
  assert (T0 = T) as -> by congruence.
  pose proof (is_chain_NoDup _ _ _ Hchp) as Hnd.
  pose proof Hnd as Hnd'. apply NoDup_cons in Hnd' as [Hpl Hndl].
  assert (Htp : t <> p) by (intros ->; apply Ht; by left).
  destruct (Hlink p P HP) as [Hndc Hiff].
  assert (Htc : t ∈ children P) by (apply Hiff; eauto).
  destruct (parent_set_detach_run cfg L now fuel h t T p l P
              HT Hleaf Hlogs Hch HP Hsr Hlr
              ltac:(intros c Hc _; by destruct (Htree p P HP c Hc)) Hfuel)
    as (h' & Hrun & HT' & Hs & Hl & Hout & (Pf & HPf & HPfc & _) & Hplan).
  set (hF := <[t := set_parent None T]> h').
  set (d := (- logs_seconds L (time_logs T),
             - to_seconds cfg (schedule_timing T) (schedule_unit T))).
  assert (HplanF : forall k, k ∉ p :: l -> plan_eq (h !! k) (hF !! k)).
  { intros k Hk. unfold hF. destruct (decide (k = t)) as [->|Hkt].
    - rewrite lookup_insert_eq, HT. done.
    - rewrite lookup_insert_ne by done. rewrite Hout by done.
      apply plan_eq_refl. }
  assert (Hchild_out : forall c, c ∈ children P -> c ∉ p :: l).
  { intros c Hc Hin. apply Hiff in Hc as (C & HC & HCp).
    apply Hpl. by apply (chain_parent_in h l p c C p). }
  assert (Hshift : forall a, a ∈ p :: l -> (rk a < f)%nat ->
             subtree_seconds cfg L f hF a
             = add_pair (subtree_seconds cfg L f h a) d).
  { apply (subtree_seconds_above cfg L L rk h hF p l Htree Hlink Hchp
             HplanF ltac:(done) d).
    - intros f0 Hf0. destruct f0 as [|f1]; [lia|]. simpl.
      unfold hF. rewrite lookup_insert_ne by done. rewrite HPf, HP.
      assert (is_container Pf = true) as ->.
      { unfold is_container. rewrite HPfc.
        pose proof (list_remove_keeps t (children P) c0 Hc0 Hc0t) as Hk.
        destruct (list_remove t (children P)); [|done].
        by apply elem_of_nil in Hk. }
      assert (is_container P = true) as ->.
      { unfold is_container. destruct (children P); [|done].
        by apply elem_of_nil in Htc. }
      rewrite HPfc.
      rewrite (foldr_add_pair_ext
                 (subtree_seconds cfg L f1 (<[t := set_parent None T]> h'))
                 (subtree_seconds cfg L f1 h)).
      + rewrite foldr_add_pair_remove by done.
        f_equal. unfold d.
        destruct (Htree p P HP t Htc) as [_ Hrkt].
        destruct f1 as [|f2]; [lia|]. simpl. rewrite HT, Hleaf. done.
      + intros c Hc.
        apply (subtree_seconds_outside cfg L L h hF p l Hlink Hchp
                 HplanF ltac:(done)).
        apply Hchild_out. by eapply list_remove_elem.
    - intros a Ha. unfold hF.
      rewrite lookup_insert_ne by (intros ->; apply Ht; by right).
      pose proof (Hplan a ltac:(by intros ->)) as Hpa. unfold plan_eq in Hpa.
      destruct (h !! a), (h' !! a); try done. simpl.
      by destruct Hpa as (-> & _). }
  exists hF. split; [exact Hrun|]. split.
  - intros a Ha. rewrite (Hshift a Ha (Hrk a Ha)). simpl.
    unfold schedule_cache, hF.
    rewrite lookup_insert_ne by (intros ->; done).
    rewrite <- (proj1 (erase_dates_bind_caches (h' !! a))), Hs.
    rewrite bump_schedule_lookup by done. rewrite decide_True by done.
    pose proof (Hsf a Ha) as Hc. unfold schedule_cache in Hc.
    destruct (h !! a) as [A|]; [|done]. simpl in *. rewrite Hc. done.
  - intros a Ha. rewrite (Hshift a Ha (Hrk a Ha)). simpl.
    unfold logged_cache, hF.
    rewrite lookup_insert_ne by (intros ->; done).
    rewrite <- (proj2 (erase_dates_bind_caches (h' !! a))), Hl.
    rewrite bump_logged_lookup by done. rewrite decide_True by done.
    pose proof (Hlf a Ha) as Hc. unfold logged_cache in Hc.
    destruct (h !! a) as [A|]; [|done]. simpl in *. rewrite Hc. done.
Qed.

Lemma family_tree_ok : tree_ok (fun k => 5 - k)%nat family_tree.
Proof.
  intros t T HT c Hc. unfold family_tree in HT. lookup_cases HT;
    simpl in Hc; elem_cases Hc; (split; [by eexists | simpl; lia]).
Qed.

Lemma family_tree_linked : linked family_tree.
Proof.
  intros a A HA. unfold family_tree in HA. lookup_cases HA; simpl.
  - split; [no_dup|]. intros c. split.
    + intros Hc. elem_cases Hc; by eexists.
    + intros (C & HC & Hp). unfold family_tree in HC.
      lookup_cases HC; simpl in Hp; try done.
      * by left.
      * right. by left.
  - split; [no_dup|]. intros c. split.
    + intros Hc. by apply elem_of_nil in Hc.
    + intros (C & HC & Hp). unfold family_tree in HC.
      lookup_cases HC; simpl in Hp; done.
  - split; [no_dup|]. intros c. split.
    + intros Hc. elem_cases Hc. by eexists.
    + intros (C & HC & Hp). unfold family_tree in HC.
      lookup_cases HC; simpl in Hp; try done. by left.
  - split; [no_dup|]. intros c. split.
    + intros Hc. by apply elem_of_nil in Hc.
    + intros (C & HC & Hp). unfold family_tree in HC.
      lookup_cases HC; simpl in Hp; done.
Qed.

Lemma detach_leaf_keeps_caches_fresh_witness :
  exists h',
    parent_set example_cfg ∅ 5 0 2 None family_tree = Ok (tt, h')
    /\ schedule_fresh example_cfg ∅ 5 h' [1%nat]
    /\ logged_fresh example_cfg ∅ 5 h' [1%nat].
Proof.
  apply (detach_leaf_keeps_caches_fresh example_cfg ∅
           (fun k => 5 - k)%nat 0 5 5 family_tree 2
           (leaf_task (Some 1%nat) [] 1 UHour) 1 []
           (container_task None [2%nat; 3%nat] 10800 0)
           family_tree_ok family_tree_linked eq_refl eq_refl).
  - intros i Hi. by apply elem_of_nil in Hi.
  - simpl. split; [by eexists|]. by eexists.
  - reflexivity.
  - apply Forall_cons. split; [|apply Forall_nil_2].
    eexists _, _. split; [reflexivity|]. split; [reflexivity|].
    split; [reflexivity|]. lia.
  - apply Forall_cons. split; [|apply Forall_nil_2].
    eexists _, _. split; [reflexivity|]. split; reflexivity.
  - exists 3%nat. split; [|done]. apply elem_of_cons. right.
    apply elem_of_cons. by left.
  - simpl. lia.
  - intros a Ha. elem_cases Ha. simpl. lia.
  - intros a Ha. elem_cases Ha. reflexivity.
  - intros a Ha. elem_cases Ha. reflexivity.
Defined.

(** ** Attaching a leaf to a container keeps the caches in step *)

Section AttachFacts.

Context (cfg : Config) (L : Logs) (now : Z).

Lemma validate_parent_attaches fuel h t T p2 l2 P2 lg :
  h !! t = Some T -> is_container T = false -> parent T = None ->
  (forall h' : Heap, sum_time_logs L (time_logs T) 0 h' = Ok (lg, h')) ->
  is_chain h p2 l2 -> NoDup (p2 :: l2) -> t ∉ p2 :: l2 ->
  h !! p2 = Some P2 -> is_container P2 = true ->
  schedule_ready h (p2 :: l2) -> logged_ready h (p2 :: l2) ->
  reaches fuel RDepends h t p2 = Ok false ->
  (length l2 < fuel)%nat ->
  _validate_parent cfg L fuel t (Some p2) h
  = Ok (Some p2,
        bump_logged lg (p2 :: l2)
          (bump_schedule
             (to_seconds cfg (schedule_timing T) (schedule_unit T))
             (p2 :: l2) h)).
Proof.
  intros HT Hleaf Hpar Hsum Hc2 Hnd2 Ht2 HP2 HP2c Hsr2 Hlr2 Hdep Hf2.
  set (s := to_seconds cfg (schedule_timing T) (schedule_unit T)) in *.
  assert (Htp2 : t <> p2) by (intros ->; apply Ht2; by left).
  unfold _validate_parent. cbv beta iota zeta.
  destruct fuel as [|f]; [simpl in Hf2; lia|].
  assert (Hchk :
    (check_circular_dependency (S f) t p2 RChildren;;;
     check_circular_dependency (S f) t p2 RDepends) h = Ok (tt, h)).
  { rewrite (bind_ok _ _ _ _ _
               (check_circular_dependency_ok _ _ _ _ _
                  (reaches_children_leaf f h t T p2 HT Hleaf Htp2))).
    by apply check_circular_dependency_ok. }
  rewrite (bind_ok _ _ _ _ _ Hchk).
  rewrite (bind_ok _ _ _ _ _ (get_task_ok _ _ _ HT)). rewrite Hpar.
  unfold bind at 1. unfold ret at 1.
  set (h3 := bump_schedule s (p2 :: l2) h).
  unfold bind at 1.
  rewrite (bind_ok _ _ _ _ _ (get_task_ok _ _ _ HP2)).
  assert (HP2l : is_leaf P2 = false) by (unfold is_leaf; by rewrite HP2c).
  rewrite HP2l.
  rewrite (schedule_seconds_augmented cfg L _ (S f) h t T p2 l2 Z.add s);
    [|done..].
  fold h3.
  rewrite (total_logged_seconds_augmented_last cfg L (S f) h3 t T p2 l2
             Z.add lg lg);
    [|try done..]; cycle 1.
  { unfold h3, bump_schedule. by rewrite foldr_alter_notin. }
  { eapply is_chain_ext; [|exact Hc2]. intros k. unfold h3.
    by rewrite bump_schedule_parent. }
  { by apply logged_ready_bump_schedule. }
  done.
Qed.

Lemma new_parent_block_plan fuel h p2 l2 P2 t T :
  h !! p2 = Some P2 -> is_container P2 = true ->
  h !! t = Some T -> t <> p2 ->
  is_chain h p2 l2 -> NoDup (p2 :: l2) -> (length l2 < fuel)%nat ->
  exists h',
    (c <- _validate_children cfg L fuel now p2 t;;
     P <- get_task p2;;
     modify_task p2 (set_children (children P ++ [c]))) h = Ok (tt, h')
    /\ (forall k, h' !! k ≫= _schedule_seconds
                  = h !! k ≫= _schedule_seconds
                  /\ h' !! k ≫= _total_logged_seconds
                     = h !! k ≫= _total_logged_seconds)
    /\ (forall k, k ∉ p2 :: l2 -> h' !! k = h !! k)
    /\ (forall k, k <> p2 -> plan_eq (h !! k) (h' !! k))
    /\ (exists Pf, h' !! p2 = Some Pf
                   /\ children Pf = children P2 ++ [t]
                   /\ time_logs Pf = time_logs P2
                   /\ schedule_timing Pf = schedule_timing P2
                   /\ schedule_unit Pf = schedule_unit P2).
Proof.
  intros HP2 HP2c HT Htp Hch Hnd Hfuel.
  set (h1 := <[p2 := set_resources [] P2]> h).
  assert (HT1 : h1 !! t = Some T).
  { unfold h1. by rewrite lookup_insert_ne. }
  assert (Hch1 : is_chain h1 p2 l2).
  { eapply is_chain_ext; [|exact Hch]. intros k. unfold h1.
    destruct (decide (k = p2)) as [->|Hne].
    - by rewrite lookup_insert_eq, HP2.
    - by rewrite lookup_insert_ne. }
  destruct (_expand_dates_expands now (p2 :: l2) fuel Hnd ltac:(simpl; lia)
              h1 (_start T) (_end T) Hch1)
    as (h2 & Hrun & Hf & Hout).
  simpl in Hrun.
  destruct (date_frame_lookup h1 h2 p2 _ Hf (lookup_insert_eq _ _ _))
    as (P2' & HP2' & He).
  exists (<[p2 := set_children (children P2' ++ [t]) P2']> h2).
  pose proof (erase_dates_fields _ _ He) as (_ & Hchild' & Hss' & Hls' & _).
  pose proof (erase_dates_plan _ _ He) as (_ & Htl' & Hti' & Hu').
  simpl in Hchild', Hss', Hls', Htl', Hti', Hu'.
  split.
  { assert (Hvc : _validate_children cfg L fuel now p2 t h = Ok (t, h2)).
    { unfold _validate_children. cbv zeta.
      rewrite (bind_ok _ _ _ _ _ (modify_task_ok _ _ _ _ HP2)).
      fold h1.
      rewrite (bind_ok _ _ _ _ _
                 (get_task_ok h1 p2 _ (lookup_insert_eq _ _ _))).
      unfold is_leaf.
      change (is_container (set_resources [] P2)) with (is_container P2).
      rewrite HP2c. simpl negb. cbv iota.
      unfold bind at 1. unfold ret at 1.
      rewrite (bind_ok _ _ _ _ _ (get_task_ok _ _ _ HT1)).
      by rewrite (bind_ok _ _ _ _ _ Hrun). }
    rewrite (bind_ok _ _ _ _ _ Hvc).
    rewrite (bind_ok _ _ _ _ _ (get_task_ok _ _ _ HP2')).
    by apply modify_task_ok. }
  split.
  { intros k. destruct (decide (k = p2)) as [->|Hne].
    - rewrite lookup_insert_eq, HP2. simpl. by rewrite Hss', Hls'.
    - rewrite lookup_insert_ne by done.
      pose proof (erase_dates_caches _ _ (Hf k)) as Hc.
      unfold h1 in Hc. by rewrite lookup_insert_ne in Hc. }
  split.
  { intros k Hk. rewrite lookup_insert_ne by (intros ->; apply Hk; by left).
    rewrite Hout by done. unfold h1.
    rewrite lookup_insert_ne; [done|]. intros ->. apply Hk. by left. }
  split.
  { intros k Hk. rewrite lookup_insert_ne by done.
    pose proof (plan_eq_erase_dates _ _ (eq_sym (Hf k))) as Hp.
    unfold h1 in Hp. by rewrite lookup_insert_ne in Hp. }
  eexists. split; [by rewrite lookup_insert_eq|]. simpl.
  by rewrite Hchild', Htl', Hti', Hu'.
Qed.

End AttachFacts.

Lemma foldr_add_pair_snoc (F : nat -> Z * Z) cs t :
  foldr (fun c acc => add_pair (F c) acc) (0, 0) (cs ++ [t])
  = add_pair (foldr (fun c acc => add_pair (F c) acc) (0, 0) cs) (F t).
Proof.
  induction cs as [|c cs IH]; simpl.
  - unfold add_pair. simpl. destruct (F t). simpl. f_equal; lia.
  - rewrite IH. unfold add_pair. simpl. f_equal; lia.
Qed.

Lemma leaf_outside_chain h t T p l :
  linked h -> h !! t = Some T -> is_container T = false ->
  forall P, h !! p = Some P -> is_container P = true -> is_chain h p l ->
  t ∉ p :: l.
Proof.
  intros Hlink HT Hleaf P HP HPc Hch Hin.
  apply elem_of_cons in Hin as [->|Hin]; [congruence|].
  destruct (chain_pred_exists h l p t Hch Hin) as (x & X & _ & HX & Hp).
  destruct (Hlink t T HT) as [_ Hiff].
  assert (x ∈ children T) as Hx by (apply Hiff; eauto).
  apply is_container_false_children in Hleaf. rewrite Hleaf in Hx.
  by apply elem_of_nil in Hx.
Qed.

(** X28: [task.parent = p] for a leaf without parent and a container
    [p] appends the leaf to the children of [p] and keeps the caches of
    [p] and its ancestors in step with the tree: when their cached
    schedule seconds and logged seconds are those of their subtrees
    before, they are those of their subtrees in the new store. *)
Theorem attach_leaf_keeps_caches_fresh :
  forall cfg L rk now fuel f h t T p l P,
    tree_ok rk h -> linked h ->
    h !! t = Some T -> is_container T = false -> parent T = None ->
    (forall i, i ∈ time_logs T -> is_Some (L !! i)) ->
    h !! p = Some P -> is_container P = true -> is_chain h p l ->
    schedule_ready h (p :: l) -> logged_ready h (p :: l) ->
    reaches fuel RDepends h t p = Ok false ->
    (length l < fuel)%nat ->
    (forall a, a ∈ p :: l -> (rk a < f)%nat) ->
    schedule_fresh cfg L f h (p :: l) -> logged_fresh cfg L f h (p :: l) ->
    exists h',
      parent_set cfg L fuel now t (Some p) h = Ok (tt, h')
      /\ (parent <$> h' !! t) = Some (Some p)
      /\ (children <$> h' !! p) = Some (children P ++ [t])
      /\ schedule_fresh cfg L f h' (p :: l)
      /\ logged_fresh cfg L f h' (p :: l).
Proof.
  intros cfg L rk now fuel f h t T p l P Htree Hlink HT Hleaf Hpar Hlogs HP
         HPc Hch Hsr Hlr Hdep Hfuel Hrk Hsf Hlf.
  pose proof (leaf_outside_chain h t T p l Hlink HT Hleaf P HP HPc Hch)
    as Ht.
  pose proof (is_chain_NoDup _ _ _ Hch) as Hnd.
  pose proof Hnd as Hnd'. apply NoDup_cons in Hnd' as [Hpl Hndl].
  assert (Htp : t <> p) by (intros ->; apply Ht; by left).
  set (lg := logs_seconds L (time_logs T)).
  set (s := to_seconds cfg (schedule_timing T) (schedule_unit T)).
  assert (Hsum : forall h' : Heap,
             sum_time_logs L (time_logs T) 0 h' = Ok (lg, h')).
  { intros h'. by rewrite (sum_time_logs_value L (time_logs T) Hlogs 0 h'). }
  set (h2 := bump_logged lg (p :: l) (bump_schedule s (p :: l) h)).
  assert (Hlook : forall k, k ∉ p :: l -> h2 !! k = h !! k).
  { intros k Hk. unfold h2, bump_logged, bump_schedule.
    by rewrite !foldr_alter_notin. }
  assert (HT2 : h2 !! t = Some T) by (by rewrite Hlook).
  assert (Hplan2 : forall k, plan_eq (h !! k) (h2 !! k)).
  { intros k. unfold h2.
    apply (plan_eq_trans _ (bump_schedule s (p :: l) h !! k)).
    - by apply plan_eq_bump_schedule.
    - by apply plan_eq_bump_logged. }
  set (P2b := add_logged lg (add_schedule s P)).
  assert (HP2b : h2 !! p = Some P2b).
  { unfold h2, bump_logged, bump_schedule.
    rewrite !foldr_alter_in by (done || by left). by rewrite HP. }
  assert (Hch2 : is_chain h2 p l).
  { eapply is_chain_ext; [|exact Hch]. intros k. unfold h2.
    by rewrite bump_logged_parent, bump_schedule_parent. }
  destruct (new_parent_block_plan cfg L now fuel h2 p l P2b t T HP2b HPc HT2
              Htp Hch2 Hnd Hfuel)
    as (h3 & Hblock & Hcache & Hout & Hplan3 & (Pf & HPf & HPfc & _)).
  change (children P2b) with (children P) in HPfc.
  assert (HT3 : h3 !! t = Some T) by (by rewrite Hout).
  set (hF := <[t := set_parent (Some p) T]> h3).
  assert (Hrun : parent_set cfg L fuel now t (Some p) h = Ok (tt, hF)).
  { unfold parent_set.
    rewrite (bind_ok _ _ _ _ _
               (validate_parent_attaches cfg L fuel h t T p l P lg
                  HT Hleaf Hpar Hsum Hch Hnd Ht HP HPc Hsr Hlr Hdep Hfuel)).
    fold s. fold h2.
    rewrite (bind_ok _ _ _ _ _ (get_task_ok _ _ _ HT2)). rewrite Hpar.
    destruct (decide (None = Some p)) as [|_]; [done|].
    unfold bind at 1. unfold bind at 1. unfold ret at 1.
    rewrite Hblock. by apply modify_task_ok. }
  set (d := (lg, s)).
  assert (HplanF : forall k, k ∉ p :: l -> plan_eq (h !! k) (hF !! k)).
  { intros k Hk. unfold hF. destruct (decide (k = t)) as [->|Hkt].
    - rewrite lookup_insert_eq, HT. done.
    - rewrite lookup_insert_ne by done. rewrite Hout by done.
      rewrite Hlook by done. apply plan_eq_refl. }
  destruct (Hlink p P HP) as [Hndc Hiff].
  assert (Hchild_out : forall c, c ∈ children P -> c ∉ p :: l).
  { intros c Hc Hin. apply Hiff in Hc as (C & HC & HCp).
    apply Hpl. by apply (chain_parent_in h l p c C p). }
  assert (Hshift : forall a, a ∈ p :: l -> (rk a < f)%nat ->
             subtree_seconds cfg L f hF a
             = add_pair (subtree_seconds cfg L f h a) d).
  { apply (subtree_seconds_above cfg L L rk h hF p l Htree Hlink Hch
             HplanF ltac:(done) d).
    - intros f0 Hf0. destruct f0 as [|f1]; [lia|]. simpl.
      unfold hF. rewrite lookup_insert_ne by done. rewrite HPf, HP.
      assert (is_container Pf = true) as ->.
      { unfold is_container. rewrite HPfc. rewrite length_app. simpl.
        by destruct (length (children P)). }
      rewrite HPc, HPfc. fold hF. rewrite foldr_add_pair_snoc.
      rewrite (foldr_add_pair_ext (subtree_seconds cfg L f1 hF)
                 (subtree_seconds cfg L f1 h)).
      + f_equal.
        rewrite (subtree_seconds_outside cfg L L h hF p l Hlink Hch
                   HplanF ltac:(done) f1 t Ht).
        assert (f1 <> 0)%nat as Hf1.
        { unfold is_container in HPc.
          destruct (children P) as [|c cs] eqn:Hcs; [done|].
          destruct (Htree p P HP c) as [_ Hlt]; [rewrite Hcs; by left|].
          lia. }
        destruct f1 as [|f2]; [done|]. simpl. by rewrite HT, Hleaf.
      + intros c Hc.
        apply (subtree_seconds_outside cfg L L h hF p l Hlink Hch
                 HplanF ltac:(done)).
        by apply Hchild_out.
    - intros a Ha. unfold hF.
      rewrite lookup_insert_ne by (intros ->; apply Ht; by right).
      pose proof (Hplan3 a ltac:(by intros ->)) as Hpa.
      pose proof (Hplan2 a) as Hpb.
      unfold plan_eq in Hpa, Hpb.
      destruct (h !! a), (h2 !! a), (h3 !! a); try done. simpl.
      destruct Hpa as (Hq1 & _). destruct Hpb as (Hq2 & _). congruence. }
  exists hF. split; [exact Hrun|].
  split; [unfold hF; by rewrite lookup_insert_eq|].
  split.
  { unfold hF. rewrite lookup_insert_ne by done. rewrite HPf. simpl.
    by rewrite HPfc. }
  split.
  - intros a Ha. rewrite (Hshift a Ha (Hrk a Ha)). simpl.
    unfold schedule_cache, hF.
    rewrite lookup_insert_ne by (intros ->; done).
    rewrite (proj1 (Hcache a)). unfold h2.
    rewrite bump_logged_lookup by done.
    rewrite bump_schedule_lookup by done. rewrite !decide_True by done.
    pose proof (Hsf a Ha) as Hc. unfold schedule_cache in Hc.
    destruct (h !! a) as [A|]; [|done]. simpl in *. rewrite Hc. done.
  - intros a Ha. rewrite (Hshift a Ha (Hrk a Ha)). simpl.
    unfold logged_cache, hF.
    rewrite lookup_insert_ne by (intros ->; done).
    rewrite (proj2 (Hcache a)). unfold h2.
    rewrite bump_logged_lookup by done.
    rewrite bump_schedule_lookup by done. rewrite !decide_True by done.
    pose proof (Hlf a Ha) as Hc. unfold logged_cache in Hc.
    destruct (h !! a) as [A|]; [|done]. simpl in *. rewrite Hc. done.
Qed.

Lemma grown_tree_ok : tree_ok (fun k => 5 - k)%nat grown_tree.
Proof.
  intros t T HT c Hc. unfold grown_tree in HT. lookup_cases HT;
    simpl in Hc; elem_cases Hc; (split; [by eexists | simpl; lia]).
Qed.

Lemma grown_tree_linked : linked grown_tree.
Proof.
  intros a A HA. unfold grown_tree in HA. lookup_cases HA; simpl.
  - split; [no_dup|]. intros c. split.
    + intros Hc. elem_cases Hc. by eexists.
    + intros (C & HC & Hp). unfold grown_tree in HC.
      lookup_cases HC; simpl in Hp; try done. by left.
  - split; [no_dup|]. intros c. split.
    + intros Hc. elem_cases Hc. by eexists.
    + intros (C & HC & Hp). unfold grown_tree in HC.
      lookup_cases HC; simpl in Hp; try done. by left.
  - split; [no_dup|]. intros c. split.
    + intros Hc. by apply elem_of_nil in Hc.
    + intros (C & HC & Hp). unfold grown_tree in HC.
      lookup_cases HC; simpl in Hp; done.
  - split; [no_dup|]. intros c. split.
    + intros Hc. by apply elem_of_nil in Hc.
    + intros (C & HC & Hp). unfold grown_tree in HC.
      lookup_cases HC; simpl in Hp; done.
Qed.

Lemma attach_leaf_keeps_caches_fresh_witness :
  exists h',
    parent_set example_cfg ∅ 5 0 4 (Some 2%nat) grown_tree = Ok (tt, h')
    /\ (parent <$> h' !! 4%nat) = Some (Some 2%nat)
    /\ (children <$> h' !! 2%nat) = Some [3%nat; 4%nat]
    /\ schedule_fresh example_cfg ∅ 5 h' [2%nat; 1%nat]
    /\ logged_fresh example_cfg ∅ 5 h' [2%nat; 1%nat].
Proof.
  apply (attach_leaf_keeps_caches_fresh example_cfg ∅
           (fun k => 5 - k)%nat 0 5 5 grown_tree 4
           (leaf_task None [] 1 UHour) 2 [1%nat]
           (container_task (Some 1%nat) [3%nat] 36000 0)
           grown_tree_ok grown_tree_linked eq_refl eq_refl eq_refl).
  - intros i Hi. by apply elem_of_nil in Hi.
  - reflexivity.
  - reflexivity.
  - simpl. split; [by eexists|]. by eexists.
  - apply Forall_cons. split.
    { eexists _, _. split; [reflexivity|]. split; [reflexivity|].
      split; [reflexivity|]. lia. }
    apply Forall_cons. split; [|apply Forall_nil_2].
    eexists _, _. split; [reflexivity|]. split; [reflexivity|].
    split; [reflexivity|]. lia.
  - apply Forall_cons. split.
    { eexists _, _. split; [reflexivity|]. split; reflexivity. }
    apply Forall_cons. split; [|apply Forall_nil_2].
    eexists _, _. split; [reflexivity|]. split; reflexivity.
  - reflexivity.
  - simpl. lia.
  - intros a Ha. elem_cases Ha; simpl; lia.
  - intros a Ha. elem_cases Ha; reflexivity.
  - intros a Ha. elem_cases Ha; reflexivity.
Defined.

